(* ===== verification/_CoqProject ===== *)
-Q . S2P
Prelude.v
RustStr.v
RustNet.v
IdValidation.v
StringEnum.v
Identifiers.v
Json.v
EventTypes.v
EventContents.v
RoomVersions.v
EventAuth.v
EventAuthSpec.v
EventAuthRules.v
StateRes.v
StateResSplit.v
StateResGraph.v
StateResSort.v
StateResPower.v
StateResMainline.v
StateResResolve.v
StateResSpec.v
StateResOrder.v
CanonicalJson.v
SigningKeys.v
Signing.v
SigningSpec.v
SigningEvents.v
MemberCount.v
PushWords.v
PushWordsSpec.v
PushConditions.v
PushConditionsSpec.v
PushRules.v
PushDefaults.v
PushRulesSpec.v
PushDefaultsSpec.v
Serde.v
PushSerde.v
UrlEncoded.v
UrlEncodedSpec.v
ClientErrors.v
ClientErrorsSpec.v
Uiaa.v
UiaaSpec.v
Events.v
EventEnums.v
EventsSpec.v
EventEnumsSpec.v
Messages.v
MessageReply.v
MessagesSpec.v
Codecs.v
Http.v
Api.v
ApiPaths.v
ApiQuery.v
ApiSpec.v
ApiTypes.v
ClientTypes.v
ClientAccount.v
ClientRooms.v
ClientMedia.v
ClientPush.v
ClientKeys.v
ClientMessages.v
ClientState.v
ClientSync.v
Capabilities.v
ClientLogin.v
ClientSession.v
FederationTypes.v
Federation.v
ServiceApis.v
ApiPlatform.v
Endpoints.v
ApiConversions.v
EndpointsSpec.v
RoomContents.v
OtherContents.v
HttpClient.v
