(* ===== verification/Prelude.v ===== *)
(** * Ruma: a verification library for the Matrix protocol crates

    Ruma is the Rust implementation of the data types and the algorithms of Matrix: identifiers,
    events, the authorization rules of rooms, the resolution of conflicting room states, signed
    JSON, push rules, and the requests of the HTTP APIs. This library models the crates whose
    code decides something, and proves what they promise. It is written for the default build:
    without the features [compat] and [unstable-pre-spec].

    ** Conventions

    - A Rust [str] is the bytes of its UTF-8 encoding, as a [string] of 8-bit [ascii]; slicing
      inside a character is a panic ([RustStr]). Identifiers are the strings they wrap.
    - A function that can fail has the type [outcome E A]: [Ok], [Err] or [Panic]. A function
      that changes an object through [&mut] gives the object back beside its result, also when
      it fails. [m] bound by an arrow is the question mark operator.
    - Machine integers are [Z] with their range written out; casts wrap where the code casts.
    - Ordered maps are [gmap], iterated by key ([btree_iter]); hash maps and sets are [gmap] and
      [gset] with the order of iteration as a parameter ([HashOrder]). The order is a function
      of the content: two maps of equal content are iterated alike within one run, as the code
      cannot rely on. Theorems that compare orders compare two runs.
    - JSON is its syntax tree after parsing, with duplicate keys as in the text ([Json]);
      [serde_json::Value] is the normal form [to_value] of it ([Serde]). Decoders follow what
      [derive(Deserialize)] generates. An HTTP body is the JSON it parses to, if any.
    - Third-party code is a class with the laws that the code relies on, and an instance that
      satisfies them: Unicode tables, the text of JSON, Ed25519, SHA-256 and base64 ([Crypto] in
      [SigningKeys]), glob patterns ([WildMatch]), [js_int], [indexmap], [form_urlencoded].
    - Limits of size of third-party code are not modelled: serde_json stops at 128 levels of
      nesting and at numbers out of range, where [JsonText] reads back all it writes; the crate
      http rejects URIs of more than 65534 bytes, where [HttpCrate] parses all it prints. The
      round trips of messages hold below these limits.
    - Loops that the code runs without an evident bound carry fuel, and running out of it is a
      marker of its own ([OutOfFuel] in [StateRes], [Diverges] in [PushWords]), never an answer.

    ** The parts

    Identifiers. [IdValidation] is the crate ruma-identifiers-validation, a Module for each of
    its files; [Identifiers] has the types and accessors of ruma-identifiers over it, the
    generation of identifiers and the links to matrix.to; [RustNet] is the standard library's
    IPv6 parser, which server names need. [StringEnum] is what the derive macros of
    ruma-serde-macros make of enums of strings; [EventTypes] applies it to the event types.
    Theorems: server names are what the grammar says, with the exceptions found; the parts of
    content URIs, with the length from which the code's 8-bit index wraps.

    Rooms. [EventContents] has the contents in ruma-events that authorization reads, with its
    Module [Membership] for membership changes, [RoomVersions] the rule table of each room
    version. [EventAuth] is ruma-state-res/src/event_auth.rs, function by function
    ([auth_check], [auth_types_for_event] and the checks they call). [EventAuthSpec] states the
    membership rules as an inductive relation, and the rules on power levels as conditions, and
    proves that the code decides them; [EventAuthRules] does this for whole checks.

    State resolution. [StateRes] is ruma-state-res/src/lib.rs; it calls [auth_check] for each
    event it replays. The files [StateResSplit] to [StateResResolve] follow the phases:
    separating the states, the graph of power events, its topological sort, the mainline sort,
    the iterated checks. [StateResSpec] says exactly which event each entry of the result holds:
    the common one, or the last one of the order of all conflicted events that passed; and that
    resolution ends in a store without cycles. [StateResOrder] says that two runs that return,
    with hash maps that iterate differently, give the same state, if the state sets are keyed by
    the types of their events and no member event has two third party invites in view; with two
    invites the outcome depends on the order.
    Fuel: the number of events below an event bounds every chain the loops follow, so a fuel
    that exceeds the rank of the store is enough ([resolve_terminates] gives the bound).

    Signatures. [CanonicalJson] is the canonical form of ruma-serde; [SigningKeys] and [Signing]
    are ruma-signatures: key documents, [sign_json], [verify_json], [content_hash],
    [reference_hash], [hash_and_sign_event], [verify_event] and [redact]. [SigningSpec] and
    [SigningEvents] prove that what is signed verifies, that what verifies is signed by every
    server that has to, and that redaction is idempotent and keeps the reference hash.

    Push notifications. [MemberCount], [PushWords], [PushConditions], [PushRules], [PushDefaults]
    and [PushSerde] are ruma-common/src/push.rs and the files below push/; the word search ends
    and finds exactly the matches at word boundaries, rulesets keep one rule per ID, and the
    search gives the first rule by priority that applies; an iteration gives every rule in turn.

    Errors and forms. [UrlEncoded] is the form encoding of ruma-serde, [ClientErrors] the errors
    of ruma-client-api with their hand-written visitor, [Uiaa] the user-interactive
    authentication; each has a file of theorems on what is read back of what was written, and on
    what is not.

    The HTTP APIs. [Codecs] is what serde derives for a type, as one object: how a value is
    written, how it is read, and which values come back ([Lawful] is the promise that they do,
    with an instance for each combinator). [Http] has the third-party crates behind HTTP
    messages; [Api] is ruma-api and ruma-api-macros: an endpoint is the data of one invocation
    of [ruma_api!], and the four conversions are what the macro generates from it. [ApiPaths],
    [ApiQuery] and [ApiSpec] prove, for every endpoint of lawful fields ([LawfulEndpoint]), that
    requests and responses are received as they were sent and where the access token goes, and,
    for every endpoint that the macro accepts, what its checks give: the segments of the path
    that is sent, and no body in a GET request.
    [ApiTypes], [ClientTypes] and [FederationTypes] are the shared types. The files
    [ClientAccount] to [ClientSession], [Federation] and [ServiceApis] have a Module for each
    endpoint of ruma-client-api, ruma-federation-api, ruma-identity-service-api,
    ruma-appservice-api and ruma-push-gateway-api, with the instance that it is lawful;
    [ClientState] has the two requests that are converted by hand, and [Capabilities] and
    [ClientLogin] the types with a serde of their own. [Endpoints] lists all endpoints of each
    API. [EndpointsSpec] proves for all of them that messages make the round trip, which
    requests a server cannot route, and which paths make the generated code panic;
    [ApiConversions] that a transaction of events becomes the sync response with those
    timelines, and what is never received. [ApiPlatform] instantiates the third-party crates for
    the examples. Modules of features that are off by default (backup, knocking, cross-signing
    uploads) are modelled as if the feature were on.

    The client. [HttpClient] is ruma-client: the client with its access token, what it sends and
    what it makes of the answer, logging in, registering, and the stream of syncs, over an HTTP
    client with a network as parameters; calls that overlap are steps of a relation. With a
    server that answers a sync as the protocol says, the stream loses no event and repeats none.

    Events. [Events] is what the macros of ruma-events-macros generate for the event structs,
    [EventEnums] the enums over the room events, for any family of contents with the traits of
    [derive(EventContent)]; [EventsSpec] and [EventEnumsSpec] prove that events are read back in
    the variant they are of, and which fields redaction leaves, given that the contents are read
    back. [RoomContents] has the contents of all message and state events and discharges that
    for them: what [room_event_round_trip] says holds of the enums as the crate declares them,
    and [redact_AnyRoomEvent_spec] that the redaction of an event struct and the redaction of
    its JSON by ruma-signatures ([Signing]) keep the same entries.
    [OtherContents] has the contents of account data, ephemeral, presence and to-device events
    with key verification, the enums over these kinds, the content enums, and PDUs.

    Messages. [Messages] is room/message.rs: message types, relations and their serde,
    [MessageReply] the constructors of replies with the plain and HTML fallbacks; [MessagesSpec]
    and [MessageReply] prove the round trip and that the reply is found again under its quote.

    Shared: this file has the outcome monad, the tactics and the lemmas on lists, options and
    maps; [Json] and [Serde] the decoders, encoders and their lemmas. Each component's file of
    definitions requires the files of the components it calls; its theorems are in the files
    named Spec, Rules or after the phase they treat.

    ** Not modelled

    Two endpoints of the server-server API (publicRooms by GET, which flattens a map into a
    query struct, and send_knock, whose fields are whole events), the constructors and Init
    structs that fill in defaults, the accessors of the event enums that copy one field, the
    struct of decrypted Olm events and the order of events, the bindings of hyper, isahc and
    reqwest, and error texts. The parsing of the macros' own input is left out: the macros are
    modelled by what they generate. Contents that exist with the feature unstable-pre-spec only
    are modelled where their shape is their own, and are in no enum. *)

From stdpp Require Export base tactics list gmap strings sorting sets fin_maps countable.
From Stdlib Require Export ZArith Lia.

(** Concatenation of literals computes. *)
#[global] Arguments String.append !_ _ / : simpl nomatch.

(** ** Results of Rust functions

    [Ok] and [Err] are Rust's [Result]; [Panic] is the third way a call can end: a failed
    [unwrap] or [expect], an out-of-range slice. *)

Inductive outcome (E A : Type) : Type :=
  | Ok (a : A)
  | Err (e : E)
  | Panic.

Arguments Ok {E A} a.
Arguments Err {E A} e.
Arguments Panic {E A}.

#[export] Instance outcome_ret {E} : MRet (outcome E) := λ A a, Ok a.

#[export] Instance outcome_bind {E} : MBind (outcome E) := λ A B f m,
  match m with
  | Ok a => f a
  | Err e => Err e
  | Panic => Panic
  end.

#[export] Instance outcome_fmap {E} : FMap (outcome E) := λ A B f m,
  match m with
  | Ok a => Ok (f a)
  | Err e => Err e
  | Panic => Panic
  end.

#[export] Instance outcome_eq_dec {E A} `{EqDecision E, EqDecision A} :
  EqDecision (outcome E A).
Proof. solve_decision. Defined.

(** [Option::unwrap] and [Option::expect]. *)
Definition unwrap {E A} (o : option A) : outcome E A :=
  match o with Some a => Ok a | None => Panic end.

(** [Option::ok_or] and [Option::ok_or_else]. *)
Definition ok_or {E A} (e : E) (o : option A) : outcome E A :=
  match o with Some a => Ok a | None => Err e end.

(** [Result::ok]: the error is dropped. A panic is not an error value: callers use [ok] on
    pure results only, where no panic arises. *)
Definition ok {E A} (m : outcome E A) : option A :=
  match m with Ok a => Some a | _ => None end.

(** [for x in l { ... }] whose body threads a state and may leave with an error. *)
Fixpoint for_each {E A S} (f : S → A → outcome E S) (s : S) (l : list A) : outcome E S :=
  match l with
  | [] => Ok s
  | x :: l => f s x ≫= λ s', for_each f s' l
  end.

(** ** Tactics *)

(** Case analysis on the head match of a hypothesis or of the goal, with the equations that
    follow from it. *)
Ltac case_match_simpl :=
  repeat (case_match; simplify_eq/=).

(** Inversion of a successful monadic step in a hypothesis. *)
Ltac inv_bind H :=
  lazymatch type of H with
  | mbind ?f ?m = _ =>
      let a := fresh "a" in let Hm := fresh "Hm" in
      destruct m as [a|?|] eqn:Hm; simpl in H; [|discriminate H..]
  | ?f <$> ?m = _ =>
      let a := fresh "a" in let Hm := fresh "Hm" in
      destruct m as [a|?|] eqn:Hm; simpl in H; [|discriminate H..]
  end.

(** A closed decidable proposition, by evaluation. *)
Ltac decide_it := apply (bool_decide_unpack _); vm_compute; exact I.

(** Boolean connectives to propositions and back, everywhere. *)
Ltac bool_to_prop :=
  repeat match goal with
  | H : _ && _ = true |- _ => apply andb_true_iff in H as [? ?]
  | H : _ || _ = false |- _ => apply orb_false_iff in H as [? ?]
  | H : negb _ = true |- _ => apply negb_true_iff in H
  | H : negb _ = false |- _ => apply negb_false_iff in H
  | H : bool_decide _ = true |- _ => apply bool_decide_eq_true in H
  | H : bool_decide _ = false |- _ => apply bool_decide_eq_false in H
  end.

Create HintDb ruma discriminated.
Create Rewrite HintDb ruma.

(** ** Lemmas about lists *)

(** Two predicates that agree on a list filter it alike. *)
Lemma list_filter_ext_in {A} (P Q : A → Prop) `{∀ x, Decision (P x), ∀ x, Decision (Q x)} (l : list A) :
  (∀ x, x ∈ l → P x ↔ Q x) → filter P l = filter Q l.
Proof.
  induction l as [|x l IH]; intros Heq; [done|]. rewrite !filter_cons.
  rewrite IH by (intros; apply Heq; by right).
  rewrite (decide_ext (P x) (Q x)) by (apply Heq; by left). done.
Qed.

Lemma list_filter_all {A} (P : A → Prop) `{∀ x, Decision (P x)} (l : list A) :
  (∀ x, x ∈ l → P x) → filter P l = l.
Proof.
  induction l as [|x l IH]; intros Hl; [done|].
  rewrite filter_cons, decide_True by (apply Hl; by left). by rewrite IH by (intros; apply Hl; by right).
Qed.

Lemma list_filter_none {A} (P : A → Prop) `{∀ x, Decision (P x)} (l : list A) :
  (∀ x, x ∈ l → ¬ P x) → filter P l = [].
Proof.
  induction l as [|x l IH]; intros Hl; [done|].
  rewrite filter_cons, decide_False by (apply Hl; by left). apply IH. intros; apply Hl; by right.
Qed.

(** ** Lemmas about outcomes *)

Lemma bind_Ok {E A B} (m : outcome E A) (f : A → outcome E B) b :
  m ≫= f = Ok b ↔ ∃ a, m = Ok a ∧ f a = Ok b.
Proof. destruct m; simpl; naive_solver. Qed.

(** Two continuations that agree on the result. *)
Lemma bind_ext_Ok {E A B} (m : outcome E A) (f g : A → outcome E B) :
  (∀ a, m = Ok a → f a = g a) → m ≫= f = m ≫= g.
Proof. destruct m; simpl; auto. Qed.

Lemma fmap_Ok {E A B} (m : outcome E A) (f : A → B) b :
  f <$> m = Ok b ↔ ∃ a, m = Ok a ∧ b = f a.
Proof. destruct m; simpl; naive_solver. Qed.

Lemma unwrap_Ok {E A} (o : option A) (a : A) : unwrap (E:=E) o = Ok a ↔ o = Some a.
Proof. destruct o; simpl; naive_solver. Qed.

Lemma ok_or_Ok {E A} (e : E) (o : option A) (a : A) : ok_or e o = Ok a ↔ o = Some a.
Proof. destruct o; simpl; naive_solver. Qed.

Lemma ok_Some {E A} (m : outcome E A) a : ok m = Some a ↔ m = Ok a.
Proof. destruct m; simpl; naive_solver. Qed.

(** A result that is there, for examples whose results are too large to write down. *)
Lemma ok_default {E A} (m : outcome E A) d :
  bool_decide (is_Some (ok m)) = true → m = Ok (default d (ok m)).
Proof. rewrite bool_decide_eq_true. destruct m; simpl; [done|by intros [? [=]]..]. Qed.

(** An invariant of the loop body is an invariant of the loop. *)
Lemma for_each_inv {E A S} (I : S → Prop) (f : S → A → outcome E S) l s s' :
  (∀ s x s', x ∈ l → I s → f s x = Ok s' → I s') →
  I s → for_each f s l = Ok s' → I s'.
Proof.
  revert s. induction l as [|x l IH]; intros s Hf Hs Hl; simplify_eq/=; [done|].
  apply bind_Ok in Hl as (s1 & H1 & H2).
  eapply (IH s1); [|eapply Hf; [by left|exact Hs|exact H1]|done].
  intros; eapply Hf; [by right|..]; done.
Qed.

(** A relation between the list consumed so far and the state. *)
Lemma for_each_inv_prefix {E A S} (I : list A → S → Prop) (f : S → A → outcome E S) l s s' :
  (∀ done s x s', I done s → f s x = Ok s' → I (done ++ [x]) s') →
  I [] s → for_each f s l = Ok s' → I l s'.
Proof.
  intros Hf. change l with ([] ++ l) at 2. generalize (@nil A) as pre. revert s.
  induction l as [|x l IH]; intros s pre Hs Hl; simplify_eq/=.
  { by rewrite app_nil_r. }
  apply bind_Ok in Hl as (s1 & H1 & H2).
  replace (pre ++ x :: l) with ((pre ++ [x]) ++ l) by by rewrite <- (assoc_L (++)).
  eapply IH; eauto.
Qed.

(** A loop whose body always succeeds under the invariant succeeds. *)
Lemma for_each_total {E A S} (I : list A → S → Prop) (f : S → A → outcome E S) l s :
  (∀ done s x, x ∈ l → I done s → ∃ s', f s x = Ok s' ∧ I (done ++ [x]) s') →
  I [] s → ∃ s', for_each f s l = Ok s' ∧ I l s'.
Proof.
  intros Hf. change l with ([] ++ l) at 2. generalize (@nil A) as pre. revert s.
  induction l as [|x l IH]; intros s pre Hs; simpl.
  { exists s. by rewrite app_nil_r. }
  destruct (Hf pre s x) as (s' & -> & Hs'); [by left|done|]. simpl.
  replace (pre ++ x :: l) with ((pre ++ [x]) ++ l) by by rewrite <- (assoc_L (++)).
  apply IH; [|done]. intros. apply Hf; [by right|done].
Qed.

Lemma for_each_ext {E A S} (f g : S → A → outcome E S) s l :
  (∀ s a, f s a = g s a) → for_each f s l = for_each g s l.
Proof.
  intros Hfg. revert s. induction l as [|a l IH]; intros s; simpl; [done|].
  rewrite Hfg. destruct (g s a); simpl; auto.
Qed.

Lemma for_each_app {E A S} (f : S → A → outcome E S) s l1 l2 :
  for_each f s (l1 ++ l2) = for_each f s l1 ≫= λ s', for_each f s' l2.
Proof.
  revert s. induction l1 as [|x l1 IH]; intros s; simpl; [done|].
  destruct (f s x); simpl; [apply IH|done|done].
Qed.

#[export] Hint Rewrite @bind_Ok @fmap_Ok @unwrap_Ok @ok_or_Ok @ok_Some : ruma.

(** ** The iteration order of hashed collections

    The standard library leaves the iteration order of [HashMap] and [HashSet] unspecified.
    The model takes the order as a parameter: any function that lists each entry once. It is a
    function of the content, while the seeds of two maps of one run differ; what depends on the
    order is stated for two runs under two orders. *)

Class HashOrder := {
  hash_iter : ∀ {K} `{Countable K} {V}, gmap K V → list (K * V);
  hash_iter_perm : ∀ {K} `{Countable K} {V} (m : gmap K V),
    hash_iter m ≡ₚ map_to_list m;
  hset_iter : ∀ {K} `{Countable K}, gset K → list K;
  hset_iter_perm : ∀ {K} `{Countable K} (s : gset K), hset_iter s ≡ₚ elements s
}.

(** Two orders used by the examples. *)
Definition map_order : HashOrder := {|
  hash_iter := λ K _ _ V m, map_to_list m;
  hash_iter_perm := λ K _ _ V m, Permutation_refl _;
  hset_iter := λ K _ _ s, elements s;
  hset_iter_perm := λ K _ _ s, Permutation_refl _
|}.

Definition reverse_order : HashOrder := {|
  hash_iter := λ K _ _ V m, reverse (map_to_list m);
  hash_iter_perm := λ K _ _ V m, reverse_Permutation _;
  hset_iter := λ K _ _ s, reverse (elements s);
  hset_iter_perm := λ K _ _ s, reverse_Permutation _
|}.

Section hash_order.
Context `{HashOrder} `{Countable K}.

Lemma elem_of_hash_iter {V} (m : gmap K V) k v : (k, v) ∈ hash_iter m ↔ m !! k = Some v.
Proof. rewrite hash_iter_perm. apply elem_of_map_to_list. Qed.

Lemma elem_of_hset_iter (s : gset K) k : k ∈ hset_iter s ↔ k ∈ s.
Proof. rewrite hset_iter_perm. apply elem_of_elements. Qed.

Lemma NoDup_hset_iter (s : gset K) : NoDup (hset_iter s).
Proof. rewrite hset_iter_perm. apply NoDup_elements. Qed.

Lemma NoDup_hash_iter_fst {V} (m : gmap K V) : NoDup (hash_iter m).*1.
Proof. rewrite hash_iter_perm. apply NoDup_fst_map_to_list. Qed.
End hash_order.

(** ** Ordered maps

    A [BTreeMap<String, _>] is a [gmap] too; its iteration is by key. *)

Definition key_le {A} (a b : string * A) : Prop := String.leb a.1 b.1 = true.
#[export] Instance key_le_dec {A} : RelDecision (key_le (A:=A)).
Proof. intros a b. unfold key_le. apply _. Defined.
#[export] Instance key_le_total {A} : Total (key_le (A:=A)).
Proof.
  intros a b. unfold key_le.
  destruct (String.leb_total a.1 b.1) as [-> | ->]; auto.
Qed.

Definition btree_iter {A} (m : gmap string A) : list (string * A) :=
  merge_sort key_le (map_to_list m).

Lemma btree_iter_perm {A} (m : gmap string A) : btree_iter m ≡ₚ map_to_list m.
Proof. apply merge_sort_Permutation. Qed.

Lemma elem_of_btree_iter {A} (m : gmap string A) k v : (k, v) ∈ btree_iter m ↔ m !! k = Some v.
Proof. rewrite btree_iter_perm. apply elem_of_map_to_list. Qed.

Lemma NoDup_btree_iter_fst {A} (m : gmap string A) : NoDup (btree_iter m).*1.
Proof. rewrite btree_iter_perm. apply NoDup_fst_map_to_list. Qed.

Lemma list_to_map_btree_iter {A} (m : gmap string A) : list_to_map (btree_iter m) = m.
Proof.
  rewrite <- (list_to_map_to_list m) at 2. apply list_to_map_proper; [|apply btree_iter_perm].
  apply NoDup_btree_iter_fst.
Qed.

(** ** js_int's [Int] and [UInt]

    [Int] holds the integers a 64-bit float represents exactly; the model keeps them in [Z]
    with the range check of the constructor written out. *)

Definition MAX_SAFE_INT : Z := 2 ^ 53 - 1.
Definition int_in_range (z : Z) : bool := (- MAX_SAFE_INT <=? z)%Z && (z <=? MAX_SAFE_INT)%Z.
Definition uint_in_range (z : Z) : bool := (0 <=? z)%Z && (z <=? MAX_SAFE_INT)%Z.
