(* ===== verification/RustStr.v ===== *)
(** * Rust's [str] and number parsing

    A Rust [str] is modelled by the bytes of its UTF-8 encoding, as a [string] of 8-bit
    [ascii]. The functions below are the standard library operations the crates call; byte
    indices are [nat]. Slicing at an index that is not a character boundary panics in Rust and
    is [None] here. *)

From S2P Require Import Prelude.
From Stdlib Require Import Ascii NArith Decimal DecimalString DecimalPos DecimalN.
Open Scope string_scope.
Open Scope nat_scope.

(** ** Bytes *)

Definition byte (a : ascii) : N := N_of_ascii a.

Definition byte_in (lo hi : ascii) (b : ascii) : bool :=
  (byte lo <=? byte b)%N && (byte b <=? byte hi)%N.

Definition is_ascii_digit (b : ascii) : bool := byte_in "0" "9" b.
Definition is_ascii_lowercase (b : ascii) : bool := byte_in "a" "z" b.
Definition is_ascii_uppercase (b : ascii) : bool := byte_in "A" "Z" b.
Definition is_ascii_alphanumeric (b : ascii) : bool :=
  is_ascii_digit b || is_ascii_lowercase b || is_ascii_uppercase b.
Definition is_ascii_byte (b : ascii) : bool := (byte b <? 128)%N.

(** A continuation byte of a multi-byte character, [0b10xxxxxx]. *)
Definition is_continuation (b : ascii) : bool := (128 <=? byte b)%N && (byte b <? 192)%N.

Definition byte_is (c b : ascii) : bool := bool_decide (b = c).

(** ** Strings *)

Definition str_len (s : string) : nat := String.length s.

(** [s.find(c)] for an ASCII character [c]: the index of its first occurrence. *)
Fixpoint str_find (c : ascii) (s : string) : option nat :=
  match s with
  | EmptyString => None
  | String b s => if byte_is c b then Some 0 else S <$> str_find c s
  end.

(** The first [n] bytes and the bytes from [n] on. *)
Fixpoint str_take (n : nat) (s : string) : string :=
  match n, s with
  | S n, String b s => String b (str_take n s)
  | _, _ => ""
  end.

Fixpoint str_drop (n : nat) (s : string) : string :=
  match n, s with
  | S n, String _ s => str_drop n s
  | O, _ => s
  | _, EmptyString => ""
  end.

#[global] Arguments str_take !_ _ / : simpl nomatch.
#[global] Arguments str_drop !_ _ / : simpl nomatch.

(** [s.bytes().nth(n)] *)
Fixpoint str_nth (n : nat) (s : string) : option ascii :=
  match n, s with
  | _, EmptyString => None
  | O, String b _ => Some b
  | S n, String _ s => str_nth n s
  end.

Definition is_char_boundary (s : string) (n : nat) : bool :=
  if decide (n = 0) then true
  else match str_nth n s with
       | None => bool_decide (n = str_len s)
       | Some b => negb (is_continuation b)
       end.

(** [&s[n..]], [&s[..n]] and [&s[lo..hi]]. *)
Definition slice_from (n : nat) (s : string) : option string :=
  if is_char_boundary s n then Some (str_drop n s) else None.
Definition slice_to (n : nat) (s : string) : option string :=
  if is_char_boundary s n then Some (str_take n s) else None.
Definition slice (lo hi : nat) (s : string) : option string :=
  if bool_decide (lo ≤ hi) && is_char_boundary s lo && is_char_boundary s hi
  then Some (str_take (hi - lo) (str_drop lo s)) else None.

Definition starts_with_char (c : ascii) (s : string) : bool :=
  match s with String b _ => byte_is c b | EmptyString => false end.

(** [s.starts_with(p)] and [s.strip_prefix(p)]. *)
Definition starts_with (p s : string) : bool := String.prefix p s.
Definition strip_prefix (p s : string) : option string :=
  if starts_with p s then Some (str_drop (str_len p) s) else None.

(** [s.bytes().all(p)] *)
Fixpoint bytes_all (p : ascii → bool) (s : string) : bool :=
  match s with
  | EmptyString => true
  | String b s => p b && bytes_all p s
  end.

(** [s.bytes().any(p)] *)
Definition bytes_any (p : ascii → bool) (s : string) : bool :=
  negb (bytes_all (λ b, negb (p b)) s).

Definition str_contains (c : ascii) (s : string) : bool :=
  bool_decide (is_Some (str_find c s)).

(** [s.chars().count()]: the bytes that start a character. *)
Fixpoint chars_count (s : string) : nat :=
  match s with
  | EmptyString => 0
  | String b s => (if is_continuation b then 0 else 1) + chars_count s
  end.

(** [s.split(c)] for an ASCII character [c]. *)
Fixpoint str_split (c : ascii) (s : string) : list string :=
  match s with
  | EmptyString => [""]
  | String b s =>
      if byte_is c b then "" :: str_split c s
      else match str_split c s with
           | [] => [String b ""]
           | w :: ws => String b w :: ws
           end
  end.

(** [Ord for str]: lexicographic on bytes. *)
Definition str_le (s t : string) : Prop := String.leb s t = true.
#[export] Instance str_le_dec s t : Decision (str_le s t).
Proof. unfold str_le. apply _. Defined.

(** ** Numbers *)

(** [uN::from_str]: an optional [+], then at least one decimal digit, and no overflow. *)
Definition parse_unsigned (max : N) (s : string) : option N :=
  let digits := match s with
                | String "+" (String _ _ as r) => r
                | _ => s
                end in
  n ← N.of_uint <$> NilZero.uint_of_string digits;
  if (n <=? max)%N then Some n else None.

Definition U16_MAX : N := 65535.
Definition U64_MAX : N := 18446744073709551615.

Definition N_to_string (n : N) : string := NilZero.string_of_uint (N.to_uint n).

(** ** Lemmas *)

Lemma str_len_app s t : str_len (s +:+ t) = str_len s + str_len t.
Proof. unfold str_len. induction s; simpl; [done|]. by rewrite IHs. Qed.

Lemma str_app_nil_r s : s +:+ "" = s.
Proof. induction s; simpl; [done|]. by rewrite IHs. Qed.

Lemma str_app_assoc s t u : (s +:+ t) +:+ u = s +:+ (t +:+ u).
Proof. induction s; simpl; [done|]. by rewrite IHs. Qed.

Lemma str_take_drop n s : str_take n s +:+ str_drop n s = s.
Proof. revert n. induction s; intros [|n]; simpl; f_equal; auto. Qed.

Lemma str_take_app s t : str_take (str_len s) (s +:+ t) = s.
Proof. unfold str_len. induction s; simpl; [by destruct t|]. by rewrite IHs. Qed.

Lemma str_drop_app s t : str_drop (str_len s) (s +:+ t) = t.
Proof. unfold str_len. induction s; simpl; [done|]. by rewrite IHs. Qed.

Lemma str_len_take n s : n ≤ str_len s → str_len (str_take n s) = n.
Proof.
  unfold str_len. revert n. induction s; intros [|n] ?; simpl in *; try lia.
  rewrite IHs; lia.
Qed.

Lemma str_len_drop n s : str_len (str_drop n s) = str_len s - n.
Proof. unfold str_len. revert n. induction s; intros [|n]; simpl; auto. Qed.

Lemma str_drop_len s : str_drop (str_len s) s = "".
Proof. unfold str_len. induction s; simpl; auto. Qed.

Lemma str_take_len s : str_take (str_len s) s = s.
Proof. unfold str_len. induction s; simpl; by rewrite ?IHs. Qed.

Lemma bytes_all_app p s t : bytes_all p (s +:+ t) = bytes_all p s && bytes_all p t.
Proof. induction s; simpl; [done|]. by rewrite IHs, andb_assoc. Qed.

Lemma bytes_all_impl (p q : ascii → bool) s :
  (∀ b, p b = true → q b = true) → bytes_all p s = true → bytes_all q s = true.
Proof.
  intros Hpq. induction s; simpl; [done|]. intros [Hp Hs]%andb_true_iff.
  by rewrite Hpq, IHs.
Qed.

Lemma bytes_any_false p s : bytes_any p s = false ↔ bytes_all (λ b, negb (p b)) s = true.
Proof. unfold bytes_any. by rewrite negb_false_iff. Qed.

Lemma byte_is_true c b : byte_is c b = true ↔ b = c.
Proof. apply bool_decide_eq_true. Qed.

(** [find] splits the string at the first occurrence. *)
Lemma str_find_Some c s i :
  str_find c s = Some i ↔
  s = str_take i s +:+ String c (str_drop (S i) s) ∧ i < str_len s ∧
  bytes_all (λ b, negb (byte_is c b)) (str_take i s) = true.
Proof.
  unfold str_len. revert i. induction s as [|b s IH]; intros i; simpl.
  { split; [done|]. intros (? & ? & ?). lia. }
  destruct (byte_is c b) eqn:Hb.
  - apply byte_is_true in Hb as ->. split.
    + intros [= <-]. simpl. split_and!; [done|lia|done].
    + intros (H1 & H2 & H3). destruct i; [done|]. simpl in *.
      by rewrite (proj2 (byte_is_true c c)) in H3.
  - split.
    + intros (j & Hj & ->)%fmap_Some. apply IH in Hj as (H1 & H2 & H3).
      simpl. rewrite <- H1, Hb. split_and!; [done|lia|done].
    + intros (H1 & H2 & H3). destruct i as [|i]; simpl in *.
      { injection H1 as ->. by rewrite (proj2 (byte_is_true c c)) in Hb. }
      rewrite (proj2 (IH i)); [done|]. rewrite Hb in H3. simpl in H3.
      injection H1 as H1. split_and!; [done|lia|done].
Qed.

Lemma str_find_None c s :
  str_find c s = None ↔ bytes_all (λ b, negb (byte_is c b)) s = true.
Proof.
  induction s as [|b s IH]; simpl; [done|].
  destruct (byte_is c b); simpl; [naive_solver|]. rewrite fmap_None. done.
Qed.

(** The first occurrence in a concatenation whose first part avoids the character. *)
Lemma str_find_app c s t :
  bytes_all (λ b, negb (byte_is c b)) s = true →
  str_find c (s +:+ String c t) = Some (str_len s).
Proof.
  unfold str_len. induction s as [|b s IH]; simpl; intros H.
  { by rewrite (proj2 (byte_is_true c c)). }
  apply andb_true_iff in H as [Hb Hs]. apply negb_true_iff in Hb. rewrite Hb.
  by rewrite IH.
Qed.

Lemma str_find_lt c s i : str_find c s = Some i → i < str_len s.
Proof. intros H. by apply str_find_Some in H as (?&?&?). Qed.

Lemma str_nth_app_r s t n : str_nth (str_len s + n) (s +:+ t) = str_nth n t.
Proof. unfold str_len. induction s; simpl; [by destruct n, t|]. done. Qed.

Lemma str_nth_app_len s t : str_nth (str_len s) (s +:+ t) = str_nth 0 t.
Proof. rewrite <- (Nat.add_0_r (str_len s)). apply str_nth_app_r. Qed.

Lemma str_drop_app_r s t n : str_drop (str_len s + n) (s +:+ t) = str_drop n t.
Proof. unfold str_len. induction s; simpl; done. Qed.

Lemma str_nth_Some n s : n < str_len s → is_Some (str_nth n s).
Proof.
  unfold str_len. revert n. induction s as [|b s IH]; intros [|n] ?; simpl in *; try lia; eauto.
  apply IH. lia.
Qed.

Lemma str_nth_None n s : str_len s ≤ n → str_nth n s = None.
Proof.
  unfold str_len. revert n. induction s as [|b s IH]; intros [|n] ?; simpl in *; try lia; auto.
  apply IH. lia.
Qed.

Lemma str_nth_find c s i : str_find c s = Some i → str_nth i s = Some c.
Proof.
  intros (H1 & H2 & _)%str_find_Some. rewrite H1.
  rewrite <- (Nat.add_0_r i) at 1.
  replace i with (str_len (str_take i s)) at 1 by (apply str_len_take; lia).
  by rewrite str_nth_app_r.
Qed.

(** An ASCII byte is a character boundary. In well-formed UTF-8 so is the byte after it. *)
Lemma is_char_boundary_ascii s n b :
  str_nth n s = Some b → is_ascii_byte b = true → is_char_boundary s n = true.
Proof.
  unfold is_char_boundary, is_ascii_byte, is_continuation. intros -> Hb.
  case_decide; [done|]. apply negb_true_iff, andb_false_iff. left.
  apply N.ltb_lt in Hb. apply N.leb_gt. lia.
Qed.

Lemma starts_with_char_app c s : starts_with_char c s = true → ∃ t, s = String c t.
Proof. destruct s; simpl; [done|]. intros ->%byte_is_true. eauto. Qed.

Lemma prefix_app p s : String.prefix p s = true ↔ ∃ t, s = p +:+ t.
Proof.
  revert s. induction p as [|b p IH]; intros s; simpl.
  { split; eauto. by destruct s. }
  destruct s as [|b' s]; simpl; [naive_solver|].
  destruct (ascii_dec b b') as [->|Hne]; [|naive_solver].
  rewrite IH. naive_solver.
Qed.

Lemma strip_prefix_Some p s t : strip_prefix p s = Some t ↔ s = p +:+ t.
Proof.
  unfold strip_prefix, starts_with. split.
  - destruct (String.prefix p s) eqn:Hp; [|done]. intros [= <-].
    apply prefix_app in Hp as [u ->]. by rewrite str_drop_app.
  - intros ->. rewrite (proj2 (prefix_app p _)); eauto. by rewrite str_drop_app.
Qed.

(** Decimal printing and parsing are inverse. *)
Lemma N_to_string_not_plus n r : N_to_string n ≠ String "+" r.
Proof.
  unfold N_to_string, NilZero.string_of_uint.
  destruct (N.to_uint n); simpl; congruence.
Qed.

(** A printed number starts with a digit, and its digits are read back. *)
Lemma N_to_string_digit n : ∃ c r, N_to_string n = String c r ∧ is_ascii_digit c = true.
Proof.
  unfold N_to_string. assert (N.to_uint n ≠ Decimal.Nil) as Hne.
  { destruct n; [done|]. apply DecimalPos.Unsigned.to_uint_nonnil. }
  destruct (N.to_uint n); [done|..]; simpl; by eauto.
Qed.

Lemma uint_of_N_to_string n : N.of_uint <$> NilZero.uint_of_string (N_to_string n) = Some n.
Proof.
  unfold N_to_string. rewrite NilZero.usu.
  - simpl. by rewrite DecimalN.Unsigned.of_to.
  - destruct n; [done|]. apply DecimalPos.Unsigned.to_uint_nonnil.
Qed.

Lemma parse_unsigned_N_to_string max n :
  (n <= max)%N → parse_unsigned max (N_to_string n) = Some n.
Proof.
  intros Hle. unfold parse_unsigned.
  assert ((match N_to_string n with
           | String "+" (String _ _ as r) => r | _ => N_to_string n end) = N_to_string n) as ->.
  { pose proof (N_to_string_not_plus n) as Hp. destruct (N_to_string n) as [|c s]; [done|].
    destruct (decide (c = "+"%char)) as [->|Hc]; [by destruct (Hp s)|].
    repeat (case_match; try done). }
  rewrite uint_of_N_to_string. simpl. by rewrite (proj2 (N.leb_le n max)).
Qed.

(** Splitting and joining. *)
Lemma str_split_no_sep c s :
  bytes_all (λ b, negb (byte_is c b)) s = true → str_split c s = [s].
Proof.
  induction s as [|b s IH]; simpl; [done|]. intros [Hb Hs]%andb_true_iff.
  apply negb_true_iff in Hb. by rewrite Hb, IH.
Qed.

Lemma str_split_sep c s t :
  bytes_all (λ b, negb (byte_is c b)) s = true →
  str_split c (s +:+ String c t) = s :: str_split c t.
Proof.
  induction s as [|b s IH]; simpl.
  { intros _. by rewrite (proj2 (byte_is_true c c)). }
  intros [Hb Hs]%andb_true_iff. apply negb_true_iff in Hb. by rewrite Hb, IH.
Qed.

Lemma str_split_not_nil c s : str_split c s ≠ [].
Proof. destruct s as [|b s]; simpl; [done|]. destruct (byte_is c b); [done|]. by destruct (str_split c s). Qed.

(** Joining the pieces gives the string back. *)
Fixpoint str_join (c : ascii) (pieces : list string) : string :=
  match pieces with
  | [] => ""
  | [p] => p
  | p :: pieces => p +:+ String c (str_join c pieces)
  end.

Lemma str_join_split c s : str_join c (str_split c s) = s.
Proof.
  induction s as [|b s IH]; simpl; [done|].
  pose proof (str_split_not_nil c s) as Hne. destruct (byte_is c b) eqn:Hb.
  - apply byte_is_true in Hb as ->. destruct (str_split c s) as [|w ws]; [done|].
    simpl in *. by rewrite IH.
  - destruct (str_split c s) as [|w [|w' ws]]; [done|..]; simpl in *; by rewrite <- IH.
Qed.

(** ** Characters

    The characters of a string, each as its UTF-8 encoding. *)

Definition starts_with_continuation (c : string) : bool :=
  match c with String b _ => is_continuation b | EmptyString => false end.

Fixpoint str_chars (s : string) : list string :=
  match s with
  | EmptyString => []
  | String b s =>
      match str_chars s with
      | c :: cs => if starts_with_continuation c then String b c :: cs
                   else String b "" :: c :: cs
      | [] => [String b ""]
      end
  end.

Definition ascii_to_lower (b : ascii) : ascii :=
  if is_ascii_uppercase b then ascii_of_N (byte b + 32) else b.

Fixpoint str_map (f : ascii → ascii) (s : string) : string :=
  match s with
  | EmptyString => EmptyString
  | String b s => String (f b) (str_map f s)
  end.

(** The Unicode tables of the standard library, which the model does not restate: what
    [char::is_alphanumeric] says of a non-ASCII character, and [str::to_lowercase], known here
    on ASCII strings only. *)
Class Unicode := {
  uni_alphanumeric : string → bool;
  to_lowercase : string → string;
  to_lowercase_ascii : ∀ s, bytes_all is_ascii_byte s = true →
    to_lowercase s = str_map ascii_to_lower s
}.

(** Tables that know ASCII only, for the examples. *)
Definition ascii_unicode : Unicode := {|
  uni_alphanumeric := λ _, false;
  to_lowercase := str_map ascii_to_lower;
  to_lowercase_ascii := λ s _, eq_refl
|}.

(** [char::is_alphanumeric] *)
Definition char_is_alphanumeric `{Unicode} (c : string) : bool :=
  match c with
  | String b "" => if is_ascii_byte b then is_ascii_alphanumeric b else uni_alphanumeric c
  | _ => uni_alphanumeric c
  end.

(** [s.chars().all(p)] *)
Definition chars_all (p : string → bool) (s : string) : bool := forallb p (str_chars s).
