(* ===== verification/RustNet.v ===== *)
(** * [Ipv6Addr::from_str]

    The standard library's address parser, as a recogniser: each reader takes the rest of the
    input and returns what remains after a successful read. *)

From S2P Require Import Prelude RustStr.
From Stdlib Require Import Ascii NArith.
Open Scope string_scope.
Open Scope nat_scope.

Definition reader := string → option string.

(** [char::to_digit] for the two radixes used. *)
Definition to_digit (radix : N) (b : ascii) : option N :=
  let v := if is_ascii_digit b then Some (byte b - 48)%N
           else if byte_in "a" "f" b then Some (byte b - 87)%N
           else if byte_in "A" "F" b then Some (byte b - 55)%N
           else None in
  match v with
  | Some d => if (d <? radix)%N then Some d else None
  | None => None
  end.

(** The digits at the front of the input. *)
Fixpoint take_digits (radix : N) (s : string) : list N * string :=
  match s with
  | EmptyString => ([], s)
  | String b r =>
      match to_digit radix b with
      | Some d => let '(ds, rest) := take_digits radix r in (d :: ds, rest)
      | None => ([], s)
      end
  end.

Definition digits_value (radix : N) (ds : list N) : N :=
  fold_left (λ acc d, acc * radix + d)%N ds 0%N.

(** [Parser::read_number]: at most [max_digits] digits, a value of at most [max], and no
    leading zero before another digit unless [allow_zero_prefix]. *)
Definition read_number (radix max : N) (max_digits : nat) (allow_zero_prefix : bool) : reader :=
  λ s,
    let '(ds, rest) := take_digits radix s in
    let has_leading_zero := starts_with_char "0" s in
    if decide (ds = []) then None
    else if bool_decide (max_digits < length ds) then None
    else if (max <? digits_value radix ds)%N then None
    else if negb allow_zero_prefix && has_leading_zero && bool_decide (1 < length ds) then None
    else Some rest.

Definition read_given_char (c : ascii) : reader := λ s,
  match s with String b r => if byte_is c b then Some r else None | EmptyString => None end.

(** [Parser::read_separator]: a separator before every item but the first. *)
Definition read_separator (sep : ascii) (index : nat) (inner : reader) : reader := λ s,
  match index with
  | O => inner s
  | S _ => read_given_char sep s ≫= inner
  end.

Definition read_ipv4_addr : reader := λ s,
  let octet := read_number 10 255 3 false in
  s1 ← read_separator "." 0 octet s;
  s2 ← read_separator "." 1 octet s1;
  s3 ← read_separator "." 2 octet s2;
  read_separator "." 3 octet s3.

(** [read_groups]: how many 16-bit groups were read, whether the last two came from an IPv4
    tail, and the rest of the input. [n] groups are left of the slots. *)
Fixpoint read_groups (n i : nat) (s : string) : nat * bool * string :=
  match n with
  | O => (i, false, s)
  | S n' =>
      match (if decide (n' = 0) then None else read_separator ":" i read_ipv4_addr s) with
      | Some rest => (i + 2, true, rest)
      | None =>
          match read_separator ":" i (read_number 16 65535 4 true) s with
          | Some rest => read_groups n' (S i) rest
          | None => (i, false, s)
          end
      end
  end.

Definition read_ipv6_addr : reader := λ s,
  let '(head_size, head_ipv4, s1) := read_groups 8 0 s in
  if decide (head_size = 8) then Some s1
  else if head_ipv4 then None
  else
    s2 ← read_given_char ":" s1;
    s3 ← read_given_char ":" s2;
    let '(_, _, s4) := read_groups (8 - (head_size + 1)) 0 s3 in
    Some s4.

(** [s.parse::<Ipv6Addr>().is_ok()]: the whole input is read. *)
Definition is_ipv6_addr (s : string) : bool := bool_decide (read_ipv6_addr s = Some "").

Example is_ipv6_addr_examples :
  map is_ipv6_addr ["::1"; "1234:5678::abcd"; "::ffff:192.0.2.128"; "1:2:3:4:5:6:7:8";
                    "1::2::3"; "12345::"; "::256.0.0.1"; "::01.2.3.4"; ""; "1:2:3:4:5:6:7"]
  = [true; true; true; true; false; false; false; false; false; false].
Proof. vm_compute. reflexivity. Qed.
