(* ===== verification/IdValidation.v ===== *)
(** * Identifier validation

    The crate [ruma-identifiers-validation]: one [validate] function per identifier, in the
    default build (without the [compat] feature). Each source file is a module here. An index
    that follows an ASCII delimiter is a character boundary of any Rust string, so those
    slices are [str_take] and [str_drop]; slices at a computed index go through [slice_from]
    and may panic. *)

From S2P Require Import Prelude RustStr RustNet.
From Stdlib Require Import Ascii NArith.
Open Scope string_scope.
Open Scope nat_scope.

(** ** Errors *)

Inductive MxcUriError :=
  | WrongSchema
  | MissingSlash
  | MediaIdMalformed
  | ServerNameMalformed.

Inductive Error :=
  | EmptyClientSecret
  | EmptyRoomName
  | EmptyRoomVersionId
  | InvalidCharacters
  | InvalidKeyAlgorithm
  | InvalidKeyVersion
  | InvalidMxcUri (e : MxcUriError)
  | InvalidServerName
  | MaximumLengthExceeded
  | MissingDelimiter
  | MissingLeadingSigil.

#[export] Instance MxcUriError_eq_dec : EqDecision MxcUriError.
Proof. solve_decision. Defined.
#[export] Instance Error_eq_dec : EqDecision Error.
Proof. solve_decision. Defined.

(** The messages, by which errors travel into other crates. *)
Definition MxcUriError_display (e : MxcUriError) : string :=
  match e with
  | WrongSchema => "MXC URI schema was not mxc://"
  | MissingSlash => "MXC URI does not have first slash"
  | MediaIdMalformed => "Media Identifier malformed, invalid characters"
  | ServerNameMalformed => "invalid Server Name"
  end.

Definition Error_display (e : Error) : string :=
  match e with
  | EmptyClientSecret => "client secret is empty"
  | EmptyRoomName => "room name is empty"
  | EmptyRoomVersionId => "room version ID is empty"
  | InvalidCharacters => "localpart contains invalid characters"
  | InvalidKeyAlgorithm => "invalid key algorithm specified"
  | InvalidKeyVersion => "key ID version contains invalid characters"
  | InvalidMxcUri e => "invalid Matrix Content URI: " +:+ MxcUriError_display e
  | InvalidServerName => "server name is not a valid IP address or domain name"
  | MaximumLengthExceeded => "ID exceeds 255 bytes"
  | MissingDelimiter => "required colon is missing"
  | MissingLeadingSigil => "leading sigil is incorrect or missing"
  end.

(** ** server_name.rs *)

Definition is_hostname_byte (b : ascii) : bool :=
  is_ascii_alphanumeric b || byte_is "-" b || byte_is "." b.

(** The index where the host ends: after the bracket, at the first colon, or at the end. *)
Definition end_of_host (server_name : string) : outcome Error nat :=
  if starts_with_char "[" server_name then
    match str_find "]" server_name with
    | None => Err InvalidServerName
    | Some end_of_ipv6 =>
        if is_ipv6_addr (str_take (end_of_ipv6 - 1) (str_drop 1 server_name))
        then Ok (end_of_ipv6 + 1)
        else Err InvalidServerName
    end
  else
    let end_of_host := default (str_len server_name) (str_find ":" server_name) in
    if bytes_any (λ b, negb (is_hostname_byte b)) (str_take end_of_host server_name)
    then Err InvalidServerName
    else Ok end_of_host.

(** The hostname is followed by nothing or by ":port". *)
Definition check_port (server_name : string) (end_of_host : nat) : outcome Error () :=
  if decide (str_len server_name = end_of_host) then Ok ()
  else
    c ← unwrap (str_nth end_of_host server_name);
    if negb (byte_is ":" c)
       || bool_decide (parse_unsigned U16_MAX (str_drop (end_of_host + 1) server_name) = None)
    then Err InvalidServerName
    else Ok ().

Definition server_name_validate (server_name : string) : outcome Error () :=
  if decide (server_name = "") then Err InvalidServerName
  else
    n ← end_of_host server_name;
    check_port server_name n.

(** ** lib.rs *)

Definition MAX_BYTES : nat := 255.

Definition validate_id (id : string) (valid_sigils : list ascii) : outcome Error () :=
  if bool_decide (MAX_BYTES < str_len id) then Err MaximumLengthExceeded
  else if negb (existsb (λ c, starts_with_char c id) valid_sigils) then Err MissingLeadingSigil
  else Ok ().

Definition parse_id (id : string) (valid_sigils : list ascii) : outcome Error nat :=
  _ ← validate_id id valid_sigils;
  colon_idx ← ok_or MissingDelimiter (str_find ":" id);
  _ ← server_name_validate (str_drop (colon_idx + 1) id);
  Ok colon_idx.

Definition validate_delimited_id (id : string) (valid_sigils : list ascii) :
    outcome Error () :=
  _ ← parse_id id valid_sigils;
  Ok ().

(** ** user_id.rs *)

Definition is_conforming_byte (b : ascii) : bool :=
  is_ascii_digit b || is_ascii_lowercase b || byte_is "-" b || byte_is "." b || byte_is "=" b
  || byte_is "_" b || byte_is "/" b.

Definition localpart_is_fully_conforming (localpart : string) : outcome Error bool :=
  let is_fully_conforming := bytes_all is_conforming_byte localpart in
  if negb is_fully_conforming
     && bytes_any (λ b, (byte b <? 33)%N || byte_is ":" b || (126 <? byte b)%N) localpart
  then Err InvalidCharacters
  else Ok is_fully_conforming.

Definition user_id_validate (s : string) : outcome Error () :=
  colon_idx ← parse_id s ["@"%char];
  let localpart := str_take (colon_idx - 1) (str_drop 1 s) in
  _ ← localpart_is_fully_conforming localpart;
  Ok ().

(** ** room_id.rs, room_alias_id.rs, room_id_or_alias_id.rs, event_id.rs *)

Definition room_id_validate (s : string) : outcome Error () :=
  validate_delimited_id s ["!"%char].

Definition room_alias_id_validate (s : string) : outcome Error () :=
  validate_delimited_id s ["#"%char].

Definition room_id_or_alias_id_validate (s : string) : outcome Error () :=
  validate_delimited_id s ["#"%char; "!"%char].

Definition event_id_validate (s : string) : outcome Error () :=
  if str_contains ":" s then
    _ ← validate_delimited_id s ["$"%char]; Ok ()
  else if negb (starts_with_char "$" s) then Err MissingLeadingSigil
  else Ok ().

(** ** room_version_id.rs, room_name.rs *)

Definition MAX_CODE_POINTS : nat := 32.

Definition room_version_id_validate (s : string) : outcome Error () :=
  if decide (s = "") then Err EmptyRoomVersionId
  else if bool_decide (MAX_CODE_POINTS < chars_count s) then Err MaximumLengthExceeded
  else Ok ().

Definition room_name_validate (value : string) : outcome Error () :=
  if decide (str_len value = 0) then Err EmptyRoomName
  else if bool_decide (1 ≤ str_len value ∧ str_len value ≤ 255) then Ok ()
  else Err MaximumLengthExceeded.

(** ** client_secret.rs, session_id.rs: the same checks *)

Section unicode.
Context `{Unicode}.

Definition is_secret_char (c : string) : bool :=
  char_is_alphanumeric c || bool_decide (c ∈ ["."; "="; "_"; "-"]).

Definition client_secret_validate (s : string) : outcome Error () :=
  if bool_decide (255 < str_len s) then Err MaximumLengthExceeded
  else if negb (chars_all is_secret_char s) then Err InvalidCharacters
  else if decide (s = "") then Err EmptyClientSecret
  else Ok ().

Definition session_id_validate (s : string) : outcome Error () :=
  if bool_decide (255 < str_len s) then Err MaximumLengthExceeded
  else if negb (chars_all is_secret_char s) then Err InvalidCharacters
  else if decide (s = "") then Err EmptyClientSecret
  else Ok ().

(** ** key_id.rs

    [as u8] keeps the low eight bits, and [NonZeroU8::new] refuses zero. *)

Definition as_u8 (n : nat) : nat := n mod 256.
Definition NonZeroU8_new (n : nat) : option nat := if decide (n = 0) then None else Some n.

Definition validate_version (version : string) : outcome Error () :=
  if decide (version = "") then Err EmptyRoomVersionId
  else if negb (chars_all (λ c, char_is_alphanumeric c || bool_decide (c = "_")) version)
  then Err InvalidCharacters
  else Ok ().

Definition key_id_validate (s : string) : outcome Error nat :=
  i ← ok_or MissingDelimiter (str_find ":" s);
  colon_idx ← ok_or InvalidKeyAlgorithm (NonZeroU8_new (as_u8 i));
  version ← unwrap (slice_from (colon_idx + 1) s);
  _ ← validate_version version;
  Ok colon_idx.
End unicode.

(** ** device_key_id.rs *)

Definition device_key_id_validate (s : string) : outcome Error () :=
  colon_idx ← ok_or MissingDelimiter (str_find ":" s);
  if decide (colon_idx = 0) then Err InvalidKeyAlgorithm else Ok ().

(** ** mxc_uri.rs *)

Definition PROTOCOL : string := "mxc://".

Definition is_media_id_byte (b : ascii) : bool :=
  is_ascii_digit b || is_ascii_lowercase b || is_ascii_uppercase b || byte_is "-" b.

Definition mxc_uri_validate (uri : string) : outcome MxcUriError nat :=
  match strip_prefix PROTOCOL uri with
  | None => Err WrongSchema
  | Some uri =>
      match str_find "/" uri with
      | None => Err MissingSlash
      | Some index =>
          let server_name := str_take index uri in
          let media_id := str_drop (index + 1) uri in
          let media_id_is_valid := bytes_all is_media_id_byte media_id in
          if negb media_id_is_valid then Err MediaIdMalformed
          else match server_name_validate server_name with
               | Panic => Panic
               | Err _ => Err ServerNameMalformed
               | Ok _ => unwrap (NonZeroU8_new (as_u8 (index + 6)))
               end
      end
  end.

(** ** What a valid server name is

    The grammar the validator accepts: a host, in brackets when it is an IPv6 address, and an
    optional port. The host may be empty when a port follows. *)

Definition is_hostname (h : string) : Prop := bytes_all is_hostname_byte h = true.
Definition is_port (p : string) : Prop := is_Some (parse_unsigned U16_MAX p).

Inductive ServerNameGrammar : string → Prop :=
  | sn_host h : h ≠ "" → is_hostname h → ServerNameGrammar h
  | sn_host_port h p : is_hostname h → is_port p → ServerNameGrammar (h +:+ ":" +:+ p)
  | sn_ipv6 a : is_ipv6_addr a = true → str_find "]" a = None →
      ServerNameGrammar ("[" +:+ a +:+ "]")
  | sn_ipv6_port a p : is_ipv6_addr a = true → str_find "]" a = None → is_port p →
      ServerNameGrammar ("[" +:+ a +:+ "]:" +:+ p).

(** What follows the host: nothing, or a colon and a port. *)
Definition is_port_suffix (s : string) : Prop := s = "" ∨ ∃ p, s = ":" +:+ p ∧ is_port p.

Lemma check_port_spec host rest :
  check_port (host +:+ rest) (str_len host) = Ok () ↔ is_port_suffix rest.
Proof.
  unfold check_port, is_port_suffix, is_port. rewrite str_len_app.
  rewrite str_nth_app_len, str_drop_app_r.
  destruct rest as [|c r]; simpl.
  { rewrite decide_True by (unfold str_len; simpl; lia). naive_solver. }
  rewrite decide_False by (unfold str_len; simpl; lia).
  destruct (byte_is ":" c) eqn:Hc; simpl.
  - apply byte_is_true in Hc as ->. unfold is_Some.
    destruct (parse_unsigned U16_MAX r) eqn:Hp; simpl; naive_solver.
  - split; [done|]. intros [?|(p & Hp & _)]; [done|]. injection Hp as -> _.
    by rewrite (proj2 (byte_is_true _ _)) in Hc.
Qed.

Lemma check_port_cases host rest :
  check_port (host +:+ rest) (str_len host) = Ok () ∨
  check_port (host +:+ rest) (str_len host) = Err InvalidServerName.
Proof.
  unfold check_port. case_decide as Hd; [by left|].
  rewrite str_len_app in Hd. rewrite str_nth_app_len. destruct rest as [|c r]; [by destruct Hd; unfold str_len; simpl; lia|]. simpl.
  case_match; eauto.
Qed.

(** The host the validator reads is a prefix of its input. *)
Lemma end_of_host_spec s n :
  end_of_host s = Ok n ↔
  ∃ host rest, s = host +:+ rest ∧ n = str_len host ∧
    if starts_with_char "[" s
    then ∃ a, host = "[" +:+ a +:+ "]" ∧ is_ipv6_addr a = true ∧ str_find "]" a = None
    else is_hostname host ∧ n = default (str_len s) (str_find ":" s).
Proof.
  unfold end_of_host. destruct (starts_with_char "[" s) eqn:Hs.
  - apply starts_with_char_app in Hs as [t ->]. simpl. split.
    + destruct (str_find "]" t) as [i|] eqn:Hf; simpl; [|done].
      apply str_find_Some in Hf as (Ht & Hi & Hn). rewrite Nat.sub_0_r.
      destruct (is_ipv6_addr _) eqn:Hv; [|done]. intros [= <-].
      exists ("[" +:+ str_take i t +:+ "]"), (str_drop (S i) t).
      rewrite <- str_find_None in Hn. split_and!.
      * simpl. f_equal. rewrite str_app_assoc. done.
      * unfold str_len; simpl. fold (str_len (str_take i t +:+ "]")).
        rewrite str_len_app, str_len_take by lia. unfold str_len; simpl. lia.
      * eauto.
    + intros (host & rest & Ht & -> & a & -> & Hv & Hf). simpl in Ht. injection Ht as ->.
      rewrite str_app_assoc. simpl. rewrite str_find_app by by apply str_find_None.
      simpl. rewrite Nat.sub_0_r, str_take_app, Hv. unfold str_len; simpl.
      fold (str_len (a +:+ "]")). rewrite str_len_app. unfold str_len; simpl. try (f_equal; lia).
  - set (e := default _ _). assert (e ≤ str_len s) as He.
    { subst e. destruct (str_find _ s) as [i|] eqn:Hf; simpl; [|lia].
      apply str_find_lt in Hf. lia. }
    split.
    + destruct (bytes_any _ _) eqn:Hb; [done|]. intros [= <-].
      exists (str_take e s), (str_drop e s).
      rewrite str_take_drop, str_len_take by done. split_and!; [done..| |done].
      apply bytes_any_false in Hb. eapply bytes_all_impl; [|exact Hb].
      intros b. simpl. by rewrite negb_involutive.
    + intros (host & rest & Hh & Hn & Hb & ->). rewrite Hn, Hh, str_take_app.
      assert (bytes_any (λ b, negb (is_hostname_byte b)) host = false) as ->; [|done].
      apply bytes_any_false. eapply bytes_all_impl; [|exact Hb].
      intros b ->. done.
Qed.

(** A hostname has no colon: the first colon of the name is the end of the host. *)
Lemma hostname_no_colon h : is_hostname h → str_find ":" h = None.
Proof.
  intros Hh. apply str_find_None. eapply bytes_all_impl; [|exact Hh].
  intros b Hb. apply negb_true_iff. destruct (byte_is ":" b) eqn:E; [|done].
  apply byte_is_true in E as ->. vm_compute in Hb. done.
Qed.

Lemma hostname_no_bracket h s :
  is_hostname h → h ≠ "" → starts_with_char "[" (h +:+ s) = false.
Proof.
  destruct h as [|b h]; [done|]. intros [Hb _]%andb_true_iff _. simpl.
  destruct (byte_is "[" b) eqn:E; [|done]. apply byte_is_true in E as ->.
  vm_compute in Hb. done.
Qed.

Lemma server_name_validate_Ok s :
  server_name_validate s = Ok () ↔ ServerNameGrammar s.
Proof.
  unfold server_name_validate. split.
  - case_decide as Hne; [done|]. intros (n & Hn & Hp)%bind_Ok.
    apply end_of_host_spec in Hn as (host & rest & -> & -> & Hhost).
    apply check_port_spec in Hp. case_match eqn:Hb.
    + destruct Hhost as (a & -> & Hv & Hf).
      destruct Hp as [->|(p & -> & Hp)]; rewrite ?str_app_nil_r.
      * by constructor.
      * rewrite str_app_assoc. simpl. rewrite str_app_assoc. by apply sn_ipv6_port.
    + destruct Hhost as [Hh _]. destruct Hp as [->|(p & -> & Hp)].
      * rewrite str_app_nil_r in *. by constructor.
      * by constructor.
  - intros Hg.
    assert (∀ host rest, host +:+ rest = s → s ≠ "" → end_of_host s = Ok (str_len host) →
      is_port_suffix rest →
      (if decide (s = "") then Err InvalidServerName
       else n ← end_of_host s; check_port s n) = Ok ()) as Hgo.
    { intros host rest <- Hne Hhost Hp. rewrite decide_False by done. rewrite Hhost. simpl.
      by apply check_port_spec. }
    destruct Hg as [h Hne Hh|h p Hh Hp|a Hv Hf|a p Hv Hf Hp].
    + apply (Hgo h ""); [apply str_app_nil_r|done| |by left].
      apply end_of_host_spec. exists h, "". rewrite str_app_nil_r.
      pose proof (hostname_no_bracket h "" Hh Hne) as Hb. rewrite str_app_nil_r in Hb.
      rewrite Hb, (hostname_no_colon h Hh). done.
    + apply (Hgo h (":" +:+ p)); [done|by destruct h| |right; eauto].
      apply end_of_host_spec. exists h, (":" +:+ p). split_and!; [done..|].
      change (":" +:+ p) with (String ":" p).
      rewrite str_find_app by by apply str_find_None, hostname_no_colon.
      destruct h as [|b h]; [done|].
      by rewrite (hostname_no_bracket (String b h) (String ":" p)).
    + apply (Hgo ("[" +:+ a +:+ "]") ""); [apply str_app_nil_r|done| |by left].
      apply end_of_host_spec. exists ("[" +:+ a +:+ "]"), "". rewrite str_app_nil_r.
      simpl. split_and!; eauto.
    + apply (Hgo ("[" +:+ a +:+ "]") (":" +:+ p)); [simpl; by rewrite str_app_assoc|done| |right; eauto].
      apply end_of_host_spec. exists ("[" +:+ a +:+ "]"), (":" +:+ p). simpl.
      rewrite str_app_assoc. split_and!; eauto.
Qed.

(** C10: the server name validator accepts exactly the grammar. *)
Theorem server_name_validate_grammar s :
  server_name_validate s = Ok () ↔ ServerNameGrammar s.
Proof. apply server_name_validate_Ok. Qed.

Lemma server_name_validate_no_panic s : server_name_validate s ≠ Panic.
Proof.
  unfold server_name_validate. case_decide; [done|].
  destruct (end_of_host s) as [n| |] eqn:Hn; simpl; [|done|].
  - apply end_of_host_spec in Hn as (host & rest & -> & -> & _).
    by destruct (check_port_cases host rest) as [-> | ->].
  - unfold end_of_host in Hn. by repeat case_match.
Qed.

(** ** Delimited identifiers *)

Lemma validate_id_Ok id sigils :
  validate_id id sigils = Ok () ↔
  str_len id ≤ MAX_BYTES ∧ ∃ c t, c ∈ sigils ∧ id = String c t.
Proof.
  unfold validate_id. case_bool_decide; [split; [done|lia]|].
  destruct (existsb _ sigils) eqn:He; simpl; split; try done.
  - intros _. split; [lia|]. apply existsb_exists in He as (c & Hc & Hs).
    apply starts_with_char_app in Hs as [t ->]. exists c, t. by rewrite list_elem_of_In.
  - intros (_ & c & t & Hc & ->). rewrite (proj2 (existsb_exists _ _)) in He; [done|].
    exists c. rewrite <- list_elem_of_In. split; [done|]. by apply byte_is_true.
Qed.

(** An identifier of the form sigil, localpart, colon, server name. *)
Definition delimited (sigils : list ascii) (id : string) (l sn : string) : Prop :=
  ∃ c, c ∈ sigils ∧ id = String c (l +:+ String ":" sn) ∧
    str_find ":" l = None ∧ str_len id ≤ MAX_BYTES ∧ ServerNameGrammar sn.

Lemma parse_id_Ok id sigils n :
  ":"%char ∉ sigils →
  parse_id id sigils = Ok n ↔ ∃ l sn, delimited sigils id l sn ∧ n = S (str_len l).
Proof.
  intros Hsig. unfold parse_id, delimited. rewrite bind_Ok. split.
  - intros ([] & (Hlen & c & t & Hc & ->)%validate_id_Ok & H).
    apply bind_Ok in H as (i & Hi%ok_or_Ok & H).
    apply bind_Ok in H as ([] & Hsn & [= <-]). simpl in Hi.
    destruct (byte_is ":" c) eqn:E; [by apply byte_is_true in E as ->|].
    apply fmap_Some in Hi as (j & Hj & ->).
    apply str_find_Some in Hj as (Ht & Hjl & Hno). rewrite <- str_find_None in Hno.
    exists (str_take j t), (str_drop (S j) t).
    rewrite str_len_take by lia. split; [|done]. exists c. split_and!; try done.
    + by rewrite Ht at 1.
    + apply server_name_validate_Ok. by rewrite Nat.add_1_r in Hsn.
  - intros (l & sn & (c & Hc & -> & Hl & Hlen & Hsn) & ->).
    exists (). split; [apply validate_id_Ok; eauto|]. simpl.
    destruct (byte_is ":" c) eqn:E; [by apply byte_is_true in E as ->|].
    rewrite str_find_app by by apply str_find_None. simpl.
    rewrite str_drop_app_r. simpl. by rewrite (proj2 (server_name_validate_Ok sn)).
Qed.

Lemma delimited_localpart sigils id l sn :
  delimited sigils id l sn →
  str_find ":" id = Some (S (str_len l)) ∨ ":"%char ∈ sigils.
Proof.
  intros (c & Hc & -> & Hl & _). simpl. destruct (byte_is ":" c) eqn:E.
  { apply byte_is_true in E as ->. by right. }
  left. by rewrite str_find_app by by apply str_find_None.
Qed.

(** The bytes a historical user ID may have in its localpart. *)
Definition is_historical_byte (b : ascii) : bool :=
  (33 <=? byte b)%N && (byte b <=? 126)%N && negb (byte_is ":" b).

Lemma conforming_historical b : is_conforming_byte b = true → is_historical_byte b = true.
Proof.
  destruct b as [b0 b1 b2 b3 b4 b5 b6 b7].
  destruct b0, b1, b2, b3, b4, b5, b6, b7; vm_compute; congruence.
Qed.

Lemma localpart_conforming_Ok l b :
  localpart_is_fully_conforming l = Ok b ↔
  b = bytes_all is_conforming_byte l ∧ bytes_all is_historical_byte l = true.
Proof.
  unfold localpart_is_fully_conforming. set (any := bytes_any _ l).
  assert (any = negb (bytes_all is_historical_byte l)) as ->.
  { unfold any, bytes_any. f_equal. clear. induction l as [|a l IH]; simpl; [done|].
    rewrite IH. f_equal. unfold is_historical_byte.
    rewrite !negb_orb, <- N.leb_antisym, <- N.leb_antisym.
    destruct (33 <=? byte a)%N, (byte a <=? 126)%N, (byte_is ":" a); done. }
  destruct (bytes_all is_conforming_byte l) eqn:Hc; simpl.
  - rewrite (bytes_all_impl _ _ _ conforming_historical Hc). naive_solver.
  - destruct (bytes_all is_historical_byte l); simpl; naive_solver.
Qed.

Lemma user_id_validate_Ok s :
  user_id_validate s = Ok () ↔
  ∃ l sn, delimited ["@"%char] s l sn ∧ bytes_all is_historical_byte l = true.
Proof.
  unfold user_id_validate. rewrite bind_Ok. split.
  - intros (n & (l & sn & Hd & ->)%parse_id_Ok & H); [|decide_it].
    exists l, sn. split; [done|]. destruct Hd as (c & _ & -> & _).
    simpl in H. rewrite Nat.sub_0_r, str_take_app in H.
    by apply bind_Ok in H as (b & [_ ?]%localpart_conforming_Ok & _).
  - intros (l & sn & Hd & Hl). exists (S (str_len l)).
    rewrite parse_id_Ok by decide_it. split; [eauto|].
    destruct Hd as (c & _ & -> & _). simpl. rewrite Nat.sub_0_r, str_take_app.
    apply bind_Ok. exists (bytes_all is_conforming_byte l).
    by rewrite localpart_conforming_Ok.
Qed.

(** A string is accepted as a user ID exactly when it is an at sign, a localpart of
    printable ASCII without a colon, a colon and a valid server name, within 255 bytes. *)
Theorem user_id_validate_spec s :
  user_id_validate s = Ok () ↔
  ∃ l sn, delimited ["@"%char] s l sn ∧ bytes_all is_historical_byte l = true.
Proof. apply user_id_validate_Ok. Qed.

Lemma validate_delimited_id_Ok s sigils :
  ":"%char ∉ sigils →
  validate_delimited_id s sigils = Ok () ↔ ∃ l sn, delimited sigils s l sn.
Proof.
  intros Hs. unfold validate_delimited_id. rewrite bind_Ok. split.
  - intros (n & (l & sn & Hd & _)%parse_id_Ok & _); eauto.
  - intros (l & sn & Hd). exists (S (str_len l)). rewrite parse_id_Ok by done. eauto.
Qed.

(** Room IDs, aliases and room-or-alias IDs are the delimited identifiers with their
    sigils. *)
Theorem validate_delimited_id_spec s sigils :
  ":"%char ∉ sigils →
  validate_delimited_id s sigils = Ok () ↔ ∃ l sn, delimited sigils s l sn.
Proof. apply validate_delimited_id_Ok. Qed.

Theorem validate_delimited_id_spec_witness :
  room_id_validate "!n8f893n9:example.com:8448" = Ok () ∧
  ∃ l sn, delimited ["!"%char] "!n8f893n9:example.com:8448" l sn.
Proof.
  split; [reflexivity|].
  apply (validate_delimited_id_spec "!n8f893n9:example.com:8448" ["!"%char]); [decide_it|reflexivity].
Defined.

Lemma str_contains_true c s : str_contains c s = true ↔ ∃ i, str_find c s = Some i.
Proof. unfold str_contains. by rewrite bool_decide_eq_true. Qed.

Lemma event_id_validate_Ok s :
  event_id_validate s = Ok () ↔
  (∃ l sn, delimited ["$"%char] s l sn) ∨
  (str_find ":" s = None ∧ ∃ t, s = String "$" t).
Proof.
  unfold event_id_validate. destruct (str_contains ":" s) eqn:Hc.
  - apply str_contains_true in Hc as [i Hi]. rewrite bind_Ok. split.
    + intros ([] & Hv & _). left.
      unfold validate_delimited_id in Hv. apply bind_Ok in Hv as (n & Hn & _).
      apply parse_id_Ok in Hn as (l & sn & Hd & _); [eauto|decide_it].
    + intros [(l & sn & Hd)|[? _]]; [|congruence]. exists (). split; [|done].
      unfold validate_delimited_id. apply bind_Ok. exists (S (str_len l)).
      rewrite parse_id_Ok by decide_it. eauto.
  - assert (str_find ":" s = None) as Hf.
    { destruct (str_find ":" s) eqn:E; [|done].
      by rewrite (proj2 (str_contains_true ":" s)) in Hc by eauto. }
    destruct (starts_with_char "$" s) eqn:Hd; simpl; split; try done.
    + intros _. right. split; [done|]. by apply starts_with_char_app.
    + intros [(l & sn & H)|[_ [t ->]]].
      * destruct (delimited_localpart _ _ _ _ H) as [?|Hin]; [congruence|].
        exfalso. revert Hin. decide_it.
      * exfalso. simpl in Hd. by rewrite (proj2 (byte_is_true _ _)) in Hd.
Qed.

(** An event ID is a delimited identifier or any string that starts with a dollar and has
    no colon, whatever its length. *)
Theorem event_id_validate_spec s :
  event_id_validate s = Ok () ↔
  (∃ l sn, delimited ["$"%char] s l sn) ∨
  (str_find ":" s = None ∧ ∃ t, s = String "$" t).
Proof. apply event_id_validate_Ok. Qed.

(** ** Content URIs *)

(** A content URI with a well-formed server name and media ID. *)
Definition mxc_parts (uri sn media : string) : Prop :=
  uri = PROTOCOL +:+ sn +:+ String "/" media ∧ str_find "/" sn = None ∧
  ServerNameGrammar sn ∧ bytes_all is_media_id_byte media = true.

Lemma mxc_uri_validate_cases uri :
  (∃ sn media, mxc_parts uri sn media ∧
      mxc_uri_validate uri = unwrap (NonZeroU8_new (as_u8 (str_len sn + 6)))) ∨
    (¬ (∃ sn media, mxc_parts uri sn media)) ∧ ∃ e, mxc_uri_validate uri = Err e.
Proof.
  unfold mxc_uri_validate, mxc_parts.
  destruct (strip_prefix PROTOCOL uri) as [u|] eqn:Hp.
  2:{ right. split; [|eauto]. intros (sn & m & -> & _).
      by rewrite (proj2 (strip_prefix_Some _ _ (sn +:+ String "/" m))) in Hp. }
  apply strip_prefix_Some in Hp as ->.
  assert (∀ sn m, PROTOCOL +:+ u = PROTOCOL +:+ sn +:+ String "/" m →
    u = sn +:+ String "/" m) as Hinj by (intros ? ? [=]; done).
  destruct (str_find "/" u) as [i|] eqn:Hf.
  2:{ right. split; [|eauto]. intros (sn & m & ->%Hinj & Hsn & _).
      by rewrite str_find_app in Hf by by apply str_find_None. }
  pose proof Hf as (Hu & Hi & Hn)%str_find_Some. rewrite <- str_find_None in Hn.
  rewrite Nat.add_1_r.
  assert (∀ sn m, PROTOCOL +:+ u = PROTOCOL +:+ sn +:+ String "/" m →
    str_find "/" sn = None → str_take i u = sn ∧ str_drop (S i) u = m) as Huniq.
  { intros sn m ->%Hinj Hsn. rewrite str_find_app in Hf by by apply str_find_None.
    injection Hf as <-. rewrite str_take_app, <- Nat.add_1_r, str_drop_app_r. done. }
  destruct (bytes_all is_media_id_byte (str_drop (S i) u)) eqn:Hm; simpl.
  2:{ right. split; [|eauto]. intros (sn & m & Heq & Hsn & _ & Hm').
      destruct (Huniq sn m Heq Hsn) as [_ Hd]. rewrite Hd in Hm. congruence. }
  pose proof (server_name_validate_no_panic (str_take i u)) as Hnp.
  destruct (server_name_validate (str_take i u)) as [[]|e|] eqn:Hs; [..|done].
  - left. exists (str_take i u), (str_drop (S i) u). split_and!; try done.
    + by rewrite Hu at 1.
    + by apply server_name_validate_Ok.
    + by rewrite str_len_take by lia.
  - right. split; [|eauto]. intros (sn & m & Heq & Hsn & Hg & _).
    destruct (Huniq sn m Heq Hsn) as [Ht _]. rewrite Ht in Hs.
    apply server_name_validate_Ok in Hg. congruence.
Qed.

Lemma mxc_parts_inj uri :
  ∀ sn m sn' m', mxc_parts uri sn m → mxc_parts uri sn' m' → sn = sn'.
Proof.
  intros sn m sn' m' (-> & H1 & _) (H & H2 & _). injection H as H.
  assert (str_find "/" (sn +:+ String "/" m) = Some (str_len sn)) as Ha
    by by apply str_find_app, str_find_None.
  assert (str_find "/" (sn' +:+ String "/" m') = Some (str_len sn')) as Hb
    by by apply str_find_app, str_find_None.
  rewrite H in Ha. rewrite Ha in Hb. injection Hb as Hl.
  rewrite <- (str_take_app sn (String "/" m)), <- (str_take_app sn' (String "/" m')).
  by rewrite H, Hl.
Qed.

(** The index a content URI's validator returns is the position of the slash after the
    server name taken modulo 256, and the validator panics when that remainder is zero. *)
Theorem mxc_uri_validate_spec uri n :
  (mxc_uri_validate uri = Ok n ↔
     ∃ sn media, mxc_parts uri sn media ∧ n = (str_len sn + 6) mod 256 ∧ n ≠ 0) ∧
  (mxc_uri_validate uri = Panic ↔
     ∃ sn media, mxc_parts uri sn media ∧ (str_len sn + 6) mod 256 = 0).
Proof.
  pose proof (mxc_uri_validate_cases uri) as Hcases.
  pose proof (mxc_parts_inj uri) as Hdet.
  unfold as_u8, NonZeroU8_new in Hcases.
  destruct Hcases as [(sn & m & Hparts & ->)|[Hno [e ->]]].
  - case_decide as Hz; simpl; split; split; try done.
    + intros (sn' & m' & H' & -> & Hnz). by rewrite (Hdet _ _ _ _ Hparts H') in Hz.
    + eauto.
    + intros [= <-]. eauto.
    + intros (sn' & m' & H' & -> & Hnz). by rewrite (Hdet _ _ _ _ Hparts H').
    + intros (sn' & m' & H' & Hz'). by rewrite (Hdet _ _ _ _ Hparts H') in Hz.
  - split; split; try done; intros (sn & m & H & _); destruct Hno; eauto.
Qed.

(** Below the eight-bit limit the index is the slash itself, so the parts come back. *)
Lemma mxc_index_small uri sn media :
  mxc_parts uri sn media → str_len sn < 250 →
  mxc_uri_validate uri = Ok (str_len sn + 6) ∧
  str_take (str_len sn) (str_drop 6 uri) = sn ∧ str_drop (str_len sn + 6 + 1) uri = media.
Proof.
  intros Hp Hlt. split_and!.
  - pose proof (Nat.mod_small (str_len sn + 6) 256 ltac:(lia)) as Hm.
    destruct (mxc_uri_validate_cases uri) as [(sn' & m' & Hp' & ->)|[[] _]]; [|eauto].
    rewrite <- (mxc_parts_inj uri _ _ _ _ Hp Hp'). unfold as_u8, NonZeroU8_new.
    rewrite Hm. by rewrite decide_False by lia.
  - destruct Hp as (-> & _). simpl. apply str_take_app.
  - destruct Hp as (-> & _). rewrite (Nat.add_comm (str_len sn)), <- Nat.add_assoc. simpl.
    by rewrite str_drop_app_r.
Qed.

(** ** Key IDs *)

Section key_id.
Context `{Unicode}.

(** When the algorithm has between 1 and 255 bytes, a key ID is accepted exactly when the
    version after the colon is, and the index returned is that of the colon; an algorithm of
    256 bytes is refused as if it were empty, because the index is cut to eight bits. *)
Theorem key_id_validate_spec alg version :
  str_find ":" alg = None → starts_with_continuation version = false →
  (0 < str_len alg < 256 →
     key_id_validate (alg +:+ String ":" version) =
     (_ ← validate_version version; Ok (str_len alg))) ∧
  (str_len alg = 256 →
     key_id_validate (alg +:+ String ":" version) = Err InvalidKeyAlgorithm).
Proof.
  intros Ha Hv. unfold key_id_validate. rewrite str_find_app by by apply str_find_None.
  simpl. unfold as_u8, NonZeroU8_new. split.
  - intros Hlen. rewrite Nat.mod_small by lia. rewrite decide_False by lia. simpl.
    unfold slice_from, is_char_boundary. rewrite decide_False by lia.
    rewrite str_nth_app_r, str_drop_app_r, str_len_app. simpl.
    destruct version as [|b v]; simpl in *.
    + by rewrite bool_decide_true by done.
    + by rewrite Hv.
  - intros ->. done.
Qed.
End key_id.

Theorem key_id_validate_spec_witness :
  let _ := ascii_unicode in
  str_find ":" "ed25519" = None ∧ starts_with_continuation "Abc_1" = false ∧
  key_id_validate "ed25519:Abc_1" = Ok 7.
Proof.
  intros u. split_and!; [reflexivity..|].
  destruct (key_id_validate_spec "ed25519" "Abc_1" eq_refl eq_refl) as [Hk _].
  refine (eq_trans (Hk _) eq_refl). split; apply Nat.ltb_lt; reflexivity.
Defined.
