(* ===== verification/StringEnum.v ===== *)
(** * String enums

    The derive macros of [ruma-serde-macros]: an enum whose unit variants stand for fixed
    strings, with one data-carrying variant for every other string. [RenameRule] computes the
    string of a variant from its Rust name; the two expansions are [from] (FromString) and
    [as_ref] (AsRefStr). The class states what the rest of the library relies on. *)

From S2P Require Import Prelude RustStr.
From Stdlib Require Import Ascii NArith.
Open Scope string_scope.
Open Scope nat_scope.

(** ** case.rs *)

Inductive RenameRule :=
  | RenameNone
  | LowerCase
  | Uppercase
  | PascalCase
  | CamelCase
  | SnakeCase
  | ScreamingSnakeCase
  | KebabCase
  | ScreamingKebabCase
  | MatrixErrorCase
  | MatrixSnakeCase
  | MatrixDottedCase.

#[export] Instance RenameRule_eq_dec : EqDecision RenameRule.
Proof. solve_decision. Defined.

Definition ascii_to_upper (b : ascii) : ascii :=
  if is_ascii_lowercase b then ascii_of_N (byte b - 32) else b.
Definition to_ascii_lowercase (s : string) : string := str_map ascii_to_lower s.
Definition to_ascii_uppercase (s : string) : string := str_map ascii_to_upper s.

(** [s.replace('_', c)] *)
Definition replace_underscore (c : ascii) (s : string) : string :=
  str_map (λ b, if byte_is "_" b then c else b) s.

(** The loop over [char_indices]: an underscore before every capital but the first character.
    Rust identifiers of variants are ASCII here. *)
Fixpoint snake_from (i : nat) (variant : string) : string :=
  match variant with
  | EmptyString => ""
  | String ch rest =>
      (if bool_decide (0 < i) && is_ascii_uppercase ch then "_" else "")
        +:+ String (ascii_to_lower ch) (snake_from (S i) rest)
  end.

Definition snake (variant : string) : string := snake_from 0 variant.

Definition apply_to_variant (rule : RenameRule) (variant : string) : string :=
  match rule with
  | RenameNone | PascalCase => variant
  | LowerCase => to_ascii_lowercase variant
  | Uppercase => to_ascii_uppercase variant
  | CamelCase => to_ascii_lowercase (str_take 1 variant) +:+ str_drop 1 variant
  | SnakeCase => snake variant
  | ScreamingSnakeCase => to_ascii_uppercase (snake variant)
  | KebabCase => replace_underscore "-" (snake variant)
  | ScreamingKebabCase => replace_underscore "-" (to_ascii_uppercase (snake variant))
  | MatrixErrorCase => "M_" +:+ to_ascii_uppercase (snake variant)
  | MatrixSnakeCase => "m." +:+ snake variant
  | MatrixDottedCase => "m." +:+ replace_underscore "." (snake variant)
  end.

(** The loop of the [PascalCase] field rule. *)
Fixpoint pascal_from (capitalize : bool) (field : string) : string :=
  match field with
  | EmptyString => ""
  | String ch rest =>
      if byte_is "_" ch then pascal_from true rest
      else if capitalize then String (ascii_to_upper ch) (pascal_from false rest)
      else String ch (pascal_from capitalize rest)
  end.

(** [pascal[..1]] panics on a field that is underscores only. *)
Definition apply_to_field (rule : RenameRule) (field : string) : outcome () string :=
  match rule with
  | RenameNone | LowerCase | SnakeCase => Ok field
  | Uppercase => Ok (to_ascii_uppercase field)
  | PascalCase => Ok (pascal_from true field)
  | CamelCase =>
      let pascal := pascal_from true field in
      if decide (pascal = "") then Panic
      else Ok (to_ascii_lowercase (str_take 1 pascal) +:+ str_drop 1 pascal)
  | ScreamingSnakeCase => Ok (to_ascii_uppercase field)
  | KebabCase => Ok (replace_underscore "-" field)
  | ScreamingKebabCase => Ok (replace_underscore "-" (to_ascii_uppercase field))
  | MatrixErrorCase => Ok ("M_" +:+ to_ascii_uppercase field)
  | MatrixSnakeCase => Ok ("m." +:+ field)
  | MatrixDottedCase => Ok ("m." +:+ replace_underscore "." field)
  end.

Definition RenameRule_from_str (s : string) : outcome () RenameRule :=
  if decide (s = "lowercase") then Ok LowerCase
  else if decide (s = "UPPERCASE") then Ok Uppercase
  else if decide (s = "PascalCase") then Ok PascalCase
  else if decide (s = "camelCase") then Ok CamelCase
  else if decide (s = "snake_case") then Ok SnakeCase
  else if decide (s = "SCREAMING_SNAKE_CASE") then Ok ScreamingSnakeCase
  else if decide (s = "kebab-case") then Ok KebabCase
  else if decide (s = "SCREAMING-KEBAB-CASE") then Ok ScreamingKebabCase
  else if decide (s = "M_MATRIX_ERROR_CASE") then Ok MatrixErrorCase
  else if decide (s = "m.snake_case") then Ok MatrixSnakeCase
  else if decide (s = "m.dotted.case") then Ok MatrixDottedCase
  else Err ().

(** ** The derived conversions

    A declaration lists the unit variants with their Rust names and their [rename]
    attributes. *)

Class StringEnum (A : Type) `{EqDecision A} := {
  rename_all : RenameRule;
  unit_variants : list (string * option string * A);
  custom : string → A;
  custom_inner : A → option string;
  custom_inner_custom s : custom_inner (custom s) = Some s;
  custom_inner_inv a s : custom_inner a = Some s → a = custom s;
  unit_variants_complete a : custom_inner a = None → a ∈ unit_variants.*2;
  unit_variants_unit a : a ∈ unit_variants.*2 → custom_inner a = None;
  unit_variants_distinct : NoDup unit_variants.*2
}.

Section string_enum.
Context `{StringEnum A}.

(** The string of a unit variant: its [rename] attribute, or the rule applied to its name. *)
Definition variant_str (v : string * option string * A) : string :=
  default (apply_to_variant rename_all v.1.1) v.1.2.

(** expand_enum_from_string: [match s { "..." => Variant, ..., _ => _Custom(s.into()) }] *)
Definition from (s : string) : A :=
  match list_find (λ v, variant_str v = s) unit_variants with
  | Some (_, v) => v.2
  | None => custom s
  end.

(** expand_enum_as_ref_str: [match self { Variant => "...", ..., _Custom(inner) => inner }] *)
Definition as_ref (a : A) : string :=
  match custom_inner a with
  | Some inner => inner
  | None =>
      match list_find (λ v, v.2 = a) unit_variants with
      | Some (_, v) => variant_str v
      | None => ""
      end
  end.

Lemma as_ref_unit i v : unit_variants !! i = Some v → as_ref v.2 = variant_str v.
Proof.
  intros Hi. assert (v ∈ unit_variants) as Hin by by eapply list_elem_of_lookup_2.
  unfold as_ref. rewrite unit_variants_unit by by apply list_elem_of_fmap_2.
  destruct (list_find_elem_of (λ w, w.2 = v.2) unit_variants v Hin eq_refl) as [[j w] Hw].
  rewrite Hw. apply list_find_Some in Hw as (Hj & Hwv & _).
  assert (j = i) as ->; [|congruence].
  apply (NoDup_lookup unit_variants.*2 _ _ v.2); [exact unit_variants_distinct|..];
    rewrite list_lookup_fmap, ?Hi, ?Hj; simpl; by rewrite ?Hwv.
Qed.

Lemma as_ref_from (s : string) : as_ref (from s) = s.
Proof.
  unfold from. destruct (list_find _ _) as [[i v]|] eqn:Hf.
  - apply list_find_Some in Hf as (Hi & Hv & _). by rewrite (as_ref_unit i v).
  - unfold as_ref. by rewrite custom_inner_custom.
Qed.

(** Every string survives the trip through a string enum: what [from] reads, [as_ref]
    gives back. *)
Theorem string_enum_as_ref_from (s : string) : as_ref (from s) = s.
Proof. apply as_ref_from. Qed.

(** A variant comes back from its string, if the strings are distinct. *)
Lemma from_as_ref_unit (a : A) :
  NoDup (variant_str <$> unit_variants) → custom_inner a = None → from (as_ref a) = a.
Proof.
  intros Hnd Ha. apply unit_variants_complete, list_elem_of_fmap in Ha as (v & -> & Hv).
  apply list_elem_of_lookup in Hv as [i Hi]. rewrite (as_ref_unit i v Hi). unfold from.
  destruct (list_find_elem_of (λ w, variant_str w = variant_str v) unit_variants v)
    as [[j w] Hw]; [by eapply list_elem_of_lookup_2|done|].
  rewrite Hw. apply list_find_Some in Hw as (Hj & Hwv & _).
  assert (j = i) as ->; [|congruence].
  apply (NoDup_lookup (variant_str <$> unit_variants) _ _ (variant_str v)); [done|..];
    rewrite list_lookup_fmap, ?Hi, ?Hj; simpl; by rewrite ?Hwv.
Qed.

(** [from] never yields the data-carrying variant for a known string. *)
Lemma from_custom (s : string) :
  custom_inner (from s) = Some s ↔ s ∉ variant_str <$> unit_variants.
Proof.
  unfold from. destruct (list_find _ _) as [[i v]|] eqn:Hf.
  - apply list_find_Some in Hf as (Hi & <- & _).
    assert (v ∈ unit_variants) as Hin by by eapply list_elem_of_lookup_2.
    rewrite unit_variants_unit by by apply list_elem_of_fmap_2.
    split; [done|]. intros Hno. destruct Hno. by apply list_elem_of_fmap_2.
  - rewrite custom_inner_custom. split; [|done]. intros _ Hin.
    apply list_elem_of_fmap in Hin as (v & -> & Hv).
    apply list_find_None in Hf. rewrite Forall_forall in Hf. apply list_elem_of_In in Hv. exact (Hf v Hv eq_refl).
Qed.
End string_enum.

(** The rules on the examples of the source's own test. *)
Example rename_examples :
  (λ r, apply_to_variant r "VeryTasty") <$>
    [LowerCase; Uppercase; CamelCase; SnakeCase; ScreamingSnakeCase; KebabCase;
     ScreamingKebabCase; MatrixErrorCase; MatrixSnakeCase; MatrixDottedCase]
  = ["verytasty"; "VERYTASTY"; "veryTasty"; "very_tasty"; "VERY_TASTY"; "very-tasty";
     "VERY-TASTY"; "M_VERY_TASTY"; "m.very_tasty"; "m.very.tasty"].
Proof. reflexivity. Qed.

(** The laws of an instance given by its list of variants. *)
Ltac string_enum_laws :=
  first
  [ done
  | match goal with |- ∀ a s, _ = Some s → a = _ => intros [] ?; naive_solver end
  | match goal with |- ∀ a, _ = None → a ∈ _ => intros [] ?; simplify_eq/=; set_solver end
  | match goal with |- ∀ a, a ∈ _ → _ = None =>
      let a := fresh in let Ha := fresh in
      intros a Ha; simpl in Ha; set_unfold in Ha; naive_solver end
  | match goal with |- NoDup _ => decide_it end ].

(** A value of a string enum that is read back from its string. *)
Definition canonical {A} `{StringEnum A} (a : A) : Prop := from (as_ref a) = a.
