(* ===== verification/Identifiers.v ===== *)
(** * Identifiers

    The crate [ruma-identifiers]: the identifier types over validated strings and their
    accessors. An identifier is the string it wraps; a [try_from] or [parse] is the validator
    followed by the wrapping. Slices whose ends are next to an ASCII delimiter keep the range
    check; the character-boundary check holds in every Rust string there. *)

From S2P Require Import Prelude RustStr RustNet IdValidation StringEnum.
From Stdlib Require Import Ascii NArith.
Open Scope string_scope.
Open Scope nat_scope.

(** [&s[lo..hi]] and [&s[lo..]] with ASCII delimiters at the ends. *)
Definition index_range {E} (lo hi : nat) (s : string) : outcome E string :=
  if bool_decide (lo ≤ hi ∧ hi ≤ str_len s) then Ok (str_take (hi - lo) (str_drop lo s))
  else Panic.
Definition index_from {E} (lo : nat) (s : string) : outcome E string :=
  if bool_decide (lo ≤ str_len s) then Ok (str_drop lo s) else Panic.

(** ** macros.rs: opaque_identifier_validated *)

(** [parse], and with it [try_from] and [from_str]: the string itself when it is valid. *)
Definition parse {A} (validate_id : string → outcome Error A) (s : string) :
    outcome Error string :=
  _ ← validate_id s;
  Ok s.

Definition ServerName_parse : string → outcome Error string := parse server_name_validate.
Definition UserId_parse : string → outcome Error string := parse user_id_validate.
Definition RoomId_parse : string → outcome Error string := parse room_id_validate.
Definition RoomAliasId_parse : string → outcome Error string := parse room_alias_id_validate.
Definition EventId_parse : string → outcome Error string := parse event_id_validate.
Definition RoomOrAliasId_parse : string → outcome Error string :=
  parse room_id_or_alias_id_validate.
Definition DeviceKeyId_parse : string → outcome Error string := parse device_key_id_validate.
Definition RoomName_parse : string → outcome Error string := parse room_name_validate.

(** ** user_id.rs *)

(** [colon_idx], the same function in every delimited identifier. *)
Definition colon_idx (s : string) : outcome Error nat := unwrap (str_find ":" s).

(** [localpart] and [server_name] of user IDs, room IDs and room-or-alias IDs; [alias] of room
    aliases. *)
Definition localpart (s : string) : outcome Error string :=
  i ← colon_idx s;
  index_range 1 i s.
Definition server_name (s : string) : outcome Error string :=
  i ← colon_idx s;
  index_from (i + 1) s.

Definition UserId_parse_with_server_name (id_str server_name : string) : outcome Error string :=
  if starts_with_char "@" id_str then UserId_parse id_str
  else Ok ("@" +:+ id_str +:+ ":" +:+ server_name).

Definition UserId_is_historical (s : string) : outcome Error bool :=
  l ← localpart s;
  match localpart_is_fully_conforming l with
  | Ok b => Ok (negb b)
  | _ => Panic
  end.

(** ** event_id.rs *)

Definition EventId_colon_idx (s : string) : option nat := str_find ":" s.
Definition EventId_localpart (s : string) : outcome Error string :=
  let idx := default (str_len s) (EventId_colon_idx s) in
  index_range 1 idx s.
Definition EventId_server_name (s : string) : outcome Error (option string) :=
  match EventId_colon_idx s with
  | None => Ok None
  | Some idx => Some <$> index_from (idx + 1) s
  end.

(** ** room_or_room_alias_id.rs

    [variant] is [unreachable_unchecked] on any other first byte: the model panics there. *)

Inductive RoomOrAliasVariant := VRoomId | VRoomAliasId.

#[export] Instance RoomOrAliasVariant_eq_dec : EqDecision RoomOrAliasVariant.
Proof. solve_decision. Defined.

Definition RoomOrAliasId_variant (s : string) : outcome Error RoomOrAliasVariant :=
  match s with
  | String b _ =>
      if byte_is "!" b then Ok VRoomId
      else if byte_is "#" b then Ok VRoomAliasId
      else Panic
  | EmptyString => Panic
  end.
Definition RoomOrAliasId_is_room_id (s : string) : outcome Error bool :=
  (λ v, bool_decide (v = VRoomId)) <$> RoomOrAliasId_variant s.
Definition RoomOrAliasId_is_room_alias_id (s : string) : outcome Error bool :=
  (λ v, bool_decide (v = VRoomAliasId)) <$> RoomOrAliasId_variant s.
(** [into_either] and the two [TryFrom]s: the room ID on the left, the alias on the right. *)
Definition RoomOrAliasId_into_either (s : string) : outcome Error (string + string) :=
  (λ v, match v with VRoomId => inl s | VRoomAliasId => inr s end) <$> RoomOrAliasId_variant s.

(** ** crypto_algorithms.rs *)

Inductive DeviceKeyAlgorithm :=
  | Ed25519 | Curve25519 | SignedCurve25519 | DeviceKeyAlgorithm_Custom (s : string).

#[export] Instance DeviceKeyAlgorithm_eq_dec : EqDecision DeviceKeyAlgorithm.
Proof. solve_decision. Defined.

#[export, refine] Instance DeviceKeyAlgorithm_enum : StringEnum DeviceKeyAlgorithm := {|
  rename_all := SnakeCase;
  unit_variants := [("Ed25519", None, Ed25519); ("Curve25519", None, Curve25519);
                    ("SignedCurve25519", None, SignedCurve25519)];
  custom := DeviceKeyAlgorithm_Custom;
  custom_inner a := match a with DeviceKeyAlgorithm_Custom s => Some s | _ => None end
|}.
Proof. all: string_enum_laws. Defined.

Inductive SigningKeyAlgorithm := SigningEd25519 | SigningKeyAlgorithm_Custom (s : string).

#[export] Instance SigningKeyAlgorithm_eq_dec : EqDecision SigningKeyAlgorithm.
Proof. solve_decision. Defined.

#[export, refine] Instance SigningKeyAlgorithm_enum : StringEnum SigningKeyAlgorithm := {|
  rename_all := SnakeCase;
  unit_variants := [("Ed25519", None, SigningEd25519)];
  custom := SigningKeyAlgorithm_Custom;
  custom_inner a := match a with SigningKeyAlgorithm_Custom s => Some s | _ => None end
|}.
Proof. all: string_enum_laws. Defined.

(** ** key_id.rs, device_key_id.rs *)

Section key_id.
Context {A} `{StringEnum A}.

Definition KeyId_from_parts (algorithm : A) (key_name : string) : string :=
  as_ref algorithm +:+ ":" +:+ key_name.
Definition KeyId_algorithm (s : string) : outcome Error A :=
  i ← colon_idx s;
  from <$> index_range 0 i s.
Definition KeyId_key_name (s : string) : outcome Error string :=
  i ← colon_idx s;
  index_from (i + 1) s.
End key_id.

(** [DeviceKeyId]: the same three functions at the device key algorithms. *)
Definition DeviceKeyId_from_parts : DeviceKeyAlgorithm → string → string := KeyId_from_parts.
Definition DeviceKeyId_algorithm : string → outcome Error DeviceKeyAlgorithm := KeyId_algorithm.
Definition DeviceKeyId_device_id : string → outcome Error string := KeyId_key_name.

(** ** mxc_uri.rs *)

Definition MxcUri_parts (s : string) : outcome MxcUriError (string * string) :=
  idx ← mxc_uri_validate s;
  sn ← index_range 6 idx s;
  media_id ← index_from (idx + 1) s;
  Ok (sn, media_id).
Definition MxcUri_media_id (s : string) : outcome MxcUriError string := snd <$> MxcUri_parts s.
Definition MxcUri_server_name (s : string) : outcome MxcUriError string :=
  fst <$> MxcUri_parts s.
Definition MxcUri_is_valid (s : string) : outcome MxcUriError bool :=
  match mxc_uri_validate s with
  | Ok _ => Ok true
  | Err _ => Ok false
  | Panic => Panic
  end.

(** ** room_version_id.rs *)

Inductive RoomVersionId :=
  | V1 | V2 | V3 | V4 | V5 | V6
  | RoomVersionId_Custom (version : string).

#[export] Instance RoomVersionId_eq_dec : EqDecision RoomVersionId.
Proof. solve_decision. Defined.

Definition RoomVersionId_as_str (v : RoomVersionId) : string :=
  match v with
  | V1 => "1"
  | V2 => "2"
  | V3 => "3"
  | V4 => "4"
  | V5 => "5"
  | V6 => "6"
  | RoomVersionId_Custom version => version
  end.

Definition RoomVersionId_try_from (room_version_id : string) : outcome Error RoomVersionId :=
  if decide (room_version_id = "1") then Ok V1
  else if decide (room_version_id = "2") then Ok V2
  else if decide (room_version_id = "3") then Ok V3
  else if decide (room_version_id = "4") then Ok V4
  else if decide (room_version_id = "5") then Ok V5
  else if decide (room_version_id = "6") then Ok V6
  else
    _ ← room_version_id_validate room_version_id;
    Ok (RoomVersionId_Custom room_version_id).

(** [Ord]: by the string. *)
Definition RoomVersionId_cmp (a b : RoomVersionId) : comparison :=
  String.compare (RoomVersionId_as_str a) (RoomVersionId_as_str b).

(** ** Accessors of delimited identifiers *)

Lemma index_range_mid {E} a b c :
  index_range (E:=E) (str_len a) (str_len a + str_len b) (a +:+ b +:+ c) = Ok b.
Proof.
  unfold index_range. rewrite !str_len_app, bool_decide_true by lia.
  rewrite str_drop_app. replace (_ + _ - _) with (str_len b) by lia. by rewrite str_take_app.
Qed.

Lemma index_from_app {E} a b : index_from (E:=E) (str_len a) (a +:+ b) = Ok b.
Proof.
  unfold index_from. rewrite str_len_app, bool_decide_true by lia. by rewrite str_drop_app.
Qed.

Section delimited.
Context (sigils : list ascii) (id l sn : string).
Hypothesis colon_not_sigil : ":"%char ∉ sigils.
Hypothesis id_delimited : delimited sigils id l sn.

Lemma delimited_colon_idx : colon_idx id = Ok (S (str_len l)).
Proof.
  unfold colon_idx. destruct (delimited_localpart _ _ _ _ id_delimited) as [->|?]; done.
Qed.

Lemma delimited_accessors_Ok : localpart id = Ok l ∧ server_name id = Ok sn.
Proof.
  unfold localpart, server_name. rewrite delimited_colon_idx. simpl.
  destruct id_delimited as (c & _ & -> & _). split.
  - exact (index_range_mid (String c "") l (String ":" sn)).
  - pose proof (index_from_app (E:=Error) (String c (l +:+ ":")) sn) as Hi.
    unfold str_len in Hi; simpl in Hi. fold (str_len (l +:+ ":")) in Hi.
    rewrite str_len_app in Hi. rewrite str_app_assoc in Hi. exact Hi.
Qed.
End delimited.

(** The accessors of a valid user ID return: its localpart and its server name, which
    make up the ID, and the historical flag exactly when some byte of the localpart is
    outside the current grammar. *)
Theorem user_id_accessors s :
  UserId_parse s = Ok s →
  ∃ l sn, localpart s = Ok l ∧ server_name s = Ok sn ∧
    s = "@" +:+ l +:+ ":" +:+ sn ∧ ServerName_parse sn = Ok sn ∧
    UserId_is_historical s = Ok (negb (bytes_all is_conforming_byte l)).
Proof.
  unfold UserId_parse, parse. intros ([] & (l & sn & Hd & Hl)%user_id_validate_Ok & _)%bind_Ok.
  destruct (delimited_accessors_Ok ["@"%char] _ _ _ ltac:(decide_it) Hd) as [H1 H2].
  exists l, sn. unfold UserId_is_historical. rewrite H1. simpl.
  rewrite (proj2 (localpart_conforming_Ok l (bytes_all is_conforming_byte l)) (conj eq_refl Hl)).
  destruct Hd as (c & Hc & -> & Hcol & Hlen & Hsn).
  apply list_elem_of_singleton in Hc as ->. split_and!; try done.
  unfold ServerName_parse, parse. by rewrite (proj2 (server_name_validate_Ok sn) Hsn).
Qed.

Lemma user_id_accessors_witness :
  UserId_parse "@Carl:example.com:8448" = Ok "@Carl:example.com:8448" ∧
  ∃ l sn, localpart "@Carl:example.com:8448" = Ok l ∧
    server_name "@Carl:example.com:8448" = Ok sn ∧
    "@Carl:example.com:8448" = "@" +:+ l +:+ ":" +:+ sn ∧ ServerName_parse sn = Ok sn ∧
    UserId_is_historical "@Carl:example.com:8448" = Ok (negb (bytes_all is_conforming_byte l)).
Proof.
  split; [vm_compute; reflexivity|].
  apply (user_id_accessors "@Carl:example.com:8448"). vm_compute. reflexivity.
Defined.

(** Completing a localpart gives a valid user ID of that localpart, within the length limit. *)
Lemma parse_with_server_name_completes l sn :
  starts_with_char "@" l = false → bytes_all is_historical_byte l = true →
  ServerNameGrammar sn → str_len l + str_len sn + 2 ≤ 255 →
  ∃ id, UserId_parse_with_server_name l sn = Ok id ∧ UserId_parse id = Ok id ∧
    localpart id = Ok l ∧ server_name id = Ok sn.
Proof.
  intros Hat Hl Hsn Hlen. unfold UserId_parse_with_server_name. rewrite Hat.
  set (id := "@" +:+ l +:+ ":" +:+ sn). exists id. split; [done|].
  assert (delimited ["@"%char] id l sn) as Hd.
  { exists "@"%char. split_and!; [set_solver|done|..|done].
    - apply str_find_None. eapply bytes_all_impl; [|exact Hl]. unfold is_historical_byte.
      intros b ?. bool_to_prop. apply negb_true_iff. done.
    - subst id. simpl. unfold str_len; simpl. fold (str_len (l +:+ String ":" sn)).
      rewrite str_len_app. unfold str_len at 2; simpl. fold (str_len sn). unfold MAX_BYTES. lia. }
  destruct (delimited_accessors_Ok ["@"%char] _ _ _ ltac:(decide_it) Hd) as [H1 H2].
  split_and!; try done. unfold UserId_parse, parse.
  by rewrite (proj2 (user_id_validate_Ok id)) by eauto.
Qed.

(** The accessors of a valid event ID, in both formats. *)
Lemma event_id_accessors s :
  EventId_parse s = Ok s →
  ∃ l, EventId_localpart s = Ok l ∧
    ((EventId_server_name s = Ok None ∧ s = "$" +:+ l) ∨
     ∃ sn, EventId_server_name s = Ok (Some sn) ∧ s = "$" +:+ l +:+ ":" +:+ sn ∧
       ServerNameGrammar sn).
Proof.
  unfold EventId_parse, parse, EventId_localpart, EventId_server_name, EventId_colon_idx.
  intros ([] & [(l & sn & Hd)|(Hf & t & ->)]%event_id_validate_Ok & _)%bind_Ok.
  - destruct (delimited_accessors_Ok ["$"%char] _ _ _ ltac:(decide_it) Hd) as [H1 H2].
    unfold localpart, server_name, colon_idx in *.
    destruct (str_find ":" s) as [i|] eqn:Hf; simpl in *; [|done].
    exists l. rewrite H2. split; [done|]. right. exists sn.
    destruct Hd as (c & Hc & -> & _ & _ & Hsn). apply list_elem_of_singleton in Hc as ->. done.
  - rewrite Hf. exists t. split; [|by left]. simpl.
    pose proof (index_range_mid (E:=Error) "$" t "") as Hi. rewrite str_app_nil_r in Hi.
    exact Hi.
Qed.

(** The undefined branch of [RoomOrAliasId::variant] is never reached from a validated
    identifier, and the two readings of the ID are told apart by validity: it is a room ID or
    a room alias, never both. *)
Theorem room_or_alias_id_variant s :
  RoomOrAliasId_parse s = Ok s →
  (RoomOrAliasId_into_either s = Ok (inl s) ∧ RoomId_parse s = Ok s ∧
     RoomAliasId_parse s = Err MissingLeadingSigil) ∨
  (RoomOrAliasId_into_either s = Ok (inr s) ∧ RoomAliasId_parse s = Ok s ∧
     RoomId_parse s = Err MissingLeadingSigil).
Proof.
  unfold RoomOrAliasId_parse, parse.
  intros ([] & (l & sn & Hd)%validate_delimited_id_Ok & _)%bind_Ok; [|decide_it].
  assert (∀ c, delimited [c] s l sn → ":"%char ∉ [c] → validate_delimited_id s [c] = Ok ()) as Hok.
  { intros c Hc Hs. apply validate_delimited_id_Ok; eauto. }
  destruct Hd as (c & Hc & -> & Hl & Hlen & Hsn).
  assert (∀ d : ascii, d ≠ c →
    validate_delimited_id (String c (l +:+ String ":" sn)) [d] = Err MissingLeadingSigil) as Hno.
  { intros d Hne. unfold validate_delimited_id, parse_id, validate_id.
    rewrite bool_decide_false by lia. simpl.
    destruct (byte_is d c) eqn:E; [by apply byte_is_true in E as ->|done]. }
  unfold RoomId_parse, RoomAliasId_parse, parse, room_id_validate, room_alias_id_validate.
  set_unfold in Hc. destruct Hc as [-> | [-> | []]].
  - right. rewrite (Hok "#"%char), (Hno "!"%char); [done|done| |decide_it].
    exists "#"%char. split_and!; done || set_solver.
  - left. rewrite (Hok "!"%char), (Hno "#"%char); [done|done| |decide_it].
    exists "!"%char. split_and!; done || set_solver.
Qed.

Lemma room_or_alias_id_variant_witness :
  RoomOrAliasId_parse "#ruma:example.com" = Ok "#ruma:example.com" ∧
  ((RoomOrAliasId_into_either "#ruma:example.com" = Ok (inl "#ruma:example.com") ∧
     RoomId_parse "#ruma:example.com" = Ok "#ruma:example.com" ∧
     RoomAliasId_parse "#ruma:example.com" = Err MissingLeadingSigil) ∨
   (RoomOrAliasId_into_either "#ruma:example.com" = Ok (inr "#ruma:example.com") ∧
     RoomAliasId_parse "#ruma:example.com" = Ok "#ruma:example.com" ∧
     RoomId_parse "#ruma:example.com" = Err MissingLeadingSigil)).
Proof.
  split; [vm_compute; reflexivity|].
  apply (room_or_alias_id_variant "#ruma:example.com"). vm_compute. reflexivity.
Defined.

(** ** Key IDs *)

Section key_id.
Context {A} `{StringEnum A}.

Lemma KeyId_colon_idx alg key :
  str_find ":" alg = None → colon_idx (alg +:+ ":" +:+ key) = Ok (str_len alg).
Proof.
  intros Ha. unfold colon_idx. change (":" +:+ key) with (String ":" key).
  by rewrite str_find_app by by apply str_find_None.
Qed.

(** A key ID built from parts has these parts, and every string with a colon is built from
    its parts. *)
Lemma KeyId_parts_from_parts (a : A) key :
  str_find ":" (as_ref a) = None →
  KeyId_algorithm (KeyId_from_parts a key) = Ok (from (as_ref a)) ∧
  KeyId_key_name (KeyId_from_parts a key) = Ok key.
Proof.
  intros Ha. unfold KeyId_algorithm, KeyId_key_name, KeyId_from_parts.
  rewrite KeyId_colon_idx by done. simpl. split.
  - pose proof (index_range_mid (E:=Error) "" (as_ref a) (":" +:+ key)) as Hi.
    simpl in Hi. change (str_len "") with 0 in Hi. simpl in Hi. by rewrite Hi.
  - pose proof (index_from_app (E:=Error) (as_ref a +:+ ":") key) as Hi.
    rewrite str_len_app, str_app_assoc in Hi. exact Hi.
Qed.

Lemma KeyId_from_parts_parts s :
  str_contains ":" s = true →
  ∃ a key, KeyId_algorithm s = Ok a ∧ KeyId_key_name s = Ok key ∧ KeyId_from_parts a key = s.
Proof.
  intros [i Hi]%str_contains_true. pose proof Hi as (Hs & Hlt & Hno)%str_find_Some.
  rewrite <- str_find_None in Hno.
  exists (from (str_take i s)), (str_drop (S i) s).
  assert (KeyId_from_parts (from (str_take i s)) (str_drop (S i) s) = s) as Heq.
  { unfold KeyId_from_parts. by rewrite as_ref_from. }
  split_and!; [..|done].
  - rewrite <- Heq at 1. rewrite <- (as_ref_from (str_take i s)) in Hno.
    destruct (KeyId_parts_from_parts (from (str_take i s)) (str_drop (S i) s) Hno) as [-> _].
    by rewrite as_ref_from.
  - rewrite <- Heq at 1. rewrite <- (as_ref_from (str_take i s)) in Hno.
    by destruct (KeyId_parts_from_parts (from (str_take i s)) (str_drop (S i) s) Hno) as [_ ->].
Qed.
End key_id.

(** ** Content URIs *)

(** A content URI whose server name is shorter than 250 bytes splits into that server name
    and its media ID, and from 250 bytes on [parts] does not return them: the index was cut to
    eight bits. *)
Theorem MxcUri_parts_spec uri sn media :
  mxc_parts uri sn media →
  (str_len sn < 250 → MxcUri_parts uri = Ok (sn, media)) ∧
  (250 ≤ str_len sn < 256 → MxcUri_parts uri = Panic).
Proof.
  intros Hp. split; intros Hlt.
  - destruct (mxc_index_small uri sn media Hp Hlt) as (Hv & _ & _).
    unfold MxcUri_parts. rewrite Hv. destruct Hp as (-> & _).
    pose proof (index_range_mid (E:=MxcUriError) PROTOCOL sn (String "/" media)) as Hr.
    replace (str_len PROTOCOL + str_len sn) with (str_len sn + 6) in Hr
      by (unfold str_len, PROTOCOL; simpl; lia).
    change (str_len PROTOCOL) with 6 in Hr. cbn [mbind outcome_bind]. rewrite Hr.
    cbn [mbind outcome_bind].
    pose proof (index_from_app (E:=MxcUriError) ((PROTOCOL +:+ sn) +:+ "/") media) as Hf.
    rewrite !str_len_app, !str_app_assoc in Hf.
    replace (str_len PROTOCOL + str_len sn + str_len "/") with (str_len sn + 6 + 1) in Hf
      by (unfold str_len, PROTOCOL; simpl; lia).
    change (sn +:+ "/" +:+ media) with (sn +:+ String "/" media) in Hf. by rewrite Hf.
  - destruct (mxc_uri_validate_cases uri) as [(sn' & m' & Hp' & Hv)|[[] _]]; [|eauto].
    rewrite (mxc_parts_inj uri _ _ _ _ Hp' Hp) in Hv.
    unfold MxcUri_parts. rewrite Hv. unfold as_u8, NonZeroU8_new.
    replace (str_len sn + 6) with (str_len sn - 250 + 1 * 256) by lia.
    rewrite Nat.Div0.mod_add, Nat.mod_small by lia. case_decide; simpl; [done|].
    unfold index_range. by rewrite bool_decide_false by lia.
Qed.

Lemma MxcUri_parts_spec_witness :
  mxc_parts "mxc://127.0.0.1/asd-32" "127.0.0.1" "asd-32" ∧
  MxcUri_parts "mxc://127.0.0.1/asd-32" = Ok ("127.0.0.1", "asd-32").
Proof.
  assert (mxc_parts "mxc://127.0.0.1/asd-32" "127.0.0.1" "asd-32") as Hp.
  { split_and!; [reflexivity..| |reflexivity]. apply sn_host; [discriminate|reflexivity]. }
  split; [exact Hp|].
  apply (MxcUri_parts_spec "mxc://127.0.0.1/asd-32" "127.0.0.1" "asd-32" Hp).
  vm_compute. lia.
Defined.

(** ** Room versions *)

(** The room version IDs a parse can give: a custom one has between 1 and 32 characters and is
    not the name of a known version. *)
Definition room_version_wf (v : RoomVersionId) : Prop :=
  match v with
  | RoomVersionId_Custom s =>
      s ∉ ["1"; "2"; "3"; "4"; "5"; "6"] ∧ s ≠ "" ∧ chars_count s ≤ MAX_CODE_POINTS
  | _ => True
  end.

Lemma room_version_id_validate_Ok s :
  room_version_id_validate s = Ok () ↔ s ≠ "" ∧ chars_count s ≤ MAX_CODE_POINTS.
Proof.
  unfold room_version_id_validate. case_decide; [naive_solver|].
  case_bool_decide; naive_solver lia.
Qed.

(** Parsing and printing room versions are inverse to each other: a string parses to a
    version exactly when the version is well formed and prints as the string. *)
Theorem RoomVersionId_parse_print s v :
  RoomVersionId_try_from s = Ok v ↔ RoomVersionId_as_str v = s ∧ room_version_wf v.
Proof.
  unfold RoomVersionId_try_from. split.
  - intros H. repeat (case_decide; [naive_solver|]).
    apply bind_Ok in H as ([] & ?%room_version_id_validate_Ok & [= <-]).
    simpl. split_and!; [done| |naive_solver..]. set_solver.
  - intros [<- Hwf]. destruct v as [ | | | | | |s]; try reflexivity.
    simpl in *. destruct Hwf as (Hno & Hne & Hlen).
    repeat (rewrite decide_False by set_solver).
    by rewrite (proj2 (room_version_id_validate_Ok s)).
Qed.

(** ** Generated identifiers: [generate_localpart] of lib.rs, and [new]

    The samples of [rand::distributions::Alphanumeric] are an argument. [to_lowercase] on ASCII
    letters is the ASCII one. *)

Class Rand := {
  sample_iter : nat → ascii;
  sample_alphanumeric i : is_ascii_alphanumeric (sample_iter i) = true
}.

(** [take] and [collect] *)
Fixpoint take_chars (iter : nat → ascii) (length : nat) : string :=
  match length with
  | O => ""
  | S n => String (iter O) (take_chars (λ i, iter (S i)) n)
  end.

Section generated.
Context `{Rand}.

Definition generate_localpart (length : nat) : string := take_chars sample_iter length.

Definition UserId_new (server_name : string) : string :=
  "@" +:+ str_map ascii_to_lower (generate_localpart 12) +:+ ":" +:+ server_name.
Definition RoomId_new (server_name : string) : string :=
  "!" +:+ generate_localpart 18 +:+ ":" +:+ server_name.
Definition EventId_new (server_name : string) : string :=
  "$" +:+ generate_localpart 18 +:+ ":" +:+ server_name.
Definition DeviceId_new : string := generate_localpart 8.

Lemma generate_localpart_len n : str_len (generate_localpart n) = n.
Proof.
  unfold generate_localpart, str_len. generalize sample_iter.
  induction n as [|n IH]; intros iter; simpl; [done|]. by rewrite IH.
Qed.

Lemma generate_localpart_bytes n :
  bytes_all is_ascii_alphanumeric (generate_localpart n) = true.
Proof.
  unfold generate_localpart. generalize sample_iter sample_alphanumeric.
  induction n as [|n IH]; intros iter Hi; simpl; [done|].
  rewrite Hi. simpl. apply (IH (λ i, iter (S i))). intros i. apply Hi.
Qed.

Lemma str_len_map f s : str_len (str_map f s) = str_len s.
Proof. unfold str_len. induction s as [|a s IH]; simpl; [done|]. by rewrite IH. Qed.

Lemma bytes_all_map p f s : bytes_all p (str_map f s) = bytes_all (λ b, p (f b)) s.
Proof. induction s as [|a s IH]; simpl; [done|]. by rewrite IH. Qed.

Lemma alphanumeric_no_colon s : bytes_all is_ascii_alphanumeric s = true → str_find ":" s = None.
Proof.
  intros Hs. apply str_find_None. eapply bytes_all_impl; [|exact Hs].
  intros b Hb. apply negb_true_iff. destruct (byte_is ":" b) eqn:E; [|done].
  by apply byte_is_true in E as ->.
Qed.

Lemma lower_conforming b :
  is_ascii_alphanumeric b = true → is_conforming_byte (ascii_to_lower b) = true.
Proof. destruct b as [[][][][][][][][]]; vm_compute; congruence. Qed.

Lemma generated_delimited c l sn :
  str_find ":" l = None → ServerNameGrammar sn → str_len l + str_len sn + 2 ≤ MAX_BYTES →
  delimited [c] (String c l +:+ ":" +:+ sn) l sn.
Proof.
  intros Hl Hsn Hlen. exists c. split_and!; [by left|done|done| |done].
  change (str_len (String c l +:+ String ":" sn) ≤ MAX_BYTES).
  rewrite str_len_app. unfold str_len in *. simpl. lia.
Qed.

(** Identifiers that are generated for a server whose name fits are valid, of that server, and
    user IDs are in the grammar that is current. *)
Lemma generated_ids_valid sn :
  ServerNameGrammar sn → str_len sn ≤ 235 →
  (UserId_parse (UserId_new sn) = Ok (UserId_new sn) ∧
    server_name (UserId_new sn) = Ok sn ∧ UserId_is_historical (UserId_new sn) = Ok false) ∧
  (RoomId_parse (RoomId_new sn) = Ok (RoomId_new sn) ∧ server_name (RoomId_new sn) = Ok sn) ∧
  (EventId_parse (EventId_new sn) = Ok (EventId_new sn) ∧
    EventId_server_name (EventId_new sn) = Ok (Some sn)).
Proof.
  intros Hsn Hlen.
  pose proof (alphanumeric_no_colon _ (generate_localpart_bytes 18)) as H18.
  assert (∀ c, delimited [c] (String c (generate_localpart 18) +:+ ":" +:+ sn)
    (generate_localpart 18) sn) as Hd.
  { intros c. apply generated_delimited; [done..|]. rewrite generate_localpart_len.
    unfold MAX_BYTES. lia. }
  set (l := str_map ascii_to_lower (generate_localpart 12)).
  assert (bytes_all is_conforming_byte l = true) as Hl.
  { unfold l. rewrite bytes_all_map.
    eapply bytes_all_impl; [apply lower_conforming|apply generate_localpart_bytes]. }
  assert (bytes_all is_historical_byte l = true) as Hh.
  { eapply bytes_all_impl; [apply conforming_historical|exact Hl]. }
  assert (delimited ["@"%char] (UserId_new sn) l sn) as Hu.
  { apply generated_delimited; [|done|].
    - apply str_find_None. eapply bytes_all_impl; [|exact Hh]. unfold is_historical_byte.
      intros b ?. bool_to_prop. by apply negb_true_iff.
    - unfold l. rewrite str_len_map, generate_localpart_len. unfold MAX_BYTES. lia. }
  split_and!.
  - unfold UserId_parse, parse. by rewrite (proj2 (user_id_validate_Ok _)) by eauto.
  - by destruct (delimited_accessors_Ok ["@"%char] _ _ _ ltac:(decide_it) Hu).
  - unfold UserId_is_historical.
    destruct (delimited_accessors_Ok ["@"%char] _ _ _ ltac:(decide_it) Hu) as [-> _].
    cbn [mbind outcome_bind].
    by rewrite (proj2 (localpart_conforming_Ok l true) (conj (eq_sym Hl) Hh)).
  - unfold RoomId_parse, parse, room_id_validate.
    by rewrite (proj2 (validate_delimited_id_Ok _ ["!"%char] ltac:(decide_it))) by eauto.
  - by destruct (delimited_accessors_Ok ["!"%char] _ _ _ ltac:(decide_it) (Hd "!"%char)).
  - unfold EventId_parse, parse. rewrite (proj2 (event_id_validate_Ok _)); [done|]. left. eauto.
  - assert (server_name (EventId_new sn) = Ok sn) as Hs
      by apply (delimited_accessors_Ok ["$"%char] _ _ _ ltac:(decide_it) (Hd "$"%char)).
    revert Hs. generalize (EventId_new sn). intros s.
    unfold EventId_server_name, EventId_colon_idx, server_name, colon_idx.
    destruct (str_find ":" s); simpl; [|done]. by intros ->.
Qed.
End generated.

(** ** matrix_to.rs *)

(** The crate percent-encoding, with the bytes of an [AsciiSet]: bytes of the set and bytes that
    are not ASCII become a percent sign with two hexadecimal digits. *)
Definition hex_digit (n : N) : ascii :=
  if (n <? 10)%N then ascii_of_N (48 + n) else ascii_of_N (55 + n).
Definition percent_byte_encode (ascii_set : ascii → bool) (b : ascii) : string :=
  if is_ascii_byte b && negb (ascii_set b) then String b ""
  else String "%" (String (hex_digit (byte b / 16)) (String (hex_digit (byte b mod 16)) "")).

Class PercentEncode := {
  percent_encode : (ascii → bool) → string → string;
  percent_encode_nil set : percent_encode set "" = "";
  percent_encode_cons set b s :
    percent_encode set (String b s) = percent_byte_encode set b +:+ percent_encode set s
}.

Definition BASE_URL : string := "https://matrix.to/#/".
(** [CONTROLS] with the reserved characters of RFC 3986; the percent sign is not among them. *)
Definition TO_ENCODE (b : ascii) : bool :=
  (byte b <? 32)%N || (byte b =? 127)%N ||
  bool_decide (b ∈ [":"; "/"; "?"; "#"; "["; "]"; "@"; "!"; "$"; "&"; "'"; "("; ")"; "*"; "+"; ",";
                    ";"; "="]%char).

Record MatrixToRef := { ref_id : string; ref_event_id : option string; ref_via : list string }.

Definition MatrixToRef_new (id : string) (via : list string) : MatrixToRef :=
  {| ref_id := id; ref_event_id := None; ref_via := via |}.
Definition MatrixToRef_event (id event_id : string) (via : list string) : MatrixToRef :=
  {| ref_id := id; ref_event_id := Some event_id; ref_via := via |}.

(** [matrix_to_url] of users and room aliases, and of rooms; [matrix_to_event_url] *)
Definition matrix_to_url (self : string) : MatrixToRef := MatrixToRef_new self [].
Definition RoomId_matrix_to_url (self : string) (via : list string) : MatrixToRef :=
  MatrixToRef_new self via.
Definition matrix_to_event_url (self ev_id : string) : MatrixToRef := MatrixToRef_event self ev_id [].

Section matrix_to.
Context `{PercentEncode}.

Fixpoint via_to_string (first : bool) (via : list string) : string :=
  match via with
  | [] => ""
  | server_name :: via =>
      (if first then "?via=" else "&via=") +:+ server_name +:+ via_to_string false via
  end.

(** [Display] *)
Definition MatrixToRef_to_string (self : MatrixToRef) : string :=
  BASE_URL +:+ percent_encode TO_ENCODE (ref_id self) +:+
  match ref_event_id self with
  | Some ev_id => "/" +:+ percent_encode TO_ENCODE ev_id
  | None => ""
  end +:+ via_to_string true (ref_via self).

Definition no_percent (s : string) : bool := bytes_all (λ b, negb (byte_is "%" b)) s.

(** The bytes that an encoded identifier can have *)
Definition url_byte (b : ascii) : bool := is_ascii_byte b && negb (TO_ENCODE b).

Lemma percent_byte_encode_bytes b : bytes_all url_byte (percent_byte_encode TO_ENCODE b) = true.
Proof. destruct b as [[][][][][][][][]]; vm_compute; reflexivity. Qed.

Lemma percent_encode_url_bytes s : bytes_all url_byte (percent_encode TO_ENCODE s) = true.
Proof.
  induction s as [|b s IH]; [by rewrite percent_encode_nil|].
  by rewrite percent_encode_cons, bytes_all_app, percent_byte_encode_bytes, IH.
Qed.

(** Decoding of one byte from the front of what was encoded *)
Definition hex_value (d : ascii) : N := if (byte d <? 58)%N then byte d - 48 else byte d - 55.
Definition decode_front (s : string) : option (ascii * string) :=
  match s with
  | String b (String d1 (String d2 rest) as t) =>
      if byte_is "%" b then Some (ascii_of_N (hex_value d1 * 16 + hex_value d2), rest)
      else Some (b, t)
  | String b t => Some (b, t)
  | "" => None
  end.

Lemma decode_front_encode b s :
  byte_is "%" b = false → decode_front (percent_byte_encode TO_ENCODE b +:+ s) = Some (b, s).
Proof.
  intros Hb.
  assert (percent_byte_encode TO_ENCODE b = String b "" ∨
    ∃ d1 d2, percent_byte_encode TO_ENCODE b = String "%" (String d1 (String d2 "")) ∧
      ascii_of_N (hex_value d1 * 16 + hex_value d2) = b) as [-> | (d1 & d2 & -> & Hd)].
  { clear Hb. destruct b as [[][][][][][][][]];
      first [left; reflexivity | right; do 2 eexists; split; reflexivity]. }
  - destruct s as [|d1 [|d2 s]]; simpl; [done|done|]. by rewrite Hb.
  - simpl. by rewrite Hd.
Qed.

Lemma percent_encode_inj s t :
  no_percent s = true → no_percent t = true →
  percent_encode TO_ENCODE s = percent_encode TO_ENCODE t → s = t.
Proof.
  unfold no_percent. revert t. induction s as [|b s IH]; intros [|c t]; simpl; [done| | |].
  - intros _ [Hc _]%andb_true_iff. rewrite percent_encode_nil, percent_encode_cons.
    intros Heq%(f_equal decode_front). rewrite decode_front_encode in Heq by by apply negb_true_iff.
    done.
  - intros [Hb _]%andb_true_iff _. rewrite percent_encode_nil, percent_encode_cons.
    intros Heq%(f_equal decode_front). rewrite decode_front_encode in Heq by by apply negb_true_iff.
    done.
  - intros [Hb Hs]%andb_true_iff [Hc Ht]%andb_true_iff. rewrite !percent_encode_cons.
    intros Heq%(f_equal decode_front).
    rewrite !decode_front_encode in Heq by by apply negb_true_iff.
    injection Heq as -> Heq. by rewrite (IH t Hs Ht Heq).
Qed.

(** Two texts of bytes of a kind, each followed by nothing or by a byte of another kind *)
Definition ends_with_other (p : ascii → bool) (s : string) : Prop :=
  match s with "" => True | String b _ => p b = false end.

Lemma text_cut p a b s t :
  bytes_all p a = true → bytes_all p b = true → ends_with_other p s → ends_with_other p t →
  a +:+ s = b +:+ t → a = b ∧ s = t.
Proof.
  revert b. induction a as [|x a IH]; intros [|y b] Ha Hb Hs Ht Heq; simpl in *.
  - done.
  - subst s. simpl in Hs. apply andb_true_iff in Hb as [Hb _]. congruence.
  - subst t. simpl in Ht. apply andb_true_iff in Ha as [Ha _]. congruence.
  - apply andb_true_iff in Ha as [_ Ha], Hb as [_ Hb]. injection Heq as -> Heq.
    by destruct (IH b Ha Hb Hs Ht Heq) as [-> ->].
Qed.

Definition no_ampersand (s : string) : bool := bytes_all (λ b, negb (byte_is "&" b)) s.

Lemma via_ends first p via :
  p "?"%char = false → p "&"%char = false → ends_with_other p (via_to_string first via).
Proof. intros ??. by destruct via, first. Qed.

Lemma via_to_string_inj first via via' :
  Forall (λ s, no_ampersand s = true) via → Forall (λ s, no_ampersand s = true) via' →
  via_to_string first via = via_to_string first via' → via = via'.
Proof.
  intros Hv. revert first via'. induction Hv as [|s via Hs Hv IH]; intros first via' Hv' Heq.
  - destruct via' as [|s' via']; [done|]. by destruct first.
  - destruct Hv' as [|s' via' Hs' Hv']; [by destruct first|].
    assert (s +:+ via_to_string false via = s' +:+ via_to_string false via') as Hc
      by (destruct first; by injection Heq).
    assert (∀ l, ends_with_other (λ b, negb (byte_is "&" b)) (via_to_string false l)) as He
      by (intros []; done).
    destruct (text_cut _ _ _ _ _ Hs Hs' (He via) (He via') Hc) as [-> Hr].
    by rewrite (IH false via' Hv' Hr).
Qed.

(** A link tells what it is to: two references of identifiers without percent sign, by way of
    servers, whose links are the same are the same. *)
Lemma matrix_to_injective r r' :
  Forall (λ r, no_percent (ref_id r) = true ∧
    (∀ ev, ref_event_id r = Some ev → no_percent ev = true) ∧
    Forall (λ s, no_ampersand s = true) (ref_via r)) [r; r'] →
  MatrixToRef_to_string r = MatrixToRef_to_string r' → r = r'.
Proof.
  rewrite !list.Forall_cons. intros ((Hi & He & Hv) & (Hi' & He' & Hv') & _) Heq.
  unfold MatrixToRef_to_string in Heq. apply (inj (String.append BASE_URL)) in Heq.
  destruct r as [id ev via], r' as [id' ev' via']. simpl in *.
  assert (∀ ev via, ends_with_other url_byte
    (match ev with Some ev => "/" +:+ percent_encode TO_ENCODE ev | None => "" end +:+
     via_to_string true via)) as Hends.
  { intros [e|] l; [done|]. by apply via_ends. }
  destruct (text_cut url_byte _ _ _ _ (percent_encode_url_bytes id) (percent_encode_url_bytes id')
    (Hends ev via) (Hends ev' via') Heq) as [->%percent_encode_inj Hr]; [|done..].
  assert (ev = ev' ∧ via_to_string true via = via_to_string true via') as [-> ->%via_to_string_inj];
    [|done..].
  destruct ev as [e|], ev' as [e'|]; simpl in Hr.
  - injection Hr as Hr.
    destruct (text_cut url_byte _ _ _ _ (percent_encode_url_bytes e) (percent_encode_url_bytes e')
      (via_ends true _ via eq_refl eq_refl) (via_ends true _ via' eq_refl eq_refl) Hr) as [Hee ->].
    split; [|done]. f_equal. apply percent_encode_inj; eauto.
  - by destruct via'.
  - by destruct via.
  - done.
Qed.

(** Without that condition it fails: a percent sign is not encoded, and room aliases can have one. *)
Lemma matrix_to_collision :
  RoomAliasId_parse "#%40:example.org" = Ok "#%40:example.org" ∧
  RoomAliasId_parse "#@:example.org" = Ok "#@:example.org" ∧
  MatrixToRef_to_string (matrix_to_url "#%40:example.org") =
  MatrixToRef_to_string (matrix_to_url "#@:example.org").
Proof.
  split_and!; [vm_compute; reflexivity..|].
  unfold MatrixToRef_to_string, matrix_to_url, MatrixToRef_new. cbn [ref_id ref_event_id ref_via].
  by rewrite !percent_encode_cons, !percent_encode_nil.
Qed.
End matrix_to.

(** An encoder, and the link to a user *)
#[local] Instance encode_each : PercentEncode := {|
  percent_encode set := fix go s :=
    match s with "" => "" | String b s => percent_byte_encode set b +:+ go s end;
  percent_encode_nil _ := eq_refl;
  percent_encode_cons _ _ _ := eq_refl
|}.

Example user_link :
  MatrixToRef_to_string (matrix_to_url "@jplatte:notareal.hs") =
  "https://matrix.to/#/%40jplatte%3Anotareal.hs".
Proof. vm_compute. reflexivity. Qed.
Example room_link :
  MatrixToRef_to_string
    (RoomId_matrix_to_url "!somewhere:example.org" ["example.org"; "alt.example.org"]) =
  "https://matrix.to/#/%21somewhere%3Aexample.org?via=example.org&via=alt.example.org".
Proof. vm_compute. reflexivity. Qed.
