(* ===== verification/Json.v ===== *)
(** * JSON and serde

    JSON text after parsing, as a [RawJsonValue] holds it: an object is the list of its entries
    in the order of the text, where a key may occur twice. [serde_json]'s own parser is not
    modelled; [from_str] of the code is one of the decoders below on the parsed text.

    The decoders follow what [derive(Deserialize)] generates for a struct: an object, where a
    known field must not occur twice and unknown fields are skipped, or an array of the fields
    in order. A decoder's error carries no payload, because no caller looks at it. *)

From S2P Require Import Prelude RustStr RustNet IdValidation StringEnum Identifiers.
From Stdlib Require Import Ascii NArith.
Open Scope string_scope.
Open Scope nat_scope.

Inductive number :=
  | NInt (z : Z)            (* an integer that fits [i64] or [u64] *)
  | NFloat (lexeme : string).

Inductive json :=
  | JNull
  | JBool (b : bool)
  | JNumber (n : number)
  | JString (s : string)
  | JArray (l : list json)
  | JObject (entries : list (string * json)).

#[export] Instance number_eq_dec : EqDecision number.
Proof. solve_decision. Defined.

(** ** Decoders *)

Definition decoder (A : Type) : Type := json → outcome () A.

(** [from_json_str(...)?] in a function with its own error type. *)
Definition map_err {E E' A} (f : E → E') (m : outcome E A) : outcome E' A :=
  match m with
  | Ok a => Ok a
  | Err e => Err (f e)
  | Panic => Panic
  end.

(** [Result::ok] in a function that may itself panic. *)
Definition try_ok {E E' A} (m : outcome E A) : outcome E' (option A) :=
  match m with
  | Ok a => Ok (Some a)
  | Err _ => Ok None
  | Panic => Panic
  end.

Definition de_string : decoder string := λ j,
  match j with JString s => Ok s | _ => Err () end.
Definition de_bool : decoder bool := λ j,
  match j with JBool b => Ok b | _ => Err () end.

(** js_int without float_deserialize: an [i64] (a [u64]) in the safe range. *)
Definition de_int : decoder Z := λ j,
  match j with
  | JNumber (NInt z) => if int_in_range z then Ok z else Err ()
  | _ => Err ()
  end.
Definition de_uint : decoder Z := λ j,
  match j with
  | JNumber (NInt z) => if uint_in_range z then Ok z else Err ()
  | _ => Err ()
  end.

(** [Raw<T>] and [Box<RawJsonValue>] keep the text; [IgnoredAny] accepts anything. *)
Definition de_raw : decoder json := λ j, Ok j.
Definition de_ignored : decoder () := λ _, Ok ().

Definition de_option {A} (d : decoder A) : decoder (option A) := λ j,
  match j with
  | JNull => Ok None
  | _ => Some <$> d j
  end.

(** A string followed by a fallible conversion: the identifier types. *)
Definition de_parse {E A} (p : string → outcome E A) : decoder A := λ j,
  s ← de_string j;
  map_err (λ _, ()) (p s).

Definition de_string_enum {A} `{StringEnum A} : decoder A := λ j, from <$> de_string j.

Definition de_list {A} (d : decoder A) : decoder (list A) := λ j,
  match j with
  | JArray l => for_each (λ acc x, a ← d x; Ok (acc ++ [a])%list) [] l
  | _ => Err ()
  end.

(** A [BTreeMap]: a later entry replaces an earlier one with the same key. *)
Definition de_map {K A} `{Countable K} (dk : string → outcome () K) (d : decoder A) :
    decoder (gmap K A) := λ j,
  match j with
  | JObject entries =>
      for_each (λ acc kv, k ← dk kv.1; v ← d kv.2; Ok (<[k := v]> acc)) ∅ entries
  | _ => Err ()
  end.

(** ** Structs *)

Definition assoc {A} (key : string) (entries : list (string * A)) : option A :=
  snd ∘ snd <$> list_find (λ kv, kv.1 = key) entries.

(** The entries of one object whose known keys are distinct, or the items of an array. *)
Inductive struct_source :=
  | FromMap (entries : list (string * json))
  | FromSeq (items : list json).

Definition struct_src (fields : list string) (j : json) : outcome () struct_source :=
  match j with
  | JObject entries =>
      if decide (NoDup (filter (λ k, k ∈ fields) entries.*1)) then Ok (FromMap entries)
      else Err ()
  | JArray items =>
      if bool_decide (length items ≤ length fields) then Ok (FromSeq items) else Err ()
  | _ => Err ()
  end.

Definition lookup_field (fields : list string) (name : string) (src : struct_source) :
    option json :=
  match src with
  | FromMap entries => assoc name entries
  | FromSeq items =>
      match list_find (λ f, f = name) fields with
      | Some (i, _) => items !! i
      | None => None
      end
  end.

(** A field without attributes, an [Option] field, a field with a default. *)
Definition field_req {A} (fields : list string) (name : string) (d : decoder A)
    (src : struct_source) : outcome () A :=
  match lookup_field fields name src with
  | Some j => d j
  | None => Err ()
  end.

Definition field_opt {A} (fields : list string) (name : string) (d : decoder A)
    (src : struct_source) : outcome () (option A) :=
  match lookup_field fields name src, src with
  | Some j, _ => de_option d j
  | None, FromMap _ => Ok None
  | None, FromSeq _ => Err ()
  end.

Definition field_default {A} (fields : list string) (name : string) (dflt : A) (d : decoder A)
    (src : struct_source) : outcome () A :=
  match lookup_field fields name src with
  | Some j => d j
  | None => Ok dflt
  end.

(** [Value::get] *)
Definition json_get (name : string) (j : json) : option json :=
  match j with
  | JObject entries => assoc name entries
  | _ => None
  end.

(** ** Lemmas *)

Lemma map_err_Ok {E E' A} (f : E → E') (m : outcome E A) a : map_err f m = Ok a ↔ m = Ok a.
Proof. destruct m; simpl; naive_solver. Qed.

Lemma try_ok_Some {E E' A} (m : outcome E A) a :
  try_ok (E':=E') m = Ok (Some a) ↔ m = Ok a.
Proof. destruct m; simpl; naive_solver. Qed.

#[export] Hint Rewrite @map_err_Ok @try_ok_Some : ruma.

Lemma de_int_range j z : de_int j = Ok z → int_in_range z = true.
Proof. unfold de_int. intros. case_match_simpl. done. Qed.

Lemma de_string_Ok j s : de_string j = Ok s ↔ j = JString s.
Proof. destruct j; naive_solver. Qed.

Lemma assoc_cons {A} key k (v : A) l :
  assoc key ((k, v) :: l) = if decide (k = key) then Some v else assoc key l.
Proof.
  unfold assoc. simpl. case_decide; [done|].
  destruct (list_find _ l) as [[i [k' v']]|]; done.
Qed.

Lemma assoc_app {A} k (l1 l2 : list (string * A)) :
  assoc k (l1 ++ l2) = match assoc k l1 with Some v => Some v | None => assoc k l2 end.
Proof.
  induction l1 as [|[k' v] l1 IH]; [done|].
  rewrite <- app_comm_cons, !assoc_cons. case_decide; [done|apply IH].
Qed.

Lemma assoc_Some_elem {A} key (v : A) l : assoc key l = Some v → (key, v) ∈ l.
Proof.
  induction l as [|[k w] l IH]; [done|]. rewrite assoc_cons.
  case_decide; intros; simplify_eq; [by left|right; auto].
Qed.

Lemma assoc_elem {A} key (v : A) l : NoDup l.*1 → (key, v) ∈ l → assoc key l = Some v.
Proof.
  induction l as [|[k w] l IH]; simpl; [by intros _ ?%elem_of_nil|].
  intros [Hk Hnd]%list.NoDup_cons Hin. rewrite assoc_cons.
  apply elem_of_cons in Hin as [[= -> ->]|Hin]; [by rewrite decide_True|].
  rewrite decide_False; [auto|]. intros ->. apply Hk. by apply (list_elem_of_fmap_2 fst _ (key, v)).
Qed.

(** The object decoder of maps reads back a map written entry by entry. *)
Lemma de_map_Ok_values {K A} `{Countable K} (dk : string → outcome () K) (d : decoder A) (P : A → Prop)
    j m :
  (∀ j a, d j = Ok a → P a) → de_map dk d j = Ok m → map_Forall (λ _ v, P v) m.
Proof.
  intros Hd. destruct j; simpl; try done. intros Hm.
  refine (for_each_inv (map_Forall (λ _ v, P v)) _ _ _ _ _ _ Hm); [|by apply map_Forall_empty].
  intros m1 [k j] m2 _ Hm1 (k' & _ & (v & Hv & [= <-])%bind_Ok)%bind_Ok.
  apply map_Forall_insert_2; eauto.
Qed.
