(* ===== verification/EventTypes.v ===== *)
(** * Event types

    The enum that [event_enum!] generates from the lists in [ruma-events/src/enums.rs]: one
    unit variant per known type, renamed to its type string, and a variant for every other
    string. Default features. *)

From S2P Require Import Prelude RustStr StringEnum.
From Stdlib Require Import Ascii NArith.
Open Scope string_scope.
Open Scope nat_scope.

Inductive EventType :=
  (* global account data *)
  | Direct | IgnoredUserList | PushRules
  (* room account data *)
  | FullyRead | Tag
  (* ephemeral *)
  | Receipt | Typing
  (* message *)
  | CallAnswer | CallInvite | CallHangup | CallCandidates
  | RoomEncrypted | RoomMessage | RoomMessageFeedback | RoomRedaction | Sticker
  (* state *)
  | PolicyRuleRoom | PolicyRuleServer | PolicyRuleUser
  | RoomAliases | RoomAvatar | RoomCanonicalAlias | RoomCreate | RoomEncryption
  | RoomGuestAccess | RoomHistoryVisibility | RoomJoinRules | RoomMember | RoomName
  | RoomPinnedEvents | RoomPowerLevels | RoomServerAcl | RoomThirdPartyInvite
  | RoomTombstone | RoomTopic
  (* to-device *)
  | Dummy | RoomKey | RoomKeyRequest | ForwardedRoomKey
  | KeyVerificationRequest | KeyVerificationStart | KeyVerificationCancel
  | KeyVerificationAccept | KeyVerificationKey | KeyVerificationMac
  (* added by the macro *)
  | Presence
  | EventType_Custom (s : string).

#[export] Instance EventType_eq_dec : EqDecision EventType.
Proof. solve_decision. Defined.

(** The variant's name, its [rename], the variant. *)
Definition event_type_variants : list (string * option string * EventType) :=
  [ ("Direct", Some "m.direct", Direct);
    ("IgnoredUserList", Some "m.ignored_user_list", IgnoredUserList);
    ("PushRules", Some "m.push_rules", PushRules);
    ("FullyRead", Some "m.fully_read", FullyRead);
    ("Tag", Some "m.tag", Tag);
    ("Receipt", Some "m.receipt", Receipt);
    ("Typing", Some "m.typing", Typing);
    ("CallAnswer", Some "m.call.answer", CallAnswer);
    ("CallInvite", Some "m.call.invite", CallInvite);
    ("CallHangup", Some "m.call.hangup", CallHangup);
    ("CallCandidates", Some "m.call.candidates", CallCandidates);
    ("RoomEncrypted", Some "m.room.encrypted", RoomEncrypted);
    ("RoomMessage", Some "m.room.message", RoomMessage);
    ("RoomMessageFeedback", Some "m.room.message.feedback", RoomMessageFeedback);
    ("RoomRedaction", Some "m.room.redaction", RoomRedaction);
    ("Sticker", Some "m.sticker", Sticker);
    ("PolicyRuleRoom", Some "m.policy.rule.room", PolicyRuleRoom);
    ("PolicyRuleServer", Some "m.policy.rule.server", PolicyRuleServer);
    ("PolicyRuleUser", Some "m.policy.rule.user", PolicyRuleUser);
    ("RoomAliases", Some "m.room.aliases", RoomAliases);
    ("RoomAvatar", Some "m.room.avatar", RoomAvatar);
    ("RoomCanonicalAlias", Some "m.room.canonical_alias", RoomCanonicalAlias);
    ("RoomCreate", Some "m.room.create", RoomCreate);
    ("RoomEncryption", Some "m.room.encryption", RoomEncryption);
    ("RoomGuestAccess", Some "m.room.guest_access", RoomGuestAccess);
    ("RoomHistoryVisibility", Some "m.room.history_visibility", RoomHistoryVisibility);
    ("RoomJoinRules", Some "m.room.join_rules", RoomJoinRules);
    ("RoomMember", Some "m.room.member", RoomMember);
    ("RoomName", Some "m.room.name", RoomName);
    ("RoomPinnedEvents", Some "m.room.pinned_events", RoomPinnedEvents);
    ("RoomPowerLevels", Some "m.room.power_levels", RoomPowerLevels);
    ("RoomServerAcl", Some "m.room.server_acl", RoomServerAcl);
    ("RoomThirdPartyInvite", Some "m.room.third_party_invite", RoomThirdPartyInvite);
    ("RoomTombstone", Some "m.room.tombstone", RoomTombstone);
    ("RoomTopic", Some "m.room.topic", RoomTopic);
    ("Dummy", Some "m.dummy", Dummy);
    ("RoomKey", Some "m.room_key", RoomKey);
    ("RoomKeyRequest", Some "m.room_key_request", RoomKeyRequest);
    ("ForwardedRoomKey", Some "m.forwarded_room_key", ForwardedRoomKey);
    ("KeyVerificationRequest", Some "m.key.verification.request", KeyVerificationRequest);
    ("KeyVerificationStart", Some "m.key.verification.start", KeyVerificationStart);
    ("KeyVerificationCancel", Some "m.key.verification.cancel", KeyVerificationCancel);
    ("KeyVerificationAccept", Some "m.key.verification.accept", KeyVerificationAccept);
    ("KeyVerificationKey", Some "m.key.verification.key", KeyVerificationKey);
    ("KeyVerificationMac", Some "m.key.verification.mac", KeyVerificationMac);
    ("Presence", Some "m.presence", Presence) ].

#[export, refine] Instance EventType_enum : StringEnum EventType := {|
  rename_all := RenameNone;
  unit_variants := event_type_variants;
  custom := EventType_Custom;
  custom_inner a := match a with EventType_Custom s => Some s | _ => None end
|}.
Proof.
  - done.
  - intros [] ?; naive_solver.
  - intros a Ha. apply (bool_decide_unpack _). destruct a; [vm_compute; exact I..|discriminate Ha].
  - intros a Ha. apply dec_stable. intros Hn. revert Ha.
    destruct a; [exfalso; apply Hn; reflexivity..|]. decide_it.
  - decide_it.
Defined.

(** The type strings are distinct, so a known type is read back from its string. *)
Lemma event_type_strings_distinct : NoDup (variant_str <$> unit_variants (A:=EventType)).
Proof. decide_it. Qed.

#[export] Instance EventType_countable : Countable EventType.
Proof.
  refine (inj_countable'
    (λ a : EventType, match custom_inner a with Some s => inr s | None => inl (as_ref a) end)
    (λ s : string + string, match s with inl s => from s | inr s => custom s end) _).
  intros a. destruct (custom_inner a) as [s|] eqn:Ha.
  - by rewrite (custom_inner_inv a s Ha).
  - apply from_as_ref_unit; [apply event_type_strings_distinct|done].
Defined.
