(* ===== verification/EventContents.v ===== *)
(** * Event contents

    The contents of the room events that authorization reads, from [ruma-events/src/room] and
    [ruma-common/src/power_levels.rs]: the structs, their decoders and, for power levels, their
    serialization; the Module [Membership] for membership changes. Fields behind the
    [unstable-pre-spec] feature are absent. *)

From S2P Require Import Prelude RustStr RustNet IdValidation StringEnum Identifiers Json.
From S2P Require Import EventTypes.
From Stdlib Require Import Ascii NArith.
Open Scope string_scope.
Open Scope nat_scope.

(** ** member.rs *)

Inductive MembershipState :=
  | Ban | Invite | Join | Knock | Leave
  | MembershipState_Custom (s : string).

#[export] Instance MembershipState_eq_dec : EqDecision MembershipState.
Proof. solve_decision. Defined.

#[export, refine] Instance MembershipState_enum : StringEnum MembershipState := {|
  rename_all := LowerCase;
  unit_variants := [("Ban", None, Ban); ("Invite", None, Invite); ("Join", None, Join);
                    ("Knock", None, Knock); ("Leave", None, Leave)];
  custom := MembershipState_Custom;
  custom_inner a := match a with MembershipState_Custom s => Some s | _ => None end
|}.
Proof. all: string_enum_laws. Defined.

Definition de_MembershipState : decoder MembershipState := de_string_enum.

(** An identifier as a map key. *)
Definition key_parse {A} (p : string → outcome Error A) (k : string) : outcome () A :=
  map_err (λ _, ()) (p k).

(** [SigningKeyId]'s [try_from]: the validator, whose index is dropped. *)
Definition SigningKeyId_parse `{Unicode} (s : string) : outcome Error string :=
  _ ← key_id_validate s;
  Ok s.

Record SignedContent := {
  mxid : string;
  signatures : gmap string (gmap string string);
  token : string
}.

Record ThirdPartyInvite := {
  tpi_display_name : string;
  signed : SignedContent
}.

Record RoomMemberEventContent := {
  avatar_url : option string;
  displayname : option string;
  is_direct : option bool;
  membership : MembershipState;
  third_party_invite : option ThirdPartyInvite
}.

Section decoders.
Context `{Unicode}.

Definition de_SignedContent : decoder SignedContent := λ j,
  let fields := ["mxid"; "signatures"; "token"] in
  src ← struct_src fields j;
  mxid ← field_req fields "mxid" (de_parse UserId_parse) src;
  signatures ← field_req fields "signatures"
    (de_map (key_parse ServerName_parse) (de_map (key_parse SigningKeyId_parse) de_string)) src;
  token ← field_req fields "token" de_string src;
  Ok {| mxid := mxid; signatures := signatures; token := token |}.

Definition de_ThirdPartyInvite : decoder ThirdPartyInvite := λ j,
  let fields := ["display_name"; "signed"] in
  src ← struct_src fields j;
  display_name ← field_req fields "display_name" de_string src;
  signed ← field_req fields "signed" de_SignedContent src;
  Ok {| tpi_display_name := display_name; signed := signed |}.

Definition de_RoomMemberEventContent : decoder RoomMemberEventContent := λ j,
  let fields := ["avatar_url"; "displayname"; "is_direct"; "membership"; "third_party_invite"] in
  src ← struct_src fields j;
  avatar_url ← field_opt fields "avatar_url" de_string src;
  displayname ← field_opt fields "displayname" de_string src;
  is_direct ← field_opt fields "is_direct" de_bool src;
  membership ← field_req fields "membership" de_MembershipState src;
  third_party_invite ← field_opt fields "third_party_invite" de_ThirdPartyInvite src;
  Ok {| avatar_url := avatar_url; displayname := displayname; is_direct := is_direct;
        membership := membership; third_party_invite := third_party_invite |}.
End decoders.

(** ** third_party_invite.rs *)

Record PublicKey := {
  pk_key_validity_url : option string;
  pk_public_key : string
}.

Record RoomThirdPartyInviteEventContent := {
  tpe_display_name : string;
  tpe_key_validity_url : string;
  tpe_public_key : string;
  tpe_public_keys : option (list PublicKey)
}.

Definition de_PublicKey : decoder PublicKey := λ j,
  let fields := ["key_validity_url"; "public_key"] in
  src ← struct_src fields j;
  url ← field_opt fields "key_validity_url" de_string src;
  key ← field_req fields "public_key" de_string src;
  Ok {| pk_key_validity_url := url; pk_public_key := key |}.

Definition de_RoomThirdPartyInviteEventContent : decoder RoomThirdPartyInviteEventContent := λ j,
  let fields := ["display_name"; "key_validity_url"; "public_key"; "public_keys"] in
  src ← struct_src fields j;
  display_name ← field_req fields "display_name" de_string src;
  url ← field_req fields "key_validity_url" de_string src;
  key ← field_req fields "public_key" de_string src;
  keys ← field_opt fields "public_keys" (de_list de_PublicKey) src;
  Ok {| tpe_display_name := display_name; tpe_key_validity_url := url;
        tpe_public_key := key; tpe_public_keys := keys |}.

(** ** join_rules.rs *)

Inductive JoinRule :=
  | JR_Invite | JR_Knock | JR_Private | JR_Public
  | JoinRule_Custom (rule : string).

#[export] Instance JoinRule_eq_dec : EqDecision JoinRule.
Proof. solve_decision. Defined.

Definition JoinRule_as_str (r : JoinRule) : string :=
  match r with
  | JR_Invite => "invite"
  | JR_Knock => "knock"
  | JR_Private => "private"
  | JR_Public => "public"
  | JoinRule_Custom rule => rule
  end.

Definition de_JoinRule : decoder JoinRule := λ j,
  let fields := ["join_rule"] in
  src ← struct_src fields j;
  join_rule ← field_opt fields "join_rule" de_string src;
  join_rule ← ok_or () join_rule;
  if decide (join_rule = "invite") then Ok JR_Invite
  else if decide (join_rule = "knock") then Ok JR_Knock
  else if decide (join_rule = "private") then Ok JR_Private
  else if decide (join_rule = "public") then Ok JR_Public
  else Ok (JoinRule_Custom join_rule).

Record RoomJoinRulesEventContent := { join_rule : JoinRule }.

Definition de_RoomJoinRulesEventContent : decoder RoomJoinRulesEventContent := λ j,
  join_rule ← de_JoinRule j;
  Ok {| join_rule := join_rule |}.

(** ** create.rs *)

Record PreviousRoom := { pr_room_id : string; pr_event_id : string }.

Record RoomCreateEventContent := {
  creator : string;
  federate : bool;
  room_version : RoomVersionId;
  predecessor : option PreviousRoom
}.

Definition default_room_version_id : RoomVersionId := V1.

Definition RoomCreateEventContent_new (creator : string) : RoomCreateEventContent :=
  {| creator := creator; federate := true; room_version := default_room_version_id;
     predecessor := None |}.

(** [crate::deserialize_id] *)
Definition de_RoomVersionId : decoder RoomVersionId := de_parse RoomVersionId_try_from.

Definition de_PreviousRoom : decoder PreviousRoom := λ j,
  let fields := ["room_id"; "event_id"] in
  src ← struct_src fields j;
  room_id ← field_req fields "room_id" (de_parse RoomId_parse) src;
  event_id ← field_req fields "event_id" (de_parse EventId_parse) src;
  Ok {| pr_room_id := room_id; pr_event_id := event_id |}.

Definition de_RoomCreateEventContent : decoder RoomCreateEventContent := λ j,
  let fields := ["creator"; "m.federate"; "room_version"; "predecessor"] in
  src ← struct_src fields j;
  creator ← field_req fields "creator" (de_parse UserId_parse) src;
  federate ← field_default fields "m.federate" true de_bool src;
  room_version ← field_default fields "room_version" default_room_version_id
    de_RoomVersionId src;
  predecessor ← field_opt fields "predecessor" de_PreviousRoom src;
  Ok {| creator := creator; federate := federate; room_version := room_version;
        predecessor := predecessor |}.

(** ** ruma-common: power_levels.rs *)

Definition default_power_level : Z := 50.

Record NotificationPowerLevels := { room : Z }.

#[export] Instance NotificationPowerLevels_eq_dec : EqDecision NotificationPowerLevels.
Proof. solve_decision. Defined.

Definition NotificationPowerLevels_new : NotificationPowerLevels :=
  {| room := default_power_level |}.

Definition NotificationPowerLevels_get (n : NotificationPowerLevels) (key : string) : option Z :=
  if decide (key = "room") then Some (room n) else None.

Definition de_NotificationPowerLevels : decoder NotificationPowerLevels := λ j,
  let fields := ["room"] in
  src ← struct_src fields j;
  room ← field_default fields "room" default_power_level de_int src;
  Ok {| room := room |}.

(** ** room/power_levels.rs *)

Record RoomPowerLevelsEventContent := {
  ban : Z;
  events : gmap EventType Z;
  events_default : Z;
  invite : Z;
  kick : Z;
  redact : Z;
  state_default : Z;
  users : gmap string Z;
  users_default : Z;
  notifications : NotificationPowerLevels
}.

Definition RoomPowerLevelsEventContent_new : RoomPowerLevelsEventContent := {|
  ban := default_power_level;
  events := ∅;
  events_default := 0;
  invite := default_power_level;
  kick := default_power_level;
  redact := default_power_level;
  state_default := default_power_level;
  users := ∅;
  users_default := 0;
  notifications := NotificationPowerLevels_new
|}.

Definition power_levels_fields : list string :=
  ["ban"; "events"; "events_default"; "invite"; "kick"; "redact"; "state_default"; "users";
   "users_default"; "notifications"].

(** A map key that is a string enum is read without failure. *)
Definition key_enum {A} `{StringEnum A} (k : string) : outcome () A := Ok (from k).

Definition de_RoomPowerLevelsEventContent : decoder RoomPowerLevelsEventContent := λ j,
  let fields := power_levels_fields in
  src ← struct_src fields j;
  ban ← field_default fields "ban" default_power_level de_int src;
  events ← field_default fields "events" ∅ (de_map key_enum de_int) src;
  events_default ← field_default fields "events_default" 0%Z de_int src;
  invite ← field_default fields "invite" default_power_level de_int src;
  kick ← field_default fields "kick" default_power_level de_int src;
  redact ← field_default fields "redact" default_power_level de_int src;
  state_default ← field_default fields "state_default" default_power_level de_int src;
  users ← field_default fields "users" ∅ (de_map (key_parse UserId_parse) de_int) src;
  users_default ← field_default fields "users_default" 0%Z de_int src;
  notifications ← field_default fields "notifications" NotificationPowerLevels_new
    de_NotificationPowerLevels src;
  Ok {| ban := ban; events := events; events_default := events_default; invite := invite;
        kick := kick; redact := redact; state_default := state_default; users := users;
        users_default := users_default; notifications := notifications |}.

Definition is_default_power_level (l : Z) : bool := bool_decide (l = 50%Z).

(** [serde_json::to_value]: an entry per field, unless [skip_serializing_if] drops it. *)
Definition ser_int (z : Z) : json := JNumber (NInt z).
Definition ser_map {K} `{Countable K} (key : K → string) (m : gmap K Z) : json :=
  JObject ((λ kv, (key kv.1, ser_int kv.2)) <$> map_to_list m).
Definition ser_field (name : string) (skip : bool) (j : json) : list (string * json) :=
  if skip then [] else [(name, j)].

Definition power_levels_to_value (c : RoomPowerLevelsEventContent) : json :=
  JObject (mjoin
    [ ser_field "ban" (is_default_power_level (ban c)) (ser_int (ban c));
      ser_field "events" (bool_decide (events c = ∅)) (ser_map as_ref (events c));
      ser_field "events_default" (bool_decide (events_default c = 0%Z))
        (ser_int (events_default c));
      ser_field "invite" (is_default_power_level (invite c)) (ser_int (invite c));
      ser_field "kick" (is_default_power_level (kick c)) (ser_int (kick c));
      ser_field "redact" (is_default_power_level (redact c)) (ser_int (redact c));
      ser_field "state_default" (is_default_power_level (state_default c))
        (ser_int (state_default c));
      ser_field "users" (bool_decide (users c = ∅)) (ser_map id (users c));
      ser_field "users_default" (bool_decide (users_default c = 0%Z))
        (ser_int (users_default c));
      ser_field "notifications"
        (bool_decide (notifications c = NotificationPowerLevels_new))
        (JObject [("room", ser_int (room (notifications c)))]) ]).

(** ** ruma-state-res: the power level fields the sort reads *)

Record PowerLevelsContentFields := {
  plf_users : gmap string Z;
  plf_users_default : Z
}.

Definition de_PowerLevelsContentFields : decoder PowerLevelsContentFields := λ j,
  let fields := ["users"; "users_default"] in
  src ← struct_src fields j;
  users ← field_default fields "users" ∅ (de_map (key_parse UserId_parse) de_int) src;
  users_default ← field_default fields "users_default" 0%Z de_int src;
  Ok {| plf_users := users; plf_users_default := users_default |}.

(** ** member.rs: what the step from one member event to the next means, and the redaction of
    member contents *)

Module Membership.
Inductive MembershipChange :=
  | NoChange
  | ChangeError
  | Joined
  | Left
  | Banned
  | Unbanned
  | Kicked
  | Invited
  | KickedAndBanned
  | InvitationRejected
  | InvitationRevoked
  | ProfileChanged (displayname_changed avatar_url_changed : bool)
  | NotImplemented.

#[export] Instance MembershipChange_eq_dec : EqDecision MembershipChange.
Proof. solve_decision. Defined.

(** The content assumed when there is no previous one, and [RoomMemberEventContent::new]. *)
Definition RoomMemberEventContent_new (m : MembershipState) : RoomMemberEventContent :=
  {| avatar_url := None; displayname := None; is_direct := None; membership := m;
     third_party_invite := None |}.

Definition membership_change (content : RoomMemberEventContent)
    (prev_content : option RoomMemberEventContent) (sender state_key : string) :
    MembershipChange :=
  let prev_content := default (RoomMemberEventContent_new Leave) prev_content in
  match membership prev_content, membership content with
  | Invite, Invite | Leave, Leave | Ban, Ban => NoChange
  | Invite, Join | Leave, Join => Joined
  | Invite, Leave =>
      if decide (sender = state_key) then InvitationRevoked else InvitationRejected
  | Invite, Ban | Leave, Ban => Banned
  | Join, Invite | Ban, Invite | Ban, Join => ChangeError
  | Join, Join =>
      ProfileChanged
        (bool_decide (displayname prev_content ≠ displayname content))
        (bool_decide (avatar_url prev_content ≠ avatar_url content))
  | Join, Leave => if decide (sender = state_key) then Left else Kicked
  | Join, Ban => KickedAndBanned
  | Leave, Invite => Invited
  | Ban, Leave => Unbanned
  | _, _ => NotImplemented
  end.

(** [RedactContent for RoomMemberEventContent]: only the membership is kept. *)
Record RedactedRoomMemberEventContent := { redacted_membership : MembershipState }.
Definition redact_member (c : RoomMemberEventContent) (version : RoomVersionId) :
    RedactedRoomMemberEventContent :=
  {| redacted_membership := membership c |}.

(** ** What the changes mean *)

(** A user is in the room exactly while the membership is join: the changes that report an
    entry or an exit agree with it, whoever sent the event. *)
Definition in_room (m : MembershipState) : Prop := m = Join.
Definition is_exit (ch : MembershipChange) : Prop :=
  ch = Left ∨ ch = Kicked ∨ ch = KickedAndBanned.
Definition is_known (m : MembershipState) : Prop :=
  m ∈ [Ban; Invite; Join; Leave].

(** The change reported for a member event agrees with the two memberships: an entry into
    the room is [Joined] or impossible, an exit is [Left] when the user sent it and [Kicked] or
    [KickedAndBanned] otherwise, profile changes are steps from join to join, and the
    catch-all is reported exactly when one of the memberships is not ban, invite, join or
    leave. *)
Theorem membership_change_spec content prev sender state_key :
  let p := default Leave (membership <$> prev) in
  let m := membership content in
  let ch := membership_change content prev sender state_key in
  (ch = Joined ↔ (p = Invite ∨ p = Leave) ∧ m = Join) ∧
  (is_exit ch ↔ p = Join ∧ (m = Leave ∨ m = Ban)) ∧
  (ch = Left ↔ p = Join ∧ m = Leave ∧ sender = state_key) ∧
  ((∃ d a, ch = ProfileChanged d a) ↔ p = Join ∧ m = Join) ∧
  (ch = Unbanned ↔ p = Ban ∧ m = Leave) ∧
  (ch = ChangeError ↔ (p = Join ∨ p = Ban) ∧ m = Invite ∨ p = Ban ∧ m = Join) ∧
  (ch = NotImplemented ↔ ¬ is_known p ∨ ¬ is_known m).
Proof.
  intros p m ch. subst p m ch. unfold membership_change, is_exit, is_known.
  replace (default Leave (membership <$> prev))
    with (membership (default (RoomMemberEventContent_new Leave) prev)) by by destruct prev.
  generalize (default (RoomMemberEventContent_new Leave) prev) as pc. intros pc.
  destruct (membership pc) as [| | | | |s], (membership content) as [| | | | |t]; simpl;
    try case_decide; split_and!; set_unfold; naive_solver.
Qed.

(** When an invited user leaves by an event of their own the change is reported as a
    revocation by others, and a revocation by others is reported as the user's rejection. *)
Theorem invitation_end_swapped content prev sender state_key :
  membership prev = Invite → membership content = Leave →
  (sender = state_key →
     membership_change content (Some prev) sender state_key = InvitationRevoked) ∧
  (sender ≠ state_key →
     membership_change content (Some prev) sender state_key = InvitationRejected).
Proof.
  intros Hp Hm. unfold membership_change. simpl. rewrite Hp, Hm.
  split; intros; [by rewrite decide_True|by rewrite decide_False].
Qed.

Lemma invitation_end_swapped_witness :
  membership_change (RoomMemberEventContent_new Leave)
    (Some (RoomMemberEventContent_new Invite)) "@bob:a" "@bob:a" = InvitationRevoked.
Proof.
  apply (invitation_end_swapped (RoomMemberEventContent_new Leave)
    (RoomMemberEventContent_new Invite) "@bob:a" "@bob:a"); reflexivity.
Defined.
End Membership.
