(* ===== verification/RoomVersions.v ===== *)
(** * Room versions and events in state resolution

    [ruma-state-res/src/room_version.rs], [error.rs] and [state_event.rs]: the table of rules
    per room version, the errors, and an event as the [Event] trait presents it. *)

From S2P Require Import Prelude RustStr RustNet IdValidation StringEnum Identifiers Json.
From S2P Require Import EventTypes.
Open Scope string_scope.
Open Scope nat_scope.

(** ** error.rs *)

Inductive StateError :=
  | SerdeJson
  | Unsupported (s : string)
  | NotFound (s : string)
  | InvalidPdu (s : string)
  | Custom.

#[export] Instance StateError_eq_dec : EqDecision StateError.
Proof. solve_decision. Defined.

(** [from_json_str(...)?] *)
Definition from_json {A} (m : outcome () A) : outcome StateError A := map_err (λ _, SerdeJson) m.

(** A call that is not a [Result] in the code. *)
Definition infallible {E E' A} (m : outcome E A) : outcome E' A :=
  match m with Ok a => Ok a | _ => Panic end.

(** ** state_event.rs *)

Record Event := {
  event_id : string;
  room_id : string;
  sender : string;
  origin_server_ts : Z;
  event_type : EventType;
  content : json;
  state_key : option string;
  prev_events : list string;
  auth_events : list string;
  redacts : option string
}.

(** ** room_version.rs *)

Inductive RoomDisposition := Stable | Unstable.
Inductive EventFormatVersion := EventFormatV1 | EventFormatV2 | EventFormatV3.
Inductive StateResolutionVersion := StateResV1 | StateResV2.

Record RoomVersion := {
  version : RoomVersionId;
  disposition : RoomDisposition;
  event_format : EventFormatVersion;
  state_res : StateResolutionVersion;
  enforce_key_validity : bool;
  special_case_aliases_auth : bool;
  strict_canonicaljson : bool;
  limit_notifications_power_levels : bool;
  extra_redaction_checks : bool;
  allow_knocking : bool;
  restricted_join_rules : bool
}.

Definition VERSION1 : RoomVersion := {|
  version := V1;
  disposition := Stable;
  event_format := EventFormatV1;
  state_res := StateResV1;
  enforce_key_validity := false;
  special_case_aliases_auth := true;
  strict_canonicaljson := false;
  limit_notifications_power_levels := false;
  extra_redaction_checks := false;
  allow_knocking := false;
  restricted_join_rules := false
|}.

Definition VERSION2 : RoomVersion := {|
  version := V2;
  disposition := disposition VERSION1;
  event_format := event_format VERSION1;
  state_res := StateResV2;
  enforce_key_validity := enforce_key_validity VERSION1;
  special_case_aliases_auth := special_case_aliases_auth VERSION1;
  strict_canonicaljson := strict_canonicaljson VERSION1;
  limit_notifications_power_levels := limit_notifications_power_levels VERSION1;
  extra_redaction_checks := extra_redaction_checks VERSION1;
  allow_knocking := allow_knocking VERSION1;
  restricted_join_rules := restricted_join_rules VERSION1
|}.

Definition VERSION3 : RoomVersion := {|
  version := V3;
  disposition := disposition VERSION2;
  event_format := EventFormatV2;
  state_res := state_res VERSION2;
  enforce_key_validity := enforce_key_validity VERSION2;
  special_case_aliases_auth := special_case_aliases_auth VERSION2;
  strict_canonicaljson := strict_canonicaljson VERSION2;
  limit_notifications_power_levels := limit_notifications_power_levels VERSION2;
  extra_redaction_checks := true;
  allow_knocking := allow_knocking VERSION2;
  restricted_join_rules := restricted_join_rules VERSION2
|}.

Definition VERSION4 : RoomVersion := {|
  version := V4;
  disposition := disposition VERSION3;
  event_format := EventFormatV3;
  state_res := state_res VERSION3;
  enforce_key_validity := enforce_key_validity VERSION3;
  special_case_aliases_auth := special_case_aliases_auth VERSION3;
  strict_canonicaljson := strict_canonicaljson VERSION3;
  limit_notifications_power_levels := limit_notifications_power_levels VERSION3;
  extra_redaction_checks := extra_redaction_checks VERSION3;
  allow_knocking := allow_knocking VERSION3;
  restricted_join_rules := restricted_join_rules VERSION3
|}.

Definition VERSION5 : RoomVersion := {|
  version := V5;
  disposition := disposition VERSION4;
  event_format := event_format VERSION4;
  state_res := state_res VERSION4;
  enforce_key_validity := true;
  special_case_aliases_auth := special_case_aliases_auth VERSION4;
  strict_canonicaljson := strict_canonicaljson VERSION4;
  limit_notifications_power_levels := limit_notifications_power_levels VERSION4;
  extra_redaction_checks := extra_redaction_checks VERSION4;
  allow_knocking := allow_knocking VERSION4;
  restricted_join_rules := restricted_join_rules VERSION4
|}.

(** The source writes [V5] here. *)
Definition VERSION6 : RoomVersion := {|
  version := V5;
  disposition := disposition VERSION5;
  event_format := event_format VERSION5;
  state_res := state_res VERSION5;
  enforce_key_validity := enforce_key_validity VERSION5;
  special_case_aliases_auth := false;
  strict_canonicaljson := true;
  limit_notifications_power_levels := true;
  extra_redaction_checks := extra_redaction_checks VERSION5;
  allow_knocking := allow_knocking VERSION5;
  restricted_join_rules := restricted_join_rules VERSION5
|}.

Definition RoomVersion_new (version : RoomVersionId) : outcome StateError RoomVersion :=
  match version with
  | V1 => Ok VERSION1
  | V2 => Ok VERSION2
  | V3 => Ok VERSION3
  | V4 => Ok VERSION4
  | V5 => Ok VERSION5
  | V6 => Ok VERSION6
  | ver => Err (Unsupported ("found version `" +:+ RoomVersionId_as_str ver +:+ "`"))
  end.

(** ** The table *)

(** The number of a stable version. *)
Definition version_number (v : RoomVersionId) : option nat :=
  match v with
  | V1 => Some 1 | V2 => Some 2 | V3 => Some 3 | V4 => Some 4 | V5 => Some 5 | V6 => Some 6
  | RoomVersionId_Custom _ => None
  end.

(** Rules for a room version exist exactly for the six stable versions, each rule is
    switched on from the version that introduced it, and the version recorded in the rules is
    the one asked for, except for version 6. *)
Theorem RoomVersion_new_spec v :
  (∀ n, version_number v = Some n → ∃ rv, RoomVersion_new v = Ok rv ∧
    (version rv = v ↔ n ≠ 6) ∧
    (state_res rv = StateResV2 ↔ 2 ≤ n) ∧
    (extra_redaction_checks rv = true ↔ 3 ≤ n) ∧
    (enforce_key_validity rv = true ↔ 5 ≤ n) ∧
    (special_case_aliases_auth rv = true ↔ n < 6) ∧
    (limit_notifications_power_levels rv = true ↔ 6 ≤ n) ∧
    (strict_canonicaljson rv = true ↔ 6 ≤ n) ∧
    allow_knocking rv = false ∧ restricted_join_rules rv = false) ∧
  (version_number v = None → ∃ s, RoomVersion_new v = Err (Unsupported s)).
Proof.
  split; destruct v; simpl; intros; simplify_eq; eexists;
    (split; [reflexivity|]) || reflexivity; split_and!; simpl; naive_solver lia.
Qed.

Lemma RoomVersion_new_spec_witness :
  version_number V6 = Some 6 ∧ ∃ rv, RoomVersion_new V6 = Ok rv ∧ (version rv = V6 ↔ 6 ≠ 6).
Proof.
  split; [reflexivity|].
  destruct (RoomVersion_new_spec V6) as [H _].
  destruct (H 6 eq_refl) as (rv & H1 & H2 & _). exists rv. exact (conj H1 H2).
Defined.
