(* ===== verification/EventAuth.v ===== *)
(** * Event authorization

    [ruma-state-res/src/event_auth.rs]: the authorization rules, function by function. The
    state snapshot is the argument [fetch_state]; log output is dropped. *)

From S2P Require Import Prelude RustStr RustNet IdValidation StringEnum Identifiers Json.
From S2P Require Import EventTypes EventContents RoomVersions.
From Stdlib Require Import Ascii NArith.
Open Scope string_scope.
Open Scope nat_scope.

(** [if !v.contains(&key) { v.push(key) }] *)
Definition push_unique {A} `{EqDecision A} (key : A) (v : list A) : list A :=
  if decide (key ∈ v) then v else v ++ [key].

(** [raw.map(|r| r.deserialize())] read as [Some(Ok(_))], or [and_then(... .ok())]. *)
Definition deserialize_ok {E A} (d : decoder A) (raw : option json) : outcome E (option A) :=
  match raw with
  | Some j => try_ok (d j)
  | None => Ok None
  end.

(** The comparisons of [Option<&Int>]: [None] is below every level. *)
Definition opt_gt (o : option Z) (level : Z) : bool :=
  match o with Some x => (level <? x)%Z | None => false end.
Definition opt_lt (a b : option Z) : bool :=
  match a, b with
  | None, Some _ => true
  | Some x, Some y => (x <? y)%Z
  | _, None => false
  end.
(** [o.filter(|&p| p >= level).is_some()], [o.filter(|&p| p < level).is_some()] *)
Definition opt_at_least (o : option Z) (level : Z) : bool :=
  match o with Some x => (level <=? x)%Z | None => false end.
Definition opt_below (o : option Z) (level : Z) : bool :=
  match o with Some x => (x <? level)%Z | None => false end.

(** ** The fields the rules read *)

(** [struct GetMembership { membership: MembershipState }] *)
Definition get_membership (content : json) : outcome StateError MembershipState :=
  from_json (src ← struct_src ["membership"] content;
             field_req ["membership"] "membership" de_MembershipState src).

(** [struct RoomMemberContentFields { membership: Option<Raw<MembershipState>> }] *)
Definition get_raw_membership (content : json) : outcome StateError (option json) :=
  from_json (src ← struct_src ["membership"] content;
             field_opt ["membership"] "membership" de_raw src).

(** [struct GetThirdPartyInvite { third_party_invite: Option<Raw<ThirdPartyInvite>> }] *)
Definition get_third_party_invite (content : json) : outcome StateError (option json) :=
  from_json (src ← struct_src ["third_party_invite"] content;
             field_opt ["third_party_invite"] "third_party_invite" de_raw src).

(** [struct PowerLevelsContentInvite { invite: Int }] and [PowerLevelsContentRedact]. *)
Definition get_level (name : string) : decoder Z := λ content,
  src ← struct_src [name] content;
  field_req [name] name de_int src.

Section event_auth.
Context `{Unicode}.

Definition auth_types_for_event (kind : EventType) (sender : string)
    (state_key : option string) (content : json) :
    outcome () (list (EventType * string)) :=
  if decide (kind = RoomCreate) then Ok []
  else
    let auth_types := [(RoomPowerLevels, ""); (RoomMember, sender); (RoomCreate, "")] in
    if decide (kind = RoomMember) then
      match state_key with
      | None => Ok auth_types
      | Some state_key =>
          let fields := ["membership"; "third_party_invite"] in
          src ← struct_src fields content;
          raw_membership ← field_opt fields "membership" de_raw src;
          raw_invite ← field_opt fields "third_party_invite" de_raw src;
          membership ← deserialize_ok de_MembershipState raw_membership;
          match membership with
          | None => Ok auth_types
          | Some membership =>
              let auth_types :=
                if decide (membership ∈ [Join; Invite])
                then push_unique (RoomJoinRules, "") auth_types else auth_types in
              let auth_types := push_unique (RoomMember, state_key) auth_types in
              if decide (membership = Invite) then
                t_id ← deserialize_ok de_ThirdPartyInvite raw_invite;
                match t_id with
                | Some t_id =>
                    Ok (push_unique (RoomThirdPartyInvite, token (signed t_id)) auth_types)
                | None => Ok auth_types
                end
              else Ok auth_types
          end
      end
    else Ok auth_types.

Definition verify_third_party_invite (target_user : option string) (sender_id : string)
    (tp_id : ThirdPartyInvite) (current_third_party_invite : option Event) :
    outcome StateError bool :=
  if decide (target_user ≠ Some (mxid (signed tp_id))) then Ok false
  else
    match current_third_party_invite with
    | None => Ok false
    | Some current_tpid =>
        if decide (state_key current_tpid ≠ Some (token (signed tp_id))) then Ok false
        else if decide (sender_id ≠ sender current_tpid) then Ok false
        else
          tpid_ev ← try_ok (de_RoomThirdPartyInviteEventContent (content current_tpid));
          match tpid_ev with
          | None => Ok false
          | Some tpid_ev =>
              Ok (existsb (λ key, bool_decide (pk_public_key key = token (signed tp_id)))
                    (default [] (tpe_public_keys tpid_ev))
                  || bool_decide (tpe_public_key tpid_ev = token (signed tp_id)))
          end
    end.

(** The match on the target membership, with everything it reads already extracted. *)
Definition membership_transition (target_user sender : string)
    (target_membership target_user_current_membership : MembershipState)
    (sender_is_joined : bool) (power_levels : RoomPowerLevelsEventContent)
    (sender_power target_power : option Z) (join_rules : JoinRule)
    (third_party_invite : option json) (current_third_party_invite : option Event) :
    outcome StateError bool :=
  match target_membership with
  | Join =>
      if decide (sender ≠ target_user) then Ok false
      else if decide (target_user_current_membership = Ban) then Ok false
      else Ok (bool_decide (join_rules = JR_Invite)
               && (bool_decide (target_user_current_membership = Join)
                   || bool_decide (target_user_current_membership = Invite))
               || bool_decide (join_rules = JR_Public))
  | Invite =>
      tp_id ← deserialize_ok de_ThirdPartyInvite third_party_invite;
      match tp_id with
      | Some tp_id =>
          if decide (target_user_current_membership = Ban) then Ok false
          else verify_third_party_invite (Some target_user) sender tp_id
                 current_third_party_invite
      | None =>
          if negb sender_is_joined
             || bool_decide (target_user_current_membership = Join)
             || bool_decide (target_user_current_membership = Ban)
          then Ok false
          else Ok (opt_at_least sender_power (invite power_levels))
      end
  | Leave =>
      if decide (sender = target_user) then
        Ok (bool_decide (target_user_current_membership = Join)
            || bool_decide (target_user_current_membership = Invite))
      else if negb sender_is_joined
              || bool_decide (target_user_current_membership = Ban)
                 && opt_below sender_power (ban power_levels)
      then Ok false
      else Ok (opt_at_least sender_power (kick power_levels) && opt_lt target_power sender_power)
  | Ban =>
      if negb sender_is_joined then Ok false
      else Ok (opt_at_least sender_power (ban power_levels) && opt_lt target_power sender_power)
  | _ => Ok false
  end.

Definition current_membership (member_event : option Event) :
    outcome StateError MembershipState :=
  match member_event with
  | Some pdu => get_membership (content pdu)
  | None => Ok Leave
  end.

Definition valid_membership_change (target_user : string)
    (target_user_membership_event : option Event) (sender : string)
    (sender_membership_event : option Event) (content_ : json) (prev_event : option Event)
    (current_third_party_invite power_levels_event join_rules_event : option Event) :
    outcome StateError bool :=
  target_membership ← get_membership content_;
  third_party_invite ← get_third_party_invite content_;
  sender_membership ← current_membership sender_membership_event;
  let sender_is_joined := bool_decide (sender_membership = Join) in
  target_user_current_membership ← current_membership target_user_membership_event;
  power_levels ←
    match power_levels_event with
    | Some ev => from_json (de_RoomPowerLevelsEventContent (content ev))
    | None => Ok RoomPowerLevelsEventContent_new
    end;
  let sender_power :=
    match users power_levels !! sender with
    | Some p => Some p
    | None => if sender_is_joined then Some (users_default power_levels) else None
    end in
  let target_power :=
    match users power_levels !! target_user with
    | Some p => Some p
    | None =>
        if bool_decide (target_membership = Join) then Some (users_default power_levels) else None
    end in
  join_rules ←
    match join_rules_event with
    | Some jr =>
        c ← from_json (de_RoomJoinRulesEventContent (content jr));
        Ok (join_rule c)
    | None => Ok JR_Invite
    end;
  if (match prev_event with
      | Some prev =>
          bool_decide (event_type prev = RoomCreate) && bool_decide (prev_events prev = [])
      | None => false
      end)
  then Ok true
  else membership_transition target_user sender target_membership
         target_user_current_membership sender_is_joined power_levels sender_power target_power
         join_rules third_party_invite current_third_party_invite.

Definition get_send_level (e_type : EventType) (state_key : option string)
    (power_lvl : option Event) : outcome StateError Z :=
  let from_content :=
    match power_lvl with
    | None => Ok None
    | Some ple => try_ok (de_RoomPowerLevelsEventContent (content ple))
    end in
  c ← from_content;
  Ok match c with
     | Some c =>
         match events c !! e_type with
         | Some level => level
         | None => if decide (is_Some state_key) then state_default c else events_default c
         end
     | None => if decide (is_Some state_key) then 50%Z else 0%Z
     end.

Definition can_send_event (event : Event) (ple : option Event) (user_level : Z) :
    outcome StateError bool :=
  event_type_power_level ← get_send_level (event_type event) (state_key event) ple;
  if (user_level <? event_type_power_level)%Z then Ok false
  else if match state_key event with
          | Some k => starts_with_char "@" k && bool_decide (k ≠ sender event)
          | None => false
          end
  then Ok false
  else Ok true.

(** The body of the loops over users and event types: does this key reject the event? *)
Definition level_change_rejected (old_level new_level : option Z) (is_sender : bool)
    (check_equal : bool) (user_level : Z) : bool :=
  if bool_decide (is_Some old_level) && bool_decide (is_Some new_level)
     && bool_decide (old_level = new_level)
  then false
  else (check_equal && negb is_sender && bool_decide (old_level = Some user_level))
       || (opt_gt old_level user_level || opt_gt new_level user_level).

Definition get_deserialize_levels (old new : json) (name : string) : option (Z * Z) :=
  old_lvl ← json_get name old;
  o ← ok (de_int old_lvl);
  new_lvl ← json_get name new;
  n ← ok (de_int new_lvl);
  Some (o, n).

Definition power_level_names : list string :=
  ["users_default"; "events_default"; "state_default"; "ban"; "redact"; "kick"; "invite"].

Definition check_power_levels (room_version : RoomVersion) (power_event : Event)
    (previous_power_event : option Event) (user_level : Z) :
    outcome StateError (option bool) :=
  if decide (state_key power_event ≠ Some "") then Ok None
  else
    match previous_power_event with
    | None => Ok (Some true)
    | Some current_state =>
        new_state ← infallible (de_RoomPowerLevelsEventContent (content power_event));
        old_state ← infallible (de_RoomPowerLevelsEventContent (content current_state));
        let user_levels_to_check := dom (users old_state) ∪ dom (users new_state) in
        let event_levels_to_check := dom (events old_state) ∪ dom (events new_state) in
        if existsb (λ user, level_change_rejected (users old_state !! user)
                              (users new_state !! user)
                              (bool_decide (user = sender power_event)) true user_level)
             (elements user_levels_to_check)
        then Ok (Some false)
        else if existsb (λ ev_type, level_change_rejected (events old_state !! ev_type)
                                      (events new_state !! ev_type) false false user_level)
                  (elements event_levels_to_check)
        then Ok (Some false)
        else if limit_notifications_power_levels room_version
                && bool_decide (room (notifications old_state) ≠ room (notifications new_state))
                && ((user_level <? room (notifications old_state))%Z
                    || (user_level <? room (notifications new_state))%Z)
        then Ok (Some false)
        else
          let old_value := power_levels_to_value old_state in
          let new_value := power_levels_to_value new_state in
          if existsb (λ lvl_name,
               match get_deserialize_levels old_value new_value lvl_name with
               | Some (old_lvl, new_lvl) =>
                   (user_level <? old_lvl)%Z || (user_level <? new_lvl)%Z
               | None => false
               end) power_level_names
          then Ok (Some false)
          else Ok (Some true)
    end.

Definition check_redaction (_room_version : RoomVersion) (redaction_event : Event)
    (user_level redact_level : Z) : outcome StateError bool :=
  if (redact_level <=? user_level)%Z then Ok true
  else
    own ← infallible (EventId_server_name (event_id redaction_event));
    redacted ←
      match redacts redaction_event with
      | Some id => infallible (EventId_server_name id)
      | None => Ok None
      end;
    Ok (bool_decide (own = redacted)).

(** The [m.room.create] branch of [auth_check]. *)
Definition check_room_create (incoming_event : Event) : outcome StateError bool :=
  if decide (prev_events incoming_event ≠ []) then Ok false
  else
    room_server ← infallible (server_name (room_id incoming_event));
    sender_server ← infallible (server_name (sender incoming_event));
    if decide (room_server ≠ sender_server) then Ok false
    else
      let fields := ["room_version"; "creator"] in
      src ← from_json (struct_src fields (content incoming_event));
      raw_version ← from_json (field_opt fields "room_version" de_raw src);
      raw_creator ← from_json (field_opt fields "creator" de_raw src);
      version ← deserialize_ok de_RoomVersionId raw_version;
      if bool_decide (is_Some raw_version) && bool_decide (version = None) then Ok false
      else if decide (raw_creator = None) then Ok false
      else Ok true.

(** The sender's level: from the power levels, or 100 for the creator when there are none. *)
Definition get_sender_power_level (sender : string) (power_levels_event : option Event)
    (room_create_event : Event) : outcome StateError Z :=
  match power_levels_event with
  | Some pl =>
      c ← try_ok (de_PowerLevelsContentFields (content pl));
      Ok match c with
         | Some c => default (plf_users_default c) (plf_users c !! sender)
         | None => 0%Z
         end
  | None =>
      c ← try_ok (de_RoomCreateEventContent (content room_create_event));
      Ok match c with
         | Some c => if decide (creator c = sender) then 100%Z else 0%Z
         | None => 0%Z
         end
  end.

(** The [m.room.third_party_invite] branch: the level needed to invite. *)
Definition get_invite_level (power_levels_event : option Event) : outcome StateError Z :=
  match power_levels_event with
  | Some pl => from_json (get_level "invite" (content pl))
  | None => Ok 50%Z
  end.

Definition get_redact_level (power_levels_event : option Event) : outcome StateError Z :=
  match power_levels_event with
  | Some pl => default 50%Z <$> try_ok (get_level "redact" (content pl))
  | None => Ok 50%Z
  end.

(** The [m.room.member] branch of [auth_check]. *)
Definition check_room_member (incoming_event : Event)
    (prev_event current_third_party_invite : option Event)
    (fetch_state : EventType → string → option Event) : outcome StateError bool :=
  match state_key incoming_event with
  | None => Ok false
  | Some state_key =>
      raw_membership ← get_raw_membership (content incoming_event);
      membership ← deserialize_ok de_MembershipState raw_membership;
      if decide (membership = None) then Ok false
      else
        target_user ← map_err (λ e, InvalidPdu (Error_display e)) (UserId_parse state_key);
        valid_membership_change target_user (fetch_state RoomMember target_user)
          (sender incoming_event) (fetch_state RoomMember (sender incoming_event))
          (content incoming_event) prev_event current_third_party_invite
          (fetch_state RoomPowerLevels "") (fetch_state RoomJoinRules "")
  end.

(** The sender's membership; the field is expected to be there. *)
Definition get_sender_membership (sender_member_event : Event) :
    outcome StateError MembershipState :=
  raw_membership ← get_raw_membership (content sender_member_event);
  membership ← unwrap raw_membership;
  from_json (de_MembershipState membership).

(** The checks after the sender's membership and level are known. *)
Definition check_sendable (room_version : RoomVersion) (incoming_event : Event)
    (power_levels_event : option Event) (sender_power_level : Z) : outcome StateError bool :=
  can_invite ←
    if decide (event_type incoming_event = RoomThirdPartyInvite) then
      invite_level ← get_invite_level power_levels_event;
      Ok (negb (sender_power_level <? invite_level)%Z)
    else Ok true;
  if negb can_invite then Ok false
  else
    can_send ← can_send_event incoming_event power_levels_event sender_power_level;
    if negb can_send then Ok false
    else
      levels_ok ←
        if decide (event_type incoming_event = RoomPowerLevels) then
          required ← check_power_levels room_version incoming_event power_levels_event
                       sender_power_level;
          Ok (default false required)
        else Ok true;
      if negb levels_ok then Ok false
      else if extra_redaction_checks room_version
              && bool_decide (event_type incoming_event = RoomRedaction)
      then
        redact_level ← get_redact_level power_levels_event;
        check_redaction room_version incoming_event sender_power_level redact_level
      else Ok true.

Definition auth_check (room_version : RoomVersion) (incoming_event : Event)
    (prev_event current_third_party_invite : option Event)
    (fetch_state : EventType → string → option Event) : outcome StateError bool :=
  if decide (event_type incoming_event = RoomCreate) then check_room_create incoming_event
  else
    match fetch_state RoomCreate "" with
    | None => Ok false
    | Some room_create_event =>
        if bool_decide (event_type incoming_event = RoomAliases)
           && special_case_aliases_auth room_version
        then
          sender_server ← infallible (server_name (sender incoming_event));
          Ok (bool_decide (state_key incoming_event = Some sender_server))
        else
          let power_levels_event := fetch_state RoomPowerLevels "" in
          if decide (event_type incoming_event = RoomMember) then
            check_room_member incoming_event prev_event current_third_party_invite fetch_state
          else
            match fetch_state RoomMember (sender incoming_event) with
            | None => Ok false
            | Some sender_member_event =>
                membership_state ← get_sender_membership sender_member_event;
                if decide (membership_state ≠ Join) then Ok false
                else
                  sender_power_level ← get_sender_power_level (sender incoming_event)
                    power_levels_event room_create_event;
                  check_sendable room_version incoming_event power_levels_event
                    sender_power_level
            end
    end.
End event_auth.
