(* ===== verification/EventAuthSpec.v ===== *)
(** * The authorization rules as relations

    What [EventAuth] promises, stated without its control flow: the rules for membership
    events as an inductive relation, the no-escalation condition on power levels, the
    conditions on ordinary events; and the proofs that the code decides them. *)

From S2P Require Import Prelude RustStr RustNet IdValidation StringEnum Identifiers Json.
From S2P Require Import EventTypes EventContents RoomVersions EventAuth.
From Stdlib Require Import Ascii NArith.
Open Scope string_scope.
Open Scope nat_scope.

(** ** Levels *)

(** A level that is known and high enough; a level above another one that may be unknown. *)
Definition has_power (o : option Z) (level : Z) : Prop := ∃ p, o = Some p ∧ (level ≤ p)%Z.
Definition outranks (s t : option Z) : Prop :=
  ∃ p, s = Some p ∧ ∀ q, t = Some q → (q < p)%Z.

Lemma opt_at_least_true o level : opt_at_least o level = true ↔ has_power o level.
Proof.
  unfold has_power. destruct o as [p|]; simpl; [rewrite Z.leb_le|]; naive_solver.
Qed.

Lemma opt_lt_true a b : opt_lt a b = true ↔ outranks b a.
Proof.
  unfold outranks. destruct a as [x|], b as [y|]; simpl; rewrite ?Z.ltb_lt; naive_solver.
Qed.

Lemma opt_gt_false o level : opt_gt o level = false ↔ ∀ x, o = Some x → (x ≤ level)%Z.
Proof. destruct o as [p|]; simpl; [rewrite Z.ltb_ge|]; naive_solver. Qed.

#[export] Hint Rewrite opt_at_least_true opt_lt_true opt_gt_false : ruma.

Section spec.
Context `{Unicode}.

(** ** Membership events *)

(** When a sender may give a target a new membership: the target's current membership, the
    power levels, the join rule and the third party invite decide. *)
Inductive MemberRule (target sender : string) (current : MembershipState) (joined : bool)
    (pl : RoomPowerLevelsEventContent) (sp tp : option Z) (jr : JoinRule)
    (tpi : option json) (current_tpi : option Event) : MembershipState → Prop :=
  | rule_join_public :
      sender = target → current ≠ Ban → jr = JR_Public →
      MemberRule target sender current joined pl sp tp jr tpi current_tpi Join
  | rule_join_invited :
      sender = target → jr = JR_Invite → current = Join ∨ current = Invite →
      MemberRule target sender current joined pl sp tp jr tpi current_tpi Join
  | rule_invite :
      deserialize_ok (E:=StateError) de_ThirdPartyInvite tpi = Ok None →
      joined = true → current ≠ Join → current ≠ Ban → has_power sp (invite pl) →
      MemberRule target sender current joined pl sp tp jr tpi current_tpi Invite
  | rule_invite_third_party t :
      deserialize_ok (E:=StateError) de_ThirdPartyInvite tpi = Ok (Some t) →
      current ≠ Ban → verify_third_party_invite (Some target) sender t current_tpi = Ok true →
      MemberRule target sender current joined pl sp tp jr tpi current_tpi Invite
  | rule_leave :
      sender = target → current = Join ∨ current = Invite →
      MemberRule target sender current joined pl sp tp jr tpi current_tpi Leave
  | rule_kick :
      sender ≠ target → joined = true → has_power sp (kick pl) → outranks sp tp →
      (current = Ban → has_power sp (ban pl)) →
      MemberRule target sender current joined pl sp tp jr tpi current_tpi Leave
  | rule_ban :
      joined = true → has_power sp (ban pl) → outranks sp tp →
      MemberRule target sender current joined pl sp tp jr tpi current_tpi Ban.

Lemma membership_transition_rule target sender m current joined pl sp tp jr tpi ctpi :
  membership_transition target sender m current joined pl sp tp jr tpi ctpi = Ok true ↔
  MemberRule target sender current joined pl sp tp jr tpi ctpi m.
Proof.
  split.
  - destruct m; simpl; try done.
    + destruct joined; simpl; [|done]. intros [= Hb]. bool_to_prop.
      rewrite opt_at_least_true, opt_lt_true in *. by apply rule_ban.
    + intros ([t|] & Hd & Hv)%bind_Ok; [case_decide; [done|]; by eapply rule_invite_third_party|].
      destruct joined; simpl in Hv; [|done]. repeat (case_bool_decide; simpl in Hv; try done).
      injection Hv as Hv. rewrite opt_at_least_true in Hv. by apply rule_invite.
    + case_decide; [done|]. case_decide; [done|]. intros [= Hb].
      apply orb_true_iff in Hb as [[Hj [Hc|Hc]%orb_true_iff]%andb_true_iff|Hj]; bool_to_prop.
      * by apply rule_join_invited; auto.
      * by apply rule_join_invited; auto.
      * by apply rule_join_public.
    + case_decide; [|destruct joined; simpl; [|done]].
      * intros [= Hb]. apply rule_leave; [done|].
        apply orb_true_iff in Hb as [?|?]; bool_to_prop; auto.
      * destruct (_ && opt_below sp (ban pl)) eqn:Hban; [done|]. intros [= Hb]. bool_to_prop.
        rewrite opt_at_least_true, opt_lt_true in *. apply rule_kick; try done.
        intros ->. rewrite bool_decide_true in Hban by done. simpl in Hban.
        match goal with Hp : has_power _ _ |- _ => destruct Hp as (p & -> & _) end.
        exists p. simpl in Hban. rewrite Z.ltb_ge in Hban. done.
  - intros Hr. destruct Hr as [Hs Hc Hj|Hs Hj Hc|Hd Hj Hc1 Hc2 Hp|t Hd Hc Hv|Hs Hc
      |Hne Hj Hp Ho Hb|Hj Hp Ho]; subst; simpl.
    + rewrite decide_False by auto. by rewrite decide_False by done.
    + rewrite decide_False by auto. rewrite decide_False by naive_solver.
      destruct Hc as [-> | ->]; done.
    + rewrite Hd. simpl. rewrite !bool_decide_false by done. simpl. f_equal.
      by apply opt_at_least_true.
    + rewrite Hd. simpl. by rewrite decide_False.
    + rewrite decide_True by done. by destruct Hc as [-> | ->].
    + rewrite decide_False by done.
      destruct (bool_decide (current = Ban) && opt_below sp (ban pl)) eqn:Hb'; simpl.
      { bool_to_prop. destruct (Hb ltac:(done)) as (p & -> & Hle). simpl in *. lia. }
      f_equal. apply andb_true_iff. by rewrite opt_at_least_true, opt_lt_true.
    + f_equal. apply andb_true_iff. by rewrite opt_at_least_true, opt_lt_true.
Qed.
End spec.

(** ** Whole membership events *)

Section membership.
Context `{Unicode}.

(** The level of a user, explicit or by default when [counts] holds. *)
Definition power_of (pl : RoomPowerLevelsEventContent) (user : string) (counts : bool) :
    option Z :=
  match users pl !! user with
  | Some p => Some p
  | None => if counts then Some (users_default pl) else None
  end.

Definition power_levels_of (ev : option Event) : outcome StateError RoomPowerLevelsEventContent :=
  match ev with
  | Some ev => from_json (de_RoomPowerLevelsEventContent (content ev))
  | None => Ok RoomPowerLevelsEventContent_new
  end.

Definition join_rule_of (ev : option Event) : outcome StateError JoinRule :=
  match ev with
  | Some jr => c ← from_json (de_RoomJoinRulesEventContent (content jr)); Ok (join_rule c)
  | None => Ok JR_Invite
  end.

(** The first join of the creator: the member event follows the create event. *)
Definition follows_create (prev_event : option Event) : Prop :=
  ∃ prev, prev_event = Some prev ∧ event_type prev = RoomCreate ∧ prev_events prev = [].

Lemma follows_create_bool prev_event :
  match prev_event with
  | Some prev => bool_decide (event_type prev = RoomCreate) && bool_decide (prev_events prev = [])
  | None => false
  end = true ↔ follows_create prev_event.
Proof.
  unfold follows_create. destruct prev_event as [prev|].
  - rewrite andb_true_iff, !bool_decide_eq_true. naive_solver.
  - naive_solver.
Qed.

(** The events and contents a membership rule looks at, read without error. *)
Definition membership_inputs (target_ev sender_ev pl_ev jr_ev : option Event) (c : json)
    (m : MembershipState) (tpi : option json) (sm current : MembershipState)
    (pl : RoomPowerLevelsEventContent) (jr : JoinRule) : Prop :=
  get_membership c = Ok m ∧ get_third_party_invite c = Ok tpi ∧
  current_membership sender_ev = Ok sm ∧ current_membership target_ev = Ok current ∧
  power_levels_of pl_ev = Ok pl ∧ join_rule_of jr_ev = Ok jr.

Lemma valid_membership_change_Ok target target_ev sender sender_ev c prev ctpi pl_ev jr_ev b :
  valid_membership_change target target_ev sender sender_ev c prev ctpi pl_ev jr_ev = Ok b ↔
  ∃ m tpi sm current pl jr,
    membership_inputs target_ev sender_ev pl_ev jr_ev c m tpi sm current pl jr ∧
    let joined := bool_decide (sm = Join) in
    (follows_create prev ∧ b = true ∨
     ¬ follows_create prev ∧
     membership_transition target sender m current joined pl (power_of pl sender joined)
       (power_of pl target (bool_decide (m = Join))) jr tpi ctpi = Ok b).
Proof.
  unfold valid_membership_change, membership_inputs, power_of.
  setoid_rewrite <- (follows_create_bool prev).
  set (first := match prev with Some _ => _ | None => _ end).
  fold (power_levels_of pl_ev) (join_rule_of jr_ev).
  repeat setoid_rewrite bind_Ok.
  split.
  - intros (m & ? & tpi & ? & sm & ? & cur & ? & pl & ? & jr & ? & Hb).
    exists m, tpi, sm, cur, pl, jr. split; [done|]. destruct first; naive_solver.
  - intros (m & tpi & sm & cur & pl & jr & (? & ? & ? & ? & ? & ?) & Hb).
    exists m. split; [done|]. exists tpi. split; [done|]. exists sm. split; [done|].
    exists cur. split; [done|]. exists pl. split; [done|]. exists jr. split; [done|].
    destruct first; naive_solver.
Qed.

(** C6: the code allows a membership event exactly when the contents it reads are well formed
    and either the event follows the room's creation or the relation [MemberRule] holds, with
    the sender's power counted by default only for a joined sender, and the target's only when
    the new membership is join. *)
Theorem valid_membership_change_refines target target_ev sender sender_ev c prev ctpi pl_ev jr_ev :
  valid_membership_change target target_ev sender sender_ev c prev ctpi pl_ev jr_ev = Ok true ↔
  ∃ m tpi sm current pl jr,
    membership_inputs target_ev sender_ev pl_ev jr_ev c m tpi sm current pl jr ∧
    let joined := bool_decide (sm = Join) in
    (follows_create prev ∨
     MemberRule target sender current joined pl (power_of pl sender joined)
       (power_of pl target (bool_decide (m = Join))) jr tpi ctpi m).
Proof.
  rewrite valid_membership_change_Ok. cbv zeta. setoid_rewrite membership_transition_rule.
  assert (follows_create prev ∨ ¬ follows_create prev) as Hdec.
  { rewrite <- follows_create_bool. destruct prev; [destruct (_ && _)|]; auto. }
  split.
  - intros (m & tpi & sm & cur & pl & jr & Hin & Hb). exists m, tpi, sm, cur, pl, jr. naive_solver.
  - intros (m & tpi & sm & cur & pl & jr & Hin & Hb). exists m, tpi, sm, cur, pl, jr. naive_solver.
Qed.

(** Outside the room's creation, an allowed event that bans or kicks somebody else comes
    from a joined sender whose level reaches the configured one and is above every level the
    power levels list for the target. *)
Theorem kick_ban_needs_power target target_ev sender sender_ev c prev ctpi pl_ev jr_ev m pl :
  valid_membership_change target target_ev sender sender_ev c prev ctpi pl_ev jr_ev = Ok true →
  get_membership c = Ok m → power_levels_of pl_ev = Ok pl → ¬ follows_create prev →
  m = Ban ∨ m = Leave ∧ sender ≠ target →
  current_membership sender_ev = Ok Join ∧
  ∃ p, power_of pl sender true = Some p ∧
    ((if decide (m = Ban) then ban pl else kick pl) ≤ p)%Z ∧
    ∀ q, users pl !! target = Some q → (q < p)%Z.
Proof.
  intros (m' & tpi & sm & cur & pl' & jr & (Hm & _ & Hsm & _ & Hpl & _) & [[? _]|[_ Hr]])
    %valid_membership_change_Ok Hm' Hpl' Hno Hcase; [done|].
  rewrite Hm' in Hm. injection Hm as <-. rewrite Hpl' in Hpl. injection Hpl as <-.
  apply membership_transition_rule in Hr.
  assert (bool_decide (sm = Join) = true ∧ ∃ p, power_of pl sender (bool_decide (sm = Join)) = Some p ∧
    ((if decide (m = Ban) then ban pl else kick pl) ≤ p)%Z ∧
    ∀ q, power_of pl target (bool_decide (m = Join)) = Some q → (q < p)%Z)
    as (Hj & p & Hp & Hle & Ho).
  { destruct Hcase as [-> |[-> Hne]]; inversion Hr; try done;
      match goal with Hp : has_power _ _, Ho : outranks _ _ |- _ =>
        destruct Hp as (p & Hp1 & Hp2), Ho as (p' & Ho1 & Ho2); simplify_eq end;
      (split; [done|]); eauto. }
  rewrite Hj in Hp. apply bool_decide_eq_true in Hj as ->. split; [done|].
  exists p. split_and!; [done..|]. intros q Hq. apply Ho. unfold power_of. by rewrite Hq.
Qed.
End membership.

(** A member without an explicit level is removed whatever the default level of users is: the
    default is only counted for a target whose new membership is join. *)

(** A joined sender with the kick level removes any user the power levels do not list, even
    when the default level of users is above the sender's own. *)
Theorem kick_ignores_users_default `{Unicode} target sender current pl p jr tpi ctpi :
  sender ≠ target → users pl !! target = None → users pl !! sender = Some p →
  (kick pl ≤ p)%Z → current ≠ Ban →
  membership_transition target sender Leave current true pl (power_of pl sender true)
    (power_of pl target (bool_decide (Leave = Join))) jr tpi ctpi = Ok true.
Proof.
  intros Hne Ht Hs Hk Hc. apply membership_transition_rule, rule_kick; unfold power_of;
    rewrite ?Hs, ?Ht; try done.
  - by exists p.
  - by exists p.
Qed.

Definition default_100 : RoomPowerLevelsEventContent := {|
  ban := 50; events := ∅; events_default := 0; invite := 50; kick := 50; redact := 50;
  state_default := 50; users := {[ "@mod:a" := 50%Z ]}; users_default := 100;
  notifications := NotificationPowerLevels_new |}.

Lemma kick_ignores_users_default_witness :
  let _ := ascii_unicode in
  power_of default_100 "@victim:a" true = Some 100%Z ∧
  membership_transition "@victim:a" "@mod:a" Leave Join true default_100
    (power_of default_100 "@mod:a" true)
    (power_of default_100 "@victim:a" (bool_decide (Leave = Join))) JR_Public None None = Ok true.
Proof.
  intros u. split; [reflexivity|].
  apply (kick_ignores_users_default "@victim:a" "@mod:a" Join default_100 50 JR_Public None None);
    [discriminate|reflexivity|reflexivity|discriminate|discriminate].
Defined.

(** ** Power level events *)

(** The scalar levels: name, value and the default that serialization leaves out. *)
Definition scalar_levels : list (string * (RoomPowerLevelsEventContent → Z) * Z) :=
  [ ("users_default", users_default, 0%Z); ("events_default", events_default, 0%Z);
    ("state_default", state_default, 50%Z); ("ban", ban, 50%Z); ("redact", redact, 50%Z);
    ("kick", kick, 50%Z); ("invite", invite, 50%Z) ].

Lemma assoc_ser_field k name skip j :
  assoc k (ser_field name skip j) =
  if decide (name = k) then if skip then None else Some j else None.
Proof.
  unfold ser_field. destruct skip; simpl.
  - by case_decide.
  - rewrite assoc_cons. by case_decide.
Qed.

(** Which scalar levels [to_value] shows. *)
Lemma power_levels_to_value_get name f d c :
  (name, f, d) ∈ scalar_levels →
  json_get name (power_levels_to_value c) =
  if bool_decide (f c = d) then None else Some (ser_int (f c)).
Proof.
  intros Hin. unfold power_levels_to_value, json_get.
  cbn [mjoin list_join]. rewrite !assoc_app, !assoc_ser_field.
  unfold scalar_levels in Hin. set_unfold in Hin.
  destruct Hin as [Hin|[Hin|[Hin|[Hin|[Hin|[Hin|[Hin|[]]]]]]]]; injection Hin as -> -> ->;
    simpl; unfold is_default_power_level; by case_bool_decide.
Qed.

Lemma field_default_int_range fields name d src v :
  field_default fields name d de_int src = Ok v → int_in_range d = true →
  int_in_range v = true.
Proof.
  unfold field_default. destruct (lookup_field _ _ _); [|by intros [= <-]].
  intros Hd _. by eapply de_int_range.
Qed.

(** Every scalar level of a decoded content is a js_int. *)
Lemma power_levels_in_range j c name f d :
  de_RoomPowerLevelsEventContent j = Ok c → (name, f, d) ∈ scalar_levels →
  int_in_range (f c) = true.
Proof.
  unfold de_RoomPowerLevelsEventContent. intros (src & _ & Hc)%bind_Ok Hin.
  repeat (apply bind_Ok in Hc as (? & ? & Hc)). injection Hc as <-.
  unfold scalar_levels in Hin. set_unfold in Hin.
  destruct Hin as [Hin|[Hin|[Hin|[Hin|[Hin|[Hin|[Hin|[]]]]]]]]; injection Hin as -> -> ->; simpl;
    (eapply field_default_int_range; [eassumption|reflexivity]).
Qed.

Lemma get_deserialize_levels_spec oj nj old new name f d o n :
  de_RoomPowerLevelsEventContent oj = Ok old → de_RoomPowerLevelsEventContent nj = Ok new →
  (name, f, d) ∈ scalar_levels →
  get_deserialize_levels (power_levels_to_value old) (power_levels_to_value new) name
    = Some (o, n) ↔ (o = f old ∧ f old ≠ d) ∧ (n = f new ∧ f new ≠ d).
Proof.
  intros Ho Hn Hin. unfold get_deserialize_levels.
  rewrite !(power_levels_to_value_get _ _ _ _ Hin).
  pose proof (power_levels_in_range _ _ _ _ _ Ho Hin) as Hro.
  pose proof (power_levels_in_range _ _ _ _ _ Hn Hin) as Hrn.
  destruct (bool_decide_reflect (f old = d)) as [H1|H1];
    [split; [done|by intros [[_ []] _]]|].
  unfold ser_int. simpl. rewrite Hro. simpl.
  destruct (bool_decide_reflect (f new = d)) as [H2|H2];
    [split; [done|by intros [_ [_ []]]]|].
  simpl. rewrite Hrn. simpl. naive_solver.
Qed.

(** What a sender with [level] may change between two power level contents. *)
Definition change_within (level : Z) (old new : option Z) : Prop :=
  (∀ x, old = Some x → (x ≤ level)%Z) ∧ (∀ y, new = Some y → (y ≤ level)%Z).

Record no_escalation (rv : RoomVersion) (sender : string) (level : Z)
    (old new : RoomPowerLevelsEventContent) : Prop := {
  ne_users u : users old !! u ≠ users new !! u →
    change_within level (users old !! u) (users new !! u) ∧
    (u ≠ sender → users old !! u ≠ Some level);
  ne_events t : events old !! t ≠ events new !! t →
    change_within level (events old !! t) (events new !! t);
  ne_notifications : limit_notifications_power_levels rv = true →
    room (notifications old) ≠ room (notifications new) →
    (room (notifications old) ≤ level ∧ room (notifications new) ≤ level)%Z;
  ne_scalar name f d : (name, f, d) ∈ scalar_levels → f old ≠ d → f new ≠ d →
    (f old ≤ level ∧ f new ≤ level)%Z
}.

Lemma existsb_false {A} (p : A → bool) l : existsb p l = false ↔ ∀ x, x ∈ l → p x = false.
Proof.
  rewrite <- not_true_iff_false, existsb_exists. setoid_rewrite <- list_elem_of_In. split.
  - intros Hn x Hx. apply not_true_iff_false. eauto.
  - intros Hp (x & Hx & Hpx). rewrite (Hp x Hx) in Hpx. done.
Qed.

Lemma level_change_accepted old new is_sender eq level :
  old ≠ None ∨ new ≠ None →
  level_change_rejected old new is_sender eq level = false ↔
  (old ≠ new → change_within level old new ∧
     (eq = true → is_sender = false → old ≠ Some level)).
Proof.
  intros Hsome. unfold level_change_rejected, change_within.
  destruct (decide (old = new)) as [<-|Hne].
  - rewrite !bool_decide_true by (destruct old; naive_solver). simpl. naive_solver.
  - rewrite (bool_decide_false (old = new)) by done. rewrite andb_false_r.
    rewrite !orb_false_iff, !opt_gt_false.
    destruct eq, is_sender; simpl; rewrite ?bool_decide_eq_false; naive_solver.
Qed.

(** The three loops of [check_power_levels]. *)
Lemma users_loop_false sender level (old new : RoomPowerLevelsEventContent) :
  existsb (λ user, level_change_rejected (users old !! user) (users new !! user)
                     (bool_decide (user = sender)) true level)
    (elements (dom (users old) ∪ dom (users new))) = false ↔
  ∀ u, users old !! u ≠ users new !! u →
    change_within level (users old !! u) (users new !! u) ∧
    (u ≠ sender → users old !! u ≠ Some level).
Proof.
  rewrite existsb_false. setoid_rewrite elem_of_elements.
  setoid_rewrite elem_of_union. setoid_rewrite elem_of_dom. split.
  - intros Hl u Hne. assert (users old !! u ≠ None ∨ users new !! u ≠ None) as Hs.
    { destruct (users old !! u), (users new !! u); naive_solver. }
    destruct (proj1 (level_change_accepted _ _ _ _ _ Hs)
      (Hl u ltac:(rewrite <- !not_eq_None_Some; done)) Hne) as [Hc Hk].
    split; [done|]. intros Hu. apply Hk; [done|]. by apply bool_decide_eq_false.
  - intros Hl u Hu. rewrite <- !not_eq_None_Some in Hu.
    apply level_change_accepted; [done|]. intros Hne.
    destruct (Hl u Hne) as [Hc Hk]. split; [done|].
    intros _ Hb%bool_decide_eq_false. by apply Hk.
Qed.

Lemma events_loop_false level (old new : RoomPowerLevelsEventContent) :
  existsb (λ t, level_change_rejected (events old !! t) (events new !! t) false false level)
    (elements (dom (events old) ∪ dom (events new))) = false ↔
  ∀ t, events old !! t ≠ events new !! t →
    change_within level (events old !! t) (events new !! t).
Proof.
  rewrite existsb_false. setoid_rewrite elem_of_elements.
  setoid_rewrite elem_of_union. setoid_rewrite elem_of_dom. split.
  - intros Hl u Hne. assert (events old !! u ≠ None ∨ events new !! u ≠ None) as Hs.
    { destruct (events old !! u), (events new !! u); naive_solver. }
    by destruct (proj1 (level_change_accepted _ _ _ _ _ Hs)
      (Hl u ltac:(rewrite <- !not_eq_None_Some; done)) Hne) as [Hc _].
  - intros Hl u Hu. rewrite <- !not_eq_None_Some in Hu.
    apply level_change_accepted; [done|]. intros Hne. split; [by apply Hl|done].
Qed.

Lemma scalar_loop_false oj nj level old new :
  de_RoomPowerLevelsEventContent oj = Ok old → de_RoomPowerLevelsEventContent nj = Ok new →
  existsb (λ lvl_name,
    match get_deserialize_levels (power_levels_to_value old) (power_levels_to_value new)
            lvl_name with
    | Some (old_lvl, new_lvl) => (level <? old_lvl)%Z || (level <? new_lvl)%Z
    | None => false
    end) power_level_names = false ↔
  ∀ name f d, (name, f, d) ∈ scalar_levels → f old ≠ d → f new ≠ d →
    (f old ≤ level ∧ f new ≤ level)%Z.
Proof.
  intros Ho Hn. rewrite existsb_false.
  change power_level_names with (fst <$> (fst <$> scalar_levels)).
  setoid_rewrite list_elem_of_fmap. split.
  - intros Hl name f d Hin Hfo Hfn.
    assert (∃ y, name = y.1 ∧ y ∈ fst <$> scalar_levels) as Hname.
    { exists (name, f). split; [done|]. by apply (list_elem_of_fmap_2 fst _ (name, f, d)). }
    specialize (Hl name Hname).
    rewrite (proj2 (get_deserialize_levels_spec _ _ _ _ _ _ _ (f old) (f new) Ho Hn Hin)) in Hl
      by done.
    apply orb_false_iff in Hl. rewrite !Z.ltb_ge in Hl. done.
  - intros Hl name ([name' f] & -> & ([[? ?] d] & Heq & Hin)%list_elem_of_fmap).
    simpl in *. injection Heq as <- <-.
    destruct (get_deserialize_levels _ _ _) as [[o n]|] eqn:Hg; [|done].
    apply (get_deserialize_levels_spec _ _ _ _ _ _ _ _ _ Ho Hn Hin) in Hg
      as [[-> Hfo] [-> Hfn]].
    apply orb_false_iff. rewrite !Z.ltb_ge. by apply (Hl name' f d).
Qed.

Lemma check_power_levels_verdict rv power_event previous level :
  state_key power_event = Some "" →
  (∀ new old, de_RoomPowerLevelsEventContent (content power_event) = Ok new →
     de_RoomPowerLevelsEventContent (content previous) = Ok old →
     ∃ b, check_power_levels rv power_event (Some previous) level = Ok (Some b) ∧
       (b = true ↔ no_escalation rv (sender power_event) level old new)) ∧
  ((∀ new old, ¬ (de_RoomPowerLevelsEventContent (content power_event) = Ok new ∧
     de_RoomPowerLevelsEventContent (content previous) = Ok old)) →
     check_power_levels rv power_event (Some previous) level = Panic).
Proof.
  intros Hk. unfold check_power_levels. rewrite Hk, decide_False by auto. split.
  - intros new old Hn Ho. rewrite Hn, Ho. cbn [infallible mbind outcome_bind].
    destruct (existsb _ (elements (dom (users old) ∪ dom (users new)))) eqn:Hu.
    { exists false. split; [done|]. split; [done|]. intros [Hne _ _ _].
      apply users_loop_false in Hne. congruence. }
    destruct (existsb _ (elements (dom (events old) ∪ dom (events new)))) eqn:He.
    { exists false. split; [done|]. split; [done|]. intros [_ Hne _ _].
      apply events_loop_false in Hne. congruence. }
    destruct (limit_notifications_power_levels rv && _ && _) eqn:Hno.
    { exists false. split; [done|]. split; [done|]. intros [_ _ Hne _]. bool_to_prop.
      apply orb_true_iff in H0. rewrite !Z.ltb_lt in H0. naive_solver lia. }
    destruct (existsb _ power_level_names) eqn:Hs; eexists; (split; [reflexivity|]); split; try done.
    { intros [_ _ _ Hne]. apply (scalar_loop_false _ _ level _ _ Ho Hn) in Hne. congruence. }
    intros _. split.
    + by apply users_loop_false.
    + by apply events_loop_false.
    + intros Hl Hr. rewrite Hl, bool_decide_true in Hno by done. simpl in Hno.
      apply orb_false_iff in Hno. rewrite !Z.ltb_ge in Hno. done.
    + by apply (scalar_loop_false _ _ level _ _ Ho Hn).
  - intros Hno. destruct (de_RoomPowerLevelsEventContent (content power_event)) as [new|?|] eqn:Hn;
      simpl; [|done..].
    destruct (de_RoomPowerLevelsEventContent (content previous)) as [old|?|] eqn:Ho; simpl; [|done..].
    by destruct (Hno new old).
Qed.

(** C7: with a previous power level event, the code accepts a new one exactly when the sender
    escalates nothing; and it panics when either content does not decode. *)
Theorem check_power_levels_no_escalation rv power_event previous level :
  state_key power_event = Some "" →
  (∀ new old, de_RoomPowerLevelsEventContent (content power_event) = Ok new →
     de_RoomPowerLevelsEventContent (content previous) = Ok old →
     ∃ b, check_power_levels rv power_event (Some previous) level = Ok (Some b) ∧
       (b = true ↔ no_escalation rv (sender power_event) level old new)) ∧
  ((∀ new old, ¬ (de_RoomPowerLevelsEventContent (content power_event) = Ok new ∧
     de_RoomPowerLevelsEventContent (content previous) = Ok old)) →
     check_power_levels rv power_event (Some previous) level = Panic).
Proof. apply check_power_levels_verdict. Qed.

(** Events for the examples. *)
Definition state_event (id s : string) (ty : EventType) (key : string) (c : json)
    (auth : list string) : Event :=
  {| event_id := id; room_id := "!r:a"; sender := s; origin_server_ts := 1;
     event_type := ty; content := c; state_key := Some key; prev_events := ["$p:a"];
     auth_events := auth; redacts := None |}.

Definition pl_json (entries : list (string * Z)) (user_levels : list (string * Z)) : json :=
  JObject (((λ kv, (kv.1, ser_int kv.2)) <$> entries) ++
           [("users", JObject ((λ kv, (kv.1, ser_int kv.2)) <$> user_levels))]).

Definition pl_event (id s : string) (entries user_levels : list (string * Z)) : Event :=
  state_event id s RoomPowerLevels "" (pl_json entries user_levels) [].

Lemma check_power_levels_no_escalation_witness :
  let old := pl_event "$1:a" "@a:a" [("ban", 60%Z)] [("@a:a", 100%Z)] in
  let new := pl_event "$2:a" "@a:a" [("ban", 70%Z)] [("@a:a", 100%Z); ("@b:a", 50%Z)] in
  ∃ o n, de_RoomPowerLevelsEventContent (content old) = Ok o ∧
    de_RoomPowerLevelsEventContent (content new) = Ok n ∧
    no_escalation VERSION6 "@a:a" 100 o n.
Proof.
  intros old new.
  destruct (de_RoomPowerLevelsEventContent (content old)) as [o|e|] eqn:Ho;
    [|exfalso; vm_compute in Ho; discriminate Ho..].
  destruct (de_RoomPowerLevelsEventContent (content new)) as [n|e|] eqn:Hn;
    [|exfalso; vm_compute in Hn; discriminate Hn..].
  exists o, n. split; [reflexivity|]. split; [reflexivity|].
  destruct (check_power_levels_no_escalation VERSION6 new old 100 eq_refl) as [H _].
  destruct (H n o Hn Ho) as (b & Hb & Hiff). apply Hiff.
  assert (check_power_levels VERSION6 new (Some old) 100 = Ok (Some true)) as Hc
    by (vm_compute; reflexivity).
  rewrite Hc in Hb. injection Hb as <-. reflexivity.
Defined.

(** A scalar level is not compared with its previous value. An event that repeats the
    previous contents is refused when one of the levels is above the sender's, and a sender of
    any level may move all of them away from their defaults. *)
Theorem scalar_levels_not_compared rv power_event previous level old new :
  state_key power_event = Some "" →
  de_RoomPowerLevelsEventContent (content power_event) = Ok new →
  de_RoomPowerLevelsEventContent (content previous) = Ok old →
  (old = new → (∃ name f d, (name, f, d) ∈ scalar_levels ∧ f old ≠ d ∧ (level < f old)%Z) →
     check_power_levels rv power_event (Some previous) level = Ok (Some false)) ∧
  (users old = users new → events old = events new → notifications old = notifications new →
     (∀ name f d, (name, f, d) ∈ scalar_levels → f old = d) →
     check_power_levels rv power_event (Some previous) level = Ok (Some true)).
Proof.
  intros Hk Hn Ho. unfold check_power_levels. rewrite Hk, decide_False by auto.
  rewrite Hn, Ho. cbn [infallible mbind outcome_bind]. split.
  - intros -> (name & f & d & Hin & Hne & Hlt).
    rewrite (proj2 (users_loop_false _ _ _ _)) by done.
    rewrite (proj2 (events_loop_false _ _ _)) by done.
    rewrite (bool_decide_false (room _ ≠ room _)), andb_false_r, andb_false_l by naive_solver.
    destruct (existsb _ power_level_names) eqn:Hs; [done|].
    apply (scalar_loop_false _ _ level _ _ Ho Hn) with (name := name) (f := f) (d := d) in Hs;
      [lia|done..].
  - intros Hu He Hr Hd.
    rewrite (proj2 (users_loop_false _ _ _ _)) by by rewrite Hu.
    rewrite (proj2 (events_loop_false _ _ _)) by by rewrite He.
    rewrite (bool_decide_false (room _ ≠ room _)), andb_false_r, andb_false_l
      by (rewrite Hr; naive_solver).
    rewrite (proj2 (scalar_loop_false _ _ level _ _ Ho Hn)); [done|].
    intros name f d Hin Hf _. by destruct Hf; eapply Hd.
Qed.

Lemma scalar_levels_not_compared_witness :
  let old := pl_event "$1:a" "@a:a" [] [("@a:a", 50%Z)] in
  let new := pl_event "$2:a" "@a:a" [("ban", 1000%Z); ("events_default", 1000%Z)]
               [("@a:a", 50%Z)] in
  check_power_levels VERSION6 new (Some old) 50 = Ok (Some true).
Proof.
  intros old new.
  destruct (de_RoomPowerLevelsEventContent (content old)) as [o|e|] eqn:Ho;
    [|exfalso; vm_compute in Ho; discriminate Ho..].
  destruct (de_RoomPowerLevelsEventContent (content new)) as [n|e|] eqn:Hn;
    [|exfalso; vm_compute in Hn; discriminate Hn..].
  pose proof Ho as Ho'. pose proof Hn as Hn'.
  vm_compute in Ho', Hn'. injection Ho' as Heo. injection Hn' as Hen.
  apply (scalar_levels_not_compared VERSION6 new old 50 o n eq_refl Hn Ho);
    [subst o n; reflexivity..|].
  intros name f d Hin. unfold scalar_levels in Hin. set_unfold in Hin.
  destruct Hin as [Hin|[Hin|[Hin|[Hin|[Hin|[Hin|[Hin|[]]]]]]]]; injection Hin as -> -> ->;
    subst o; reflexivity.
Defined.

(** ** Redactions *)

(** A redaction is allowed to a sender with the redact level or when the two event IDs
    name the same server; event IDs of room version 3 and later name none, and then it is
    allowed to every sender. *)
Theorem check_redaction_spec rv ev level redact_level :
  EventId_parse (event_id ev) = Ok (event_id ev) →
  (∀ id, redacts ev = Some id → EventId_parse id = Ok id) →
  ∃ own redacted,
    EventId_server_name (event_id ev) = Ok own ∧
    (match redacts ev with
     | Some id => EventId_server_name id = Ok redacted
     | None => redacted = None
     end) ∧
    check_redaction rv ev level redact_level =
      Ok (bool_decide ((redact_level ≤ level)%Z ∨ own = redacted)) ∧
    (str_find ":" (event_id ev) = None →
     (∀ id, redacts ev = Some id → str_find ":" id = None) →
     check_redaction rv ev level redact_level = Ok true).
Proof.
  intros Hown Hred.
  assert (∀ id, EventId_parse id = Ok id → ∃ sn, EventId_server_name id = Ok sn ∧
    (str_find ":" id = None → sn = None)) as Hsn.
  { intros id (l & _ & [[Hs _]|(sn & Hs & Heq & _)])%event_id_accessors; eexists; (split; [done|]).
    - done.
    - intros Hf. unfold EventId_server_name, EventId_colon_idx in Hs. by rewrite Hf in Hs. }
  destruct (Hsn _ Hown) as (own & Ho & Hon).
  assert (∃ redacted, match redacts ev with
    | Some id => infallible (E':=StateError) (EventId_server_name id) | None => Ok None end
      = Ok redacted ∧
    (match redacts ev with Some id => EventId_server_name id = Ok redacted
                         | None => redacted = None end) ∧
    ((∀ id, redacts ev = Some id → str_find ":" id = None) → redacted = None))
    as (redacted & Hr & Hr' & Hrn).
  { destruct (redacts ev) as [id|]; [|by exists None].
    destruct (Hsn id) as (sn & Hs & Hn); [auto|]. exists sn. rewrite Hs. naive_solver. }
  assert (check_redaction rv ev level redact_level =
    Ok (bool_decide ((redact_level ≤ level)%Z ∨ own = redacted))) as Hc.
  { unfold check_redaction. destruct (redact_level <=? level)%Z eqn:Hl.
    - apply Z.leb_le in Hl. by rewrite bool_decide_true by auto.
    - apply Z.leb_gt in Hl. rewrite Ho. simpl. rewrite Hr. simpl. f_equal.
      apply bool_decide_ext. split; [auto|]. intros [?|?]; [lia|done]. }
  exists own, redacted. split_and!; [done..|]. intros H1 H2.
  rewrite Hc, bool_decide_true; [done|]. right. by rewrite (Hon H1), (Hrn H2).
Qed.

Definition redaction_event (id target : string) : Event :=
  {| event_id := id; room_id := "!r:a"; sender := "@evil:b"; origin_server_ts := 1;
     event_type := RoomRedaction; content := JObject []; state_key := None;
     prev_events := ["$p"]; auth_events := []; redacts := Some target |}.

Lemma check_redaction_spec_witness :
  check_redaction VERSION6 (redaction_event "$hash1" "$hash2") 0 50 = Ok true.
Proof.
  destruct (check_redaction_spec VERSION6 (redaction_event "$hash1" "$hash2") 0 50)
    as (own & redacted & _ & _ & _ & H).
  - reflexivity.
  - intros id [= <-]. reflexivity.
  - apply H; [reflexivity|]. intros id [= <-]. reflexivity.
Defined.
