(* ===== verification/EventAuthRules.v ===== *)
(** * Whole authorization checks

    What [auth_check] and [auth_types_for_event] promise for every kind of event. *)

From S2P Require Import Prelude RustStr RustNet IdValidation StringEnum Identifiers Json.
From S2P Require Import EventTypes EventContents RoomVersions EventAuth EventAuthSpec.
From Stdlib Require Import Ascii NArith.
Open Scope string_scope.
Open Scope nat_scope.

Section rules.
Context `{Unicode}.

(** ** The auth events an event selects *)

Lemma elem_of_push_unique {A} `{EqDecision A} (x key : A) v :
  x ∈ push_unique key v ↔ x ∈ v ∨ x = key.
Proof.
  unfold push_unique. case_decide.
  - split; [auto|]. by intros [?| ->].
  - by rewrite elem_of_app, list_elem_of_singleton.
Qed.

Lemma NoDup_push_unique {A} `{EqDecision A} (key : A) v : NoDup v → NoDup (push_unique key v).
Proof.
  intros Hv. unfold push_unique. case_decide; [done|].
  apply list.NoDup_app. split_and!; [done| |apply NoDup_singleton].
  intros x Hx ->%list_elem_of_singleton. done.
Qed.

(** The membership and the invite of a member event's content, as [auth_types_for_event] reads
    them: missing and malformed values count as absent. *)
Definition member_fields (c : json) : outcome () (option MembershipState * option json) :=
  let fields := ["membership"; "third_party_invite"] in
  src ← struct_src fields c;
  raw_membership ← field_opt fields "membership" de_raw src;
  raw_invite ← field_opt fields "third_party_invite" de_raw src;
  membership ← deserialize_ok de_MembershipState raw_membership;
  Ok (membership, raw_invite).

(** The state an event needs beside the power levels, its sender's membership and the room's
    creation. *)
Inductive extra_auth_type (kind : EventType) (target : option string) (c : json) :
    EventType * string → Prop :=
  | extra_target user m raw :
      kind = RoomMember → target = Some user → member_fields c = Ok (Some m, raw) →
      extra_auth_type kind target c (RoomMember, user)
  | extra_join_rules user m raw :
      kind = RoomMember → target = Some user → member_fields c = Ok (Some m, raw) →
      m = Join ∨ m = Invite →
      extra_auth_type kind target c (RoomJoinRules, "")
  | extra_third_party user raw t :
      kind = RoomMember → target = Some user → member_fields c = Ok (Some Invite, raw) →
      deserialize_ok (E:=()) de_ThirdPartyInvite raw = Ok (Some t) →
      extra_auth_type kind target c (RoomThirdPartyInvite, token (signed t)).

Lemma auth_types_member sender user c l :
  auth_types_for_event RoomMember sender (Some user) c = Ok l →
  ∃ m raw, member_fields c = Ok (m, raw) ∧
    let base := [(RoomPowerLevels, ""); (RoomMember, sender); (RoomCreate, "")] in
    match m with
    | None => l = base
    | Some m =>
        let l1 := if decide (m ∈ [Join; Invite]) then push_unique (RoomJoinRules, "") base
                  else base in
        let l2 := push_unique (RoomMember, user) l1 in
        if decide (m = Invite) then
          ∃ o, deserialize_ok (E:=()) de_ThirdPartyInvite raw = Ok o ∧
            l = match o with
                | Some t => push_unique (RoomThirdPartyInvite, token (signed t)) l2
                | None => l2
                end
        else l = l2
    end.
Proof.
  unfold auth_types_for_event, member_fields. simpl.
  intros (src & -> & (rm & Hrm & (ri & Hri & (m & Hm & Hl)%bind_Ok)%bind_Ok)%bind_Ok)%bind_Ok.
  simpl. rewrite Hrm. simpl. rewrite Hri. simpl. rewrite Hm. simpl.
  exists m, ri. split; [done|]. destruct m as [m|]; [|by injection Hl].
  case_decide as Hi; [|by injection Hl].
  apply bind_Ok in Hl as (o & Ho & Hl). exists o. split; [done|].
  destruct o; by injection Hl.
Qed.

(** The auth types of an event have no duplicates; the create event has none; every other
    event has the power levels, its sender's membership and the create event, and a member
    event in addition exactly what its membership asks for. *)
Theorem auth_types_for_event_spec kind sender target c l :
  auth_types_for_event kind sender target c = Ok l →
  NoDup l ∧ (kind = RoomCreate → l = []) ∧
  (kind ≠ RoomCreate → ∀ key, key ∈ l ↔
     key ∈ [(RoomPowerLevels, ""); (RoomMember, sender); (RoomCreate, "")] ∨
     extra_auth_type kind target c key).
Proof.
  set (base := [(RoomPowerLevels, ""); (RoomMember, sender); (RoomCreate, "")]).
  assert (NoDup base) as Hbase.
  { unfold base. repeat (apply list.NoDup_cons; split; [set_solver|]). apply NoDup_nil_2. }
  destruct (decide (kind = RoomCreate)) as [->|Hc].
  { intros [= <-]. split_and!; [apply NoDup_nil_2|done|done]. }
  destruct (decide (kind = RoomMember)) as [->|Hm].
  2:{ unfold auth_types_for_event. rewrite !decide_False by done. intros [= <-].
      split_and!; [done..|]. intros _ key. split; [auto|]. intros [?|He]; [done|].
      by destruct He. }
  destruct target as [user|].
  2:{ intros [= <-]. split_and!; [done..|]. intros _ key. split; [auto|].
      intros [?|He]; [done|]. by destruct He. }
  intros (m & raw & Hf & Hl)%auth_types_member. cbv zeta in Hl. fold base in Hl.
  destruct m as [m|].
  2:{ subst l. split_and!; [done..|]. intros _ key. split; [auto|].
      intros [?|He]; [done|]. destruct He; congruence. }
  set (l1 := if decide (m ∈ [Join; Invite]) then _ else _) in Hl.
  set (l2 := push_unique (RoomMember, user) l1) in Hl.
  assert (NoDup l2) as Hnd2.
  { clear Hl. apply NoDup_push_unique. unfold l1. case_decide; [by apply NoDup_push_unique|done]. }
  assert (∀ key, key ∈ l2 ↔ key ∈ base ∨ key = (RoomMember, user) ∨
    (m = Join ∨ m = Invite) ∧ key = (RoomJoinRules, "")) as Hl2.
  { clear Hl. intros key. unfold l2, l1. rewrite elem_of_push_unique.
    case_decide as Hji; rewrite ?elem_of_push_unique; set_unfold in Hji; naive_solver. }
  assert (∀ key, key ∈ l2 → key ∈ base ∨ extra_auth_type RoomMember (Some user) c key) as Hsound.
  { intros key [?|[->|[? ->]]]%Hl2; [by left|right..].
    - by eapply extra_target.
    - by eapply extra_join_rules. }
  case_decide as Hi.
  - destruct Hl as (o & Ho & ->). split_and!; [|done|].
    { destruct o; [by apply NoDup_push_unique|done]. }
    intros _ key. split.
    + intros Hin. destruct o as [t|]; [|auto]. apply elem_of_push_unique in Hin as [?| ->]; [auto|].
      right. subst m. by eapply extra_third_party.
    + assert (∀ x, x ∈ l2 → x ∈ match o with
        | Some t => push_unique (RoomThirdPartyInvite, token (signed t)) l2 | None => l2 end) as Hsub.
      { intros x Hx. destruct o; [apply elem_of_push_unique; auto|done]. }
      intros [Hb|He]; [apply Hsub, Hl2; auto|].
      destruct He as [u m1 r1 _ Hu Hf1|u m1 r1 _ Hu Hf1 Hji|u r1 t _ Hu Hf1 Ht]; injection Hu as <-;
        rewrite Hf in Hf1; injection Hf1 as ? ?; subst.
      * apply Hsub, Hl2. auto.
      * apply Hsub, Hl2. auto.
      * rewrite Ho in Ht. injection Ht as ->. apply elem_of_push_unique. by right.
  - subst l. split_and!; [done..|]. intros _ key. split; [apply Hsound|].
    intros [Hb|He]; [apply Hl2; auto|]. apply Hl2.
    destruct He as [u m1 r1 _ Hu Hf1|u m1 r1 _ Hu Hf1 Hji|u r1 t _ Hu Hf1 Ht]; injection Hu as <-;
      rewrite Hf in Hf1; injection Hf1 as ? ?; subst; auto. done.
Qed.
End rules.

Lemma auth_types_for_event_spec_witness :
  let _ := ascii_unicode in
  ∃ l, auth_types_for_event RoomMember "@a:a" (Some "@b:a")
         (JObject [("membership", JString "invite")]) = Ok l ∧
    NoDup l ∧ (RoomJoinRules, "") ∈ l.
Proof.
  intros u. eexists. split; [reflexivity|].
  destruct (auth_types_for_event_spec RoomMember "@a:a" (Some "@b:a")
    (JObject [("membership", JString "invite")]) _ eq_refl) as (Hnd & _ & Hin).
  split; [exact Hnd|]. apply Hin; [discriminate|]. right.
  eapply (extra_join_rules _ _ _ "@b:a" Invite); [reflexivity..|]. right. reflexivity.
Defined.

Section checks.
Context `{Unicode}.

(** ** The create event *)

Definition create_fields (c : json) : outcome StateError (option json * option json) :=
  let fields := ["room_version"; "creator"] in
  src ← from_json (struct_src fields c);
  raw_version ← from_json (field_opt fields "room_version" de_raw src);
  raw_creator ← from_json (field_opt fields "creator" de_raw src);
  Ok (raw_version, raw_creator).

Lemma infallible_Ok {E E' A} (m : outcome E A) a : infallible (E':=E') m = Ok a ↔ m = Ok a.
Proof. destruct m; simpl; naive_solver. Qed.

(** A create event is allowed exactly when it has no previous events, its room and its
    sender are of the same server, its room version parses if there is one, and it has a
    creator; the state plays no part. *)
Theorem auth_check_create rv ev prev tpi fetch :
  event_type ev = RoomCreate →
  auth_check rv ev prev tpi fetch = Ok true ↔
  prev_events ev = [] ∧
  (∃ sn, server_name (room_id ev) = Ok sn ∧ server_name (sender ev) = Ok sn) ∧
  ∃ version creator, create_fields (content ev) = Ok (version, Some creator) ∧
    (∀ v, version = Some v → ∃ rv', de_RoomVersionId v = Ok rv').
Proof.
  intros Ht. unfold auth_check. rewrite decide_True by done.
  unfold check_room_create, create_fields. split.
  - case_decide as Hp; [done|]. intros (rs & Hrs & (ss & Hss & Hb)%bind_Ok)%bind_Ok.
    rewrite infallible_Ok in Hrs, Hss. case_decide as Heq; [done|]. subst ss.
    apply bind_Ok in Hb as (src & Hsrc & Hb). apply bind_Ok in Hb as (v & Hv & Hb).
    apply bind_Ok in Hb as (c & Hc & Hb). apply bind_Ok in Hb as (ver & Hver & Hb).
    split; [done|]. split; [eauto|].
    destruct (_ && bool_decide (ver = None)) eqn:Hbad; [done|]. case_decide as Hcr; [done|].
    destruct c as [c|]; [|done]. exists v, c. rewrite Hsrc. simpl. rewrite Hv. simpl.
    rewrite Hc. split; [done|]. intros j ->. cbn [deserialize_ok] in Hver. simpl in Hbad.
    apply bool_decide_eq_false in Hbad. destruct ver as [ver|]; [|done].
    exists ver. exact (proj1 (try_ok_Some _ _) Hver).
  - intros (Hp & (sn & Hrs & Hss) & v & c & Hf & Hv). rewrite decide_False by auto.
    rewrite Hrs, Hss. simpl. rewrite decide_False by auto.
    apply bind_Ok in Hf as (src & -> & Hf). apply bind_Ok in Hf as (v' & Hv' & Hf).
    apply bind_Ok in Hf as (c' & Hc' & [= -> ->]). simpl. rewrite Hv'. simpl. rewrite Hc'. simpl.
    destruct v as [v|]; simpl; [|done]. destruct (Hv v eq_refl) as [ver ->]. done.
Qed.

(** ** Ordinary events *)

(** The condition on new power levels, with the room's current ones if there are any. *)
Definition power_levels_acceptable (rv : RoomVersion) (ev : Event) (current : option Event)
    (level : Z) : Prop :=
  state_key ev = Some "" ∧
  ∀ previous, current = Some previous → ∃ old new,
    de_RoomPowerLevelsEventContent (content previous) = Ok old ∧
    de_RoomPowerLevelsEventContent (content ev) = Ok new ∧
    no_escalation rv (sender ev) level old new.

Lemma check_power_levels_true rv ev current level :
  check_power_levels rv ev current level = Ok (Some true) ↔
  power_levels_acceptable rv ev current level.
Proof.
  unfold power_levels_acceptable. destruct (decide (state_key ev = Some "")) as [Hk|Hk].
  2:{ unfold check_power_levels. rewrite decide_True by done. naive_solver. }
  destruct current as [previous|].
  2:{ unfold check_power_levels. rewrite decide_False by auto. naive_solver. }
  destruct (check_power_levels_verdict rv ev previous level Hk) as [Hd Hp]. split.
  - intros Hc. split; [done|]. intros _ [= <-].
    destruct (de_RoomPowerLevelsEventContent (content ev)) as [new| |] eqn:Hn,
      (de_RoomPowerLevelsEventContent (content previous)) as [old| |] eqn:Ho;
      try by rewrite Hp in Hc by naive_solver.
    exists old, new. split_and!; [done..|].
    destruct (Hd new old eq_refl eq_refl) as (b & Hb & Hiff). apply Hiff. congruence.
  - intros [_ Hpl]. destruct (Hpl previous eq_refl) as (old & new & Ho & Hn & Hne).
    destruct (Hd new old Hn Ho) as (b & Hb & Hiff). apply Hiff in Hne. by subst b.
Qed.

(** What a sender needs to send an event that is not about membership. *)
Record sendable (rv : RoomVersion) (ev : Event) (pl : option Event) (level : Z) : Prop := {
  s_level : ∃ required, get_send_level (event_type ev) (state_key ev) pl = Ok required ∧
    (required ≤ level)%Z;
  s_state_key k : state_key ev = Some k → starts_with_char "@" k = true → k = sender ev;
  s_invite : event_type ev = RoomThirdPartyInvite →
    ∃ il, get_invite_level pl = Ok il ∧ (il ≤ level)%Z;
  s_power_levels : event_type ev = RoomPowerLevels → power_levels_acceptable rv ev pl level;
  s_redaction : extra_redaction_checks rv = true → event_type ev = RoomRedaction →
    ∃ rl, get_redact_level pl = Ok rl ∧ check_redaction rv ev level rl = Ok true
}.

Lemma can_send_event_true ev pl level :
  can_send_event ev pl level = Ok true ↔
  (∃ required, get_send_level (event_type ev) (state_key ev) pl = Ok required ∧
     (required ≤ level)%Z) ∧
  (∀ k, state_key ev = Some k → starts_with_char "@" k = true → k = sender ev).
Proof.
  unfold can_send_event. rewrite bind_Ok. split.
  - intros (r & Hr & Hb). destruct (level <? r)%Z eqn:Hl; [done|]. apply Z.ltb_ge in Hl.
    split; [eauto|]. intros k Hk Hat. rewrite Hk, Hat in Hb. simpl in Hb.
    destruct (decide (k = sender ev)); [done|]. by rewrite bool_decide_true in Hb.
  - intros [(r & Hr & Hl) Hk]. exists r. split; [done|].
    apply Z.ltb_ge in Hl. rewrite Hl. destruct (state_key ev) as [k|]; [|done].
    destruct (starts_with_char "@" k) eqn:Hat; [|done]. simpl.
    rewrite bool_decide_false; [done|]. naive_solver.
Qed.

Lemma check_sendable_true rv ev pl level :
  check_sendable rv ev pl level = Ok true ↔ sendable rv ev pl level.
Proof.
  unfold check_sendable. split.
  - intros (ci & Hci & Hb)%bind_Ok. destruct ci; [|done]. simpl in Hb.
    apply bind_Ok in Hb as (cs & Hcs & Hb). destruct cs; [|done]. simpl in Hb.
    apply can_send_event_true in Hcs as [Hl Hk].
    apply bind_Ok in Hb as (lo & Hlo & Hb). destruct lo; [|done]. simpl in Hb.
    split; [done|done| | |].
    + intros Ht. rewrite decide_True in Hci by done.
      apply bind_Ok in Hci as (il & Hil & [= Hc]). exists il. split; [done|].
      apply negb_true_iff, Z.ltb_ge in Hc. done.
    + intros Ht. rewrite decide_True in Hlo by done. apply check_power_levels_true.
      apply bind_Ok in Hlo as ([[]|] & Hr & Hd); done.
    + intros Hx Ht. rewrite Hx, bool_decide_true in Hb by done. simpl in Hb.
      by apply bind_Ok in Hb.
  - intros [Hl Hk Hi Hp Hr]. apply bind_Ok. exists true. split.
    { case_decide as Ht; [|done]. destruct (Hi Ht) as (il & -> & Hle). simpl. f_equal.
      apply negb_true_iff. by apply Z.ltb_ge. }
    simpl. apply bind_Ok. exists true. split; [by apply can_send_event_true|].
    simpl. apply bind_Ok. exists true. split.
    { case_decide as Ht; [|done]. by rewrite (proj2 (check_power_levels_true _ _ _ _) (Hp Ht)). }
    simpl. destruct (extra_redaction_checks rv); [|done].
    case_bool_decide as Ht; [|done]. simpl. by apply bind_Ok, Hr.
Qed.

(** C8: outside room creation, membership and the old aliases rule, an event is allowed exactly
    when the room has a create event, its sender's membership in the state is join, and the
    sender's power suffices: for the event type, for a state key that names a user, for third
    party invites, for each changed power level and for redactions. *)
Theorem auth_check_ordinary rv ev prev tpi fetch :
  event_type ev ≠ RoomCreate → event_type ev ≠ RoomMember →
  (event_type ev = RoomAliases → special_case_aliases_auth rv = false) →
  auth_check rv ev prev tpi fetch = Ok true ↔
  ∃ create member level,
    fetch RoomCreate "" = Some create ∧ fetch RoomMember (sender ev) = Some member ∧
    get_sender_membership member = Ok Join ∧
    get_sender_power_level (sender ev) (fetch RoomPowerLevels "") create = Ok level ∧
    sendable rv ev (fetch RoomPowerLevels "") level.
Proof.
  intros Hc Hm Ha. unfold auth_check. rewrite decide_False by done.
  destruct (fetch RoomCreate "") as [create|]; [|naive_solver].
  assert (bool_decide (event_type ev = RoomAliases) && special_case_aliases_auth rv = false) as ->.
  { case_bool_decide; [|done]. by rewrite Ha. }
  rewrite (decide_False (P := event_type ev = RoomMember)) by done.
  destruct (fetch RoomMember (sender ev)) as [member|]; [|naive_solver].
  setoid_rewrite <- check_sendable_true. rewrite bind_Ok. split.
  - intros (ms & Hms & Hb). case_decide as Hj; [done|].
    apply bind_Ok in Hb as (level & Hl & Hs). exists create, member, level.
    split_and!; try done. by rewrite Hms, Hj.
  - intros (? & ? & level & [= <-] & [= <-] & Hms & Hl & Hs). exists Join. split; [done|].
    rewrite decide_False by auto. by rewrite Hl.
Qed.
End checks.

(** ** Examples: a room with one administrator *)

Definition create_event : Event :=
  {| event_id := "$c:a"; room_id := "!r:a"; sender := "@a:a"; origin_server_ts := 1;
     event_type := RoomCreate;
     content := JObject [("creator", JString "@a:a"); ("room_version", JString "6")];
     state_key := Some ""; prev_events := []; auth_events := []; redacts := None |}.

Definition member_event (id s : string) (m : string) : Event :=
  state_event id s RoomMember s (JObject [("membership", JString m)]) [].

Definition example_state (ty : EventType) (key : string) : option Event :=
  if decide (ty = RoomCreate) then Some create_event
  else if decide (ty = RoomMember ∧ key = "@a:a") then Some (member_event "$m:a" "@a:a" "join")
  else if decide (ty = RoomPowerLevels)
       then Some (pl_event "$pl:a" "@a:a" [] [("@a:a", 100%Z)])
  else None.

Lemma auth_check_create_witness :
  let _ := ascii_unicode in
  event_type create_event = RoomCreate ∧
  auth_check VERSION6 create_event None None (λ _ _, None) = Ok true.
Proof.
  intros u. split; [reflexivity|].
  apply (auth_check_create VERSION6 create_event None None (λ _ _, None) eq_refl).
  split; [reflexivity|]. split; [exists "a"; split; reflexivity|].
  eexists _, _. split; [reflexivity|]. intros v [= <-]. exists V6. reflexivity.
Defined.

Lemma auth_check_ordinary_witness :
  let _ := ascii_unicode in
  let ev := state_event "$t:a" "@a:a" RoomTopic "" (JObject []) [] in
  ∃ level, get_sender_power_level "@a:a" (example_state RoomPowerLevels "") create_event = Ok level ∧
    sendable VERSION6 ev (example_state RoomPowerLevels "") level.
Proof.
  intros u ev.
  destruct (auth_check_ordinary VERSION6 ev None None example_state) as [H _];
    [discriminate|discriminate|discriminate|].
  destruct H as (create & member & level & Hc & Hm & _ & Hl & Hs); [vm_compute; reflexivity|].
  exists level. injection Hc as <-. split; [exact Hl|exact Hs].
Defined.

Lemma valid_membership_change_refines_witness :
  let _ := ascii_unicode in
  ∃ m tpi sm current pl jr,
    membership_inputs None (Some (member_event "$m:a" "@a:a" "join"))
      (example_state RoomPowerLevels "") None (JObject [("membership", JString "invite")])
      m tpi sm current pl jr ∧ m = Invite.
Proof.
  intros u.
  destruct (valid_membership_change_refines "@b:a" None "@a:a"
    (Some (member_event "$m:a" "@a:a" "join")) (JObject [("membership", JString "invite")])
    None None (example_state RoomPowerLevels "") None) as [H _].
  destruct H as (m & tpi & sm & cur & pl & jr & Hin & _); [vm_compute; reflexivity|].
  exists m, tpi, sm, cur, pl, jr. split; [exact Hin|]. destruct Hin as (Hm & _).
  vm_compute in Hm. congruence.
Defined.

Lemma kick_ban_needs_power_witness :
  let _ := ascii_unicode in
  ∃ pl p, power_levels_of (example_state RoomPowerLevels "") = Ok pl ∧
    power_of pl "@a:a" true = Some p ∧ (ban pl ≤ p)%Z.
Proof.
  intros u.
  pose (ev := JObject [("membership", JString "ban")]).
  pose (pl_ev := example_state RoomPowerLevels "").
  destruct (power_levels_of pl_ev) as [pl|e|] eqn:Hpl;
    [|exfalso; vm_compute in Hpl; discriminate Hpl..].
  destruct (kick_ban_needs_power "@b:a" None "@a:a" (Some (member_event "$m:a" "@a:a" "join"))
    ev None None pl_ev None Ban pl) as (_ & p & Hp & Hle & _).
  - vm_compute. reflexivity.
  - reflexivity.
  - exact Hpl.
  - intros (prev & Hno & _). discriminate Hno.
  - left. reflexivity.
  - exists pl, p. split; [exact Hpl|]. split; [exact Hp|exact Hle].
Defined.

(** ** Third party invites *)

(** A third party invite is accepted for its own user when the room's invite event has the
    invite's token as state key and comes from the same sender, and one of its public keys
    equals the token; the signatures of the invite are not looked at. *)
Theorem verify_third_party_invite_spec target s t current :
  verify_third_party_invite (Some target) s t (Some current) = Ok true ↔
  target = mxid (signed t) ∧ state_key current = Some (token (signed t)) ∧ s = sender current ∧
  ∃ c, de_RoomThirdPartyInviteEventContent (content current) = Ok c ∧
    (tpe_public_key c = token (signed t) ∨
     ∃ keys key, tpe_public_keys c = Some keys ∧ key ∈ keys ∧
       pk_public_key key = token (signed t)).
Proof.
  unfold verify_third_party_invite. split.
  - case_decide as Hu; [done|]. case_decide as Hk; [done|]. case_decide as Hs; [done|].
    intros (c & Hc & Hb)%bind_Ok. destruct c as [c|]; [|done].
    injection Hu as ->. split_and!; [done..|]. exists c. split; [by apply (proj1 (try_ok_Some _ _) Hc)|].
    injection Hb as Hb. apply orb_true_iff in Hb as [Hb|Hb].
    + right. apply existsb_exists in Hb as (key & Hin & Hkey). apply list_elem_of_In in Hin.
      destruct (tpe_public_keys c) as [keys|]; simpl in Hin; [|by apply elem_of_nil in Hin].
      exists keys, key. by apply bool_decide_eq_true in Hkey.
    + left. by apply bool_decide_eq_true in Hb.
  - intros (-> & Hk & -> & c & Hc & Hkey). rewrite !decide_False by (rewrite ?Hk; auto).
    rewrite Hc. simpl. f_equal. apply orb_true_iff. destruct Hkey as [?|(keys & key & Hks & Hin & ?)].
    + right. by apply bool_decide_eq_true.
    + left. rewrite Hks. apply existsb_exists. exists key. rewrite <- list_elem_of_In.
      by rewrite bool_decide_eq_true.
Qed.
