(* ===== verification/StateRes.v ===== *)
(** * State resolution

    [ruma-state-res/src/lib.rs], function by function. Event IDs are strings, a [HashMap] is a
    [gmap] whose iteration order is the parameter [HashOrder], and the store of events is the
    function [fetch_event].

    The loops that follow auth events carry fuel. [OutOfFuel] is not an error of the program:
    it marks a run that the fuel was too short for, and the theorems on termination show how
    much is enough. *)

From S2P Require Import Prelude RustStr RustNet IdValidation StringEnum Identifiers Json.
From S2P Require Import EventTypes EventContents RoomVersions EventAuth.
From Stdlib Require Import Ascii NArith.
Open Scope string_scope.
Open Scope nat_scope.
Open Scope list_scope.

Definition StateKey : Type := EventType * string.
Notation StateMap := (gmap StateKey).

(** The graphs of the power event sort: a node and the nodes it refers to. *)
Notation Graph := (gmap string (gset string)).

Inductive RunError :=
  | Failed (e : StateError)
  | OutOfFuel.

#[export] Instance RunError_eq_dec : EqDecision RunError.
Proof. solve_decision. Defined.

Definition lift {A} (m : outcome StateError A) : outcome RunError A := map_err Failed m.

(** A loop: the body either goes on with a new state or leaves with a result. *)
Fixpoint loop {S A} (step : S → outcome RunError (S + A)) (fuel : nat) (s : S) :
    outcome RunError A :=
  match fuel with
  | O => Err OutOfFuel
  | Datatypes.S fuel =>
      r ← step s;
      match r with
      | inl s' => loop step fuel s'
      | inr a => Ok a
      end
  end.

(** [iter().filter(...)] with a predicate that may panic. *)
Definition filter_outcome {E A} (p : A → outcome E bool) (l : list A) : outcome E (list A) :=
  for_each (λ acc x, b ← p x; Ok (if (b : bool) then acc ++ [x] else acc)) [] l.

(** ** Splitting the state sets *)

(** itertools' [all_equal] *)
Definition all_equal {A} `{EqDecision A} (l : list A) : bool :=
  match l with
  | [] => true
  | a :: l => forallb (λ x, bool_decide (x = a)) l
  end.

Section state_res.
Context `{Unicode} `{HashOrder}.

Definition separate (state_sets : list (StateMap string)) :
    outcome RunError (StateMap string * StateMap (list string)) :=
  let keys := remove_dups (mjoin ((λ m : StateMap string, (hash_iter m).*1) <$> state_sets)) in
  for_each (λ '(unconflicted_state, conflicted_state) key,
      let event_ids := (λ state_set : StateMap string, state_set !! key) <$> state_sets in
      if all_equal event_ids then
        popped ← unwrap (list.last event_ids);
        id ← unwrap popped;
        Ok (<[key := id]> unconflicted_state, conflicted_state)
      else Ok (unconflicted_state, <[key := omap id event_ids]> conflicted_state))
    (∅, ∅) keys.

Definition count_id (id_counts : gmap string nat) (id : string) : gmap string nat :=
  <[id := default 0 (id_counts !! id) + 1]> id_counts.

Definition get_auth_chain_diff (auth_chain_sets : list (gset string)) : list string :=
  let num_sets := length auth_chain_sets in
  let id_counts := fold_left count_id (mjoin (hset_iter <$> auth_chain_sets)) ∅ in
  omap (λ '(id, count), if bool_decide (count < num_sets) then Some id else None)
    (hash_iter id_counts).

(** ** The sort of power events *)

(** A heap entry, ordered by negated power level, time and event ID. *)
Record TieBreaker := { inv_power_level : Z; age : Z; tb_event_id : string }.

#[export] Instance TieBreaker_eq_dec : EqDecision TieBreaker.
Proof. solve_decision. Defined.

Definition tie_le (a b : TieBreaker) : bool :=
  if (inv_power_level a <? inv_power_level b)%Z then true
  else if (inv_power_level b <? inv_power_level a)%Z then false
  else if (age a <? age b)%Z then true
  else if (age b <? age a)%Z then false
  else String.leb (tb_event_id a) (tb_event_id b).

(** [BinaryHeap::pop] over [Reverse]: a least entry and the others. *)
Fixpoint heap_pop (heap : list TieBreaker) : option (TieBreaker * list TieBreaker) :=
  match heap with
  | [] => None
  | x :: heap =>
      match heap_pop heap with
      | None => Some (x, [])
      | Some (y, rest) => if tie_le x y then Some (x, y :: rest) else Some (y, x :: rest)
      end
  end.

(** [map.entry(k).or_default()] *)
Definition or_default (k : string) (g : Graph) : Graph := <[k := default ∅ (g !! k)]> g.
(** [map.entry(k).or_default().insert(x)] *)
Definition entry_insert (k x : string) (g : Graph) : Graph :=
  <[k := {[x]} ∪ default ∅ (g !! k)]> g.

Section topological_sort.
Variable graph : Graph.
Variable key_fn : string → outcome RunError (Z * Z).

Definition tie_breaker (key_of node : string) : outcome RunError TieBreaker :=
  k ← key_fn key_of;
  Ok {| inv_power_level := - k.1; age := k.2; tb_event_id := node |}.

(** The first loop: the nodes without outgoing edges and the reversed graph. *)
Definition topo_init : outcome RunError (list TieBreaker * Graph) :=
  for_each (λ '(zero_outdegree, reverse_graph) '(node, edges),
      zero_outdegree ←
        if decide (edges = ∅) then
          t ← tie_breaker node node;
          Ok (zero_outdegree ++ [t])
        else Ok zero_outdegree;
      Ok (zero_outdegree,
          fold_left (λ reverse_graph edge, entry_insert edge node reverse_graph)
            (hset_iter edges) (or_default node reverse_graph)))
    ([], ∅) (hash_iter graph).

(** One parent of the node just taken from the heap. The key of the new entry is that of
    [node]. *)
Definition topo_parent (node : string) (s : Graph * list TieBreaker) (parent : string) :
    outcome RunError (Graph * list TieBreaker) :=
  let '(outdegree_map, heap) := s in
  out ← unwrap (outdegree_map !! parent);
  let out := out ∖ {[node]} in
  let outdegree_map := <[parent := out]> outdegree_map in
  if decide (out = ∅) then
    t ← tie_breaker node parent;
    Ok (outdegree_map, heap ++ [t])
  else Ok (outdegree_map, heap).

Definition topo_step (reverse_graph : Graph) (s : Graph * list TieBreaker * list string) :
    outcome RunError ((Graph * list TieBreaker * list string) + list string) :=
  let '(outdegree_map, heap, sorted) := s in
  match heap_pop heap with
  | None => Ok (inr sorted)
  | Some (item, heap) =>
      let node := tb_event_id item in
      parents ← unwrap (reverse_graph !! node);
      s' ← for_each (topo_parent node) (outdegree_map, heap) (hset_iter parents);
      Ok (inl (s'.1, s'.2, sorted ++ [node]))
  end.

Definition lexicographical_topological_sort (fuel : nat) : outcome RunError (list string) :=
  init ← topo_init;
  let '(zero_outdegree, reverse_graph) := init in
  loop (topo_step reverse_graph) fuel (graph, zero_outdegree, []).
End topological_sort.

Section with_store.
Variable fetch_event : string → option Event.

(** [fetch_event(id).map(|ev| ev.auth_events()).into_iter().flatten()] *)
Definition auth_events_of (event_id : string) : list string :=
  match fetch_event event_id with Some ev => auth_events ev | None => [] end.

Definition is_type_and_key (ev : Event) (ev_type : EventType) (key : string) : bool :=
  bool_decide (event_type ev = ev_type) && bool_decide (state_key ev = Some key).

Definition is_power_event (event : Event) : outcome RunError bool :=
  match event_type event with
  | RoomPowerLevels | RoomJoinRules | RoomCreate => Ok (bool_decide (state_key event = Some ""))
  | RoomMember =>
      c ← try_ok (de_RoomMemberEventContent (content event));
      match c with
      | Some c =>
          if decide (membership c ∈ [Leave; Ban])
          then Ok (bool_decide (Some (sender event) ≠ state_key event))
          else Ok false
      | None => Ok false
      end
  | _ => Ok false
  end.

Definition is_power_event_id (event_id : string) : outcome RunError bool :=
  match fetch_event event_id with
  | Some state => is_power_event state
  | None => Ok false
  end.

(** The body of the loop over one event's auth events. *)
Definition graph_edge (auth_diff : gset string) (eid : string) (s : Graph * list string)
    (aid : string) : outcome RunError (Graph * list string) :=
  let '(graph, state) := s in
  if decide (aid ∈ auth_diff) then
    let state := if decide (is_Some (graph !! aid)) then state else aid :: state in
    edges ← unwrap (graph !! eid);
    Ok (<[eid := {[aid]} ∪ edges]> graph, state)
  else Ok (graph, state).

(** [while let Some(eid) = state.pop()]: the head of the list is the top of the stack. *)
Definition graph_step (auth_diff : gset string) (s : Graph * list string) :
    outcome RunError ((Graph * list string) + Graph) :=
  let '(graph, state) := s in
  match state with
  | [] => Ok (inr graph)
  | eid :: state =>
      s' ← for_each (graph_edge auth_diff eid) (or_default eid graph, state) (auth_events_of eid);
      Ok (inl s')
  end.

Definition add_event_and_auth_chain_to_graph (auth_diff : gset string) (fuel : nat)
    (graph : Graph) (event_id : string) : outcome RunError Graph :=
  loop (graph_step auth_diff) fuel (graph, [event_id]).

Definition get_power_level_for_sender (event_id : string) : outcome RunError Z :=
  let event := fetch_event event_id in
  let pl := head (filter (λ aev, is_type_and_key aev RoomPowerLevels "" = true)
                    (omap fetch_event (auth_events_of event_id))) in
  match pl with
  | None => Ok 0%Z
  | Some ev =>
      content ← lift (from_json (de_PowerLevelsContentFields (content ev)));
      Ok match event with
         | Some ev => default (plf_users_default content) (plf_users content !! sender ev)
         | None => plf_users_default content
         end
  end.

(** The [key_fn] of the sort. *)
Definition power_key (event_to_pl : gmap string Z) (event_id : string) :
    outcome RunError (Z * Z) :=
  ev ← ok_or (Failed (NotFound "")) (fetch_event event_id);
  pl ← ok_or (Failed (NotFound "")) (event_to_pl !! event_id);
  Ok (pl, origin_server_ts ev).

Definition reverse_topological_power_sort (fuel : nat) (events_to_sort : list string)
    (auth_diff : gset string) : outcome RunError (list string) :=
  graph ← for_each (add_event_and_auth_chain_to_graph auth_diff fuel) ∅ events_to_sort;
  event_to_pl ←
    for_each (λ m event_id,
        pl ← get_power_level_for_sender event_id;
        Ok (<[event_id := pl]> m)) (∅ : gmap string Z) (hash_iter graph).*1;
  lexicographical_topological_sort graph (power_key event_to_pl) fuel.

(** ** The iterative auth check *)

(** The auth events of an event, by type and state key. *)
Definition collect_auth_events (event : Event) : outcome RunError (StateMap Event) :=
  for_each (λ (auth : StateMap Event) aid,
      match fetch_event aid with
      | Some ev =>
          key ← ok_or (Failed (InvalidPdu "State event had no state key")) (state_key ev);
          Ok (<[(event_type ev, key) := ev]> auth)
      | None => Ok auth
      end) ∅ (auth_events event).

(** The resolved state replaces what the event cites. *)
Definition overlay_state (resolved_state : StateMap string) (auth : StateMap Event)
    (key : StateKey) : StateMap Event :=
  match resolved_state !! key with
  | Some ev_id =>
      match fetch_event ev_id with
      | Some event => <[key := event]> auth
      | None => auth
      end
  | None => auth
  end.

Definition find_third_party_invite (auth : StateMap Event) : option Event :=
  head (filter (λ pdu, event_type pdu = RoomThirdPartyInvite) (hash_iter auth).*2).

Definition iterative_auth_step (room_version : RoomVersion) (resolved_state : StateMap string)
    (event_id : string) : outcome RunError (StateMap string) :=
  event ← ok_or (Failed (NotFound ("Failed to find " +:+ event_id))) (fetch_event event_id);
  state_key ← ok_or (Failed (InvalidPdu "State event had no state key")) (state_key event);
  auth ← collect_auth_events event;
  keys ← lift (from_json (auth_types_for_event (event_type event) (sender event)
                            (Some state_key) (content event)));
  let auth := fold_left (overlay_state resolved_state) keys auth in
  let most_recent_prev_event := list.last (omap fetch_event (prev_events event)) in
  let current_third_party := find_third_party_invite auth in
  allowed ← lift (auth_check room_version event most_recent_prev_event current_third_party
                    (λ ty key, auth !! (ty, key)));
  if (allowed : bool) then Ok (<[(event_type event, state_key) := event_id]> resolved_state)
  else Ok resolved_state.

Definition iterative_auth_check (room_version : RoomVersion) (events_to_check : list string)
    (unconflicted_state : StateMap string) : outcome RunError (StateMap string) :=
  for_each (iterative_auth_step room_version) unconflicted_state events_to_check.

(** ** The mainline sort *)

(** The loop over an event's auth events that looks for the power levels; every auth event has
    to be found until then. *)
Fixpoint find_power_levels (auth : list string) : outcome RunError (option string) :=
  match auth with
  | [] => Ok None
  | aid :: auth =>
      ev ← ok_or (Failed (NotFound ("Failed to find " +:+ aid))) (fetch_event aid);
      if is_type_and_key ev RoomPowerLevels "" then Ok (Some aid) else find_power_levels auth
  end.

Definition mainline_step (s : list string * option string) :
    outcome RunError ((list string * option string) + list string) :=
  let '(mainline, pl) := s in
  match pl with
  | None => Ok (inr mainline)
  | Some p =>
      event ← ok_or (Failed (NotFound ("Failed to find " +:+ p))) (fetch_event p);
      pl ← find_power_levels (auth_events event);
      Ok (inl (mainline ++ [p], pl))
  end.

(** [mainline.iter().rev().enumerate()], collected: the oldest power event has depth 0. *)
Definition mainline_map_of (mainline : list string) : gmap string nat :=
  fold_left (λ m '(idx, eid), <[eid := idx]> m) (imap (λ i eid, (i, eid)) (reverse mainline)) ∅.

Definition depth_step (mainline_map : gmap string nat) (event : option Event) :
    outcome RunError (option Event + nat) :=
  match event with
  | None => Ok (inr 0)
  | Some sort_ev =>
      match mainline_map !! event_id sort_ev with
      | Some depth => Ok (inr depth)
      | None =>
          pl ← find_power_levels (auth_events sort_ev);
          Ok (inl (pl ≫= fetch_event))
      end
  end.

Definition get_mainline_depth (mainline_map : gmap string nat) (fuel : nat)
    (event : option Event) : outcome RunError nat :=
  loop (depth_step mainline_map) fuel event.

(** The key of the sort: depth, time, event ID. *)
Definition order_key : Type := nat * option Z * string.

Definition opt_cmp (a b : option Z) : comparison :=
  match a, b with
  | None, None => Eq
  | None, Some _ => Lt
  | Some _, None => Gt
  | Some x, Some y => Z.compare x y
  end.

Definition order_key_le (a b : order_key) : bool :=
  match Nat.compare a.1.1 b.1.1 with
  | Lt => true
  | Gt => false
  | Eq =>
      match opt_cmp a.1.2 b.1.2 with
      | Lt => true
      | Gt => false
      | Eq => String.leb a.2 b.2
      end
  end.

(** The stable insertion sort that [sort_by_key] agrees with. *)
Fixpoint insert_by_key (x : string * order_key) (l : list (string * order_key)) :
    list (string * order_key) :=
  match l with
  | [] => [x]
  | y :: l' => if order_key_le x.2 y.2 then x :: l else y :: insert_by_key x l'
  end.
Definition sort_by_key (l : list (string * order_key)) : list (string * order_key) :=
  foldr insert_by_key [] l.

(** One event of [to_sort]: events that are not found, and those whose depth is an error, are
    left out. *)
Definition order_event (mainline_map : gmap string nat) (fuel : nat)
    (order_map : gmap string order_key) (ev_id : string) :
    outcome RunError (gmap string order_key) :=
  match fetch_event ev_id with
  | None => Ok order_map
  | Some event =>
      match get_mainline_depth mainline_map fuel (Some event) with
      | Ok depth => Ok (<[ev_id := (depth, Some (origin_server_ts event), ev_id)]> order_map)
      | Err (Failed _) => Ok order_map
      | Err OutOfFuel => Err OutOfFuel
      | Panic => Panic
      end
  end.

Definition mainline_sort (fuel : nat) (to_sort : list string)
    (resolved_power_level : option string) : outcome RunError (list string) :=
  if decide (to_sort = []) then Ok []
  else
    mainline ← loop mainline_step fuel ([], resolved_power_level);
    order_map ← for_each (order_event (mainline_map_of mainline) fuel) ∅ to_sort;
    Ok (sort_by_key (hash_iter order_map)).*1.

(** ** resolve *)

Definition resolve (fuel : nat) (room_version : RoomVersionId)
    (state_sets : list (StateMap string)) (auth_chain_sets : list (gset string)) :
    outcome RunError (StateMap string) :=
  split ← separate state_sets;
  let '(clean, conflicting) := split in
  if decide (conflicting = ∅) then Ok clean
  else
    let all_conflicted : gset string :=
      list_to_set
        (filter (λ id, is_Some (fetch_event id))
           (get_auth_chain_diff auth_chain_sets ++ mjoin (hash_iter conflicting).*2)) in
    control_events ← filter_outcome is_power_event_id (hset_iter all_conflicted);
    sorted_control_levels ← reverse_topological_power_sort fuel control_events all_conflicted;
    room_version ← lift (RoomVersion_new room_version);
    resolved_control ← iterative_auth_check room_version sorted_control_levels clean;
    let deduped_power_ev : gset string := list_to_set sorted_control_levels in
    let events_to_resolve :=
      filter (λ id, id ∉ deduped_power_ev) (hset_iter all_conflicted) in
    let power_event := resolved_control !! (RoomPowerLevels, "") in
    sorted_left_events ← mainline_sort fuel events_to_resolve power_event;
    resolved_state ← iterative_auth_check room_version sorted_left_events resolved_control;
    Ok (clean ∪ resolved_state).
End with_store.
End state_res.

(** ** Loops *)

(** A loop whose body keeps an invariant and decreases a measure ends in a result. *)
Lemma loop_total {S A} (step : S → outcome RunError (S + A)) (I : S → Prop) (Q : A → Prop)
    (μ : S → nat) :
  (∀ s, I s → (∃ a, step s = Ok (inr a) ∧ Q a) ∨
              (∃ s', step s = Ok (inl s') ∧ I s' ∧ μ s' < μ s)) →
  ∀ fuel s, I s → μ s < fuel → ∃ a, loop step fuel s = Ok a ∧ Q a.
Proof.
  intros Hstep. induction fuel as [|fuel IH]; intros s Hs Hμ; [lia|]. simpl.
  destruct (Hstep s Hs) as [(a & -> & Ha)|(s' & -> & Hs' & Hlt)]; simpl; [eauto|].
  apply IH; [done|lia].
Qed.

(** What holds of every result, however long the loop ran. *)
Lemma loop_inv {S A} (step : S → outcome RunError (S + A)) (I : S → Prop) (Q : A → Prop) :
  (∀ s s', I s → step s = Ok (inl s') → I s') → (∀ s a, I s → step s = Ok (inr a) → Q a) →
  ∀ fuel s a, I s → loop step fuel s = Ok a → Q a.
Proof.
  intros Hi Hq. induction fuel as [|fuel IH]; intros s a Hs Hl; simpl in Hl; [done|].
  apply bind_Ok in Hl as ([s'|b] & Hstep & Hl); [by eapply IH; [eapply Hi|]|].
  injection Hl as ->. by eapply Hq.
Qed.

(** More fuel does not change a finished run. *)
Lemma loop_more_fuel {S A} (step : S → outcome RunError (S + A)) fuel fuel' s r :
  fuel ≤ fuel' → loop step fuel s = r → r ≠ Err OutOfFuel → loop step fuel' s = r.
Proof.
  intros Hle <-. revert fuel' s Hle.
  induction fuel as [|fuel IH]; intros fuel' s Hle Hr; simpl in *; [done|].
  destruct fuel' as [|fuel']; [lia|]. simpl.
  destruct (step s) as [[s'|a]| |]; simpl in *; [|done..]. apply IH; [lia|done].
Qed.

(** A loop whose measure decreases does not run out of fuel, whatever it returns. *)
Lemma loop_terminates {S A} (step : S → outcome RunError (S + A)) (I : S → Prop) (μ : S → nat) :
  (∀ s, I s → step s ≠ Err OutOfFuel ∧ ∀ s', step s = Ok (inl s') → I s' ∧ μ s' < μ s) →
  ∀ fuel s, I s → μ s < fuel → loop step fuel s ≠ Err OutOfFuel.
Proof.
  intros Hstep. induction fuel as [|fuel IH]; intros s Hs Hμ; [lia|]. simpl.
  destruct (Hstep s Hs) as [Hne Hdec].
  destruct (step s) as [[s'|a]|e|]; simpl; [|done|congruence|done].
  destruct (Hdec s' eq_refl) as [Hs' Hlt]. apply IH; [done|lia].
Qed.
