(* ===== verification/StateResSplit.v ===== *)
(** * Splitting the state and the auth chains

    What [separate] and [get_auth_chain_diff] compute, whatever order the hash maps are
    iterated in. *)

From S2P Require Import Prelude RustStr RustNet IdValidation StringEnum Identifiers Json.
From S2P Require Import EventTypes EventContents RoomVersions EventAuth StateRes.
Open Scope nat_scope.
Open Scope list_scope.

Section split.
Context `{HashOrder}.

Lemma all_equal_true {A} `{EqDecision A} (l : list A) :
  all_equal l = true ↔ ∀ x y, x ∈ l → y ∈ l → x = y.
Proof.
  destruct l as [|a l]; simpl.
  - split; [by intros _ x y ?%elem_of_nil|done].
  - rewrite forallb_forall. setoid_rewrite bool_decide_eq_true.
    setoid_rewrite <- list_elem_of_In. split.
    + intros Ha x y [->|Hx]%elem_of_cons [->|Hy]%elem_of_cons; auto.
      * by rewrite Ha.
      * by rewrite (Ha x), (Ha y).
    + intros Heq x Hx. apply Heq; [by right|by left].
Qed.

Lemma last_elem_of {A} (l : list A) x : list.last l = Some x → x ∈ l.
Proof. intros Hl. apply last_Some in Hl as [l' ->]. set_solver. Qed.

(** The value every state set has for the key. *)
Definition agreed (state_sets : list (StateMap string)) (k : StateKey) (id : string) : Prop :=
  state_sets ≠ [] ∧ ∀ s, s ∈ state_sets → s !! k = Some id.
Definition mentioned (state_sets : list (StateMap string)) (k : StateKey) : Prop :=
  ∃ s, s ∈ state_sets ∧ is_Some (s !! k).

Definition ids_at (state_sets : list (StateMap string)) (k : StateKey) : list (option string) :=
  (λ s : StateMap string, s !! k) <$> state_sets.

Lemma agreed_ids state_sets k id :
  agreed state_sets k id ↔
  all_equal (ids_at state_sets k) = true ∧ list.last (ids_at state_sets k) = Some (Some id).
Proof.
  unfold agreed, ids_at. rewrite all_equal_true. split.
  - intros [Hne Hall]. split.
    + intros x y (s & -> & Hs)%list_elem_of_fmap (t & -> & Ht)%list_elem_of_fmap.
      by rewrite (Hall s), (Hall t).
    + destruct (list.last (_ <$> _)) as [x|] eqn:Hl.
      * apply last_elem_of, list_elem_of_fmap in Hl as (s & -> & Hs). by rewrite Hall.
      * apply last_None, fmap_nil_inv in Hl. done.
  - intros [Heq Hl%last_elem_of]. split; [intros ->; by apply elem_of_nil in Hl|].
    intros s Hs. apply Heq; [|done]. by apply (list_elem_of_fmap_2 (λ s : StateMap string, s !! k)).
Qed.

Lemma mentioned_not_agreed state_sets k :
  mentioned state_sets k → (∀ id, ¬ agreed state_sets k id) →
  all_equal (ids_at state_sets k) = false.
Proof.
  intros (s & Hs & id & Hid) Hno. apply not_true_iff_false. intros Heq.
  apply (Hno id). split; [intros ->; by apply elem_of_nil in Hs|].
  intros t Ht. rewrite <- Hid. rewrite all_equal_true in Heq.
  by apply Heq; unfold ids_at; apply (list_elem_of_fmap_2 (λ s : StateMap string, s !! k)).
Qed.

Lemma keys_mentioned state_sets k :
  k ∈ remove_dups (mjoin ((λ m : StateMap string, (hash_iter m).*1) <$> state_sets)) ↔
  mentioned state_sets k.
Proof.
  rewrite elem_of_remove_dups, list_elem_of_join. unfold mentioned. split.
  - intros (l & Hk & (s & -> & Hs)%list_elem_of_fmap).
    apply list_elem_of_fmap in Hk as ([k' v] & -> & Hin%elem_of_hash_iter).
    exists s. split; [done|]. by exists v.
  - intros (s & Hs & v & Hv). exists (hash_iter s).*1. split.
    + apply list_elem_of_fmap. exists (k, v). by rewrite elem_of_hash_iter.
    + by apply (list_elem_of_fmap_2 (λ m : StateMap string, (hash_iter m).*1)).
Qed.

Lemma omap_id_fmap {A B} (f : A → option B) (l : list A) : omap id (f <$> l) = omap f l.
Proof.
  induction l as [|a l IH]; [done|]. rewrite fmap_cons. cbn. unfold id at 1. rewrite <- IH.
  by destruct (f a).
Qed.

(** The two maps after the keys of [done]. *)
Definition split_state (state_sets : list (StateMap string)) (done : list StateKey)
    (s : StateMap string * StateMap (list string)) : Prop :=
  (∀ k id, s.1 !! k = Some id ↔ k ∈ done ∧ agreed state_sets k id) ∧
  (∀ k ids, s.2 !! k = Some ids ↔
     k ∈ done ∧ all_equal (ids_at state_sets k) = false ∧ ids = omap id (ids_at state_sets k)).

Lemma separate_total state_sets :
  ∃ s, separate state_sets = Ok s ∧
    split_state state_sets
      (remove_dups (mjoin ((λ m : StateMap string, (hash_iter m).*1) <$> state_sets))) s.
Proof.
  unfold separate. apply (for_each_total (split_state state_sets)).
  2:{ split; simpl; intros; rewrite lookup_empty; set_solver. }
  intros pre [un co] k Hk%keys_mentioned [Hun Hco]. simpl in *. fold (ids_at state_sets k).
  destruct (all_equal (ids_at state_sets k)) eqn:Heq.
  - assert (∃ id, agreed state_sets k id) as [id Hid].
    { destruct Hk as (s & Hs & id & Hid). exists id. split; [intros ->; by apply elem_of_nil in Hs|].
      intros t Ht. rewrite <- Hid. rewrite all_equal_true in Heq.
      by apply Heq; unfold ids_at; apply (list_elem_of_fmap_2 (λ s : StateMap string, s !! k)). }
    rewrite (proj2 (proj1 (agreed_ids _ _ _) Hid)). simpl. eexists. split; [done|].
    split; simpl.
    + intros k' id'. rewrite elem_of_app, list_elem_of_singleton.
      destruct (decide (k' = k)) as [->|Hne]; [rewrite lookup_insert_eq|rewrite lookup_insert_ne by done].
      * split; [intros [= <-]; auto|]. intros [_ [Hne Hall]]. destruct Hid as [_ Hall'].
        destruct state_sets as [|s ?]; [done|]. rewrite <- (Hall s), <- (Hall' s); [done|by left..].
      * rewrite Hun. naive_solver.
    + intros k' ids. rewrite Hco, elem_of_app, list_elem_of_singleton.
      split; [naive_solver|]. intros [[?| ->] [? ?]]; [done|congruence].
  - eexists. split; [done|]. split; simpl.
    + intros k' id'. rewrite Hun, elem_of_app, list_elem_of_singleton.
      split; [naive_solver|]. intros [[?| ->] Ha]; [done|].
      apply agreed_ids in Ha as [? _]. congruence.
    + intros k' ids. rewrite elem_of_app, list_elem_of_singleton.
      destruct (decide (k' = k)) as [->|Hne]; [rewrite lookup_insert_eq|rewrite lookup_insert_ne by done].
      * split; [intros [= <-]; auto|]. by intros (_ & _ & ->).
      * rewrite Hco. naive_solver.
Qed.

Lemma separate_Ok state_sets clean conflicted :
  separate state_sets = Ok (clean, conflicted) →
  (∀ k id, clean !! k = Some id ↔ agreed state_sets k id) ∧
  (∀ k ids, conflicted !! k = Some ids ↔
     mentioned state_sets k ∧ (∀ id, ¬ agreed state_sets k id) ∧
     ids = omap (λ s : StateMap string, s !! k) state_sets).
Proof.
  intros Hs. destruct (separate_total state_sets) as (s & Hs' & Hun & Hco).
  rewrite Hs' in Hs. injection Hs as ->. simpl in *. split.
  - intros k id. rewrite Hun, keys_mentioned. split; [by intros [_ ?]|]. intros Ha. split; [|done].
    destruct Ha as [Hne Hall]. destruct state_sets as [|t ?]; [done|].
    exists t. split; [by left|]. rewrite Hall by by left. eauto.
  - intros k ids. rewrite Hco, keys_mentioned. unfold ids_at at 2. rewrite omap_id_fmap. split.
    + intros (Hm & Heq & ->). split_and!; [done| |done].
      intros id [Ha _]%agreed_ids. congruence.
    + intros (Hm & Hno & ->). split_and!; [done| |done]. by apply mentioned_not_agreed.
Qed.

(** [separate] never panics and splits the keys of the state sets in two: a key is
    unconflicted exactly when every set has it with the same event, and otherwise it is
    conflicted, with the events of the sets that have it in the order of the sets. *)
Theorem separate_spec state_sets :
  ∃ clean conflicted, separate state_sets = Ok (clean, conflicted) ∧
    (∀ k id, clean !! k = Some id ↔
       state_sets ≠ [] ∧ ∀ s, s ∈ state_sets → s !! k = Some id) ∧
    (∀ k ids, conflicted !! k = Some ids ↔
       (∃ s, s ∈ state_sets ∧ is_Some (s !! k)) ∧ clean !! k = None ∧
       ids = omap (λ s : StateMap string, s !! k) state_sets).
Proof.
  destruct (separate_total state_sets) as ([clean conflicted] & Hs & _).
  destruct (separate_Ok _ _ _ Hs) as [Hun Hco].
  exists clean, conflicted. split_and!; [done|apply Hun|].
  intros k ids. rewrite Hco. unfold mentioned. rewrite eq_None_not_Some.
  setoid_rewrite <- Hun. split; [intros (? & Hno & ?)|intros (? & Hno & ?)]; split_and!; try done.
  - intros [id Hid]. by apply (Hno id).
  - intros id Hid. apply Hno. eauto.
Qed.

(** ** The auth chain difference *)

Definition occurrences (x : string) (l : list string) : nat := length (filter (x =.) l).

Lemma count_ids l (m : gmap string nat) x :
  fold_left count_id l m !! x =
  if decide (occurrences x l = 0) then m !! x
  else Some (default 0 (m !! x) + occurrences x l).
Proof.
  revert m. induction l as [|y l IH]; intros m; simpl; [done|].
  rewrite IH. clear IH. unfold count_id, occurrences. rewrite filter_cons.
  destruct (decide (x = y)) as [<-|Hne].
  - rewrite lookup_insert_eq. simpl.
    case_decide as Hd; simpl; f_equal; lia.
  - by rewrite lookup_insert_ne by done.
Qed.

Lemma occurrences_join x (sets : list (gset string)) :
  occurrences x (mjoin (hset_iter <$> sets)) = length (filter (λ s, x ∈ s) sets).
Proof.
  unfold occurrences. induction sets as [|s sets IH]; [done|].
  change (mjoin (hset_iter <$> s :: sets)) with (hset_iter s ++ mjoin (hset_iter <$> sets)).
  rewrite list.filter_app, length_app, IH, filter_cons.
  assert (length (filter (x =.) (hset_iter s)) = if decide (x ∈ s) then 1 else 0) as ->.
  { pose proof (NoDup_hset_iter s) as Hnd. pose proof (elem_of_hset_iter s x) as Hx.
    revert Hnd Hx. generalize (hset_iter s) as l. intros l Hnd Hx.
    rewrite (decide_ext _ _ _ _ (iff_sym Hx)). clear Hx.
    induction Hnd as [|y l Hy Hnd IHl]; simpl; [done|].
    rewrite filter_cons. destruct (decide (x = y)) as [<-|Hne].
    - rewrite (decide_True (P := x ∈ x :: l)) by by left. simpl.
      rewrite decide_False in IHl by done. by rewrite IHl.
    - rewrite IHl. apply decide_ext. rewrite elem_of_cons. naive_solver. }
  case_decide; simpl; lia.
Qed.

Lemma filter_length_lt {A} (P : A → Prop) `{∀ x, Decision (P x)} (l : list A) :
  length (filter P l) < length l ↔ ∃ x, x ∈ l ∧ ¬ P x.
Proof.
  induction l as [|a l IH]; simpl; [split; [lia|by intros (x & ?%elem_of_nil & _)]|].
  rewrite filter_cons. pose proof (length_filter P l) as Hle. case_decide as Ha; simpl.
  - rewrite <- Nat.succ_lt_mono, IH. split; intros (x & Hx & Hn); exists x; split; auto.
    + by right.
    + apply elem_of_cons in Hx as [->|?]; done.
  - split; [|lia]. intros _. exists a. split; [by left|done].
Qed.

Lemma auth_chain_diff_spec sets :
  NoDup (get_auth_chain_diff sets) ∧
  ∀ x, x ∈ get_auth_chain_diff sets ↔
    (∃ s, s ∈ sets ∧ x ∈ s) ∧ (∃ s, s ∈ sets ∧ x ∉ s).
Proof.
  unfold get_auth_chain_diff. set (counts := fold_left count_id _ ∅). split.
  - pose proof (NoDup_hash_iter_fst counts) as Hnd. revert Hnd.
    generalize (hash_iter counts) as l. induction l as [|[x n] l IH]; simpl; [constructor|].
    intros [Hx Hnd]%list.NoDup_cons. case_bool_decide; [|auto].
    apply list.NoDup_cons. split; [|auto]. intros ([y k] & Hy & Heq)%list_elem_of_omap.
    apply Hx. case_bool_decide; [|done]. injection Heq as ->.
    by apply (list_elem_of_fmap_2 fst _ (x, k)).
  - intros x. rewrite list_elem_of_omap.
    assert (∀ n, counts !! x = Some n ↔ n = length (filter (λ s, x ∈ s) sets) ∧ n ≠ 0) as Hc.
    { intros n. unfold counts. rewrite count_ids, occurrences_join, lookup_empty. simpl.
      case_decide; naive_solver. }
    assert (length (filter (λ s, x ∈ s) sets) ≠ 0 ↔ ∃ s, s ∈ sets ∧ x ∈ s) as Hsome.
    { rewrite length_zero_iff_nil. split.
      - intros Hf. destruct (filter _ sets) as [|s l] eqn:Hs; [done|].
        assert (s ∈ filter (λ s, x ∈ s) sets) as Hin by (rewrite Hs; by left).
        apply list_elem_of_filter in Hin as [? ?]. eauto.
      - intros (s & Hs & Hx) Hf. assert (s ∈ filter (λ s, x ∈ s) sets) as Hin
          by by apply list_elem_of_filter. rewrite Hf in Hin. by apply elem_of_nil in Hin. }
    rewrite <- Hsome, <- (filter_length_lt (λ s : gset string, x ∈ s)). split.
    + intros ([y n] & Hin%elem_of_hash_iter & Heq). case_bool_decide; [|done].
      injection Heq as ->. apply Hc in Hin as [-> ?]. done.
    + intros [Hne Hlt]. eexists (x, _). rewrite elem_of_hash_iter, Hc. split; [eauto|].
      simpl. by rewrite bool_decide_true.
Qed.

(** The auth chain difference lists, each once, the events that are in some of the auth
    chains but not in all of them. *)
Theorem get_auth_chain_diff_spec sets :
  NoDup (get_auth_chain_diff sets) ∧
  ∀ x, x ∈ get_auth_chain_diff sets ↔
    (∃ s, s ∈ sets ∧ x ∈ s) ∧ (∃ s, s ∈ sets ∧ x ∉ s).
Proof. apply auth_chain_diff_spec. Qed.
End split.
