(* ===== verification/StateResGraph.v ===== *)
(** * The graph of power events

    [add_event_and_auth_chain_to_graph] ends on every store of events, cyclic ones included,
    and builds the part of the auth relation that can be reached inside the conflicted set. *)

From S2P Require Import Prelude RustStr RustNet IdValidation StringEnum Identifiers Json.
From S2P Require Import EventTypes EventContents RoomVersions EventAuth StateRes.
From stdpp Require Import relations.
Open Scope nat_scope.
Open Scope list_scope.

Section graph.
Variable fetch_event : string → option Event.
Variable auth_diff : gset string.

(** The auth events of a node that are in the conflicted set, as a list and as a set. *)
Definition edge_list (n : string) : list string :=
  filter (λ a, a ∈ auth_diff) (auth_events_of fetch_event n).
Definition edges (n : string) : gset string := list_to_set (edge_list n).
Definition edge (n a : string) : Prop := a ∈ edges n.

(** A finished graph: every node has all its edges, and they lead to nodes. *)
Definition graph_closed (g : Graph) : Prop :=
  ∀ n es, g !! n = Some es → es = edges n ∧ es ⊆ dom g.

Lemma elem_of_edges n a : a ∈ edges n ↔ a ∈ auth_events_of fetch_event n ∧ a ∈ auth_diff.
Proof. unfold edges, edge_list. rewrite elem_of_list_to_set, list_elem_of_filter. naive_solver. Qed.

(** The nodes one pass pushes, top of the stack first. *)
Definition pushed (g : Graph) (l : list string) : list string :=
  reverse (filter (λ a, a ∈ auth_diff ∧ a ∉ dom g) l).

Lemma graph_edge_skip eid g st a :
  a ∉ auth_diff → graph_edge auth_diff eid (g, st) a = Ok (g, st).
Proof. intros. unfold graph_edge. by rewrite decide_False. Qed.

Lemma graph_edge_add eid g st a es :
  a ∈ auth_diff → g !! eid = Some es →
  graph_edge auth_diff eid (g, st) a =
    Ok (<[eid := {[a]} ∪ es]> g, if decide (is_Some (g !! a)) then st else a :: st).
Proof. intros ? He. unfold graph_edge. rewrite decide_True by done. by rewrite He. Qed.

Lemma graph_edges_spec eid l g st es :
  g !! eid = Some es →
  ∃ g', for_each (graph_edge auth_diff eid) (g, st) l = Ok (g', pushed g l ++ st) ∧
    g' !! eid = Some (es ∪ list_to_set (filter (λ a, a ∈ auth_diff) l)) ∧
    (∀ n, n ≠ eid → g' !! n = g !! n).
Proof.
  unfold pushed. revert g st es. induction l as [|a l IH]; intros g st es He.
  { exists g. split; [done|]. split; [|done]. rewrite He. f_equal. set_solver. }
  cbn [for_each]. rewrite !filter_cons.
  destruct (decide (a ∈ auth_diff)) as [Ha|Ha].
  2:{ rewrite graph_edge_skip by done. cbn [mbind outcome_bind]. destruct (IH g st es He) as (g' & Hl & Hg & Hn). exists g'.
      rewrite (decide_False (P := a ∈ auth_diff ∧ a ∉ dom g)) by tauto. done. }
  rewrite (graph_edge_add _ _ _ _ es) by done. cbn [mbind outcome_bind].
  set (g1 := <[eid := {[a]} ∪ es]> g).
  assert (dom g1 = dom g) as Hdom.
  { unfold g1. rewrite dom_insert_L. apply elem_of_dom_2 in He. set_solver. }
  destruct (IH g1 (if decide (is_Some (g !! a)) then st else a :: st) ({[a]} ∪ es))
    as (g' & Hl & Hg & Hn); [apply lookup_insert_eq|].
  exists g'. rewrite Hl, Hdom. split_and!.
  - do 2 f_equal. case_decide as Hs.
    + rewrite decide_False; [done|]. rewrite elem_of_dom. tauto.
    + rewrite decide_True by (rewrite elem_of_dom; tauto).
      by rewrite reverse_cons, <- (assoc_L (++)).
  - rewrite Hg. f_equal. simpl. set_solver.
  - intros n Hne. rewrite Hn by done. by apply lookup_insert_ne.
Qed.

Lemma elem_of_pushed g l a : a ∈ pushed g l ↔ a ∈ l ∧ a ∈ auth_diff ∧ a ∉ dom g.
Proof. unfold pushed. rewrite elem_of_reverse, list_elem_of_filter. tauto. Qed.

(** One round of the loop. *)
Lemma graph_step_spec g eid st :
  let l := auth_events_of fetch_event eid in
  ∃ g', graph_step fetch_event auth_diff (g, eid :: st)
          = Ok (inl (g', pushed (or_default eid g) l ++ st)) ∧
    g' !! eid = Some (default ∅ (g !! eid) ∪ edges eid) ∧ (∀ n, n ≠ eid → g' !! n = g !! n) ∧
    dom g' = {[eid]} ∪ dom g ∧ dom (or_default eid g) = dom g'.
Proof.
  intros l. unfold graph_step.
  destruct (graph_edges_spec eid l (or_default eid g) st (default ∅ (g !! eid)))
    as (g' & Hl & Hg & Hn); [apply lookup_insert_eq|].
  fold l. rewrite Hl. exists g'. cbn [mbind outcome_bind].
  assert (∀ n, n ≠ eid → g' !! n = g !! n) as Hn'.
  { intros n Hne. rewrite Hn by done. by apply lookup_insert_ne. }
  assert (dom g' = {[eid]} ∪ dom g) as Hd.
  { apply set_eq. intros n. rewrite elem_of_union, elem_of_singleton, !elem_of_dom.
    destruct (decide (n = eid)) as [->|Hne]; [rewrite Hg; naive_solver|].
    rewrite Hn' by done. naive_solver. }
  split_and!; [done|done|done|done|]. rewrite Hd. apply dom_insert_L.
Qed.

Section run.
Variable event_id : string.
Variable g0 : Graph.
Hypothesis g0_closed : graph_closed g0.

(** Between two rounds: the edges of the nodes are complete, and lead to nodes or to the
    stack; everything new is reached from the event. *)
Record graph_inv (s : Graph * list string) : Prop := {
  gi_edges n es : s.1 !! n = Some es → es = edges n ∧ ∀ a, a ∈ es → a ∈ dom s.1 ∨ a ∈ s.2;
  gi_reach n : n ∈ dom s.1 ∨ n ∈ s.2 → n ∈ dom g0 ∨ rtc edge event_id n;
  gi_start : event_id ∈ dom s.1 ∨ event_id ∈ s.2;
  gi_mono : dom g0 ⊆ dom s.1;
  gi_stack n : n ∈ s.2 → n ∈ {[event_id]} ∪ auth_diff
}.

(** The longest list of auth events of a node that can be on the stack. *)
Definition max_degree : nat :=
  max_list ((λ n, length (auth_events_of fetch_event n)) <$> event_id :: elements auth_diff).

Lemma max_degree_spec n :
  n ∈ ({[event_id]} ∪ auth_diff : gset string) →
  length (auth_events_of fetch_event n) ≤ max_degree.
Proof.
  intros Hn. apply (max_list_elem_of_le _ _). apply list_elem_of_fmap. exists n. split; [done|].
  set_solver.
Qed.

(** Nodes still missing count most; a stack whose top is already a node counts a little more
    than one whose top is new. *)
Definition graph_measure (s : Graph * list string) : nat :=
  size (({[event_id]} ∪ auth_diff) ∖ dom s.1) * (2 * max_degree + 2) + length s.2 +
  match s.2 with
  | top :: _ => if decide (top ∈ dom s.1) then max_degree + 1 else 0
  | [] => 0
  end.

Lemma graph_measure_top (g : Graph) st :
  match st with
  | top :: _ => if decide (top ∈ dom g) then max_degree + 1 else 0
  | [] => 0
  end ≤ max_degree + 1.
Proof. destruct st; [lia|]. case_decide; lia. Qed.

Lemma graph_round g eid st :
  graph_inv (g, eid :: st) →
  ∃ s', graph_step fetch_event auth_diff (g, eid :: st) = Ok (inl s') ∧ graph_inv s' ∧
    graph_measure s' < graph_measure (g, eid :: st).
Proof.
  intros Hi. destruct (graph_step_spec g eid st) as (g' & Hs & Hg & Hn & Hd & Hd').
  eexists. split; [exact Hs|]. set (l := auth_events_of fetch_event eid) in *.
  assert (g' !! eid = Some (edges eid)) as Hg1.
  { rewrite Hg. destruct (g !! eid) as [es|] eqn:He; simpl.
    - destruct (gi_edges _ Hi eid es He) as [-> _]. f_equal. set_solver.
    - f_equal. set_solver. }
  assert (∀ a, a ∈ pushed (or_default eid g) l ↔ a ∈ edges eid ∧ a ∉ dom g') as Hp.
  { intros a. rewrite elem_of_pushed, Hd', elem_of_edges. tauto. }
  split.
  - split; simpl.
    + intros n es Hne. destruct (decide (n = eid)) as [->|Hneq].
      * rewrite Hg1 in Hne. injection Hne as <-. split; [done|]. intros a Ha.
        rewrite elem_of_app, Hp. destruct (decide (a ∈ dom g')); tauto.
      * rewrite Hn in Hne by done. destruct (gi_edges _ Hi n es Hne) as [He Hc]. split; [done|].
        intros a Ha. rewrite elem_of_app, Hd. specialize (Hc a Ha). simpl in Hc. set_solver.
    + intros n. rewrite elem_of_app, Hp, Hd. intros Hin.
      pose proof (gi_reach _ Hi) as Hr. simpl in Hr.
      assert (eid ∈ dom g0 ∨ rtc edge event_id eid) as He by (apply Hr; right; by left).
      assert (n ∈ edges eid ∨ n ∈ dom g ∨ n ∈ eid :: st) as [Hedge|Hold] by set_solver.
      * destruct He as [He|He].
        { left. apply elem_of_dom in He as [es He]. destruct (g0_closed eid es He) as [-> Hsub].
          by apply Hsub. }
        { right. eapply rtc_r; [exact He|exact Hedge]. }
      * by apply Hr.
    + pose proof (gi_start _ Hi) as Hst. simpl in Hst. rewrite elem_of_app, Hd. set_solver.
    + rewrite Hd. pose proof (gi_mono _ Hi). simpl in *. set_solver.
    + intros n. rewrite elem_of_app, Hp, elem_of_edges. intros [[[_ ?] _]|?]; [set_solver|].
      apply (gi_stack _ Hi). simpl. by right.
  - pose proof (gi_stack _ Hi eid ltac:(simpl; by left)) as Hin.
    assert (length (pushed (or_default eid g) l) ≤ max_degree) as Hlen.
    { unfold pushed. rewrite length_reverse. etrans; [apply length_filter|].
      by apply max_degree_spec. }
    unfold graph_measure. cbn [fst snd]. rewrite length_app. cbn [length].
    pose proof (graph_measure_top g' (pushed (or_default eid g) l ++ st)) as Htop.
    destruct (decide (eid ∈ dom g)) as [Hin'|Hnew].
    + assert (dom g' = dom g) as Hsame by set_solver.
      destruct (pushed (or_default eid g) l) as [|top p] eqn:Hpush; simpl in *.
      * rewrite Hsame in *. lia.
      * assert (top ∉ dom g') as Hnt by (apply Hp; by left).
        rewrite (decide_False (P := top ∈ dom g')) by done. rewrite Hsame. lia.
    + assert (size (({[event_id]} ∪ auth_diff) ∖ dom g) =
        S (size (({[event_id]} ∪ auth_diff) ∖ dom g'))) as Hsz.
      { replace (({[event_id]} ∪ auth_diff) ∖ dom g)
          with ({[eid]} ∪ (({[event_id]} ∪ auth_diff) ∖ dom g')).
        - rewrite size_union by set_solver. by rewrite size_singleton.
        - apply set_eq. intros n. rewrite Hd. destruct (decide (n = eid)); set_solver. }
      rewrite Hsz. lia.
Qed.

(** Fuel that is always enough. *)
Definition graph_fuel : nat :=
  (size ({[event_id]} ∪ auth_diff) + 1) * (2 * max_degree + 2) + 1.

Lemma add_event_spec fuel :
  graph_fuel ≤ fuel →
  ∃ g, add_event_and_auth_chain_to_graph fetch_event auth_diff fuel g0 event_id = Ok g ∧
    graph_closed g ∧ ∀ n, n ∈ dom g ↔ n ∈ dom g0 ∨ rtc edge event_id n.
Proof.
  intros Hf. unfold add_event_and_auth_chain_to_graph.
  apply (loop_total _ graph_inv _ graph_measure).
  - intros [g [|eid st]] Hi.
    + left. exists g. split; [done|]. destruct Hi as [Hedges Hreach Hstart Hmono _]. simpl in *.
      assert (graph_closed g) as Hc.
      { intros n es He. destruct (Hedges n es He) as [-> Hin]. split; [done|].
        intros a Ha. destruct (Hin a Ha) as [?|?%elem_of_nil]; done. }
      split; [done|]. intros n. split; [auto|]. intros [?|Hr]; [auto|].
      destruct Hstart as [Hs|?%elem_of_nil]; [|done].
      clear -Hr Hs Hc. revert Hs. induction Hr as [x|x y z Hxy _ IH]; intros Hx; [done|].
      apply IH. apply elem_of_dom in Hx as [es Hx]. destruct (Hc x es Hx) as [-> Hsub].
      by apply Hsub.
    + right. by apply graph_round.
  - split; simpl.
    + intros n es He. destruct (g0_closed n es He) as [-> Hsub]. auto.
    + intros n [?|Hn%list_elem_of_singleton]; [auto|]. subst. right. constructor.
    + right. by left.
    + done.
    + set_solver.
  - eapply Nat.lt_le_trans; [|exact Hf]. unfold graph_measure, graph_fuel. cbn [fst snd length].
    pose proof (subseteq_size (({[event_id]} ∪ auth_diff) ∖ dom g0) ({[event_id]} ∪ auth_diff)
      ltac:(set_solver)).
    case_decide; nia.
Qed.
End run.

(** Every event of a list, one after the other. *)
Definition graph_fuel_for (events : list string) : nat :=
  max_list (graph_fuel <$> events).

Lemma build_graph_spec fuel events :
  graph_fuel_for events ≤ fuel →
  ∃ g, for_each (add_event_and_auth_chain_to_graph fetch_event auth_diff fuel) ∅ events = Ok g ∧
    graph_closed g ∧ ∀ n, n ∈ dom g ↔ ∃ ev, ev ∈ events ∧ rtc edge ev n.
Proof.
  intros Hf. apply (for_each_total (λ done g, graph_closed g ∧
    ∀ n, n ∈ dom g ↔ ∃ ev, ev ∈ done ∧ rtc edge ev n)).
  - intros pre g ev Hev [Hc Hd].
    destruct (add_event_spec ev g Hc fuel) as (g' & Hg & Hc' & Hd').
    { etrans; [|exact Hf]. apply max_list_elem_of_le. by apply list_elem_of_fmap_2. }
    exists g'. split; [done|]. split; [done|]. intros n. rewrite Hd', Hd.
    setoid_rewrite elem_of_app. setoid_rewrite list_elem_of_singleton. naive_solver.
  - split; [by intros n es; rewrite lookup_empty|].
    intros n. rewrite dom_empty_L. split; [set_solver|]. by intros (ev & ?%elem_of_nil & _).
Qed.
End graph.
