(* ===== verification/StateResSort.v ===== *)
(** * The topological sort of power events

    [lexicographical_topological_sort] ends, lists each node at most once and after everything
    it refers to, leaves out only what cannot be ordered, and does not depend on the order in
    which hash maps are iterated. *)

From S2P Require Import Prelude RustStr RustNet IdValidation StringEnum Identifiers Json.
From S2P Require Import EventTypes EventContents RoomVersions EventAuth StateRes.
From Stdlib Require Import Ascii NArith.
Open Scope nat_scope.
Open Scope list_scope.

(** ** The heap *)

Lemma string_leb_trans a b c :
  String.leb a b = true → String.leb b c = true → String.leb a c = true.
Proof.
  intros H1 H2. apply Is_true_true. apply Is_true_true in H1, H2.
  exact (transitivity (R := strings.String.le) H1 H2).
Qed.

Ltac tie_cases :=
  unfold tie_le; repeat match goal with
  | |- context [(?x <? ?y)%Z] =>
      let H := fresh in destruct (x <? y)%Z eqn:H; [apply Z.ltb_lt in H|apply Z.ltb_ge in H]
  end.

Lemma tie_le_total a b : tie_le a b = true ∨ tie_le b a = true.
Proof. tie_cases; auto; try lia. apply String.leb_total. Qed.

Lemma tie_le_antisym a b :
  tie_le a b = true → tie_le b a = true → tb_event_id a = tb_event_id b.
Proof. tie_cases; try done; try lia. apply String.leb_antisym. Qed.

Lemma tie_le_trans a b c : tie_le a b = true → tie_le b c = true → tie_le a c = true.
Proof. tie_cases; try done; try lia. apply string_leb_trans. Qed.

Notation ids := (fmap tb_event_id).

(** [heap_pop] takes a least entry. *)
Lemma heap_pop_Some heap item rest :
  heap_pop heap = Some (item, rest) →
  heap ≡ₚ item :: rest ∧ ∀ t, t ∈ heap → tie_le item t = true.
Proof.
  revert item rest. induction heap as [|x heap IH]; intros item rest; simpl; [done|].
  assert (tie_le x x = true) as Hrefl by by destruct (tie_le_total x x).
  destruct (heap_pop heap) as [[y r]|] eqn:Hp.
  - destruct (IH y r eq_refl) as [Hperm Hle]. destruct (tie_le x y) eqn:Hxy; intros [= <- <-].
    + split; [by rewrite Hperm|]. intros t [->|Ht]%elem_of_cons; [done|].
      eapply tie_le_trans; [done|by apply Hle].
    + split; [rewrite Hperm; apply Permutation_swap|].
      intros t [->|Ht]%elem_of_cons; [|by apply Hle].
      destruct (tie_le_total x y) as [?|?]; [congruence|done].
  - intros [= <- <-]. assert (heap = []) as ->.
    { destruct heap as [|z heap]; [done|]. simpl in Hp. by repeat case_match. }
    split; [done|]. by intros t ->%list_elem_of_singleton.
Qed.

Lemma heap_pop_None heap : heap_pop heap = None ↔ heap = [].
Proof. destruct heap as [|x heap]; simpl; [done|]. by repeat case_match. Qed.

(** With distinct event IDs the least entry is unique, whatever the layout of the heap. *)
Lemma heap_pop_Permutation h1 h2 item rest :
  h1 ≡ₚ h2 → NoDup (ids h1) → heap_pop h1 = Some (item, rest) →
  ∃ rest', heap_pop h2 = Some (item, rest') ∧ rest ≡ₚ rest'.
Proof.
  intros Hp Hnd H1. destruct (heap_pop h2) as [[item' rest']|] eqn:H2.
  2:{ apply heap_pop_None in H2 as ->. apply Permutation_nil_r in Hp as ->. done. }
  apply heap_pop_Some in H1 as [Hp1 Hle1]. apply heap_pop_Some in H2 as [Hp2 Hle2].
  assert (item ∈ h1) as Hin1 by (rewrite Hp1; by left).
  assert (item' ∈ h1) as Hin2 by (rewrite Hp, Hp2; by left).
  assert (item = item') as <-.
  { assert (tb_event_id item = tb_event_id item') as Hid.
    { apply tie_le_antisym; [by apply Hle1|]. apply Hle2. by rewrite <- Hp. }
    apply list_elem_of_lookup in Hin1 as [i Hi], Hin2 as [j Hj].
    assert (i = j) as ->; [|congruence].
    eapply (NoDup_lookup (ids h1) i j (tb_event_id item)); [done|..]; rewrite list_lookup_fmap;
      [by rewrite Hi|rewrite Hj; simpl; congruence]. }
  exists rest'. split; [done|]. apply (Permutation_cons_inv (a := item)).
  by rewrite <- Hp1, <- Hp2.
Qed.

Section sort.
Variable graph : Graph.
Variable key_fn : string → outcome RunError (Z * Z).
Hypothesis key_fn_total : ∀ n, n ∈ dom graph → ∃ k, key_fn n = Ok k.

(** The entry of a node, with the key of another one. *)
Definition entry (k : Z * Z) (node : string) : TieBreaker :=
  {| inv_power_level := - k.1; age := k.2; tb_event_id := node |}.

(** The nodes that refer to a node. *)
Definition refers (p n : string) : Prop := ∃ es, graph !! p = Some es ∧ n ∈ es.

(** ** The reversed graph *)

Lemma fold_entry_insert node l (g : Graph) n p :
  p ∈ default ∅ (fold_left (λ g e, entry_insert e node g) l g !! n) ↔
  p ∈ default ∅ (g !! n) ∨ (n ∈ l ∧ p = node).
Proof.
  revert g. induction l as [|e l IH]; intros g; simpl.
  { rewrite elem_of_nil. tauto. }
  rewrite IH, elem_of_cons. unfold entry_insert.
  destruct (decide (n = e)) as [->|Hne].
  - rewrite lookup_insert_eq. simpl. rewrite elem_of_union, elem_of_singleton. tauto.
  - rewrite lookup_insert_ne by done. tauto.
Qed.

Lemma fold_entry_insert_dom node l (g : Graph) n :
  is_Some (g !! n) → is_Some (fold_left (λ g e, entry_insert e node g) l g !! n).
Proof.
  revert g. induction l as [|e l IH]; intros g Hs; simpl; [done|]. apply IH.
  unfold entry_insert. destruct (decide (n = e)) as [->|Hne].
  - rewrite lookup_insert_eq. eauto.
  - by rewrite lookup_insert_ne.
Qed.

(** What the first loop leaves: the entries of the nodes without edges, and who refers to
    whom. *)
Record init_ok (zero : list TieBreaker) (rg : Graph) : Prop := {
  io_zero : ∀ t, t ∈ zero ↔ ∃ n k, graph !! n = Some ∅ ∧ key_fn n = Ok k ∧ t = entry k n;
  io_NoDup : NoDup (ids zero);
  io_dom n : n ∈ dom graph → is_Some (rg !! n);
  io_refers n p : p ∈ default ∅ (rg !! n) ↔ refers p n
}.

Lemma topo_init_spec `{HashOrder} :
  ∃ zero rg, topo_init graph key_fn = Ok (zero, rg) ∧ init_ok zero rg.
Proof.
  set (ok_state := λ (done : list (string * gset string)) (s : list TieBreaker * Graph),
    (∀ t, t ∈ s.1 ↔ ∃ n k, (n, ∅) ∈ done ∧ key_fn n = Ok k ∧ t = entry k n) ∧
    (NoDup done.*1 → NoDup (ids s.1)) ∧
    (∀ n, n ∈ done.*1 → is_Some (s.2 !! n)) ∧
    (∀ n p, p ∈ default ∅ (s.2 !! n) ↔ ∃ es, (p, es) ∈ done ∧ n ∈ es)).
  destruct (for_each_total (E:=RunError) ok_state
    (λ '(zero_outdegree, reverse_graph) '(node, edges),
      zero_outdegree ←
        if decide (edges = ∅) then
          t ← tie_breaker key_fn node node;
          Ok (zero_outdegree ++ [t])
        else Ok zero_outdegree;
      Ok (zero_outdegree,
          fold_left (λ reverse_graph edge, entry_insert edge node reverse_graph)
            (hset_iter edges) (or_default node reverse_graph))) (hash_iter graph) ([], ∅))
    as ([zero rg] & Hrun & Hz & Hnd & Hd & Hr).
  - intros pre [zero rg] [node es] Hin%elem_of_hash_iter (Hz & Hnd & Hd & Hr). simpl in *.
    destruct (key_fn_total node) as [k Hk]; [by apply elem_of_dom|].
    assert (ok_state (pre ++ [(node, es)])
      (if decide (es = ∅) then zero ++ [entry k node] else zero,
       fold_left (λ g e, entry_insert e node g) (hset_iter es) (or_default node rg))) as Hnew.
    { unfold ok_state. simpl. split_and!.
      - intros t. setoid_rewrite elem_of_app. setoid_rewrite list_elem_of_singleton.
        case_decide as He.
        + rewrite elem_of_app, Hz, list_elem_of_singleton. subst es. split.
          * intros [(n & k' & ? & ? & ?)| ->]; [eauto 10|]. exists node, k. auto.
          * intros (n & k' & [Hn|[= ->]] & Hk' & ->); [left; eauto|right]. congruence.
        + rewrite Hz. split; [intros (n & k' & ? & ? & ?); eauto 10|].
          intros (n & k' & [Hn|[= -> <-]] & Hk' & ->); [eauto|done].
      - rewrite fmap_app. simpl. intros [Hn1 [Hn2 _]]%list.NoDup_app.
        case_decide; [|by apply Hnd]. rewrite fmap_app. simpl. apply list.NoDup_app.
        split_and!; [by apply Hnd| |apply NoDup_singleton].
        intros x (t & -> & Ht)%list_elem_of_fmap Hx%list_elem_of_singleton.
        apply Hz in Ht as (n & k' & Hn & _ & ->). simpl in Hx. subst n.
        apply (Hn2 node); [|by left].
        by apply (list_elem_of_fmap_2 fst _ (node, ∅)).
      - intros n. rewrite fmap_app, elem_of_app, fmap_cons, fmap_nil, list_elem_of_singleton.
        intros Hn. apply fold_entry_insert_dom. unfold or_default. simpl in Hn.
        destruct (decide (n = node)) as [->|Hne]; [rewrite lookup_insert_eq; eauto|].
        rewrite lookup_insert_ne by done. apply Hd. tauto.
      - intros n p. rewrite fold_entry_insert. setoid_rewrite elem_of_app.
        setoid_rewrite list_elem_of_singleton. rewrite elem_of_hset_iter.
        assert (default ∅ (or_default node rg !! n) = default ∅ (rg !! n)) as ->.
        { unfold or_default. destruct (decide (n = node)) as [->|Hne];
            [by rewrite lookup_insert_eq|by rewrite lookup_insert_ne]. }
        rewrite Hr. split.
        + intros [(es' & ? & ?)|[? ->]]; eauto.
        + intros (es' & [?|[= -> ->]] & ?); eauto. }
    eexists. split; [|exact Hnew].
    case_decide; [|done]. unfold tie_breaker. rewrite Hk. done.
  - unfold ok_state. simpl. split_and!.
    + intros t. split; [by intros ?%elem_of_nil|]. by intros (n & k & ?%elem_of_nil & _).
    + constructor.
    + by intros n ?%elem_of_nil.
    + intros n p. rewrite lookup_empty. simpl. split; [set_solver|].
      by intros (es & ?%elem_of_nil & _).
  - exists zero, rg. split; [exact Hrun|]. simpl in *. split.
    + intros t. rewrite Hz. by setoid_rewrite elem_of_hash_iter.
    + apply Hnd, NoDup_hash_iter_fst.
    + intros n [es Hn]%elem_of_dom. apply Hd.
      apply (list_elem_of_fmap_2 fst _ (n, es)). by apply elem_of_hash_iter.
    + intros n p. rewrite Hr. unfold refers. by setoid_rewrite elem_of_hash_iter.
Qed.

(** ** The main loop *)

(** The parents of one node: their edge to it goes away, and those without edges left enter
    the heap. *)
Lemma topo_parents_spec node k l (om : Graph) heap :
  key_fn node = Ok k → NoDup l → (∀ p, p ∈ l → is_Some (om !! p)) →
  ∃ om', for_each (topo_parent key_fn node) (om, heap) l
      = Ok (om', heap ++ (entry k <$> filter (λ p, default ∅ (om !! p) ∖ {[node]} = ∅) l)) ∧
    ∀ p, om' !! p = if decide (p ∈ l) then (.∖ {[node]}) <$> om !! p else om !! p.
Proof.
  intros Hk. revert om heap. induction l as [|q l IH]; intros om heap Hnd Hdom.
  { exists om. split; [by rewrite app_nil_r|]. intros p. by rewrite decide_False by set_solver. }
  apply list.NoDup_cons in Hnd as [Hq Hnd].
  destruct (Hdom q) as [out Hout]; [by left|].
  set (om1 := <[q := out ∖ {[node]}]> om).
  set (heap1 := if decide (out ∖ {[node]} = ∅) then heap ++ [entry k q] else heap).
  assert (topo_parent key_fn node (om, heap) q = Ok (om1, heap1)) as Hstep.
  { unfold topo_parent, heap1. rewrite Hout. simpl. case_decide; [|done].
    unfold tie_breaker. by rewrite Hk. }
  assert (∀ p, p ∈ l → om1 !! p = om !! p) as Hsame.
  { intros p Hp. apply lookup_insert_ne. by intros ->. }
  destruct (IH om1 heap1 Hnd) as (om' & Hrun & Hom').
  { intros p Hp. rewrite Hsame by done. apply Hdom. by right. }
  exists om'. split.
  - cbn [for_each]. rewrite Hstep. cbn [mbind outcome_bind]. rewrite Hrun. do 2 f_equal.
    assert (filter (λ p, default ∅ (om1 !! p) ∖ {[node]} = ∅) l =
            filter (λ p, default ∅ (om !! p) ∖ {[node]} = ∅) l) as ->.
    { apply list_filter_ext_in. intros p Hp. by rewrite Hsame. }
    rewrite filter_cons, Hout. simpl. unfold heap1. case_decide; [|done].
    by rewrite fmap_cons, <- (assoc_L (++)).
  - intros p. rewrite Hom'. unfold om1. destruct (decide (p = q)) as [->|Hne].
    + rewrite decide_False by done. rewrite decide_True by by left.
      by rewrite lookup_insert_eq, Hout.
    + rewrite lookup_insert_ne by done. apply decide_ext. set_solver.
Qed.

(** The edges left, and the nodes that can be taken, once some nodes are sorted. *)
Definition remaining (sorted : list string) : Graph :=
  (λ es, es ∖ list_to_set sorted) <$> graph.
Definition ready (sorted : list string) (n : string) : Prop :=
  ∃ es, graph !! n = Some es ∧ ∀ e, e ∈ es → e ∈ sorted.

Record topo_inv (s : Graph * list TieBreaker * list string) : Prop := {
  ti_out : s.1.1 = remaining s.2;
  ti_heap n : n ∈ ids s.1.2 ↔ n ∉ s.2 ∧ ready s.2 n;
  ti_heap_NoDup : NoDup (ids s.1.2);
  ti_NoDup : NoDup s.2;
  ti_order l1 n l2 : s.2 = l1 ++ n :: l2 → ready l1 n
}.

Lemma ready_mono l1 l2 n : (∀ x, x ∈ l1 → x ∈ l2) → ready l1 n → ready l2 n.
Proof. intros Hsub (es & He & Hes). exists es. auto. Qed.

Lemma topo_inv_sorted s n : topo_inv s → n ∈ s.2 → ready s.2 n.
Proof.
  intros Hi (l1 & l2 & Heq)%list_elem_of_split. apply (ready_mono l1).
  - intros x Hx. rewrite Heq. set_solver.
  - by apply (ti_order _ Hi l1 n l2).
Qed.

Lemma topo_init_inv zero rg : init_ok zero rg → topo_inv (graph, zero, []).
Proof.
  intros [Hz Hnd _ _]. split; simpl; [..|by intros [] ? ?].
  - unfold remaining. apply map_eq. intros n. rewrite lookup_fmap.
    destruct (graph !! n) as [es|]; simpl; [|done]. f_equal. set_solver.
  - intros n. rewrite list_elem_of_fmap. unfold ready. split.
    + intros (t & -> & (m & k & Hm & _ & ->)%Hz). split; [by intros ?%elem_of_nil|].
      exists ∅. split; [done|]. set_solver.
    + intros (_ & es & He & Hes). destruct (key_fn_total n) as [k Hk]; [by apply elem_of_dom|].
      exists (entry k n). split; [done|]. apply Hz. exists n, k. split; [|done].
      rewrite He. f_equal. apply set_eq. intros e. split; [|set_solver].
      intros ?%Hes%elem_of_nil. done.
  - done.
  - constructor.
Qed.

(** One round, with everything it does made explicit. *)
Lemma topo_step_spec `{HashOrder} zero rg om heap sorted item rest :
  init_ok zero rg → topo_inv (om, heap, sorted) → heap_pop heap = Some (item, rest) →
  ∃ k ps, key_fn (tb_event_id item) = Ok k ∧ NoDup ps ∧
    (∀ p, p ∈ ps ↔ refers p (tb_event_id item)) ∧
    let node := tb_event_id item in
    let heap' := rest ++
      (entry k <$> filter (λ p, default ∅ (remaining sorted !! p) ∖ {[node]} = ∅) ps) in
    let s' := (remaining (sorted ++ [node]), heap', sorted ++ [node]) in
    topo_step key_fn rg (om, heap, sorted) = Ok (inl s') ∧ topo_inv s' ∧
    node ∈ dom graph ∧ node ∉ sorted ∧
    ps = hset_iter (default ∅ (rg !! node)).
Proof.
  intros [_ _ Hdom Hrefers] Hi Hpop. pose proof Hi as [Hout Hheap Hhnd Hnd Hord]. simpl in *.
  subst om. set (node := tb_event_id item).
  destruct (heap_pop_Some _ _ _ Hpop) as [Hperm _].
  assert (ids heap ≡ₚ node :: ids rest) as Hids by by rewrite Hperm.
  assert (node ∈ ids heap) as Hnode by (rewrite Hids; by left).
  apply Hheap in Hnode as [Hnew Hready].
  assert (node ∈ dom graph) as Hndom by (destruct Hready as (es & ? & _); by apply elem_of_dom).
  destruct (key_fn_total node Hndom) as [k Hk].
  destruct (Hdom node Hndom) as [pset Hps].
  exists k, (hset_iter pset). rewrite Hps.
  assert (∀ p, p ∈ hset_iter pset ↔ refers p node) as Hp.
  { intros p. rewrite elem_of_hset_iter, <- Hrefers, Hps. done. }
  split_and!; [done|apply NoDup_hset_iter|done| | |done|done|done].
  - unfold topo_step. rewrite Hpop. fold node. rewrite Hps. simpl.
    destruct (topo_parents_spec node k (hset_iter pset) (remaining sorted) rest Hk)
      as (om' & Hrun & Hom'); [apply NoDup_hset_iter| |].
    { intros p (es & He & _)%Hp. unfold remaining. rewrite lookup_fmap, He. simpl. eauto. }
    rewrite Hrun. simpl. do 4 f_equal. apply map_eq. intros p. rewrite Hom'.
    unfold remaining. rewrite !lookup_fmap.
    destruct (graph !! p) as [es|] eqn:He; simpl; [|by case_decide].
    case_decide as Hin; f_equal; [set_solver|].
    assert (node ∉ es); [|set_solver]. intros ?. apply Hin, Hp. by exists es.
  - assert (node ∉ ids rest) as Hnr.
    { rewrite Hids in Hhnd. by apply list.NoDup_cons in Hhnd as [? _]. }
    assert (∀ n, n ∈ filter (λ p, default ∅ (remaining sorted !! p) ∖ {[node]} = ∅)
        (hset_iter pset) ↔
      ∃ es, graph !! n = Some es ∧ node ∈ es ∧ ∀ e, e ∈ es → e ∈ sorted ∨ e = node) as Hf.
    { intros n. rewrite list_elem_of_filter, Hp. unfold refers, remaining.
      rewrite lookup_fmap. split.
      - intros [Hempty (es & He & Hin)]. exists es. rewrite He in Hempty. simpl in Hempty.
        split_and!; [done..|]. intros e Hes. destruct (decide (e ∈ sorted)); [by left|].
        destruct (decide (e = node)); [by right|]. set_solver.
      - intros (es & He & Hin & Hes). rewrite He. simpl. split; [|eauto].
        apply set_eq. intros e. specialize (Hes e). set_solver. }
    assert (ids (entry k <$> filter (λ p, default ∅ (remaining sorted !! p) ∖ {[node]} = ∅)
        (hset_iter pset)) =
      filter (λ p, default ∅ (remaining sorted !! p) ∖ {[node]} = ∅) (hset_iter pset)) as Hide.
    { rewrite <- list_fmap_compose. apply list_fmap_id. }
    assert (∀ n, n ∈ ids rest ↔ n ≠ node ∧ n ∉ sorted ∧ ready sorted n) as Hrest.
    { intros n. rewrite <- Hheap, Hids, elem_of_cons. split; [|tauto].
      intros Hn. split; [by intros ->|tauto]. }
    split; cbn [fst snd].
    + done.
    + intros n. rewrite fmap_app, elem_of_app, Hide, Hf, Hrest.
      rewrite elem_of_app, list_elem_of_singleton. split.
      * intros [(Hne & Hns & Hr)|(es & He & Hin & Hes)].
        { split; [tauto|]. apply (ready_mono sorted); [set_solver|done]. }
        split.
        { intros [Hns| ->].
          - destruct (topo_inv_sorted _ n Hi Hns) as (es' & He' & Hes'). simpl in *.
            rewrite He in He'. injection He' as <-. auto.
          - destruct Hready as (es' & He' & Hes'). rewrite He in He'. injection He' as <-. auto. }
        exists es. split; [done|]. intros e [?|?]%Hes; set_solver.
      * intros [Hns (es & He & Hes)]. destruct (decide (node ∈ es)) as [Hin|Hin].
        { right. exists es. split_and!; [done..|]. intros e He'%Hes. set_solver. }
        left. split_and!; [tauto..|]. exists es. split; [done|].
        intros e Hee. pose proof (Hes e Hee) as Hes'. apply elem_of_app in Hes' as [?|Hx]; [done|].
        apply list_elem_of_singleton in Hx as ->. done.
    + rewrite fmap_app, Hide. apply list.NoDup_app. split_and!.
      * rewrite Hids in Hhnd. by apply list.NoDup_cons in Hhnd as [_ ?].
      * intros n (Hne & Hns & (es & He & Hes))%Hrest (es' & He' & Hin & _)%Hf.
        rewrite He in He'. injection He' as <-. auto.
      * apply list.NoDup_filter, NoDup_hset_iter.
    + apply list.NoDup_app. split_and!; [done| |apply NoDup_singleton].
      intros x Hx ->%list_elem_of_singleton. done.
    + intros l1 n l2 Heq. destruct l2 as [|y l2 _] using rev_ind.
      * apply app_inj_tail in Heq as [<- <-]. done.
      * rewrite app_comm_cons, (assoc_L (++)) in Heq. apply app_inj_tail in Heq as [Heq _].
        by apply (Hord l1 n l2).
Qed.

(** ** The whole sort *)

Lemma topo_inv_dom s : topo_inv s → length s.2 ≤ size (dom graph).
Proof.
  intros Hi. rewrite <- (size_list_to_set (C:=gset string) s.2) by by apply ti_NoDup.
  apply subseteq_size. intros n Hn%elem_of_list_to_set.
  destruct (topo_inv_sorted s n Hi Hn) as (es & He & _). by apply elem_of_dom.
Qed.

Lemma topo_sort_total `{HashOrder} fuel :
  size (dom graph) + 1 < fuel →
  ∃ l, lexicographical_topological_sort graph key_fn fuel = Ok l ∧ NoDup l ∧
    (∀ l1 n l2, l = l1 ++ n :: l2 → ready l1 n) ∧ (∀ n, n ∈ l ↔ ready l n).
Proof.
  intros Hf. destruct topo_init_spec as (zero & rg & Hinit & Hio).
  unfold lexicographical_topological_sort. rewrite Hinit. cbn [mbind outcome_bind].
  apply (loop_total _ topo_inv _ (λ s, S (size (dom graph)) - length s.2)).
  - intros [[om heap] sorted] Hi. destruct (heap_pop heap) as [[item rest]|] eqn:Hpop.
    + right. destruct (topo_step_spec zero rg om heap sorted item rest Hio Hi Hpop)
        as (k & ps & _ & _ & _ & Hstep & Hi' & _). eexists. split; [exact Hstep|].
      split; [done|]. pose proof (topo_inv_dom _ Hi') as Hle. simpl in *.
      rewrite length_app in *. simpl in *. lia.
    + left. exists sorted. unfold topo_step. rewrite Hpop. split; [done|].
      apply heap_pop_None in Hpop as ->. pose proof Hi as [_ Hheap _ Hnd Hord]. simpl in *.
      split_and!; [done..|]. intros n. split; [by apply (topo_inv_sorted _ n Hi)|].
      intros Hr. destruct (decide (n ∈ sorted)); [done|].
      exfalso. assert (n ∈ ([] : list string)) as ?%elem_of_nil; [|done]. by apply Hheap.
  - by eapply topo_init_inv.
  - simpl. lia.
Qed.

(** An acyclic graph whose edges stay inside is listed completely. *)
Lemma ready_complete l (rank : string → nat) :
  (∀ n es e, graph !! n = Some es → e ∈ es → e ∈ dom graph ∧ rank e < rank n) →
  (∀ n, n ∈ l ↔ ready l n) → ∀ n, n ∈ l ↔ n ∈ dom graph.
Proof.
  intros Hrank Hl n. split.
  - intros (es & He & _)%Hl. by apply elem_of_dom.
  - remember (rank n) as r eqn:Hr. revert n Hr.
    induction (lt_wf r) as [r _ IH]. intros n -> [es He]%elem_of_dom.
    apply Hl. exists es. split; [done|]. intros e Hin.
    destruct (Hrank n es e He Hin) as [Hd Hlt]. by apply (IH (rank e) Hlt e).
Qed.

(** Two iteration orders go through the same states, up to the layout of the heap. *)
Lemma topo_loop_deterministic (O1 O2 : HashOrder) z1 z2 rg1 rg2 fuel om h1 h2 sorted :
  init_ok z1 rg1 → init_ok z2 rg2 → h1 ≡ₚ h2 →
  topo_inv (om, h1, sorted) → topo_inv (om, h2, sorted) →
  loop (@topo_step O1 key_fn rg1) fuel (om, h1, sorted) =
  loop (@topo_step O2 key_fn rg2) fuel (om, h2, sorted).
Proof.
  intros Hio1 Hio2. revert om h1 h2 sorted.
  induction fuel as [|fuel IH]; intros om h1 h2 sorted Hp Hi1 Hi2; [done|].
  cbn [loop]. destruct (heap_pop h1) as [[item rest]|] eqn:Hpop1.
  - destruct (heap_pop_Permutation h1 h2 item rest Hp) as (rest' & Hpop2 & Hrest);
      [by apply (ti_heap_NoDup _ Hi1)|done|].
    destruct (@topo_step_spec O1 z1 rg1 om h1 sorted item rest Hio1 Hi1 Hpop1)
      as (k & ps & Hk & Hnd & Hps & Hs1 & Hi1' & _).
    destruct (@topo_step_spec O2 z2 rg2 om h2 sorted item rest' Hio2 Hi2 Hpop2)
      as (k' & ps' & Hk' & Hnd' & Hps' & Hs2 & Hi2' & _).
    assert (k' = k) as -> by congruence.
    rewrite Hs1, Hs2. cbn [mbind outcome_bind]. apply IH; [|done..].
    rewrite Hrest. apply Permutation_app_head, fmap_Permutation, filter_Permutation.
    apply NoDup_Permutation; [done..|]. intros p. by rewrite Hps, Hps'.
  - unfold topo_step. rewrite Hpop1. apply heap_pop_None in Hpop1 as ->.
    apply Permutation_nil in Hp as ->. done.
Qed.

Lemma topo_sort_deterministic (O1 O2 : HashOrder) fuel :
  @lexicographical_topological_sort O1 graph key_fn fuel =
  @lexicographical_topological_sort O2 graph key_fn fuel.
Proof.
  destruct (@topo_init_spec O1) as (z1 & rg1 & Hi1 & Hio1).
  destruct (@topo_init_spec O2) as (z2 & rg2 & Hi2 & Hio2).
  unfold lexicographical_topological_sort. rewrite Hi1, Hi2. cbn [mbind outcome_bind].
  apply (topo_loop_deterministic O1 O2 z1 z2); [done|done| |by eapply topo_init_inv..].
  apply NoDup_Permutation.
  - by eapply list.NoDup_fmap_1, io_NoDup.
  - by eapply list.NoDup_fmap_1, io_NoDup.
  - intros t. by rewrite (io_zero _ _ Hio1), (io_zero _ _ Hio2).
Qed.
End sort.

(** C4: on every graph whose nodes have keys the sort ends within one round per node; the
    result lists nodes at most once, each after all the nodes it refers to; and on an acyclic
    graph whose edges stay inside it is a permutation of the nodes. *)
Theorem lexicographical_topological_sort_spec `{HashOrder} graph key_fn fuel :
  (∀ n, n ∈ dom graph → ∃ k, key_fn n = Ok k) → size (dom graph) + 1 < fuel →
  ∃ l, lexicographical_topological_sort graph key_fn fuel = Ok l ∧ NoDup l ∧
    (∀ l1 n l2, l = l1 ++ n :: l2 →
       ∃ es, graph !! n = Some es ∧ ∀ e, e ∈ es → e ∈ l1) ∧
    ∀ rank : string → nat,
      (∀ n es e, graph !! n = Some es → e ∈ es → e ∈ dom graph ∧ rank e < rank n) →
      l ≡ₚ elements (dom graph).
Proof.
  intros Hk Hf. destruct (topo_sort_total graph key_fn Hk fuel Hf) as (l & Hl & Hnd & Hord & Hin).
  exists l. split_and!; [done..|]. intros rank Hrank.
  apply NoDup_Permutation; [done|apply NoDup_elements|].
  intros n. rewrite elem_of_elements. by apply (ready_complete graph l rank).
Qed.

(** ** Examples *)

Open Scope string_scope.

Definition fork : Graph :=
  {[ "a" := ∅; "b" := {["a"]}; "z" := {["a"]} ]}.

Definition keys_of_fork (f : string → Z * Z) (n : string) : outcome RunError (Z * Z) :=
  if decide (n = "a") then Ok (0%Z, 0%Z) else Ok (f n).

(** A node enters the heap under the key of the node before it: of two events that follow
    the same event, the one with the smaller ID comes first, whatever their senders' power
    levels and their times are. *)
Theorem sort_ignores_own_key f :
  @lexicographical_topological_sort map_order fork (keys_of_fork f) 10 = Ok ["a"; "b"; "z"].
Proof. vm_compute. reflexivity. Qed.

Lemma lexicographical_topological_sort_spec_witness :
  let _ := map_order in
  ∃ l, lexicographical_topological_sort fork (keys_of_fork (λ _, (0%Z, 0%Z))) 10 = Ok l ∧ NoDup l.
Proof.
  intros o.
  destruct (lexicographical_topological_sort_spec fork (keys_of_fork (λ _, (0%Z, 0%Z))) 10)
    as (l & Hl & Hnd & _).
  - intros n _. unfold keys_of_fork. destruct (decide (n = "a")); eexists; reflexivity.
  - apply Nat.ltb_lt. vm_compute. reflexivity.
  - exists l. split; [exact Hl|exact Hnd].
Defined.

