(* ===== verification/StateResPower.v ===== *)
(** * The sort of the power events

    [reverse_topological_power_sort] as a whole: the graph, the senders' power levels and the
    topological sort. *)

From S2P Require Import Prelude RustStr RustNet IdValidation StringEnum Identifiers Json.
From S2P Require Import EventTypes EventContents RoomVersions EventAuth EventAuthSpec StateRes.
From S2P Require Import StateResGraph StateResSort.
From stdpp Require Import relations.
From Stdlib Require Import Ascii NArith.
Open Scope nat_scope.
Open Scope list_scope.

(** ** Fuel *)

Lemma lift_not_out_of_fuel {A} (m : outcome StateError A) : lift m ≠ Err OutOfFuel.
Proof. by destruct m. Qed.

Lemma lift_Ok {A} (m : outcome StateError A) a : lift m = Ok a ↔ m = Ok a.
Proof. apply map_err_Ok. Qed.

(** A run that did not stop for want of fuel is the same with a body that needs less. *)
Lemma for_each_more_fuel {A S} (f g : S → A → outcome RunError S) s l :
  (∀ s x, x ∈ l → f s x ≠ Err OutOfFuel → g s x = f s x) →
  for_each f s l ≠ Err OutOfFuel → for_each g s l = for_each f s l.
Proof.
  revert s. induction l as [|x l IH]; intros s Hfg Hr; simpl in *; [done|].
  assert (f s x ≠ Err OutOfFuel) as Hx by (intros Hx; by rewrite Hx in Hr).
  rewrite (Hfg s x) by (done || by left). destruct (f s x); simpl in *; [|done..].
  apply IH; [|done]. intros. apply Hfg; [by right|done].
Qed.

Lemma for_each_not_out_of_fuel {A S} (I : S → Prop) (f : S → A → outcome RunError S) s l :
  (∀ s x, x ∈ l → I s → f s x ≠ Err OutOfFuel ∧ ∀ s', f s x = Ok s' → I s') → I s →
  for_each f s l ≠ Err OutOfFuel.
Proof.
  revert s. induction l as [|x l IH]; intros s Hf Hs; simpl; [done|].
  destruct (Hf s x) as [Hne Hi]; [by left|done|].
  destruct (f s x) as [s'|e|]; simpl; [|congruence|done].
  apply IH; [|by apply Hi]. intros. apply Hf; [by right|done].
Qed.

Lemma size_list_to_set_le (l : list string) : size (list_to_set l : gset string) ≤ length l.
Proof.
  induction l as [|x l IH]; simpl; [done|].
  pose proof (size_union_alt {[x]} (list_to_set l : gset string)) as Hs.
  rewrite size_singleton in Hs. pose proof (subseteq_size
    ((list_to_set l : gset string) ∖ {[x]}) (list_to_set l) ltac:(set_solver)). lia.
Qed.

Section power.
Context `{HashOrder}.
Variable fetch_event : string → option Event.
Variable auth_diff : gset string.

(** The nodes of the graph for a list of events. *)
Definition power_node (events : list string) (n : string) : Prop :=
  ∃ ev, ev ∈ events ∧ rtc (edge fetch_event auth_diff) ev n.

Definition power_fuel (events : list string) : nat :=
  max (graph_fuel_for fetch_event auth_diff events) (size auth_diff + length events + 2).

Lemma power_node_in events n : power_node events n → n ∈ events ∨ n ∈ auth_diff.
Proof.
  intros (ev & Hev & Hr). apply rtc_inv_r in Hr as [<-|(y & _ & Hy)]; [by left|].
  right. unfold edge in Hy. apply elem_of_edges in Hy as [_ ?]. done.
Qed.

Lemma power_levels_map (g : Graph) :
  (∀ n, n ∈ dom g → ∃ pl, get_power_level_for_sender fetch_event n = Ok pl) →
  ∃ m : gmap string Z,
    for_each (λ m event_id,
        pl ← get_power_level_for_sender fetch_event event_id;
        Ok (<[event_id := pl]> m)) (∅ : gmap string Z) (hash_iter g).*1 = Ok m ∧
    ∀ n pl, m !! n = Some pl ↔ n ∈ dom g ∧ get_power_level_for_sender fetch_event n = Ok pl.
Proof.
  intros Hpl.
  assert (∀ n, n ∈ (hash_iter g).*1 ↔ n ∈ dom g) as Hkeys.
  { intros n. rewrite list_elem_of_fmap, elem_of_dom. split.
    - intros ([k v] & -> & Hin%elem_of_hash_iter). eauto.
    - intros [v Hv]. exists (n, v). by rewrite elem_of_hash_iter. }
  destruct (for_each_total (E:=RunError) (λ done (m : gmap string Z),
      ∀ n pl, m !! n = Some pl ↔ n ∈ done ∧ get_power_level_for_sender fetch_event n = Ok pl)
    (λ m event_id,
        pl ← get_power_level_for_sender fetch_event event_id;
        Ok (<[event_id := pl]> m)) (hash_iter g).*1 ∅) as (m & Hm & Hspec).
  - intros pre m x Hx Hm. destruct (Hpl x) as [pl Hx']; [by apply Hkeys|].
    exists (<[x := pl]> m). rewrite Hx'. split; [done|]. intros n pl'.
    rewrite elem_of_app, list_elem_of_singleton. destruct (decide (n = x)) as [->|Hne].
    + rewrite lookup_insert_eq, Hx'. naive_solver.
    + rewrite lookup_insert_ne by done. rewrite Hm. naive_solver.
  - intros n pl. rewrite lookup_empty. split; [done|]. by intros [?%elem_of_nil _].
  - exists m. split; [done|]. intros n pl. by rewrite Hspec, Hkeys.
Qed.

Lemma power_sort_spec events fuel :
  (∀ n, power_node events n → is_Some (fetch_event n)) →
  (∀ n, power_node events n → ∃ pl, get_power_level_for_sender fetch_event n = Ok pl) →
  power_fuel events ≤ fuel →
  ∃ l, reverse_topological_power_sort fetch_event fuel events auth_diff = Ok l ∧ NoDup l ∧
    (∀ n, n ∈ l → power_node events n) ∧
    (∀ l1 n l2, l = l1 ++ n :: l2 → ∀ a, a ∈ edges fetch_event auth_diff n → a ∈ l1) ∧
    ∀ rank : string → nat,
      (∀ n a, a ∈ auth_events_of fetch_event n → rank a < rank n) →
      ∀ n, n ∈ l ↔ power_node events n.
Proof.
  intros Hfetch Hpl Hf. unfold power_fuel in Hf.
  destruct (build_graph_spec fetch_event auth_diff fuel events ltac:(lia)) as (g & Hg & Hc & Hd).
  fold (power_node events) in Hd.
  assert (∀ n, n ∈ dom g ↔ power_node events n) as Hdom by exact Hd.
  destruct (power_levels_map g) as (m & Hm & Hmspec).
  { intros n Hn. by apply Hpl, Hdom. }
  assert (∀ n, n ∈ dom g → ∃ k, power_key fetch_event m n = Ok k) as Hkey.
  { intros n Hn. destruct (Hfetch n) as [ev Hev]; [by apply Hdom|].
    destruct (Hpl n) as [pl Hn']; [by apply Hdom|].
    unfold power_key. rewrite Hev. simpl.
    rewrite (proj2 (Hmspec n pl) (conj Hn Hn')). simpl. eauto. }
  destruct (topo_sort_total g (power_key fetch_event m) Hkey fuel) as (l & Hl & Hnd & Hord & Hin).
  { assert (size (dom g) ≤ length events + size auth_diff); [|lia].
    etrans; [apply (subseteq_size (dom g) (list_to_set events ∪ auth_diff))|].
    - intros n [?|?]%Hdom%power_node_in; set_solver.
    - rewrite size_union_alt. pose proof (subseteq_size (auth_diff ∖ list_to_set events) auth_diff
        ltac:(set_solver)). pose proof (size_list_to_set_le events). lia. }
  exists l. split_and!.
  - unfold reverse_topological_power_sort. rewrite Hg. simpl. rewrite Hm. simpl. done.
  - done.
  - intros n (es & He & _)%Hin. apply Hdom. by apply elem_of_dom.
  - intros l1 n l2 Heq a Ha. destruct (Hord l1 n l2 Heq) as (es & He & Hes).
    destruct (Hc n es He) as [-> _]. by apply Hes.
  - intros rank Hrank n. rewrite <- Hdom. apply (ready_complete g l rank); [|done].
    intros n' es e He Hee. destruct (Hc n' es He) as [-> Hsub]. split; [by apply Hsub|].
    apply Hrank. by apply elem_of_edges in Hee as [? _].
Qed.
End power.

(** C5: when every event concerned is in the store and every sender's power level can be read,
    the power sort returns; every event comes after those of its auth events that are in the
    conflicted set; and in a store without cycles the result lists exactly the given events
    and what their auth chains reach inside the conflicted set. *)
Theorem reverse_topological_power_sort_spec `{HashOrder} fetch_event auth_diff events fuel :
  (∀ n, power_node fetch_event auth_diff events n → is_Some (fetch_event n)) →
  (∀ n, power_node fetch_event auth_diff events n →
     ∃ pl, get_power_level_for_sender fetch_event n = Ok pl) →
  power_fuel fetch_event auth_diff events ≤ fuel →
  ∃ l, reverse_topological_power_sort fetch_event fuel events auth_diff = Ok l ∧ NoDup l ∧
    (∀ l1 n l2, l = l1 ++ n :: l2 →
       ∀ a, a ∈ auth_events_of fetch_event n → a ∈ auth_diff → a ∈ l1) ∧
    ∀ rank : string → nat,
      (∀ n a, a ∈ auth_events_of fetch_event n → rank a < rank n) →
      ∀ n, n ∈ l ↔ power_node fetch_event auth_diff events n.
Proof.
  intros Hf Hp Hfuel.
  destruct (power_sort_spec fetch_event auth_diff events fuel Hf Hp Hfuel)
    as (l & Hl & Hnd & _ & Hord & Hin).
  exists l. split_and!; [done..| |done].
  intros l1 n l2 Heq a Ha Hd. apply (Hord l1 n l2 Heq). by apply elem_of_edges.
Qed.

Section deterministic.
Context (O1 O2 : HashOrder).
Variable fetch_event : string → option Event.
Variable auth_diff : gset string.

Lemma graph_closed_unique (g1 g2 : Graph) :
  graph_closed fetch_event auth_diff g1 → graph_closed fetch_event auth_diff g2 →
  dom g1 = dom g2 → g1 = g2.
Proof.
  intros H1 H2 Hd. apply map_eq. intros n.
  destruct (g1 !! n) as [e1|] eqn:E1, (g2 !! n) as [e2|] eqn:E2; [| | |done].
  - destruct (H1 n e1 E1) as [-> _], (H2 n e2 E2) as [-> _]. done.
  - apply elem_of_dom_2 in E1. rewrite Hd in E1. apply not_elem_of_dom in E2. done.
  - apply elem_of_dom_2 in E2. rewrite <- Hd in E2. apply not_elem_of_dom in E1. done.
Qed.

Lemma power_sort_deterministic events1 events2 fuel :
  events1 ≡ₚ events2 →
  (∀ n, power_node fetch_event auth_diff events1 n → is_Some (fetch_event n)) →
  (∀ n, power_node fetch_event auth_diff events1 n →
     ∃ pl, get_power_level_for_sender fetch_event n = Ok pl) →
  power_fuel fetch_event auth_diff events1 ≤ fuel →
  power_fuel fetch_event auth_diff events2 ≤ fuel →
  @reverse_topological_power_sort O1 fetch_event fuel events1 auth_diff =
  @reverse_topological_power_sort O2 fetch_event fuel events2 auth_diff.
Proof.
  intros Hperm Hf Hp Hf1 Hf2. unfold power_fuel in *.
  destruct (build_graph_spec fetch_event auth_diff fuel events1 ltac:(lia)) as (g1 & Hg1 & Hc1 & Hd1).
  destruct (build_graph_spec fetch_event auth_diff fuel events2 ltac:(lia)) as (g2 & Hg2 & Hc2 & Hd2).
  assert (g1 = g2) as <-.
  { apply graph_closed_unique; [done..|]. apply set_eq. intros n. rewrite Hd1, Hd2.
    by setoid_rewrite Hperm. }
  assert (∀ n, n ∈ dom g1 ↔ power_node fetch_event auth_diff events1 n) as Hdom by exact Hd1.
  assert (∀ n, n ∈ dom g1 → ∃ pl, get_power_level_for_sender fetch_event n = Ok pl) as Hpl
    by (intros n ?%Hdom; auto).
  destruct (@power_levels_map O1 fetch_event g1 Hpl) as (m1 & Hm1 & Hs1).
  destruct (@power_levels_map O2 fetch_event g1 Hpl) as (m2 & Hm2 & Hs2).
  assert (m1 = m2) as <-.
  { apply map_eq. intros n. apply option_eq. intros pl. by rewrite Hs1, Hs2. }
  unfold reverse_topological_power_sort. rewrite Hg1, Hg2. simpl. rewrite Hm1, Hm2. simpl.
  apply topo_sort_deterministic. intros n Hn.
  destruct (Hf n) as [ev Hev]; [by apply Hdom|]. destruct (Hpl n Hn) as [pl Hn'].
  unfold power_key. rewrite Hev. simpl. rewrite (proj2 (Hs1 n pl) (conj Hn Hn')). simpl. eauto.
Qed.
End deterministic.

(** ** An example store *)

Open Scope string_scope.

Definition topic_event (id s : string) (auth : list string) : Event :=
  state_event id s RoomTopic "" (JObject []) auth.

Definition example_events : list Event :=
  [ state_event "$c" "@a:a" RoomCreate "" (JObject [("creator", JString "@a:a")]) [];
    state_event "$m" "@a:a" RoomMember "@a:a" (JObject [("membership", JString "join")]) ["$c"];
    state_event "$p" "@a:a" RoomPowerLevels "" (pl_json [] [("@a:a", 100%Z)]) ["$c"; "$m"];
    state_event "$q" "@a:a" RoomPowerLevels "" (pl_json [] [("@a:a", 100%Z); ("@b:a", 50%Z)])
      ["$c"; "$m"; "$p"];
    topic_event "$t" "@a:a" ["$c"; "$m"; "$p"];
    topic_event "$u" "@a:a" ["$c"; "$m"; "$q"] ].

Definition store_of (l : list Event) (id : string) : option Event :=
  snd <$> list_find (λ ev, event_id ev = id) l.

Definition example_store : string → option Event := store_of example_events.

Lemma store_of_Some l id ev : store_of l id = Some ev → ev ∈ l ∧ event_id ev = id.
Proof.
  unfold store_of. destruct (list_find _ l) as [[i e]|] eqn:Hf; [|done]. intros [= <-].
  apply list_find_Some in Hf as (Hi & He & _). split; [by eapply list_elem_of_lookup_2|done].
Qed.

(** Every event the power sort may reach from the second power levels. *)
Lemma example_power_nodes n :
  power_node example_store {["$p"; "$q"]} ["$q"] n → n = "$p" ∨ n = "$q".
Proof. intros [?%list_elem_of_singleton|?]%power_node_in; set_solver. Qed.

Lemma example_power_levels n :
  power_node example_store {["$p"; "$q"]} ["$q"] n →
  is_Some (example_store n) ∧ ∃ pl, get_power_level_for_sender example_store n = Ok pl.
Proof.
  intros [-> | ->]%example_power_nodes; (split; [eexists; reflexivity|]);
    eexists; vm_compute; reflexivity.
Qed.

Lemma reverse_topological_power_sort_spec_witness :
  let _ := map_order in
  ∃ l, reverse_topological_power_sort example_store 1000 ["$q"] {["$p"; "$q"]} = Ok l ∧ NoDup l.
Proof.
  intros o.
  destruct (reverse_topological_power_sort_spec example_store {["$p"; "$q"]} ["$q"] 1000)
    as (l & Hl & Hnd & _).
  - intros n Hn. apply (example_power_levels n Hn).
  - intros n Hn. apply (example_power_levels n Hn).
  - apply Nat.leb_le. vm_compute. reflexivity.
  - exists l. split; [exact Hl|exact Hnd].
Defined.

