(* ===== verification/StateResMainline.v ===== *)
(** * The mainline sort

    [mainline_sort] orders the remaining events by the position of their power levels on the
    mainline, time and event ID. *)

From S2P Require Import Prelude RustStr RustNet IdValidation StringEnum Identifiers Json.
From S2P Require Import EventTypes EventContents RoomVersions EventAuth StateRes StateResSort.
From S2P Require Import StateResPower.
From Stdlib Require Import Ascii NArith.
Open Scope nat_scope.
Open Scope list_scope.

(** ** The order of the sort keys *)

Definition opt_lt_time (a b : option Z) : Prop :=
  match a, b with
  | None, Some _ => True
  | Some x, Some y => (x < y)%Z
  | _, None => False
  end.

Lemma order_key_le_spec a b :
  order_key_le a b = true ↔
  a.1.1 < b.1.1 ∨ a.1.1 = b.1.1 ∧
    (opt_lt_time a.1.2 b.1.2 ∨ a.1.2 = b.1.2 ∧ String.leb a.2 b.2 = true).
Proof.
  destruct a as [[d1 t1] i1], b as [[d2 t2] i2]. unfold order_key_le. simpl.
  destruct (Nat.compare_spec d1 d2) as [->|?|?]; [|intuition lia..].
  destruct t1 as [x|], t2 as [y|]; simpl; [|intuition (lia || congruence)..].
  destruct (Z.compare_spec x y) as [->|?|?]; [intuition lia|intuition lia|].
  split; [done|]. intros [?|[_ [?|[[= ->] _]]]]; lia.
Qed.

Lemma order_key_le_total a b : order_key_le a b = true ∨ order_key_le b a = true.
Proof.
  rewrite !order_key_le_spec. destruct (lt_eq_lt_dec a.1.1 b.1.1) as [[?|He]|?]; [auto| |auto].
  rewrite He. destruct (a.1.2) as [x|], (b.1.2) as [y|]; simpl; [|tauto..|].
  - destruct (Z.lt_trichotomy x y) as [?|[->|?]]; [tauto| |tauto].
    destruct (String.leb_total a.2 b.2); tauto.
  - destruct (String.leb_total a.2 b.2); tauto.
Qed.

Lemma order_key_le_trans a b c :
  order_key_le a b = true → order_key_le b c = true → order_key_le a c = true.
Proof.
  rewrite !order_key_le_spec.
  intros [H1|[E1 [H1|[F1 L1]]]] [H2|[E2 [H2|[F2 L2]]]]; try (left; lia).
  - right. split; [lia|]. left.
    destruct (a.1.2), (b.1.2), (c.1.2); simpl in *; try done; lia.
  - right. split; [lia|]. left. by rewrite <- F2.
  - right. split; [lia|]. left. by rewrite F1.
  - right. split; [lia|]. right. split; [congruence|]. by eapply string_leb_trans.
Qed.

Lemma order_key_le_antisym a b :
  order_key_le a b = true → order_key_le b a = true → a.2 = b.2.
Proof.
  rewrite !order_key_le_spec.
  intros [H1|[E1 [H1|[F1 L1]]]] [H2|[E2 [H2|[F2 L2]]]]; try lia.
  - destruct (a.1.2), (b.1.2); simpl in *; try done; lia.
  - rewrite F2 in H1. destruct (a.1.2); simpl in *; [lia|done].
  - rewrite F1 in H2. destruct (b.1.2); simpl in *; [lia|done].
  - by apply String.leb_antisym.
Qed.

Definition key_le (x y : string * order_key) : Prop := order_key_le x.2 y.2 = true.

Lemma sort_by_key_perm l : sort_by_key l ≡ₚ l.
Proof.
  unfold sort_by_key. induction l as [|x l IH]; simpl; [done|]. rewrite <- IH at 2.
  generalize (foldr insert_by_key [] l) as k. induction k as [|y k IHk]; simpl; [done|].
  case_match; [done|]. rewrite IHk. apply Permutation_swap.
Qed.

Lemma sort_by_key_sorted l : StronglySorted key_le (sort_by_key l).
Proof.
  unfold sort_by_key. induction l as [|x l IH]; simpl; [constructor|].
  induction IH as [|y k Hk IHk Hall]; simpl; [by repeat constructor|].
  destruct (order_key_le x.2 y.2) eqn:Hxy.
  - constructor; [by constructor|]. constructor; [done|].
    eapply list.Forall_impl; [exact Hall|]. intros z Hz. by eapply order_key_le_trans.
  - constructor; [done|]. apply list.Forall_forall. intros z Hz.
    assert (z ∈ x :: k) as [->|Hz']%elem_of_cons.
    { clear -Hz. induction k as [|w k IH]; simpl in Hz; [done|].
      case_match; [done|]. apply elem_of_cons in Hz as [->|Hz]; [right; by left|].
      apply IH, elem_of_cons in Hz as [->|?]; [by left|right; by right]. }
    + unfold key_le. destruct (order_key_le_total x.2 y.2); congruence.
    + by eapply list.Forall_forall in Hall.
Qed.

Section mainline.
Variable fetch_event : string → option Event.

(** ** Walking back along the power levels *)

Lemma find_power_levels_in l a : find_power_levels fetch_event l = Ok (Some a) → a ∈ l.
Proof.
  induction l as [|b l IH]; simpl; [done|].
  intros (ev & _ & Hf)%bind_Ok. case_match; [injection Hf as ->; by left|right; auto].
Qed.

Lemma find_power_levels_fuel l : find_power_levels fetch_event l ≠ Err OutOfFuel.
Proof.
  induction l as [|b l IH]; simpl; [done|].
  destruct (fetch_event b); simpl; [|done]. by case_match.
Qed.

(** A store whose auth events have no cycles. *)
Definition decreases (rank : string → nat) : Prop :=
  ∀ n a, a ∈ auth_events_of fetch_event n → rank a < rank n.

Section terminates.
Variable rank : string → nat.
Hypothesis rank_decreases : decreases rank.

Lemma mainline_terminates fuel start :
  (match start with Some p => rank p | None => 0 end) + 1 < fuel →
  loop (mainline_step fetch_event) fuel ([], start) ≠ Err OutOfFuel.
Proof.
  intros Hf. apply (loop_terminates _ (λ _, True)
    (λ s, match s.2 with Some p => rank p + 1 | None => 0 end)).
  - intros [ml [p|]] _; simpl; [|done].
    destruct (fetch_event p) as [ev|] eqn:Hp; simpl; [|done]. split.
    + pose proof (find_power_levels_fuel (auth_events ev)) as Hne.
      destruct (find_power_levels _ _); simpl; congruence.
    + intros [ml' pl'] (pl & Hpl & [= <- <-])%bind_Ok. split; [done|]. simpl.
      destruct pl as [a|]; [|lia].
      assert (rank a < rank p); [|lia]. apply rank_decreases.
      unfold auth_events_of. rewrite Hp. by apply find_power_levels_in.
  - done.
  - simpl. destruct start; lia.
Qed.

(** The rank of an event that is at hand: above that of everything it cites. *)
Definition event_rank (ev : Event) : nat := max_list ((λ a, S (rank a)) <$> auth_events ev).

Lemma depth_terminates mm fuel (ev : Event) :
  event_rank ev + 2 < fuel → get_mainline_depth fetch_event mm fuel (Some ev) ≠ Err OutOfFuel.
Proof.
  intros Hf. unfold get_mainline_depth. apply (loop_terminates _ (λ _, True)
    (λ s, match s with Some ev => event_rank ev + 2 | None => 0 end)); [|done|done].
  intros [e|] _; simpl; [|done]. destruct (mm !! event_id e) as [d|]; [done|]. split.
  - pose proof (find_power_levels_fuel (auth_events e)) as Hne.
    destruct (find_power_levels _ _); simpl; congruence.
  - intros s' (pl & Hpl & [= <-])%bind_Ok. split; [done|].
    destruct pl as [a|]; simpl; [|lia]. destruct (fetch_event a) as [aev|] eqn:Ha; [|lia].
    assert (event_rank aev ≤ rank a) as Hle.
    { unfold event_rank.
      assert (∀ b, b ∈ auth_events aev → S (rank b) ≤ rank a) as Hb.
      { intros b Hb. apply rank_decreases. unfold auth_events_of. by rewrite Ha. }
      clear -Hb. induction (auth_events aev) as [|b l IH]; csimpl; [lia|].
      pose proof (Hb b ltac:(by left)). specialize (IH ltac:(intros; apply Hb; by right)). lia. }
    assert (S (rank a) ≤ event_rank e); [|lia].
    apply max_list_elem_of_le, list_elem_of_fmap. exists a. split; [done|].
    by apply find_power_levels_in.
Qed.
End terminates.

(** ** The sort *)

(** The key of an event, and the events that have one. *)
Definition depth_of (mm : gmap string nat) (fuel : nat) (id : string) : option nat :=
  ev ← fetch_event id; ok (get_mainline_depth fetch_event mm fuel (Some ev)).
Definition sort_key (mm : gmap string nat) (fuel : nat) (id : string) : order_key :=
  (default 0 (depth_of mm fuel id), origin_server_ts <$> fetch_event id, id).

Lemma order_events_spec mm fuel to_sort om :
  for_each (order_event fetch_event mm fuel) ∅ to_sort = Ok om →
  ∀ id k, om !! id = Some k ↔
    id ∈ to_sort ∧ is_Some (depth_of mm fuel id) ∧ k = sort_key mm fuel id.
Proof.
  apply (for_each_inv_prefix (λ done (om : gmap string order_key), ∀ id k, om !! id = Some k ↔
    id ∈ done ∧ is_Some (depth_of mm fuel id) ∧ k = sort_key mm fuel id)).
  2:{ intros id k. rewrite lookup_empty. split; [done|]. by intros [?%elem_of_nil _]. }
  intros pre m x m' Hm Hx id k. rewrite elem_of_app, list_elem_of_singleton.
  unfold order_event in Hx.
  destruct (fetch_event x) as [ev|] eqn:Hev.
  2:{ injection Hx as <-. rewrite Hm. split; [tauto|]. intros [[?| ->] [[d Hd] ->]]; [eauto|].
      unfold depth_of in Hd. by rewrite Hev in Hd. }
  destruct (get_mainline_depth fetch_event mm fuel (Some ev)) as [d|e|] eqn:Hd; [|destruct e|done].
  - injection Hx as <-.
    assert (depth_of mm fuel x = Some d) as Hdx by by (unfold depth_of; rewrite Hev; simpl; rewrite Hd).
    assert (sort_key mm fuel x = (d, Some (origin_server_ts ev), x)) as Hkx
      by by (unfold sort_key; rewrite Hdx, Hev).
    destruct (decide (id = x)) as [->|Hne].
    + rewrite lookup_insert_eq, Hdx, Hkx. split; [intros [= <-]; eauto|]. by intros (_ & _ & ->).
    + rewrite lookup_insert_ne by done. rewrite Hm. tauto.
  - injection Hx as <-. rewrite Hm. split; [tauto|]. intros [[?| ->] [[d Hd'] ->]]; [eauto|].
    unfold depth_of in Hd'. rewrite Hev in Hd'. simpl in Hd'. by rewrite Hd in Hd'.
  - done.
Qed.

(** The order of the output. *)
Definition before (mm : gmap string nat) (fuel : nat) (a b : string) : Prop :=
  order_key_le (sort_key mm fuel a) (sort_key mm fuel b) = true.

#[export] Instance before_antisymm mm fuel : AntiSymm (=) (before mm fuel).
Proof. intros a b H1 H2. exact (order_key_le_antisym _ _ H1 H2). Qed.

Lemma mainline_sort_Ok `{HashOrder} fuel to_sort start l :
  mainline_sort fetch_event fuel to_sort start = Ok l →
  to_sort = [] ∧ l = [] ∨
  ∃ ml, loop (mainline_step fetch_event) fuel ([], start) = Ok ml ∧ NoDup l ∧
    (∀ id, id ∈ l ↔ id ∈ to_sort ∧ is_Some (depth_of (mainline_map_of ml) fuel id)) ∧
    StronglySorted (before (mainline_map_of ml) fuel) l.
Proof.
  unfold mainline_sort. case_decide as Hne; [intros [= <-]; by left|].
  intros (ml & Hml & (om & Hom & [= <-])%bind_Ok)%bind_Ok. right. exists ml. split; [done|].
  pose proof (order_events_spec _ _ _ _ Hom) as Hspec.
  pose proof (sort_by_key_perm (hash_iter om)) as Hperm. split_and!.
  - rewrite Hperm. apply NoDup_hash_iter_fst.
  - intros id. rewrite Hperm, list_elem_of_fmap. split.
    + intros ([x k] & -> & (? & ? & _)%elem_of_hash_iter%Hspec). done.
    + intros [Hin Hd]. exists (id, sort_key (mainline_map_of ml) fuel id). split; [done|].
      apply elem_of_hash_iter, Hspec. done.
  - assert (∀ x k, (x, k) ∈ sort_by_key (hash_iter om) → k = sort_key (mainline_map_of ml) fuel x)
      as Hk by by intros x k (_ & _ & ->)%(elem_of_Permutation_proper _ _ _ Hperm)%elem_of_hash_iter%Hspec.
    clear Hperm. revert Hk. induction (sort_by_key_sorted (hash_iter om)) as [|[x k] ks Hs IH Hall]; intros Hk;
      [constructor|]. cbn. constructor; [apply IH; intros; apply Hk; by right|].
    apply list.Forall_forall. intros y ([y' k'] & -> & Hin)%list_elem_of_fmap.
    eapply list.Forall_forall in Hall; [|exact Hin]. unfold before. cbn [fst].
    rewrite <- (Hk x k) by by left. rewrite <- (Hk y' k') by by right. exact Hall.
Qed.

(** ** Stores that have every cited event *)

Definition store_complete : Prop :=
  ∀ id ev a, fetch_event id = Some ev → a ∈ auth_events ev → is_Some (fetch_event a).

Lemma find_power_levels_complete l :
  (∀ a, a ∈ l → is_Some (fetch_event a)) → ∃ r, find_power_levels fetch_event l = Ok r.
Proof.
  induction l as [|a l IH]; intros Hl; simpl; [eauto|].
  destruct (Hl a) as [ev ->]; [by left|]. simpl. case_match; [eauto|].
  apply IH. intros. apply Hl. by right.
Qed.

Lemma depth_complete mm fuel id ev :
  store_complete → fetch_event id = Some ev →
  get_mainline_depth fetch_event mm fuel (Some ev) = Err OutOfFuel ∨
  ∃ d, get_mainline_depth fetch_event mm fuel (Some ev) = Ok d.
Proof.
  intros Hc Hev. unfold get_mainline_depth.
  assert (∀ e, Some ev = Some e → ∃ i, fetch_event i = Some e) as Hi by naive_solver.
  clear id Hev. revert Hi. generalize (Some ev) as s. clear ev.
  induction fuel as [|fuel IH]; intros s Hi; simpl; [by left|].
  destruct s as [e|]; simpl; [|eauto]. destruct (mm !! event_id e); simpl; [eauto|].
  destruct (Hi e eq_refl) as [i He].
  destruct (find_power_levels_complete (auth_events e)) as [pl ->]; [by intros; eapply Hc|].
  simpl. apply IH. intros e' Hpl. destruct pl as [a|]; [by exists a|done].
Qed.

(** In such a store the mainline sort leaves no event out. *)
Lemma mainline_sort_complete `{HashOrder} fuel to_sort start l id :
  store_complete → mainline_sort fetch_event fuel to_sort start = Ok l →
  id ∈ to_sort → is_Some (fetch_event id) → id ∈ l.
Proof.
  intros Hc. unfold mainline_sort. case_decide as Hne; [subst; by intros _ ?%elem_of_nil|].
  intros (ml & _ & (om & Hom & [= <-])%bind_Ok)%bind_Ok Hid Hev.
  assert (is_Some (om !! id)) as [k Hk].
  { revert id Hid Hev. refine (for_each_inv_prefix (λ done (om : gmap string order_key),
      ∀ id, id ∈ done → is_Some (fetch_event id) → is_Some (om !! id)) _ _ _ _ _ _ Hom);
      [|by intros ? ?%elem_of_nil].
    intros pre m x m' Hm Hx id. rewrite elem_of_app, list_elem_of_singleton. intros Hid [ev Hev].
    unfold order_event in Hx. destruct (decide (id = x)) as [->|Hxid].
    - rewrite Hev in Hx. destruct (depth_complete (mainline_map_of ml) fuel x ev Hc Hev)
        as [Hd|[d Hd]]; rewrite Hd in Hx; [done|].
      injection Hx as <-. rewrite lookup_insert_eq. eauto.
    - assert (is_Some (m !! id)) as Hmid by (apply Hm; [by destruct Hid|eauto]).
      destruct (fetch_event x); [|by injection Hx as <-].
      destruct (get_mainline_depth _ _ _ _) as [d|[]|]; simplify_eq; [|done].
      by rewrite lookup_insert_ne. }
  rewrite (sort_by_key_perm (hash_iter om)). apply list_elem_of_fmap. exists (id, k).
  by rewrite elem_of_hash_iter.
Qed.
End mainline.

Lemma mainline_sort_fuel `{HashOrder} fetch_event rank fuel to_sort start :
  decreases fetch_event rank →
  (∀ p, start = Some p → rank p + 1 < fuel) → 1 < fuel →
  (∀ id ev, id ∈ to_sort → fetch_event id = Some ev → event_rank rank ev + 2 < fuel) →
  mainline_sort fetch_event fuel to_sort start ≠ Err OutOfFuel.
Proof.
  intros Hdec Hstart Hone Hids. unfold mainline_sort. case_decide; [done|].
  pose proof (mainline_terminates fetch_event rank Hdec fuel start) as Hml.
  destruct (loop _ fuel ([], start)) as [ml|e|]; simpl; [|destruct e; [done|]|done].
  2:{ destruct Hml; [|done]. destruct start as [p|]; [by apply Hstart|lia]. }
  assert (for_each (order_event fetch_event (mainline_map_of ml) fuel) ∅ to_sort ≠ Err OutOfFuel)
    as Hom.
  { apply (for_each_not_out_of_fuel (λ _, True)); [|done].
    intros om id Hid _. split; [|done]. unfold order_event.
    destruct (fetch_event id) as [ev|] eqn:Hev; [|done].
    pose proof (depth_terminates fetch_event rank Hdec (mainline_map_of ml) fuel ev
      (Hids id ev Hid Hev)) as Hd.
    by destruct (get_mainline_depth _ _ _ _) as [d|[e|]|]. }
  by destruct (for_each _ _ _) as [om|[e|]|].
Qed.

(** C9: in a store without cycles the mainline sort ends; its result lists the events that are
    found and have a depth, each once, in the order of depth, time and event ID. *)
Theorem mainline_sort_spec `{HashOrder} fetch_event rank fuel to_sort start :
  decreases fetch_event rank →
  (∀ p, start = Some p → rank p + 1 < fuel) → 1 < fuel →
  (∀ id ev, id ∈ to_sort → fetch_event id = Some ev → event_rank rank ev + 2 < fuel) →
  mainline_sort fetch_event fuel to_sort start ≠ Err OutOfFuel ∧
  ∀ l, mainline_sort fetch_event fuel to_sort start = Ok l → to_sort ≠ [] →
    ∃ ml, loop (mainline_step fetch_event) fuel ([], start) = Ok ml ∧ NoDup l ∧
      (∀ id, id ∈ l ↔
         id ∈ to_sort ∧ is_Some (depth_of fetch_event (mainline_map_of ml) fuel id)) ∧
      StronglySorted (before fetch_event (mainline_map_of ml) fuel) l.
Proof.
  intros Hdec Hs H1 Hi. split; [by eapply mainline_sort_fuel|].
  intros l [[? _]|Hl]%mainline_sort_Ok Hne; done.
Qed.

Lemma mainline_sort_unique (O1 O2 : HashOrder) fetch_event fuel to_sort1 to_sort2 start l1 l2 :
  to_sort1 ≡ₚ to_sort2 →
  @mainline_sort O1 fetch_event fuel to_sort1 start = Ok l1 →
  @mainline_sort O2 fetch_event fuel to_sort2 start = Ok l2 → l1 = l2.
Proof.
  intros Hp [[-> ->]|(ml & Hml & Hnd1 & Hin1 & Hs1)]%mainline_sort_Ok
    [[-> ->]|(ml' & Hml' & Hnd2 & Hin2 & Hs2)]%mainline_sort_Ok.
  - done.
  - apply Permutation_nil in Hp as ->. destruct l2 as [|x l2]; [done|].
    destruct (proj1 (Hin2 x) ltac:(by left)) as [?%elem_of_nil _]. done.
  - symmetry in Hp. apply Permutation_nil in Hp as ->. destruct l1 as [|x l1]; [done|].
    destruct (proj1 (Hin1 x) ltac:(by left)) as [?%elem_of_nil _]. done.
  - rewrite Hml in Hml'. injection Hml' as <-.
    eapply (StronglySorted_unique (before fetch_event (mainline_map_of ml) fuel)); [done..|].
    apply NoDup_Permutation; [done..|]. intros x. by rewrite Hin1, Hin2, Hp.
Qed.

(** ** Examples *)

Open Scope string_scope.

(** A rank for a store that is a list of events, each after those it cites. *)
Definition list_rank (l : list Event) (id : string) : nat :=
  match list_find (λ ev, event_id ev = id) l with Some (i, _) => S i | None => 0 end.

Definition ranked (l : list Event) : bool :=
  forallb (λ ev, forallb (λ a, Nat.ltb (list_rank l a) (list_rank l (event_id ev)))
                   (auth_events ev)) l.

Lemma ranked_decreases l : ranked l = true → decreases (store_of l) (list_rank l).
Proof.
  intros Hr n a. unfold auth_events_of. destruct (store_of l n) as [ev|] eqn:Hn.
  2:{ by intros ?%elem_of_nil. }
  apply store_of_Some in Hn as [Hin <-]. intros Ha.
  unfold ranked in Hr. rewrite forallb_forall in Hr. apply list_elem_of_In in Hin, Ha.
  specialize (Hr ev Hin). rewrite forallb_forall in Hr. apply Nat.ltb_lt. by apply Hr.
Qed.

Lemma mainline_sort_spec_witness :
  let _ := map_order in
  decreases example_store (list_rank example_events) ∧
  ∃ l, mainline_sort example_store 20 ["$u"; "$t"] (Some "$q") = Ok l ∧ NoDup l.
Proof.
  intros o. assert (decreases example_store (list_rank example_events)) as Hd
    by (apply ranked_decreases; reflexivity).
  split; [exact Hd|].
  destruct (mainline_sort_spec example_store (list_rank example_events) 20 ["$u"; "$t"]
    (Some "$q") Hd) as [_ Hspec].
  - intros p [= <-]. apply Nat.ltb_lt. reflexivity.
  - apply Nat.ltb_lt. reflexivity.
  - intros id ev Hid Hev. apply store_of_Some in Hev as [Hin _].
    assert (∀ ev, ev ∈ example_events → event_rank (list_rank example_events) ev + 2 < 20) as Hall.
    { intros e He. apply list_elem_of_In in He. simpl in He.
      repeat destruct He as [<-|He]; [apply Nat.ltb_lt; reflexivity..|done]. }
    by apply Hall.
  - exists ["$t"; "$u"].
    assert (mainline_sort example_store 20 ["$u"; "$t"] (Some "$q") = Ok ["$t"; "$u"]) as Hl
      by (vm_compute; reflexivity).
    split; [exact Hl|]. destruct (Hspec _ Hl) as (ml & _ & Hnd & _); [discriminate|exact Hnd].
Defined.

