(* ===== verification/StateResResolve.v ===== *)
(** * Resolution

    [iterative_auth_check] and [resolve] as a whole: what ends up in the resolved state and why,
    and that resolution ends. *)

From S2P Require Import Prelude RustStr RustNet IdValidation StringEnum Identifiers Json.
From S2P Require Import EventTypes EventContents RoomVersions EventAuth EventAuthSpec StateRes.
From S2P Require Import StateResSplit StateResGraph StateResSort StateResPower StateResMainline.
From stdpp Require Import relations.
From Stdlib Require Import Ascii NArith.
Open Scope nat_scope.
Open Scope list_scope.

Section resolve.
Context `{Unicode} `{HashOrder}.
Variable fetch_event : string → option Event.

(** ** One event of the iterative check *)

(** The event passes authorization against the state resolved so far, laid over the auth
    events it cites. *)
Definition accepted (rv : RoomVersion) (resolved : StateMap string) (id : string) (ev : Event)
    (key : StateKey) : Prop :=
  fetch_event id = Some ev ∧
  (∃ sk, state_key ev = Some sk ∧ key = (event_type ev, sk)) ∧
  ∃ auth keys, collect_auth_events fetch_event ev = Ok auth ∧
    auth_types_for_event (event_type ev) (sender ev) (Some key.2) (content ev) = Ok keys ∧
    let state := fold_left (overlay_state fetch_event resolved) keys auth in
    auth_check rv ev (list.last (omap fetch_event (prev_events ev)))
      (find_third_party_invite state) (λ ty k, state !! (ty, k)) = Ok true.

(** One step, exactly: an accepted event takes the entry of its type and state key, any other
    leaves the state alone. *)
Lemma iterative_auth_step_spec rv resolved id resolved' :
  iterative_auth_step fetch_event rv resolved id = Ok resolved' →
  (resolved' = resolved ∧ ∀ ev key, ¬ accepted rv resolved id ev key) ∨
  ∃ ev key, accepted rv resolved id ev key ∧ resolved' = <[key := id]> resolved.
Proof.
  unfold iterative_auth_step.
  intros (ev & Hev%ok_or_Ok & (sk & Hsk%ok_or_Ok & (auth & Hauth & (keys & Hkeys &
    (allowed & Hal%lift_Ok & Hres)%bind_Ok)%bind_Ok)%bind_Ok)%bind_Ok)%bind_Ok.
  apply lift_Ok in Hkeys. unfold from_json in Hkeys. apply map_err_Ok in Hkeys.
  destruct allowed; injection Hres as <-; [right|left].
  - exists ev, (event_type ev, sk). split; [|done]. split; [done|]. split; [eauto|].
    exists auth, keys. done.
  - split; [done|]. intros ev' key (Hev' & (sk' & Hsk' & ->) & auth' & keys' & Ha & Hk & Hc).
    simplify_eq/=. rewrite Ha in Hauth. injection Hauth as ->.
    rewrite Hk in Hkeys. injection Hkeys as ->. cbv zeta in Hc. congruence.
Qed.

Lemma iterative_auth_step_Ok rv resolved id resolved' :
  iterative_auth_step fetch_event rv resolved id = Ok resolved' →
  resolved' = resolved ∨ ∃ ev key, accepted rv resolved id ev key ∧ resolved' = <[key := id]> resolved.
Proof. intros [[-> _]|?]%iterative_auth_step_spec; [by left|by right]. Qed.

(** The entry an accepted event takes is its own. *)
Lemma accepted_key rv resolved id ev1 key1 ev2 key2 :
  accepted rv resolved id ev1 key1 → accepted rv resolved id ev2 key2 → key1 = key2.
Proof.
  intros (Hev1 & (sk1 & Hsk1 & ->) & _) (Hev2 & (sk2 & Hsk2 & ->) & _). congruence.
Qed.

Lemma iterative_auth_step_fuel rv resolved id :
  iterative_auth_step fetch_event rv resolved id ≠ Err OutOfFuel.
Proof.
  unfold iterative_auth_step. destruct (fetch_event id) as [ev|]; simpl; [|done].
  destruct (state_key ev) as [sk|]; simpl; [|done].
  assert (collect_auth_events fetch_event ev ≠ Err OutOfFuel) as Hc.
  { apply (for_each_not_out_of_fuel (λ _, True)); [|done]. intros auth a _ _. split; [|done].
    destruct (fetch_event a) as [e|]; [|done]. by destruct (state_key e). }
  destruct (collect_auth_events fetch_event ev) as [auth|[]|]; simpl; [|done..].
  pose proof (lift_not_out_of_fuel (from_json (auth_types_for_event (event_type ev) (sender ev)
    (Some sk) (content ev)))) as Hl.
  destruct (lift (from_json _)) as [keys|[]|]; simpl; [|done..].
  set (m := auth_check _ _ _ _ _). by destruct m as [[]| |].
Qed.

(** The event is the last of the list that took the entry: it was accepted against the state
    resolved from the events before it, and no later event with that entry was. *)
Definition settled (rv : RoomVersion) (events : list string) (start : StateMap string)
    (key : StateKey) (id : string) : Prop :=
  ∃ pre post resolved ev, events = pre ++ id :: post ∧
    iterative_auth_check fetch_event rv pre start = Ok resolved ∧
    accepted rv resolved id ev key ∧
    ∀ mid x rest later ev', post = mid ++ x :: rest →
      iterative_auth_check fetch_event rv (pre ++ id :: mid) start = Ok later →
      ¬ accepted rv later x ev' key.

Lemma settled_last rv done start s x ev key id :
  iterative_auth_check fetch_event rv done start = Ok s → accepted rv s x ev key →
  settled rv (done ++ [x]) start key id ↔ id = x.
Proof.
  intros Hs Hacc. split.
  - intros (pre & post & r & ev' & Heq & Hr & _ & Hlast).
    destruct post as [|y post _] using rev_ind.
    { by apply app_inj_tail in Heq as [_ ->]. }
    rewrite app_comm_cons, (assoc_L (++)) in Heq. apply app_inj_tail in Heq as [-> ->].
    by destruct (Hlast post y [] s ev eq_refl Hs).
  - intros ->. exists done, [], s, ev. repeat (split; [done|]). by intros [].
Qed.

Lemma settled_skip rv done start s x key id :
  iterative_auth_check fetch_event rv done start = Ok s → (∀ ev, ¬ accepted rv s x ev key) →
  settled rv (done ++ [x]) start key id ↔ settled rv done start key id.
Proof.
  intros Hs Hno. split.
  - intros (pre & post & r & ev & Heq & Hr & Hacc & Hlast).
    destruct post as [|y post _] using rev_ind.
    { apply app_inj_tail in Heq as [-> ->]. rewrite Hs in Hr. injection Hr as ->.
      by destruct (Hno ev). }
    rewrite app_comm_cons, (assoc_L (++)) in Heq. apply app_inj_tail in Heq as [-> <-].
    exists pre, post, r, ev. repeat (split; [done|]).
    intros mid z rest later ev' ->. apply (Hlast mid z (rest ++ [x])).
    by rewrite <- (assoc_L (++)).
  - intros (pre & post & r & ev & -> & Hr & Hacc & Hlast).
    exists pre, (post ++ [x]), r, ev. split; [by rewrite <- (assoc_L (++))|].
    repeat (split; [done|]). intros mid z rest later ev' Heq Hl.
    destruct rest as [|y rest _] using rev_ind.
    { apply app_inj_tail in Heq as [-> ->]. rewrite Hs in Hl. injection Hl as ->. apply Hno. }
    rewrite app_comm_cons, (assoc_L (++)) in Heq. apply app_inj_tail in Heq as [-> _].
    by eapply Hlast.
Qed.

(** The entries the check adds are exactly those of the events it settles on. *)
Lemma iterative_auth_check_settled rv events start final :
  iterative_auth_check fetch_event rv events start = Ok final →
  ∀ key id, start !! key = None →
    final !! key = Some id ↔ settled rv events start key id.
Proof.
  intros Hrun.
  set (Inv := λ (done : list string) (s : StateMap string),
    iterative_auth_check fetch_event rv done start = Ok s ∧
    ∀ key id, start !! key = None → s !! key = Some id ↔ settled rv done start key id).
  assert (Inv events final) as [_ Hi]; [|exact Hi].
  refine (for_each_inv_prefix Inv _ _ _ _ _ _ Hrun).
  - intros pre s x s' [Hs Hi] Hx. split.
    { unfold iterative_auth_check in *. rewrite for_each_app, Hs. simpl. by rewrite Hx. }
    intros key id Hkey.
    destruct (iterative_auth_step_spec _ _ _ _ Hx) as [[-> Hno]|(ev & key' & Hacc & ->)].
    { rewrite (settled_skip rv pre start s) by auto. by apply Hi. }
    destruct (decide (key' = key)) as [->|Hne].
    + rewrite lookup_insert_eq, (settled_last rv pre start s) by done. naive_solver.
    + rewrite lookup_insert_ne by done. rewrite (settled_skip rv pre start s); [by apply Hi|done|].
      intros ev' Hacc'. by destruct Hne, (accepted_key _ _ _ _ _ _ _ Hacc Hacc').
  - split; [done|]. intros key id Hkey. split; [congruence|].
    by intros ([|] & ? & ? & ? & ? & _).
Qed.

Lemma iterative_auth_check_fuel rv events start :
  iterative_auth_check fetch_event rv events start ≠ Err OutOfFuel.
Proof.
  apply (for_each_not_out_of_fuel (λ _, True)); [|done]. intros s x _ _. split; [|done].
  apply iterative_auth_step_fuel.
Qed.

(** A key that stays: the check never removes one. *)
Lemma iterative_auth_check_dom rv events start final :
  iterative_auth_check fetch_event rv events start = Ok final →
  ∀ key, is_Some (start !! key) → is_Some (final !! key).
Proof.
  intros Hrun key. refine (for_each_inv (λ s : StateMap string,
    is_Some (start !! key) → is_Some (s !! key)) _ _ _ _ _ _ Hrun); [|done].
  intros s x s' _ Hs Hx Hk.
  destruct (iterative_auth_step_Ok _ _ _ _ Hx) as [-> |(ev & key' & _ & ->)]; [auto|].
  destruct (decide (key = key')) as [->|Hne]; [rewrite lookup_insert_eq; eauto|].
  rewrite lookup_insert_ne by done. auto.
Qed.

(** ** The conflicted set *)

Definition full_conflicted (auth_chain_sets : list (gset string))
    (conflicting : StateMap (list string)) : gset string :=
  list_to_set (filter (λ id, is_Some (fetch_event id))
    (get_auth_chain_diff auth_chain_sets ++ mjoin (hash_iter conflicting).*2)).

Lemma full_conflicted_spec sets conflicting id :
  id ∈ full_conflicted sets conflicting ↔
  is_Some (fetch_event id) ∧
  (id ∈ get_auth_chain_diff sets ∨ ∃ key l, conflicting !! key = Some l ∧ id ∈ l).
Proof.
  unfold full_conflicted. rewrite elem_of_list_to_set, list_elem_of_filter, elem_of_app,
    list_elem_of_join. setoid_rewrite list_elem_of_fmap.
  assert ((∃ l, id ∈ l ∧ ∃ y, l = y.2 ∧ y ∈ hash_iter conflicting) ↔
    ∃ key l, conflicting !! key = Some l ∧ id ∈ l) as ->; [|done].
  split.
  - intros (l & Hid & [key l'] & -> & Hin%elem_of_hash_iter). eauto.
  - intros (key & l & Hk & Hid). exists l. split; [done|]. exists (key, l).
    by rewrite elem_of_hash_iter.
Qed.

Lemma filter_outcome_Ok {E A} (p : A → outcome E bool) l l' :
  filter_outcome p l = Ok l' →
  l' = filter (λ x, ok (p x) = Some true) l.
Proof.
  unfold filter_outcome. intros Hrun.
  refine (for_each_inv_prefix (λ done acc, acc = filter (λ x, ok (p x) = Some true) done)
    _ _ _ _ _ _ Hrun); [|done].
  intros pre acc y acc' -> (b & Hb & [= <-])%bind_Ok.
  rewrite list.filter_app, filter_cons, filter_nil, Hb. simpl.
  destruct b; case_decide; by rewrite ?app_nil_r.
Qed.

Lemma filter_outcome_in {E A} (p : A → outcome E bool) l l' x :
  filter_outcome p l = Ok l' → x ∈ l' → x ∈ l ∧ p x = Ok true.
Proof.
  unfold filter_outcome. intros Hrun.
  refine (for_each_inv_prefix (λ done acc, x ∈ acc → x ∈ done ∧ p x = Ok true) _ _ _ _ _ _ Hrun).
  - intros pre acc y acc' Hi (b & Hb & [= <-])%bind_Ok. rewrite elem_of_app, list_elem_of_singleton.
    destruct b; [|naive_solver]. rewrite elem_of_app, list_elem_of_singleton.
    intros [?| ->]; [naive_solver|auto].
  - by intros ?%elem_of_nil.
Qed.

(** A power sort that ended ends alike with more fuel. *)
Lemma power_sort_fuel_mono auth_diff events fuel fuel' :
  fuel ≤ fuel' →
  reverse_topological_power_sort fetch_event fuel events auth_diff ≠ Err OutOfFuel →
  reverse_topological_power_sort fetch_event fuel' events auth_diff =
  reverse_topological_power_sort fetch_event fuel events auth_diff.
Proof.
  intros Hle. unfold reverse_topological_power_sort. intros Hne.
  assert (for_each (add_event_and_auth_chain_to_graph fetch_event auth_diff fuel) ∅ events
    ≠ Err OutOfFuel) as Hg by (intros Hg; by rewrite Hg in Hne).
  rewrite (for_each_more_fuel (add_event_and_auth_chain_to_graph fetch_event auth_diff fuel)
    (add_event_and_auth_chain_to_graph fetch_event auth_diff fuel')); [|..|done].
  2:{ intros s x _ Hx. by apply (loop_more_fuel _ fuel fuel'). }
  destruct (for_each _ _ events) as [g| |]; simpl in *; [|done..].
  destruct (for_each _ _ (hash_iter g).*1) as [m| |]; simpl in *; [|done..].
  unfold lexicographical_topological_sort in *.
  destruct (topo_init g _) as [[z rg]| |]; simpl in *; [|done..].
  by apply (loop_more_fuel _ fuel fuel').
Qed.

Lemma get_power_level_fuel id : get_power_level_for_sender fetch_event id ≠ Err OutOfFuel.
Proof.
  unfold get_power_level_for_sender. destruct (head _) as [ev|]; [|done].
  pose proof (lift_not_out_of_fuel (from_json (de_PowerLevelsContentFields (content ev)))) as Hl.
  by destruct (lift _) as [c|[]|].
Qed.

(** The order of the power sort: every event comes after those of its auth events that are in
    the conflicted set, and in a store without cycles all that the graph reaches is listed. *)
Definition power_ordered (auth_diff : gset string) (events l : list string) : Prop :=
  (∀ l1 n l2, l = l1 ++ n :: l2 →
     ∀ a, a ∈ auth_events_of fetch_event n → a ∈ auth_diff → a ∈ l1) ∧
  ∀ rank, decreases fetch_event rank →
    ∀ n, n ∈ l ↔ power_node fetch_event auth_diff events n.

(** With enough fuel the power sort ends; what it lists are events of the conflicted set, each
    once and after its auth events, all that the graph reaches when the store has no cycle; and
    the power level of every event the graph reaches could be read. *)
Lemma power_sort_cases auth_diff events fuel :
  (∀ id, id ∈ auth_diff → is_Some (fetch_event id)) → (∀ id, id ∈ events → id ∈ auth_diff) →
  power_fuel fetch_event auth_diff events ≤ fuel →
  reverse_topological_power_sort fetch_event fuel events auth_diff ≠ Err OutOfFuel ∧
  ∀ l, reverse_topological_power_sort fetch_event fuel events auth_diff = Ok l →
    NoDup l ∧ (∀ id, id ∈ l → id ∈ auth_diff) ∧ power_ordered auth_diff events l ∧
    ∀ id, power_node fetch_event auth_diff events id →
      ∃ pl, get_power_level_for_sender fetch_event id = Ok pl.
Proof.
  intros Hf He Hfuel.
  assert (∀ n, power_node fetch_event auth_diff events n → n ∈ auth_diff) as Hnode.
  { intros n [?|?]%power_node_in; auto. }
  destruct (build_graph_spec fetch_event auth_diff fuel events
    ltac:(unfold power_fuel in Hfuel; lia)) as (g & Hg & _ & Hd).
  set (step := λ (m : gmap string Z) event_id,
    pl ← get_power_level_for_sender fetch_event event_id;
    Ok (E:=RunError) (<[event_id := pl]> m)).
  destruct (for_each step ∅ (hash_iter g).*1) as [m|e|] eqn:Hm.
  - assert (∀ n, n ∈ dom g → ∃ pl, get_power_level_for_sender fetch_event n = Ok pl) as Hpl.
    { intros n [es Hn]%elem_of_dom.
      assert (n ∈ (hash_iter g).*1) as Hin.
      { apply list_elem_of_fmap. exists (n, es). by rewrite elem_of_hash_iter. }
      refine (for_each_inv_prefix (λ done (_ : gmap string Z), ∀ n, n ∈ done →
        ∃ pl, get_power_level_for_sender fetch_event n = Ok pl) _ _ _ _ _ _ Hm n Hin).
      - intros pre s x s' Hi (pl & Hx & _)%bind_Ok y. rewrite elem_of_app, list_elem_of_singleton.
        intros [?| ->]; eauto.
      - by intros y ?%elem_of_nil. }
    destruct (power_sort_spec fetch_event auth_diff events fuel) as (l & Hl & Hnd & Hin & Hord & Hall); [..|done|].
    + intros n Hn. by apply Hf, Hnode.
    + intros n Hn. by apply Hpl, Hd.
    + rewrite Hl. split; [done|]. intros l' [= <-]. split; [done|]. split; [by intros id ?%Hin%Hnode|].
      split; [split; [|done]|].
      { intros l1 n l2 Heq a Ha Hd'. apply (Hord l1 n l2 Heq). by apply elem_of_edges. }
      intros id Hid. by apply Hpl, Hd.
  - unfold reverse_topological_power_sort. rewrite Hg. simpl. fold step. rewrite Hm. simpl.
    split; [|done]. intros [= ->].
    refine (for_each_not_out_of_fuel (λ _, True) step _ _ _ I Hm).
    intros s x _ _. split; [|done]. unfold step.
    pose proof (get_power_level_fuel x). by destruct (get_power_level_for_sender _ x) as [|[]|].
  - unfold reverse_topological_power_sort. rewrite Hg. simpl. fold step. by rewrite Hm.
Qed.

(** The same for any run that returned. *)
Lemma power_sort_Ok auth_diff events fuel l :
  (∀ id, id ∈ auth_diff → is_Some (fetch_event id)) → (∀ id, id ∈ events → id ∈ auth_diff) →
  reverse_topological_power_sort fetch_event fuel events auth_diff = Ok l →
  NoDup l ∧ (∀ id, id ∈ l → id ∈ auth_diff) ∧ power_ordered auth_diff events l ∧
  ∀ id, power_node fetch_event auth_diff events id →
    ∃ pl, get_power_level_for_sender fetch_event id = Ok pl.
Proof.
  intros Hf He Hl.
  destruct (power_sort_cases auth_diff events
    (max fuel (power_fuel fetch_event auth_diff events)) Hf He ltac:(lia)) as [_ Hspec].
  apply Hspec. rewrite <- Hl. apply power_sort_fuel_mono; [lia|]. rewrite Hl. discriminate.
Qed.

(** ** [resolve] step by step *)

Definition control_events_of (all : gset string) : outcome RunError (list string) :=
  filter_outcome (is_power_event_id fetch_event) (hset_iter all).

Definition left_events (all : gset string) (control : list string) : list string :=
  filter (λ id, id ∉ (list_to_set control : gset string)) (hset_iter all).

(** A run that met a conflict and returned. *)
Record resolution (fuel : nat) (rv : RoomVersionId) (sets : list (StateMap string))
    (chains : list (gset string)) (final : StateMap string) := {
  clean : StateMap string;
  conflicting : StateMap (list string);
  control_events : list string;
  control : list string;
  rules : RoomVersion;
  resolved_control : StateMap string;
  left_sorted : list string;
  resolved : StateMap string;
  split_ok : separate sets = Ok (clean, conflicting);
  conflict : conflicting ≠ ∅;
  control_events_ok : control_events_of (full_conflicted chains conflicting) = Ok control_events;
  control_ok : reverse_topological_power_sort fetch_event fuel control_events
    (full_conflicted chains conflicting) = Ok control;
  rules_ok : RoomVersion_new rv = Ok rules;
  resolved_control_ok : iterative_auth_check fetch_event rules control clean = Ok resolved_control;
  left_ok : mainline_sort fetch_event fuel
    (left_events (full_conflicted chains conflicting) control)
    (resolved_control !! (RoomPowerLevels, ""%string)) = Ok left_sorted;
  resolved_ok : iterative_auth_check fetch_event rules left_sorted resolved_control = Ok resolved;
  final_ok : final = clean ∪ resolved
}.

Lemma resolve_Ok fuel rv sets chains final :
  resolve fetch_event fuel rv sets chains = Ok final →
  separate sets = Ok (final, ∅) ∨ inhabited (resolution fuel rv sets chains final).
Proof.
  unfold resolve. intros ([cl co] & Hsep & Hr)%bind_Ok. case_decide as Hco.
  { injection Hr as ->. subst co. by left. }
  right. fold (full_conflicted chains co) in Hr.
  apply bind_Ok in Hr as (ce & Hce & Hr). apply bind_Ok in Hr as (ctl & Hctl & Hr).
  apply bind_Ok in Hr as (rls & Hrls%lift_Ok & Hr). apply bind_Ok in Hr as (rc & Hrc & Hr).
  apply bind_Ok in Hr as (lf & Hlf & Hr). apply bind_Ok in Hr as (rs & Hrs & Hr).
  injection Hr as <-. split. by refine {| split_ok := Hsep; conflict := Hco;
    control_events_ok := Hce; control_ok := Hctl; rules_ok := Hrls; resolved_control_ok := Hrc;
    left_ok := Hlf; resolved_ok := Hrs |}.
Qed.
End resolve.

Arguments clean {_ _ _ _ _ _ _ _} r.
Arguments conflicting {_ _ _ _ _ _ _ _} r.
Arguments control_events {_ _ _ _ _ _ _ _} r.
Arguments control {_ _ _ _ _ _ _ _} r.
Arguments rules {_ _ _ _ _ _ _ _} r.
Arguments resolved_control {_ _ _ _ _ _ _ _} r.
Arguments left_sorted {_ _ _ _ _ _ _ _} r.
Arguments resolved {_ _ _ _ _ _ _ _} r.
Arguments split_ok {_ _ _ _ _ _ _ _} r.
Arguments conflict {_ _ _ _ _ _ _ _} r.
Arguments control_events_ok {_ _ _ _ _ _ _ _} r.
Arguments control_ok {_ _ _ _ _ _ _ _} r.
Arguments rules_ok {_ _ _ _ _ _ _ _} r.
Arguments resolved_control_ok {_ _ _ _ _ _ _ _} r.
Arguments left_ok {_ _ _ _ _ _ _ _} r.
Arguments resolved_ok {_ _ _ _ _ _ _ _} r.
Arguments final_ok {_ _ _ _ _ _ _ _} r.
