(* ===== verification/StateResSpec.v ===== *)
(** * What resolution computes

    The theorems on [resolve]: the order in which the conflicted events are applied, the event
    that each entry of the resolved state holds, and the end of the run. *)

From S2P Require Import Prelude RustStr RustNet IdValidation StringEnum Identifiers Json.
From S2P Require Import EventTypes EventContents RoomVersions EventAuth EventAuthSpec StateRes.
From S2P Require Import StateResSplit StateResGraph StateResSort StateResPower StateResMainline.
From S2P Require Import StateResResolve.
From stdpp Require Import relations.
From Stdlib Require Import Ascii NArith.
Open Scope nat_scope.
Open Scope list_scope.

(** ** The order of one run *)

Section order.
Context `{Unicode} `{HashOrder}.
Variable fetch_event : string → option Event.

Lemma control_events_in all l id :
  control_events_of fetch_event all = Ok l → id ∈ l → id ∈ all.
Proof. intros Hl Hid. by destruct (filter_outcome_in _ _ _ _ Hl Hid) as [?%elem_of_hset_iter _]. Qed.

Lemma full_conflicted_found sets conflicting id :
  id ∈ full_conflicted fetch_event sets conflicting → is_Some (fetch_event id).
Proof. by intros [? _]%full_conflicted_spec. Qed.

(** The conflicted events: found in the store, and either in some but not all of the auth chains
    or named by a state set at a key the sets disagree on. *)
Definition conflicted_event (chains : list (gset string))
    (conflicting : StateMap (list string)) (id : string) : Prop :=
  is_Some (fetch_event id) ∧
  ((∃ c, c ∈ chains ∧ id ∈ c) ∧ (∃ c, c ∈ chains ∧ id ∉ c) ∨
   ∃ key ids, conflicting !! key = Some ids ∧ id ∈ ids).

(** The events sorted by power: each once and after those of its auth events that are
    conflicted; in a store without cycles they are exactly the conflicted power events and what
    their auth chains reach inside the conflicted set. *)
Definition control_order (all : gset string) (control : list string) : Prop :=
  NoDup control ∧ (∀ id, id ∈ control → id ∈ all) ∧
  (∀ before n after, control = before ++ n :: after →
     ∀ a, a ∈ auth_events_of fetch_event n → a ∈ all → a ∈ before) ∧
  ∀ rank, decreases fetch_event rank → ∀ n, n ∈ control ↔
    ∃ p, p ∈ all ∧ is_power_event_id fetch_event p = Ok true ∧
      rtc (λ e a, a ∈ auth_events_of fetch_event e ∧ a ∈ all) p n.

(** The other events, by the mainline of the power levels event [start]: each once, in the order
    of depth, time and event ID; left out are those whose depth cannot be read, of which there
    are none when the store has every cited event. *)
Definition left_order (fuel : nat) (all : gset string) (control : list string)
    (start : option string) (left : list string) : Prop :=
  NoDup left ∧ (∀ id, id ∈ left → id ∈ all ∧ id ∉ control) ∧
  (left = [] ∨ ∃ mainline, loop (mainline_step fetch_event) fuel ([], start) = Ok mainline ∧
     (∀ id, id ∈ left ↔ id ∈ all ∧ id ∉ control ∧
        is_Some (depth_of fetch_event (mainline_map_of mainline) fuel id)) ∧
     StronglySorted (before fetch_event (mainline_map_of mainline) fuel) left) ∧
  (store_complete fetch_event → ∀ id, id ∈ all → id ∈ control ∨ id ∈ left).

Lemma full_conflicted_event sets conflicting id :
  id ∈ full_conflicted fetch_event sets conflicting ↔ conflicted_event sets conflicting id.
Proof.
  unfold conflicted_event.
  by rewrite full_conflicted_spec, (proj2 (auth_chain_diff_spec sets)).
Qed.

Lemma resolution_control fuel rv sets chains final
    (r : resolution fetch_event fuel rv sets chains final) :
  control_order (full_conflicted fetch_event chains (conflicting r)) (control r).
Proof.
  destruct r as [cl co ce ctl rls rc lf rs Hsep Hco Hce Hctl Hrls Hrc Hlf Hrs Hfin]; simpl.
  destruct (power_sort_Ok _ _ _ _ _ (full_conflicted_found chains co)
    (λ id, control_events_in _ _ id Hce) Hctl) as (Hnd & Hin & (Hord & Hall) & _).
  split_and!; [done..|]. intros rank Hr n. rewrite (Hall rank Hr). unfold power_node.
  rewrite (filter_outcome_Ok _ _ _ Hce).
  assert (∀ p, rtc (edge fetch_event (full_conflicted fetch_event chains co)) p n ↔
    rtc (λ e a, a ∈ auth_events_of fetch_event e ∧
      a ∈ full_conflicted fetch_event chains co) p n) as Hrtc.
  { intros p. split; apply rtc_subrel; intros x y; unfold edge; by rewrite elem_of_edges. }
  setoid_rewrite Hrtc. setoid_rewrite list_elem_of_filter. setoid_rewrite elem_of_hset_iter.
  setoid_rewrite ok_Some. naive_solver.
Qed.

Lemma resolution_left fuel rv sets chains final
    (r : resolution fetch_event fuel rv sets chains final) :
  left_order fuel (full_conflicted fetch_event chains (conflicting r)) (control r)
    (resolved_control r !! (RoomPowerLevels, ""%string)) (left_sorted r).
Proof.
  destruct r as [cl co ce ctl rls rc lf rs Hsep Hco Hce Hctl Hrls Hrc Hlf Hrs Hfin]; simpl.
  set (all := full_conflicted fetch_event chains co) in *.
  assert (∀ id, id ∈ left_events all ctl ↔ id ∈ all ∧ id ∉ ctl) as Hle.
  { intros id. unfold left_events. rewrite list_elem_of_filter, elem_of_list_to_set,
      elem_of_hset_iter. tauto. }
  assert (store_complete fetch_event → ∀ id, id ∈ all → id ∈ ctl ∨ id ∈ lf) as Hcomplete.
  { intros Hc id Hid. destruct (decide (id ∈ ctl)) as [?|Hn]; [by left|right].
    eapply mainline_sort_complete; [done..| |by eapply full_conflicted_found]. by apply Hle. }
  destruct (mainline_sort_Ok _ _ _ _ _ Hlf) as [[_ ->]|(ml & Hml & Hnd & Hin & Hs)].
  { split_and!; [constructor|by intros id ?%elem_of_nil|by left|done]. }
  split_and!; [done| |right|done].
  - intros id [Hid _]%Hin. by apply Hle.
  - exists ml. split_and!; [done| |done]. intros id. rewrite Hin, Hle. tauto.
Qed.

Lemma resolution_run fuel rv sets chains final
    (r : resolution fetch_event fuel rv sets chains final) :
  iterative_auth_check fetch_event (rules r) (control r ++ left_sorted r) (clean r) =
    Ok (resolved r).
Proof.
  unfold iterative_auth_check. rewrite for_each_app.
  pose proof (resolved_control_ok r) as Hrc.
  unfold iterative_auth_check in Hrc. rewrite Hrc. apply (resolved_ok r).
Qed.

Lemma separate_exact sets clean conflicting :
  separate sets = Ok (clean, conflicting) →
  (∀ key id, clean !! key = Some id ↔ sets ≠ [] ∧ ∀ s, s ∈ sets → s !! key = Some id) ∧
  (∀ key ids, conflicting !! key = Some ids ↔
     (∃ s, s ∈ sets ∧ is_Some (s !! key)) ∧ clean !! key = None ∧
     ids = omap (λ s : StateMap string, s !! key) sets).
Proof.
  destruct (separate_spec sets) as (cl & co & -> & Hspec). by intros [= <- <-].
Qed.

(** C2: what [resolve] returns, exactly. An entry that all state sets share stays. Without a
    disagreement that is all. Otherwise the conflicted events are put in one order, first the
    power events with their conflicted auth chains, so that an event follows its auth events,
    then all others along the mainline of the power levels event resolved so far, and any other
    entry holds an event if and only if it is the last of that order with this type and state
    key to pass authorization against the state resolved from the events before it. In a
    store that has every cited event no conflicted event is left out of the order. *)
Theorem resolve_spec fuel rv sets chains final :
  resolve fetch_event fuel rv sets chains = Ok final →
  ∃ clean conflicting,
    (∀ key id, clean !! key = Some id ↔
       sets ≠ [] ∧ ∀ s, s ∈ sets → s !! key = Some id) ∧
    (∀ key ids, conflicting !! key = Some ids ↔
       (∃ s, s ∈ sets ∧ is_Some (s !! key)) ∧ clean !! key = None ∧
       ids = omap (λ s : StateMap string, s !! key) sets) ∧
    (conflicting = ∅ ∧ final = clean ∨
     conflicting ≠ ∅ ∧ ∃ all rules control left after_control,
       (∀ id, id ∈ all ↔ conflicted_event chains conflicting id) ∧
       RoomVersion_new rv = Ok rules ∧
       control_order all control ∧
       iterative_auth_check fetch_event rules control clean = Ok after_control ∧
       left_order fuel all control (after_control !! (RoomPowerLevels, ""%string)) left ∧
       ∀ key id, final !! key = Some id ↔ clean !! key = Some id ∨
         clean !! key = None ∧ settled fetch_event rules (control ++ left) clean key id).
Proof.
  intros [Hsep|[r]]%resolve_Ok.
  { destruct (separate_exact _ _ _ Hsep) as [Hcl Hco]. exists final, ∅. auto. }
  destruct (separate_exact _ _ _ (split_ok r)) as [Hcl Hco].
  exists (clean r), (conflicting r). do 2 (split; [done|]). right. split; [apply conflict|].
  exists (full_conflicted fetch_event chains (conflicting r)), (rules r), (control r),
    (left_sorted r), (resolved_control r).
  split; [intros; apply full_conflicted_event|]. split; [apply rules_ok|].
  split; [apply resolution_control|]. split; [apply resolved_control_ok|].
  split; [apply resolution_left|]. intros key id.
  rewrite (final_ok r), lookup_union_Some_raw at 1. pose proof (resolution_run _ _ _ _ _ r) as Hrun.
  pose proof (iterative_auth_check_settled _ _ _ _ _ Hrun key id). tauto.
Qed.
End order.

(** ** Termination *)

Section termination.
Context `{Unicode} `{HashOrder}.
Variable fetch_event : string → option Event.

Lemma mainline_sort_fuel_mono fuel fuel' to_sort start :
  fuel ≤ fuel' → mainline_sort fetch_event fuel to_sort start ≠ Err OutOfFuel →
  mainline_sort fetch_event fuel' to_sort start = mainline_sort fetch_event fuel to_sort start.
Proof.
  intros Hle. unfold mainline_sort. case_decide; [done|]. intros Hne.
  assert (loop (mainline_step fetch_event) fuel ([], start) ≠ Err OutOfFuel) as Hml
    by (intros Hml; by rewrite Hml in Hne).
  rewrite (loop_more_fuel _ fuel fuel' _ _ Hle eq_refl Hml).
  destruct (loop _ fuel _) as [ml| |]; simpl in *; [|done..].
  assert (for_each (order_event fetch_event (mainline_map_of ml) fuel) ∅ to_sort
    ≠ Err OutOfFuel) as Hom by (intros Hom; by rewrite Hom in Hne).
  rewrite (for_each_more_fuel (order_event fetch_event (mainline_map_of ml) fuel)
    (order_event fetch_event (mainline_map_of ml) fuel')); [done| |done].
  intros om id _. unfold order_event. destruct (fetch_event id) as [ev|]; [|done]. intros Hd.
  unfold get_mainline_depth in *.
  rewrite (loop_more_fuel _ fuel fuel' _ _ Hle eq_refl); [done|].
  intros Hx. by rewrite Hx in Hd.
Qed.

(** A bound on the ranks of the events in a finite set. *)
Lemma ranks_bounded (rank : string → nat) (ids : list string) :
  ∃ n, ∀ id ev, id ∈ ids → fetch_event id = Some ev → event_rank rank ev + 2 < n.
Proof.
  induction ids as [|x ids [n IH]]; [exists 0; by intros ?? ?%elem_of_nil|].
  destruct (fetch_event x) as [ev|] eqn:Hx.
  - exists (max n (event_rank rank ev + 3)). intros id e [->|Hid]%elem_of_cons He.
    + rewrite Hx in He. injection He as <-. lia.
    + specialize (IH id e Hid He). lia.
  - exists n. intros id e [->|Hid]%elem_of_cons He; [congruence|eauto].
Qed.

Lemma filter_outcome_fuel {A} (p : A → outcome RunError bool) l :
  (∀ x, p x ≠ Err OutOfFuel) → filter_outcome p l ≠ Err OutOfFuel.
Proof.
  intros Hp. apply (for_each_not_out_of_fuel (λ _, True)); [|done].
  intros s x _ _. split; [|done]. pose proof (Hp x). by destruct (p x) as [|[]|].
Qed.

Lemma is_power_event_fuel id : is_power_event_id fetch_event id ≠ Err OutOfFuel.
Proof.
  unfold is_power_event_id. destruct (fetch_event id) as [ev|]; [|done].
  unfold is_power_event. destruct (event_type ev); try done.
  destruct (de_RoomMemberEventContent (content ev)); simpl; [|done..]. by case_decide.
Qed.

Lemma resolve_ends rank rv sets chains :
  decreases fetch_event rank →
  ∃ r enough, r ≠ Err OutOfFuel ∧
    ∀ fuel, enough ≤ fuel → resolve fetch_event fuel rv sets chains = r.
Proof.
  intros Hdec. unfold resolve. destruct (separate_total sets) as ([cl co] & -> & _).
  cbn [mbind outcome_bind]. case_decide as Hco; [by exists (Ok cl), 0|].
  fold (full_conflicted fetch_event chains co). set (all := full_conflicted fetch_event chains co).
  destruct (filter_outcome _ (hset_iter all)) as [ce|e|] eqn:Hce; cbn [mbind outcome_bind].
  2:{ exists (Err e), 0. split; [|done]. intros [= ->].
      by apply (filter_outcome_fuel _ _ is_power_event_fuel Hce). }
  2:{ by exists Panic, 0. }
  set (pf := power_fuel fetch_event all ce).
  destruct (power_sort_cases fetch_event all ce pf (full_conflicted_found fetch_event chains co)
    (λ id, control_events_in fetch_event all ce id Hce) (Nat.le_refl _)) as [Hpf _].
  pose proof (λ fuel H, power_sort_fuel_mono fetch_event all ce pf fuel H Hpf) as Hmono.
  destruct (reverse_topological_power_sort _ pf ce all) as [ctl|e|] eqn:Hctl.
  2:{ exists (Err e), pf. split; [congruence|]. intros fuel Hle. by rewrite Hmono. }
  2:{ exists Panic, pf. split; [done|]. intros fuel Hle. by rewrite Hmono. }
  destruct (lift (RoomVersion_new rv)) as [rules|e|] eqn:Hrules.
  2:{ exists (Err e), pf. split; [intros [= ->]; by apply lift_not_out_of_fuel in Hrules|].
      intros fuel Hle. by rewrite Hmono. }
  2:{ exists Panic, pf. split; [done|]. intros fuel Hle. by rewrite Hmono. }
  destruct (iterative_auth_check fetch_event rules ctl cl) as [rc|e|] eqn:Hrc.
  2:{ exists (Err e), pf. split; [intros [= ->]; by apply iterative_auth_check_fuel in Hrc|].
      intros fuel Hle. rewrite Hmono by done. cbn [mbind outcome_bind]. by rewrite Hrc. }
  2:{ exists Panic, pf. split; [done|]. intros fuel Hle. rewrite Hmono by done.
      cbn [mbind outcome_bind]. by rewrite Hrc. }
  set (to_sort := left_events all ctl). set (start := rc !! (RoomPowerLevels, ""%string)).
  destruct (ranks_bounded rank to_sort) as [n Hn].
  set (mf := n + 2 + match start with Some p => rank p | None => 0 end).
  assert (mainline_sort fetch_event mf to_sort start ≠ Err OutOfFuel) as Hmf.
  { apply (mainline_sort_fuel fetch_event rank); [done|..]; unfold mf; [|lia|].
    - intros p ->. lia.
    - intros id ev Hid Hev. specialize (Hn id ev Hid Hev). lia. }
  set (rest := λ sorted, x ← iterative_auth_check fetch_event rules sorted rc;
    Ok (E:=RunError) (cl ∪ x)).
  exists (mainline_sort fetch_event mf to_sort start ≫= rest), (pf + mf). split.
  - destruct (mainline_sort fetch_event mf to_sort start) as [l|[e|]|]; simpl; [|done..].
    unfold rest. pose proof (iterative_auth_check_fuel fetch_event rules l rc).
    by destruct (iterative_auth_check fetch_event rules l rc) as [|[]|].
  - intros fuel Hle. rewrite Hmono by lia. cbn [mbind outcome_bind]. rewrite Hrc.
    cbn [mbind outcome_bind]. fold start. fold (left_events all ctl). fold to_sort.
    by rewrite (mainline_sort_fuel_mono mf fuel) by (lia || done).
Qed.

(** C3: in a store without cycles [resolve] ends: there is a result, not the fuel marker,
    that every large enough amount of fuel gives. *)
Theorem resolve_terminates rank rv sets chains :
  decreases fetch_event rank →
  ∃ r enough, r ≠ Err OutOfFuel ∧
    ∀ fuel, enough ≤ fuel → resolve fetch_event fuel rv sets chains = r.
Proof. apply resolve_ends. Qed.
End termination.
