(* ===== verification/StateResOrder.v ===== *)
(** * Resolution and the order of hashed collections

    Every server has to resolve a conflict to the same state, although the program iterates
    over hash maps and hash sets in several places. The theorem here compares two runs under
    two iteration orders that both return. It needs state sets that are keyed by the types of
    their events ([well_typed]) and at most one third party invite in view of a member event
    ([invites_agree]); the last theorem shows what happens without the latter. *)

From S2P Require Import Prelude RustStr RustNet IdValidation StringEnum Identifiers Json.
From S2P Require Import EventTypes EventContents RoomVersions EventAuth EventAuthSpec StateRes.
From S2P Require Import StateResSplit StateResGraph StateResSort StateResPower StateResMainline.
From S2P Require Import StateResResolve StateResSpec.
From stdpp Require Import relations.
From Stdlib Require Import Ascii NArith.
Open Scope nat_scope.
Open Scope list_scope.

(** ** Each step under two orders *)

Lemma separate_unique (O1 O2 : HashOrder) sets c1 d1 c2 d2 :
  @separate O1 sets = Ok (c1, d1) → @separate O2 sets = Ok (c2, d2) → c1 = c2 ∧ d1 = d2.
Proof.
  intros [Hc1 Hd1]%separate_Ok [Hc2 Hd2]%separate_Ok. split; apply map_eq; intros k;
    apply option_eq; intros x; [by rewrite Hc1, Hc2|by rewrite Hd1, Hd2].
Qed.

Lemma full_conflicted_unique (O1 O2 : HashOrder) fetch_event sets conflicting :
  @full_conflicted O1 fetch_event sets conflicting =
  @full_conflicted O2 fetch_event sets conflicting.
Proof.
  apply set_eq. intros id. rewrite !full_conflicted_spec.
  by rewrite (proj2 (@auth_chain_diff_spec O1 sets) id), (proj2 (@auth_chain_diff_spec O2 sets) id).
Qed.

Lemma power_sort_unique (O1 O2 : HashOrder) fetch_event auth_diff ev1 ev2 fuel l1 l2 :
  ev1 ≡ₚ ev2 → (∀ id, id ∈ auth_diff → is_Some (fetch_event id)) →
  (∀ id, id ∈ ev1 → id ∈ auth_diff) →
  @reverse_topological_power_sort O1 fetch_event fuel ev1 auth_diff = Ok l1 →
  @reverse_topological_power_sort O2 fetch_event fuel ev2 auth_diff = Ok l2 → l1 = l2.
Proof.
  intros Hp Hf He H1 H2.
  destruct (@power_sort_Ok O1 _ _ _ _ _ Hf He H1) as (_ & _ & _ & Hpl).
  set (N := fuel + power_fuel fetch_event auth_diff ev1 + power_fuel fetch_event auth_diff ev2).
  pose proof (@power_sort_fuel_mono O1 fetch_event auth_diff ev1 fuel N ltac:(lia)
    ltac:(rewrite H1; discriminate)) as HN1.
  pose proof (@power_sort_fuel_mono O2 fetch_event auth_diff ev2 fuel N ltac:(lia)
    ltac:(rewrite H2; discriminate)) as HN2.
  pose proof (power_sort_deterministic O1 O2 fetch_event auth_diff ev1 ev2 N Hp) as Hd.
  rewrite HN1, HN2, H1, H2 in Hd. cut (Ok (E:=RunError) l1 = Ok l2); [by intros [= ->]|].
  apply Hd; [|done|lia..].
  intros n [?|?]%power_node_in; auto.
Qed.

(** ** The third party invite *)

(** What holds of the state sets a caller passes: an entry's event has the entry's type. *)
Definition well_typed (fetch_event : string → option Event) (s : StateMap string) : Prop :=
  ∀ key id ev, s !! key = Some id → fetch_event id = Some ev → event_type ev = key.1.

Section invites.
Context `{Unicode}.
Variable fetch_event : string → option Event.

(** A member event for which at most one third party invite can be in view: among the events
    it cites and the state it depends on. *)
Definition invites_agree (ev : Event) : Prop :=
  event_type ev = RoomMember →
  ∀ sk auth keys, state_key ev = Some sk → collect_auth_events fetch_event ev = Ok auth →
    auth_types_for_event (event_type ev) (sender ev) (Some sk) (content ev) = Ok keys →
    ∀ k1 k2, (RoomThirdPartyInvite, k1) ∈ dom auth ∪ list_to_set keys →
      (RoomThirdPartyInvite, k2) ∈ dom auth ∪ list_to_set keys → k1 = k2.

Lemma auth_check_no_invite rv ev prev tpi1 tpi2 st :
  event_type ev ≠ RoomMember → auth_check rv ev prev tpi1 st = auth_check rv ev prev tpi2 st.
Proof. 
  intros Hne. unfold auth_check. case_decide; [done|].
  destruct (st RoomCreate ""%string); [|done]. destruct (_ && _); [done|].
  by rewrite !(decide_False (P:=event_type ev = RoomMember)).
Qed.

Definition values_typed (s : StateMap Event) : Prop :=
  ∀ key ev, s !! key = Some ev → event_type ev = key.1.

Lemma collect_auth_events_typed ev auth :
  collect_auth_events fetch_event ev = Ok auth → values_typed auth.
Proof.
  intros Hrun. refine (for_each_inv values_typed _ _ _ _ _ _ Hrun).
  2:{ intros k e. by rewrite lookup_empty. }
  intros s x s' _ Hs Hx. destruct (fetch_event x) as [e|]; [|by injection Hx as <-].
  apply bind_Ok in Hx as (k & _ & [= <-]). intros key e' Hk.
  apply lookup_insert_Some in Hk as [[<- <-]|[_ ?]]; [done|by apply Hs].
Qed.

Lemma overlay_state_spec resolved keys auth :
  well_typed fetch_event resolved → values_typed auth →
  let s := fold_left (overlay_state fetch_event resolved) keys auth in
  values_typed s ∧ dom s ⊆ dom auth ∪ list_to_set keys.
Proof.
  intros Hr. revert auth. induction keys as [|k keys IH]; intros auth Ha; simpl; [set_solver|].
  assert (values_typed (overlay_state fetch_event resolved auth k) ∧
    dom (overlay_state fetch_event resolved auth k) ⊆ dom auth ∪ {[k]}) as [Ho Hdom].
  { unfold overlay_state. destruct (resolved !! k) as [id|] eqn:Hid; [|split; [done|set_solver]].
    destruct (fetch_event id) as [e|] eqn:He; [|split; [done|set_solver]]. split; [|set_solver].
    intros key e' Hk. apply lookup_insert_Some in Hk as [[<- <-]|[_ ?]]; [|by apply Ha].
    by eapply Hr. }
  destruct (IH _ Ho) as [? Hs]. split; [done|]. set_solver.
Qed.

(** With at most one candidate the order of the map does not matter. *)
Lemma find_third_party_invite_unique (O1 O2 : HashOrder) s :
  values_typed s →
  (∀ k1 k2, (RoomThirdPartyInvite, k1) ∈ dom s → (RoomThirdPartyInvite, k2) ∈ dom s → k1 = k2) →
  @find_third_party_invite O1 s = @find_third_party_invite O2 s.
Proof.
  intros Ht Hone. unfold find_third_party_invite.
  set (P := λ pdu, event_type pdu = RoomThirdPartyInvite).
  assert (∀ e, (∃ k, s !! k = Some e ∧ P e) → ∀ O : HashOrder,
    head (filter P (@hash_iter O _ _ _ _ s).*2) = Some e) as Hhead.
  { intros e (k & Hk & He) O.
    destruct (filter P (@hash_iter O _ _ _ _ s).*2) as [|e' l] eqn:Hf.
    { assert (e ∈ filter P (@hash_iter O _ _ _ _ s).*2) as Hin; [|by rewrite Hf in Hin; apply elem_of_nil in Hin].
      apply list_elem_of_filter. split; [done|]. apply list_elem_of_fmap. exists (k, e).
      by rewrite elem_of_hash_iter. }
    assert (e' ∈ filter P (@hash_iter O _ _ _ _ s).*2) as Hin by (rewrite Hf; by left).
    apply list_elem_of_filter in Hin as [He' ([k' e''] & -> & Hk'%elem_of_hash_iter)%list_elem_of_fmap].
    simpl in *. pose proof (Ht _ _ Hk) as Htk. pose proof (Ht _ _ Hk') as Htk'.
    destruct k as [ty k], k' as [ty' k']. unfold P in *. simpl in *.
    assert (ty = RoomThirdPartyInvite) as -> by congruence.
    assert (ty' = RoomThirdPartyInvite) as -> by congruence.
    assert (k = k') as <- by (apply Hone; by eapply elem_of_dom_2). congruence. }
  destruct (filter P (@hash_iter O1 _ _ _ _ s).*2) as [|e l] eqn:H1; simpl.
  - destruct (filter P (@hash_iter O2 _ _ _ _ s).*2) as [|e l] eqn:H2; [done|].
    assert (e ∈ filter P (@hash_iter O2 _ _ _ _ s).*2) as Hin by (rewrite H2; by left).
    apply list_elem_of_filter in Hin as [He ([k e'] & -> & Hk%elem_of_hash_iter)%list_elem_of_fmap].
    specialize (Hhead e' (ex_intro _ k (conj Hk He)) O1). by rewrite H1 in Hhead.
  - assert (e ∈ filter P (@hash_iter O1 _ _ _ _ s).*2) as Hin by (rewrite H1; by left).
    apply list_elem_of_filter in Hin as [He ([k e'] & -> & Hk%elem_of_hash_iter)%list_elem_of_fmap].
    symmetry. by apply Hhead; exists k.
Qed.

(** ** Both runs *)

Lemma iterative_auth_step_unique (O1 O2 : HashOrder) rv resolved id :
  well_typed fetch_event resolved → (∀ ev, fetch_event id = Some ev → invites_agree ev) →
  @iterative_auth_step _ O1 fetch_event rv resolved id =
  @iterative_auth_step _ O2 fetch_event rv resolved id.
Proof.
  intros Hr Hone. unfold iterative_auth_step.
  apply bind_ext_Ok. intros ev Hev%ok_or_Ok. specialize (Hone ev Hev).
  apply bind_ext_Ok. intros sk Hsk%ok_or_Ok.
  apply bind_ext_Ok. intros auth Hauth.
  apply bind_ext_Ok. intros keys Hkeys%lift_Ok.
  apply (proj1 (map_err_Ok _ _ _)) in Hkeys.
  destruct (overlay_state_spec resolved keys auth Hr (collect_auth_events_typed _ _ Hauth))
    as [Ht Hdom].
  set (s := fold_left (overlay_state fetch_event resolved) keys auth) in *. cbv zeta.
  assert (auth_check rv ev (list.last (omap fetch_event (prev_events ev)))
      (@find_third_party_invite O1 s) (λ ty k, s !! (ty, k)) =
    auth_check rv ev (list.last (omap fetch_event (prev_events ev)))
      (@find_third_party_invite O2 s) (λ ty k, s !! (ty, k))) as ->; [|done].
  destruct (decide (event_type ev = RoomMember)) as [Hm|Hm]; [|by apply auth_check_no_invite].
  rewrite (find_third_party_invite_unique O1 O2 s Ht); [done|].
  intros k1 k2 H1 H2. by apply (Hone Hm sk auth keys Hsk Hauth Hkeys); apply Hdom.
Qed.

Lemma iterative_auth_step_typed (O : HashOrder) rv resolved id resolved' :
  @iterative_auth_step _ O fetch_event rv resolved id = Ok resolved' →
  well_typed fetch_event resolved → well_typed fetch_event resolved'.
Proof.
  intros [-> |(ev & key & (Hev & (sk & _ & ->) & _) & ->)]%iterative_auth_step_Ok Hr; [done|].
  intros key' id' ev' Hk Hev'. apply lookup_insert_Some in Hk as [[<- <-]|[_ Hk]]; [|by eapply Hr].
  rewrite Hev in Hev'. by injection Hev' as <-.
Qed.

Lemma iterative_auth_check_unique (O1 O2 : HashOrder) rv events start :
  well_typed fetch_event start →
  (∀ id ev, id ∈ events → fetch_event id = Some ev → invites_agree ev) →
  @iterative_auth_check _ O1 fetch_event rv events start =
  @iterative_auth_check _ O2 fetch_event rv events start.
Proof.
  unfold iterative_auth_check. revert start.
  induction events as [|id events IH]; intros start Hs Hone; simpl; [done|].
  rewrite <- (iterative_auth_step_unique O1 O2) by
    (try done; intros ev; apply Hone; by left).
  destruct (@iterative_auth_step _ O1 fetch_event rv start id) as [s'| |] eqn:Hx; simpl; [|done..].
  apply IH; [exact (iterative_auth_step_typed O1 _ _ _ _ Hx Hs)|]. intros id' ev Hin. apply Hone. by right.
Qed.

Lemma iterative_auth_check_typed (O : HashOrder) rv events start final :
  @iterative_auth_check _ O fetch_event rv events start = Ok final →
  well_typed fetch_event start → well_typed fetch_event final.
Proof.
  intros Hrun Hs. refine (for_each_inv (well_typed fetch_event) _ _ _ _ _ Hs Hrun).
  intros s x s' _ Hs' Hx. exact (iterative_auth_step_typed O _ _ _ _ Hx Hs').
Qed.

(** What all sets agree on is typed when each set is. *)
Lemma separate_typed (O : HashOrder) sets cl co :
  separate sets = Ok (cl, co) → (∀ s, s ∈ sets → well_typed fetch_event s) →
  well_typed fetch_event cl.
Proof.
  intros [Hc _]%separate_Ok Hs key id ev [Hne Hall]%Hc Hev.
  destruct sets as [|s sets]; [done|]. eapply (Hs s); [by left|apply Hall; by left|done].
Qed.

Lemma resolutions_unique (O1 O2 : HashOrder) fuel rv sets chains f1 f2
    (r1 : @resolution _ O1 fetch_event fuel rv sets chains f1)
    (r2 : @resolution _ O2 fetch_event fuel rv sets chains f2) :
  (∀ s, s ∈ sets → well_typed fetch_event s) →
  (∀ id ev, fetch_event id = Some ev → invites_agree ev) → f1 = f2.
Proof.
  destruct r1 as [cl co ce ctl rls rc lf rs Hsep Hco Hce Hctl Hrls Hrc Hlf Hrs ->].
  destruct r2 as [cl' co' ce' ctl' rls' rc' lf' rs' Hsep' Hco' Hce' Hctl' Hrls' Hrc' Hlf' Hrs' ->].
  intros Hs Hone. destruct (separate_unique _ _ _ _ _ _ _ Hsep Hsep') as [<- <-].
  rewrite <- (full_conflicted_unique O1 O2) in *.
  set (all := @full_conflicted O1 fetch_event chains co) in *.
  assert (hset_iter (HashOrder := O1) all ≡ₚ hset_iter (HashOrder := O2) all) as Hall
    by by rewrite !hset_iter_perm.
  assert (ce ≡ₚ ce') as Hperm.
  { rewrite (filter_outcome_Ok _ _ _ Hce), (filter_outcome_Ok _ _ _ Hce'). by rewrite Hall. }
  assert (ctl = ctl') as <-.
  { refine (power_sort_unique O1 O2 _ _ _ _ _ _ _ Hperm _ _ Hctl Hctl').
    - by intros id ?%full_conflicted_found.
    - intros id Hid. exact (control_events_in _ _ _ _ Hce Hid). }
  rewrite Hrls in Hrls'. injection Hrls' as <-.
  pose proof (separate_typed O1 _ _ _ Hsep Hs) as Hcl.
  rewrite (iterative_auth_check_unique O1 O2) in Hrc
    by first [exact Hcl | intros; by eapply Hone].
  rewrite Hrc in Hrc'. injection Hrc' as <-.
  assert (lf = lf') as <-.
  { refine (mainline_sort_unique O1 O2 _ _ _ _ _ _ _ _ Hlf Hlf'). unfold left_events.
    by rewrite Hall. }
  rewrite (iterative_auth_check_unique O1 O2) in Hrs
    by first [exact (iterative_auth_check_typed O2 _ _ _ _ Hrc Hcl) | intros; by eapply Hone].
  rewrite Hrs in Hrs'. by injection Hrs' as <-.
Qed.

Lemma resolve_unique (O1 O2 : HashOrder) fuel rv sets chains f1 f2 :
  (∀ s, s ∈ sets → well_typed fetch_event s) →
  (∀ id ev, fetch_event id = Some ev → invites_agree ev) →
  @resolve _ O1 fetch_event fuel rv sets chains = Ok f1 →
  @resolve _ O2 fetch_event fuel rv sets chains = Ok f2 → f1 = f2.
Proof.
  intros Hs Hone H1%resolve_Ok H2%resolve_Ok.
  destruct H1 as [H1|[r1]], H2 as [H2|[r2]].
  - by destruct (separate_unique _ _ _ _ _ _ _ H1 H2).
  - destruct (separate_unique _ _ _ _ _ _ _ H1 (split_ok r2)) as [_ Hx].
    by destruct (conflict r2 (eq_sym Hx)).
  - destruct (separate_unique _ _ _ _ _ _ _ (split_ok r1) H2) as [_ Hx].
    by destruct (conflict r1 Hx).
  - exact (resolutions_unique O1 O2 _ _ _ _ _ _ r1 r2 Hs Hone).
Qed.

(** C1: assume that the state sets are keyed by the types of their events and that no member
    event of the store has two third party invites with different keys in view. Then two runs
    of [resolve] that both return, under any two orders of the hash maps and hash sets, return
    the same state. The second assumption is needed: which of two invites the authorization of
    a member event is given depends on the order. *)
Theorem resolve_deterministic (O1 O2 : HashOrder) fuel rv sets chains f1 f2 :
  (∀ s, s ∈ sets → well_typed fetch_event s) →
  (∀ id ev, fetch_event id = Some ev → invites_agree ev) →
  @resolve _ O1 fetch_event fuel rv sets chains = Ok f1 →
  @resolve _ O2 fetch_event fuel rv sets chains = Ok f2 → f1 = f2.
Proof. apply resolve_unique. Qed.
End invites.

(** ** Examples *)

Open Scope string_scope.

Definition topic_events : list Event :=
  (example_events ++ [topic_event "$v" "@b:a" ["$c"; "$m"; "$q"]])%list.

(** A conflict over the room's topic, on top of the example store. *)
Definition topic_store : string → option Event :=
  store_of topic_events.

Definition topic_sets : list (StateMap string) :=
  let common : StateMap string :=
    {[ (RoomCreate, "") := "$c"; (RoomMember, "@a:a") := "$m"; (RoomPowerLevels, "") := "$q" ]} in
  [ <[(RoomTopic, "") := "$u"]> common; <[(RoomTopic, "") := "$v"]> common ].

Definition topic_chains : list (gset string) := [ {["$c"; "$m"; "$p"; "$q"]}; {["$c"; "$m"; "$p"; "$q"]} ].

(** The topic of the administrator wins: the other sender is not in the room. *)
Lemma topic_resolved (O : HashOrder) :
  O = map_order ∨ O = reverse_order →
  let _ := ascii_unicode in
  (λ s : StateMap string, s !! (RoomTopic, "")) <$>
    resolve topic_store 1000 V6 topic_sets topic_chains = Ok (Some "$u").
Proof. intros [-> | ->]; vm_compute; reflexivity. Qed.

(** The two conditions, checked by evaluation. *)
Definition well_typed_b (fetch_event : string → option Event) (s : StateMap string) : bool :=
  forallb (λ '(key, id), from_option (λ e, bool_decide (event_type e = key.1)) true
                           (fetch_event id)) (map_to_list s).

Lemma well_typed_b_sound fetch_event s : well_typed_b fetch_event s = true → well_typed fetch_event s.
Proof.
  unfold well_typed_b. rewrite forallb_forall. intros Hall key id ev Hk Hev.
  apply elem_of_map_to_list, list_elem_of_In, Hall in Hk. rewrite Hev in Hk. simpl in Hk.
  by apply bool_decide_eq_true in Hk.
Qed.

Definition no_invite_b `{Unicode} (fetch_event : string → option Event) (ev : Event) : bool :=
  match state_key ev, collect_auth_events fetch_event ev with
  | Some sk, Ok auth =>
      match auth_types_for_event (event_type ev) (sender ev) (Some sk) (content ev) with
      | Ok keys => forallb (λ k, negb (bool_decide (k.1 = RoomThirdPartyInvite)))
                     (elements (dom auth ∪ list_to_set keys))
      | _ => true
      end
  | _, _ => true
  end.

Lemma no_invite_b_sound `{Unicode} fetch_event ev :
  no_invite_b fetch_event ev = true → invites_agree fetch_event ev.
Proof.
  unfold no_invite_b. intros Hb _ sk auth keys Hsk Hauth Hkeys k1 k2 Hk1 _. exfalso.
  rewrite Hsk, Hauth, Hkeys in Hb. rewrite forallb_forall in Hb.
  apply elem_of_elements, list_elem_of_In, Hb in Hk1. simpl in Hk1.
  discriminate Hk1.
Qed.

Lemma topic_sets_typed s : s ∈ topic_sets → well_typed topic_store s.
Proof.
  intros Hs. apply well_typed_b_sound. revert s Hs. apply list.Forall_forall.
  constructor; [vm_compute; reflexivity|]. constructor; [vm_compute; reflexivity|constructor].
Qed.

Lemma topic_invites_agree id ev :
  topic_store id = Some ev → let _ := ascii_unicode in invites_agree topic_store ev.
Proof.
  intros [Hin _]%store_of_Some u. apply no_invite_b_sound. revert ev Hin.
  apply list.Forall_forall. unfold topic_events, example_events. simpl app.
  repeat (constructor; [vm_compute; reflexivity|]). constructor.
Qed.

Lemma resolve_deterministic_witness :
  let _ := ascii_unicode in
  ∃ f1 f2, @resolve _ map_order topic_store 1000 V6 topic_sets topic_chains = Ok f1 ∧
    @resolve _ reverse_order topic_store 1000 V6 topic_sets topic_chains = Ok f2 ∧ f1 = f2.
Proof.
  intros u.
  destruct (@resolve u map_order topic_store 1000 V6 topic_sets topic_chains) as [f1| |] eqn:H1;
    [|by pose proof (topic_resolved map_order (or_introl eq_refl)) as Hx; unfold u in H1; simpl in Hx; rewrite H1 in Hx..].
  destruct (@resolve u reverse_order topic_store 1000 V6 topic_sets topic_chains) as [f2| |] eqn:H2;
    [|by pose proof (topic_resolved reverse_order (or_intror eq_refl)) as Hx; unfold u in H2; simpl in Hx; rewrite H2 in Hx..].
  exists f1, f2. split; [reflexivity|]. split; [reflexivity|].
  exact (resolve_deterministic topic_store map_order reverse_order 1000 V6 topic_sets topic_chains
    f1 f2 topic_sets_typed topic_invites_agree H1 H2).
Defined.

(** The sets disagree on the topic, and the event that has it in the end is settled. *)
Lemma topic_conflicts (clean : StateMap string) :
  (∀ key id, clean !! key = Some id ↔
     topic_sets ≠ [] ∧ ∀ s, s ∈ topic_sets → s !! key = Some id) →
  clean !! (RoomTopic, "") = None.
Proof.
  intros Hcl. apply eq_None_not_Some. intros [id [_ Hid]%Hcl].
  assert (∀ s, s ∈ topic_sets → s !! (RoomTopic, "") = Some id) as Hall by exact Hid.
  pose proof (Hall _ ltac:(by left)) as H1. pose proof (Hall _ ltac:(by right; left)) as H2.
  vm_compute in H1, H2. congruence.
Qed.

Lemma resolve_spec_witness :
  let _ := ascii_unicode in let _ := map_order in
  ∃ final clean rules order, resolve topic_store 1000 V6 topic_sets topic_chains = Ok final ∧
    final !! (RoomTopic, "") = Some "$u" ∧ clean !! (RoomTopic, "") = None ∧
    settled topic_store rules order clean (RoomTopic, "") "$u".
Proof.
  intros u o. pose proof (topic_resolved o (or_introl eq_refl)) as Htopic. cbv zeta in Htopic.
  fold u in Htopic.
  destruct (resolve topic_store 1000 V6 topic_sets topic_chains) as [final| |] eqn:H1; [|done..].
  injection Htopic as Htopic.
  destruct (resolve_spec topic_store 1000 V6 topic_sets topic_chains final H1)
    as (clean & conflicting & Hcl & _ & Hrun). pose proof (topic_conflicts clean Hcl) as Hnone.
  destruct Hrun as [[_ Heq]|(_ & all & rules & control & left & after & _ & _ & _ & _ & _ & Hfin)].
  { rewrite Heq, Hnone in Htopic. discriminate Htopic. }
  exists final, clean, rules, (control ++ left)%list. split; [reflexivity|].
  split; [exact Htopic|]. split; [exact Hnone|].
  destruct (proj1 (Hfin (RoomTopic, "") "$u") Htopic) as [Hclean|[_ Hsettled]]; [|exact Hsettled].
  discriminate (eq_trans (eq_sym Hnone) Hclean).
Defined.

Lemma resolve_terminates_witness :
  let _ := ascii_unicode in let _ := map_order in
  ∃ r enough, r ≠ Err OutOfFuel ∧
    ∀ fuel, (enough ≤ fuel)%nat → resolve topic_store fuel V6 topic_sets topic_chains = r.
Proof.
  intros u o. apply (resolve_terminates topic_store (list_rank topic_events)).
  apply ranked_decreases. vm_compute. reflexivity.
Defined.

(** ** Two invites in view *)

Definition third_party_invite_event (id s tok : string) : Event :=
  state_event id s RoomThirdPartyInvite tok
    (JObject [("display_name", JString "b"); ("key_validity_url", JString "https://a");
              ("public_key", JString tok)]) [].

(** The invite of "@b:a" under the token "t1", in an event that cites a second invite too. *)
Definition invited_event : Event :=
  state_event "$j" "@a:a" RoomMember "@b:a"
    (JObject [("membership", JString "invite");
              ("third_party_invite", JObject [("display_name", JString "b");
                 ("signed", JObject [("mxid", JString "@b:a"); ("signatures", JObject []);
                                     ("token", JString "t1")])])])
    ["$c"; "$m"; "$q"; "$i1"; "$i2"].

Definition invites_store : string → option Event :=
  store_of (example_events ++ [third_party_invite_event "$i1" "@a:a" "t1";
                               third_party_invite_event "$i2" "@a:a" "t2"; invited_event])%list.

(** A member event that cites two third party invites is accepted or rejected according to
    the order in which the hash map of its auth events is iterated: the check looks at
    whichever invite comes first instead of the one whose token the event names. *)
Theorem third_party_invite_order :
  let _ := ascii_unicode in
  ¬ invites_agree invites_store invited_event ∧
  ∃ O1 O2 : HashOrder,
    iterative_auth_check (H0 := O1) invites_store VERSION6 ["$j"] ∅ =
      Ok {[ (RoomMember, "@b:a") := "$j" ]} ∧
    iterative_auth_check (H0 := O2) invites_store VERSION6 ["$j"] ∅ = Ok ∅.
Proof.
  intros u. split.
  - intros Hone.
    set (auth := default ∅ (ok (collect_auth_events invites_store invited_event))).
    set (keys := default [] (ok (auth_types_for_event RoomMember "@a:a" (Some "@b:a")
      (content invited_event)))).
    assert (collect_auth_events invites_store invited_event = Ok auth) as Hauth
      by (apply ok_default; vm_compute; reflexivity).
    assert (auth_types_for_event RoomMember "@a:a" (Some "@b:a") (content invited_event) = Ok keys)
      as Hkeys by (apply ok_default; vm_compute; reflexivity).
    assert ("t1" = "t2") as Hx; [|discriminate Hx].
    apply (Hone eq_refl "@b:a" auth keys eq_refl Hauth Hkeys); decide_it.
  - first [exists map_order, reverse_order; split; decide_it
          |exists reverse_order, map_order; split; decide_it].
Qed.
