(* ===== verification/CanonicalJson.v ===== *)
(** * Canonical JSON

    [ruma-serde/src/canonical_json.rs] and [canonical_json/value.rs]: values whose numbers are
    integers and whose objects are sorted by key, and their conversions from and to JSON. *)

From S2P Require Import Prelude RustStr RustNet IdValidation StringEnum Identifiers Json.
From Stdlib Require Import Ascii NArith.
Open Scope string_scope.
Open Scope nat_scope.
Open Scope list_scope.

Inductive CanonicalJsonValue :=
  | CNull
  | CBool (b : bool)
  | CInteger (z : Z)
  | CString (s : string)
  | CArray (l : list CanonicalJsonValue)
  | CObject (m : gmap string CanonicalJsonValue).

Notation CanonicalJsonObject := (gmap string CanonicalJsonValue).

Inductive CanonicalJsonError := IntConvert | SerDe.

#[export] Instance CanonicalJsonError_eq_dec : EqDecision CanonicalJsonError.
Proof. solve_decision. Defined.

Definition as_bool (v : CanonicalJsonValue) : option bool :=
  match v with CBool b => Some b | _ => None end.
Definition as_integer (v : CanonicalJsonValue) : option Z :=
  match v with CInteger z => Some z | _ => None end.
Definition as_str (v : CanonicalJsonValue) : option string :=
  match v with CString s => Some s | _ => None end.
Definition as_array (v : CanonicalJsonValue) : option (list CanonicalJsonValue) :=
  match v with CArray l => Some l | _ => None end.
Definition as_object (v : CanonicalJsonValue) : option CanonicalJsonObject :=
  match v with CObject m => Some m | _ => None end.

(** ** Conversions *)

(** [Number::as_i64] *)
Definition as_i64 (n : number) : option Z :=
  match n with
  | NInt z => if (z <? 2 ^ 63)%Z then Some z else None
  | NFloat _ => None
  end.

(** [collect::<Result<Vec<_>, _>>()] *)
Fixpoint collect_list {E A} (l : list (outcome E A)) : outcome E (list A) :=
  match l with
  | [] => Ok []
  | m :: l => a ← m; rest ← collect_list l; Ok (a :: rest)
  end.

(** [collect::<Result<BTreeMap<_, _>, _>>()] over the entries of a map *)
Definition collect_map {E A} (m : gmap string (outcome E A)) : outcome E (gmap string A) :=
  for_each (λ acc '(k, r), v ← r; Ok (<[k := v]> acc)) ∅ (btree_iter m).

(** [serde_json]'s object keeps the last entry of each key. *)
Definition last_entries {A} (entries : list (string * A)) : gmap string A :=
  fold_left (λ m '(k, v), <[k := v]> m) entries ∅.

Fixpoint CanonicalJsonValue_try_from (j : json) : outcome CanonicalJsonError CanonicalJsonValue :=
  match j with
  | JBool b => Ok (CBool b)
  | JNumber num =>
      match as_i64 num with
      | Some z => if int_in_range z then Ok (CInteger z) else Err IntConvert
      | None => Err IntConvert
      end
  | JArray vec => CArray <$> collect_list (CanonicalJsonValue_try_from <$> vec)
  | JString s => Ok (CString s)
  | JObject obj =>
      CObject <$> collect_map
        (last_entries ((λ '(k, v), (k, CanonicalJsonValue_try_from v)) <$> obj))
  | JNull => Ok CNull
  end.

(** [try_from_json_map] *)
Definition try_from_json_map (entries : list (string * json)) :
    outcome CanonicalJsonError CanonicalJsonObject :=
  collect_map (last_entries ((λ '(k, v), (k, CanonicalJsonValue_try_from v)) <$> entries)).

(** [From<CanonicalJsonValue> for JsonValue], and what [Serialize] hands to a serializer: the
    entries of an object come by key. *)
Fixpoint JsonValue_from (v : CanonicalJsonValue) : json :=
  match v with
  | CNull => JNull
  | CBool b => JBool b
  | CInteger z => JNumber (NInt z)
  | CString s => JString s
  | CArray l => JArray (JsonValue_from <$> l)
  | CObject m => JObject (btree_iter (JsonValue_from <$> m))
  end.

(** [serde_json] as text: writing a value and reading text back. What the code relies on is
    that a canonical value is read back as it was written. *)
Class SerdeJson := {
  json_to_string : json → string;
  json_from_str : string → outcome () json;
  json_round_trip : ∀ v : CanonicalJsonValue,
    json_from_str (json_to_string (JsonValue_from v)) = Ok (JsonValue_from v)
}.

Section text.
Context `{SerdeJson}.

(** [Display] and [to_json_string] *)
Definition to_json_string (v : CanonicalJsonValue) : string := json_to_string (JsonValue_from v).

(** [Deserialize for CanonicalJsonValue] applied to text *)
Definition CanonicalJsonValue_from_str (s : string) :
    outcome CanonicalJsonError CanonicalJsonValue :=
  j ← map_err (λ _, SerDe) (json_from_str s);
  map_err (λ _, SerDe) (CanonicalJsonValue_try_from j).

(** [Deserialize for BTreeMap<String, CanonicalJsonValue>] applied to text *)
Definition CanonicalJsonObject_from_str (s : string) : outcome CanonicalJsonError CanonicalJsonObject :=
  j ← map_err (λ _, SerDe) (json_from_str s);
  match j with
  | JObject entries =>
      for_each (λ acc '(k, v), c ← map_err (λ _, SerDe) (CanonicalJsonValue_try_from v);
                               Ok (<[k := c]> acc)) ∅ entries
  | _ => Err SerDe
  end.
End text.

(** [to_canonical_value], for a value whose [Serialize] gives the JSON [j] or fails *)
Definition to_canonical_value (serialized : outcome () json) :
    outcome CanonicalJsonError CanonicalJsonValue :=
  j ← map_err (λ _, SerDe) serialized;
  CanonicalJsonValue_try_from j.

(** ** Induction *)

Fixpoint csize (v : CanonicalJsonValue) : nat :=
  match v with
  | CArray l => S (foldr (λ x n, csize x + n) 0 l)
  | CObject m => S (map_fold (λ _ x n, csize x + n) 0 m)
  | _ => 1
  end.

Lemma canonical_ind (P : CanonicalJsonValue → Prop) :
  P CNull → (∀ b, P (CBool b)) → (∀ z, P (CInteger z)) → (∀ s, P (CString s)) →
  (∀ l, Forall P l → P (CArray l)) →
  (∀ m : CanonicalJsonObject, map_Forall (λ _, P) m → P (CObject m)) →
  ∀ v, P v.
Proof.
  intros Hn Hb Hi Hs Ha Ho. assert (∀ n v, csize v < n → P v) as Hall by
    (induction n as [|n IH]; intros [|b|z|s|l|m] Hlt; simpl in Hlt; auto; try lia; [apply Ha|apply Ho];
     [induction l as [|x l IHl]; constructor; simpl in Hlt; [apply IH; lia|apply IHl; lia]|];
     intros k x Hk; apply IH;
     rewrite (map_fold_delete_L _ _ k x m) in Hlt by (done || intros; lia); lia).
  intros v. apply (Hall (S (csize v))). lia.
Qed.

(** ** Round trip *)

(** Every integer is one [Int] holds. *)
Fixpoint wf_canonical (v : CanonicalJsonValue) : bool :=
  match v with
  | CInteger z => int_in_range z
  | CArray l => foldr (λ x b, wf_canonical x && b) true l
  | CObject m => map_fold (λ _ x b, wf_canonical x && b) true m
  | _ => true
  end.

Lemma wf_array l : wf_canonical (CArray l) = true ↔ Forall (λ x, wf_canonical x = true) l.
Proof. simpl. induction l as [|x l IH]; simpl; [done|]. by rewrite andb_true_iff, IH, list.Forall_cons. Qed.

Lemma wf_object (m : CanonicalJsonObject) :
  wf_canonical (CObject m) = true ↔ map_Forall (λ _ x, wf_canonical x = true) m.
Proof.
  simpl. induction m as [|k x m Hk IH] using map_ind; [done|].
  rewrite map_fold_insert_L by (done || intros; rewrite !andb_assoc; f_equal; apply andb_comm).
  by rewrite andb_true_iff, IH, map_Forall_insert.
Qed.

(** A map read back from the entries it was written with. *)
Lemma last_entries_lookup {A} (l : list (string * A)) (m : gmap string A) k v :
  NoDup l.*1 →
  fold_left (λ m '(k, v), <[k := v]> m) l m !! k = Some v ↔
  (k, v) ∈ l ∨ k ∉ l.*1 ∧ m !! k = Some v.
Proof.
  revert m. induction l as [|[k' v'] l IH]; intros m Hnd; simpl.
  { split; [intros ?; right; split; [by intros ?%elem_of_nil|done]|]. by intros [?%elem_of_nil|[_ ?]]. }
  apply list.NoDup_cons in Hnd as [Hk Hnd]. rewrite (IH _ Hnd), !elem_of_cons.
  destruct (decide (k = k')) as [->|Hne].
  - rewrite lookup_insert_eq. split.
    + intros [Hin|[_ [= ->]]]; [|by left; left]. left. by right.
    + intros [[[= ->]|Hin]|[Hno _]]; [by right|by left|]. destruct Hno. by left.
  - rewrite lookup_insert_ne by done. split.
    + intros [Hin|[Hno Hm]]; [by left; right|]. right. split; [|done].
      intros [?|?]; [done|by apply Hno].
    + intros [[[= ? _]|Hin]|[Hno Hm]]; [done|by left|]. right. split; [|done].
      intros ?. apply Hno. by right.
Qed.

Lemma fmap_snd_fst {A B} (f : A → B) (l : list (string * A)) :
  ((λ '(k, v), (k, f v)) <$> l).*1 = l.*1.
Proof. induction l as [|[k v] l IH]; [done|]. csimpl. by rewrite IH. Qed.

(** Mapping over the values of a list of entries. *)
Lemma last_entries_map {A B} (f : A → B) (l : list (string * A)) :
  last_entries ((λ '(k, v), (k, f v)) <$> l) = f <$> last_entries l.
Proof.
  unfold last_entries. rewrite <- (fmap_empty (M:=gmap string) f) at 1.
  generalize (∅ : gmap string A). induction l as [|[k v] l IH]; intros m; csimpl; [done|].
  by rewrite <- fmap_insert, IH.
Qed.

Lemma last_entries_fmap {A B} (f : A → B) (m : gmap string A) :
  last_entries ((λ '(k, v), (k, f v)) <$> btree_iter m) = f <$> m.
Proof.
  apply map_eq. intros k. apply option_eq. intros v. unfold last_entries.
  rewrite last_entries_lookup by (rewrite fmap_snd_fst; apply NoDup_btree_iter_fst).
  rewrite lookup_fmap, fmap_Some, lookup_empty, list_elem_of_fmap. split.
  - intros [([k' v'] & [= -> ->] & Hin%elem_of_btree_iter)|[_ [=]]]. eauto.
  - intros (v' & Hk & ->). left. exists (k, v'). by rewrite elem_of_btree_iter.
Qed.

(** A loop that fills a map: every entry gives the value the map has at its key, and every key
    of the map has an entry. *)
Lemma for_each_insert {E V A} (f : V → outcome E A) (l : list (string * V)) (m : gmap string A) :
  (∀ k v, (k, v) ∈ l → ∃ a, f v = Ok a ∧ m !! k = Some a) →
  (∀ k, is_Some (m !! k) → k ∈ l.*1) →
  for_each (λ acc '(k, v), a ← f v; Ok (<[k := a]> acc)) ∅ l = Ok m.
Proof.
  intros Hf Hdom.
  destruct (for_each_total (E:=E) (λ done (acc : gmap string A),
      ∀ k, acc !! k = if decide (k ∈ done.*1) then m !! k else None)
    (λ acc '(k, v), a ← f v; Ok (<[k := a]> acc)) l ∅) as (acc & -> & Hacc).
  - intros pre acc [k v] Hin Hpre. destruct (Hf k v Hin) as (a & -> & Hk).
    eexists. split; [done|]. intros k'.
    rewrite fmap_app. simpl. destruct (decide (k' = k)) as [->|Hne].
    + rewrite lookup_insert_eq, decide_True; [done|]. apply elem_of_app. right. by left.
    + rewrite lookup_insert_ne, Hpre by done. apply decide_ext.
      rewrite elem_of_app, list_elem_of_singleton. naive_solver.
  - intros k. by rewrite lookup_empty, decide_False by by intros ?%elem_of_nil.
  - f_equal. apply map_eq. intros k. rewrite Hacc. case_decide as Hk; [done|].
    destruct (m !! k) as [a|] eqn:Ha; [|done]. destruct Hk. by apply Hdom.
Qed.

Lemma collect_map_Ok {E A} (m : gmap string (outcome E A)) (r : gmap string A) :
  (∀ k, m !! k = Ok <$> r !! k) → collect_map m = Ok r.
Proof.
  intros Hm. apply (for_each_insert id).
  - intros k v Hin%elem_of_btree_iter. rewrite Hm in Hin. apply fmap_Some in Hin as (a & Ha & ->).
    by exists a.
  - intros k [a Ha]. apply list_elem_of_fmap. exists (k, Ok a). split; [done|].
    apply elem_of_btree_iter. by rewrite Hm, Ha.
Qed.

Lemma collect_map_inv {E A} (m : gmap string (outcome E A)) (r : gmap string A) :
  collect_map m = Ok r → ∀ k, m !! k = Ok <$> r !! k.
Proof.
  unfold collect_map. intros Hrun.
  assert (∀ k, r !! k = (m !! k) ≫= ok ∧ ∀ o, m !! k = Some o → is_Some (ok o)) as Hr.
  { refine (λ k, _).
    assert ((∀ k v, r !! k = Some v ↔ (k, Ok v) ∈ btree_iter m) ∧
      ∀ k o, (k, o) ∈ btree_iter m → is_Some (ok o)) as [H1 H2].
    { pose proof (NoDup_btree_iter_fst m) as Hnd. revert Hnd.
      refine (for_each_inv_prefix (λ done (acc : gmap string A), NoDup done.*1 →
        (∀ k v, acc !! k = Some v ↔ (k, Ok v) ∈ done) ∧ ∀ k o, (k, o) ∈ done → is_Some (ok o))
        _ _ _ _ _ _ Hrun).
      2:{ intros _. split; [intros k' v|intros k' o ?%elem_of_nil; done]. rewrite lookup_empty.
          split; [done|by intros ?%elem_of_nil]. }
      intros pre acc [k' o] acc' Hpre (v & -> & [= <-])%bind_Ok. rewrite fmap_app.
      intros (Hnd & Hdis & _)%list.NoDup_app. destruct (Hpre Hnd) as [Hacc Hoks]. split.
      - intros k0 v0. rewrite elem_of_app, list_elem_of_singleton.
        destruct (decide (k0 = k')) as [->|Hne].
        + rewrite lookup_insert_eq. split; [intros [= ->]; by right|].
          intros [Hin|[= ->]]; [|done]. exfalso. apply (Hdis k'); [|by left].
          by apply (list_elem_of_fmap_2 fst _ (k', Ok v0)).
        + rewrite lookup_insert_ne, Hacc by done. split; [auto|]. intros [?|[= ? _]]; done.
      - intros k0 o0 [Hin|[= -> ->]%list_elem_of_singleton]%elem_of_app; [eauto|]. eauto. }
    split.
    - apply option_eq. intros v. rewrite H1, elem_of_btree_iter, bind_Some. setoid_rewrite ok_Some.
      naive_solver.
    - intros o Ho%elem_of_btree_iter. eauto. }
  intros k. destruct (Hr k) as [-> Hok]. destruct (m !! k) as [o|]; [|done].
  destruct (Hok o eq_refl) as [v Hv]. apply ok_Some in Hv. by subst o.
Qed.

Lemma canonical_round_trip v :
  wf_canonical v = true → CanonicalJsonValue_try_from (JsonValue_from v) = Ok v.
Proof.
  induction v as [|b|z|s|l IH|m IH] using canonical_ind; intros Hwf; try done.
  - simpl. assert ((z <? 2 ^ 63)%Z = true) as ->; [|simpl in Hwf; by rewrite Hwf].
    unfold wf_canonical, int_in_range, MAX_SAFE_INT in Hwf. lia.
  - simpl. apply wf_array in Hwf. apply fmap_Ok. exists l. split; [|done].
    rewrite <- list_fmap_compose. induction l as [|x l IHl]; [done|].
    apply list.Forall_cons in IH as [Hx IH], Hwf as [Hwx Hwf].
    assert ((CanonicalJsonValue_try_from ∘ JsonValue_from) x = Ok x) as Hx' by by apply Hx.
    rewrite fmap_cons. cbn [collect_list]. rewrite Hx'. cbn [mbind outcome_bind].
    by rewrite (IHl IH Hwf).
  - simpl. apply wf_object in Hwf. rewrite last_entries_fmap.
    rewrite (collect_map_Ok _ m); [done|]. intros k. rewrite !lookup_fmap.
    destruct (m !! k) as [v|] eqn:Hv; [|done]. simpl. f_equal. by apply (IH k v Hv), (Hwf k v).
Qed.

(** A canonical object written as text is read back. *)
Lemma canonical_object_from_str `{SerdeJson} (m : CanonicalJsonObject) :
  wf_canonical (CObject m) = true →
  CanonicalJsonObject_from_str (to_json_string (CObject m)) = Ok m.
Proof.
  intros Hwf. unfold CanonicalJsonObject_from_str, to_json_string. rewrite json_round_trip.
  cbn [map_err mbind outcome_bind JsonValue_from].
  apply (for_each_insert (λ v, map_err (λ _, SerDe) (CanonicalJsonValue_try_from v))).
  - intros k v. rewrite elem_of_btree_iter, lookup_fmap. intros (c & Hc & ->)%fmap_Some.
    exists c. split; [|done]. apply wf_object in Hwf.
    by rewrite canonical_round_trip by exact (Hwf k c Hc).
  - intros k [c Hc]. apply list_elem_of_fmap. exists (k, JsonValue_from c). split; [done|].
    apply elem_of_btree_iter. by rewrite lookup_fmap, Hc.
Qed.

Section json_ind.
Variable P : json → Prop.
Hypothesis Hnull : P JNull.
Hypothesis Hbool : ∀ b, P (JBool b).
Hypothesis Hnum : ∀ n, P (JNumber n).
Hypothesis Hstr : ∀ s, P (JString s).
Hypothesis Harr : ∀ l, Forall P l → P (JArray l).
Hypothesis Hobj : ∀ l, Forall (λ kv, P kv.2) l → P (JObject l).

Lemma json_nested_ind : ∀ j, P j.
Proof.
  fix IH 1. intros [|b|n|s|l|l]; [done..| |].
  - apply Harr. revert l. fix IHl 1. intros [|x l]; constructor; [apply IH|apply IHl].
  - apply Hobj. revert l. fix IHl 1. intros [|[k x] l]; constructor; [apply IH|apply IHl].
Qed.
End json_ind.

Lemma collect_list_Forall {E A B} (f : A → outcome E B) (Q : B → Prop) l r :
  Forall (λ x, ∀ b, f x = Ok b → Q b) l → collect_list (f <$> l) = Ok r → Forall Q r.
Proof.
  revert r. induction l as [|x l IH]; intros r Hall Hr; csimpl in *; [by injection Hr as <-|].
  apply list.Forall_cons in Hall as [Hx Hall].
  apply bind_Ok in Hr as (a & Ha & (rest & Hrest & [= <-])%bind_Ok).
  constructor; [by apply Hx|by apply IH].
Qed.

Lemma last_entries_elem {A} (l : list (string * A)) k v :
  last_entries l !! k = Some v → (k, v) ∈ l.
Proof.
  unfold last_entries. assert (∀ m : gmap string A, fold_left (λ m '(k, v), <[k := v]> m) l m !! k = Some v →
    (k, v) ∈ l ∨ m !! k = Some v) as H.
  { induction l as [|[k' v'] l IH]; intros m; simpl; [auto|].
    intros [?|[[-> ->]|[? ?]]%lookup_insert_Some]%IH; rewrite elem_of_cons; auto. }
  intros [?|[=]]%H; done.
Qed.

Lemma try_from_wf j v : CanonicalJsonValue_try_from j = Ok v → wf_canonical v = true.
Proof.
  revert v. induction j as [|b|n|s|l IH|l IH] using json_nested_ind; intros v; simpl.
  - by intros [= <-].
  - by intros [= <-].
  - destruct (as_i64 n) as [z|]; [|done]. destruct (int_in_range z) eqn:Hz; [|done].
    by intros [= <-].
  - by intros [= <-].
  - intros (r & Hr & ->)%fmap_Ok. apply wf_array. by eapply collect_list_Forall.
  - intros (r & Hr & ->)%fmap_Ok. apply wf_object. intros k x Hx.
    pose proof (collect_map_inv _ _ Hr k) as Hk. rewrite Hx in Hk.
    apply last_entries_elem, list_elem_of_fmap in Hk as ([k' j] & [= -> Hj] & Hin).
    rewrite list.Forall_forall in IH. by apply (IH _ Hin).
Qed.

Lemma last_entries_perm {A} (l1 l2 : list (string * A)) :
  NoDup l1.*1 → l1 ≡ₚ l2 → last_entries l1 = last_entries l2.
Proof.
  intros Hnd Hp. assert (NoDup l2.*1) as Hnd2 by by rewrite <- Hp.
  apply map_eq. intros k. apply option_eq. intros v. unfold last_entries.
  by rewrite !last_entries_lookup, Hp by done.
Qed.

(** C11: converting JSON to canonical JSON gives a value whose integers are all in the safe
    range, which converts back to JSON and again to itself; two objects with the same entries
    in a different order convert alike. *)
Theorem canonical_json_conversion :
  (∀ j v, CanonicalJsonValue_try_from j = Ok v →
     wf_canonical v = true ∧ CanonicalJsonValue_try_from (JsonValue_from v) = Ok v) ∧
  ∀ l1 l2, NoDup l1.*1 → l1 ≡ₚ l2 →
    CanonicalJsonValue_try_from (JObject l1) = CanonicalJsonValue_try_from (JObject l2).
Proof.
  split.
  - intros j v Hj. pose proof (try_from_wf j v Hj). by auto using canonical_round_trip.
  - intros l1 l2 Hnd Hp. simpl.
    rewrite (last_entries_perm _ ((λ '(k, v), (k, CanonicalJsonValue_try_from v)) <$> l2));
      [done| |by rewrite Hp].
    by rewrite fmap_snd_fst.
Qed.

(** ** A text format for the examples

    Any injective writing will do: the value as a tree, the tree as a number, the number in
    binary. *)

Definition leaf : Type := bool + Z + string + ().

Fixpoint json_to_tree (j : json) : gen_tree leaf :=
  match j with
  | JNull => GenLeaf (inr ())
  | JBool b => GenLeaf (inl (inl (inl b)))
  | JNumber (NInt z) => GenLeaf (inl (inl (inr z)))
  | JNumber (NFloat s) => GenNode 0 [GenLeaf (inl (inr s))]
  | JString s => GenLeaf (inl (inr s))
  | JArray l => GenNode 1 (json_to_tree <$> l)
  | JObject l => GenNode 2 ((λ '(k, x), GenNode 3 [GenLeaf (inl (inr k)); json_to_tree x]) <$> l)
  end.

Fixpoint tree_to_json (t : gen_tree leaf) : option json :=
  match t with
  | GenLeaf (inr _) => Some JNull
  | GenLeaf (inl (inl (inl b))) => Some (JBool b)
  | GenLeaf (inl (inl (inr z))) => Some (JNumber (NInt z))
  | GenLeaf (inl (inr s)) => Some (JString s)
  | GenNode 0 [GenLeaf (inl (inr s))] => Some (JNumber (NFloat s))
  | GenNode 1 l => JArray <$> mapM id (tree_to_json <$> l)
  | GenNode 2 l =>
      JObject <$> mapM id
        ((λ e, match e with
               | GenNode 3 [GenLeaf (inl (inr k)); x] => pair k <$> tree_to_json x
               | _ => None
               end) <$> l)
  | _ => None
  end.

Lemma mapM_id_fmap {A B} (f : A → option B) (g : B → A) (l : list B) :
  Forall (λ x, f (g x) = Some x) l → mapM id (f <$> (g <$> l)) = Some l.
Proof.
  induction 1 as [|x l Hx _ IH]; [done|].
  change (f (g x) ≫= (λ y, mapM id (f <$> (g <$> l)) ≫= λ k, mret (y :: k)) = Some (x :: l)).
  by rewrite Hx, IH.
Qed.

Lemma tree_to_json_to_tree j : tree_to_json (json_to_tree j) = Some j.
Proof.
  induction j as [|b|[z|s]|s|l IH|l IH] using json_nested_ind; try done; simpl.
  - by rewrite mapM_id_fmap.
  - rewrite mapM_id_fmap; [done|].
    eapply list.Forall_impl; [exact IH|]. intros [k x] Hx. simpl in *. by rewrite Hx.
Qed.

Fixpoint positive_to_string (p : positive) : string :=
  match p with
  | xH => ""
  | xO p => String "0" (positive_to_string p)
  | xI p => String "1" (positive_to_string p)
  end.

Fixpoint string_to_positive (s : string) : positive :=
  match s with
  | EmptyString => xH
  | String c s => if ascii_dec c "0" then xO (string_to_positive s) else xI (string_to_positive s)
  end.

Lemma string_to_positive_to_string p : string_to_positive (positive_to_string p) = p.
Proof. induction p as [p IH|p IH|]; simpl; by rewrite ?IH. Qed.

Definition tree_to_string (j : json) : string := positive_to_string (encode (json_to_tree j)).
Definition tree_from_string (s : string) : outcome () json :=
  match decode (string_to_positive s) ≫= tree_to_json with
  | Some j => Ok j
  | None => Err ()
  end.

Lemma tree_from_to_string j : tree_from_string (tree_to_string j) = Ok j.
Proof.
  unfold tree_from_string, tree_to_string.
  rewrite string_to_positive_to_string, decode_encode. simpl. by rewrite tree_to_json_to_tree.
Qed.

Definition tree_json : SerdeJson := {|
  json_to_string := tree_to_string;
  json_from_str := tree_from_string;
  json_round_trip := λ v, tree_from_to_string (JsonValue_from v)
|}.
