(* ===== verification/SigningKeys.v ===== *)
(** * Keys and signatures

    [ruma-signatures]: [error.rs], [split_id] of [lib.rs], [signatures.rs], [keys.rs] and
    [verification.rs]. Ed25519, SHA-256, base64 and DER come from other crates: they are the
    fields of [Crypto], with the documented behaviour that the code relies on. *)

From S2P Require Import Prelude RustStr RustNet IdValidation StringEnum Identifiers Json.
From S2P Require Import CanonicalJson.
From Stdlib Require Import Ascii NArith.
Open Scope string_scope.
Open Scope nat_scope.

(** ** error.rs *)

Inductive JsonType := JT_Object | JT_String | JT_Integer | JT_Array | JT_Boolean | JT_Null.

Inductive JsonError :=
  | NotOfType (target : string) (of_type : JsonType)
  | NotMultiplesOfType (target : string) (of_type : JsonType)
  | JsonFieldMissingFromObject (field : string)
  | JsonKeyMissing (for_target type_of with_key : string)
  | JsonSerde.

Inductive VerificationError :=
  | SignatureNotFound (target : string)
  | PublicKeyNotFound (target : string)
  | UnknownPublicKeysForSignature
  | VerificationSignature.

Inductive ParseError :=
  | ParseUserId (e : Error)
  | ParseEventId (e : Error)
  | ServerNameFromEventIdByRoomVersion (event_id : string) (version : RoomVersionId)
  | DerivedPublicKeyDoesNotMatchParsedKey (parsed_key derived_key : string)
  | ParseOid (expected found : string)
  | ParseSecretKey
  | ParsePublicKey
  | ParseSignature
  | ParseBase64 (of_type string : string).

Inductive SplitError :=
  | InvalidLength (n : nat)
  | InvalidVersion (version : string)
  | UnsupportedAlgorithm (algorithm : string).

Inductive SignatureError :=
  | ErrorJson (e : JsonError)
  | ErrorVerification (e : VerificationError)
  | ErrorParse (e : ParseError)
  | DerParse
  | ErrorSplit (e : SplitError)
  | PduSize.

Definition not_of_type (target : string) (t : JsonType) : SignatureError :=
  ErrorJson (NotOfType target t).
Definition not_multiples_of_type (target : string) (t : JsonType) : SignatureError :=
  ErrorJson (NotMultiplesOfType target t).
Definition field_missing_from_object (target : string) : SignatureError :=
  ErrorJson (JsonFieldMissingFromObject target).
Definition key_missing (for_target type_of with_key : string) : SignatureError :=
  ErrorJson (JsonKeyMissing for_target type_of with_key).
Definition signature_not_found (target : string) : SignatureError :=
  ErrorVerification (SignatureNotFound target).
Definition public_key_not_found (target : string) : SignatureError :=
  ErrorVerification (PublicKeyNotFound target).
Definition from_event_id_by_room_version (event_id : string) (version : RoomVersionId) :
    SignatureError :=
  ErrorParse (ServerNameFromEventIdByRoomVersion event_id version).
Definition derived_vs_parsed_mismatch (parsed derived : string) : SignatureError :=
  ErrorParse (DerivedPublicKeyDoesNotMatchParsedKey parsed derived).
Definition parse_base64 (of_type s : string) : SignatureError := ErrorParse (ParseBase64 of_type s).

(** ** Other crates *)

(** The two base64 alphabets in use. *)
Inductive Base64Config := STANDARD_NO_PAD | URL_SAFE_NO_PAD.

(** [pkcs8::PrivateKeyInfo], the fields that are read or written *)
Record PrivateKeyInfo := {
  oid : string;
  private_key : string;
  public_key : option string
}.

Class Crypto := {
  sha256 : string → string;
  encode_config : Base64Config → string → string;
  decode_config : Base64Config → string → outcome () string;
  base64_round_trip : ∀ c s, decode_config c (encode_config c s) = Ok s;

  SecretKey : Type;
  SecretKey_from_bytes : string → outcome () SecretKey;
  SecretKey_as_bytes : SecretKey → string;
  PublicKey_from_secret : SecretKey → string;
  secret_sign : SecretKey → string → string;
  secret_round_trip : ∀ k, SecretKey_from_bytes (SecretKey_as_bytes k) = Ok k;
  secret_len : ∀ k, str_len (SecretKey_as_bytes k) = 32;

  PublicKey_valid : string → bool;
  Signature_valid : string → bool;
  ed25519_verify : string → string → string → bool;
  public_key_valid : ∀ k, PublicKey_valid (PublicKey_from_secret k) = true;
  signature_valid : ∀ k m, Signature_valid (secret_sign k m) = true;
  verify_sign : ∀ k m, ed25519_verify (PublicKey_from_secret k) m (secret_sign k m) = true;

  PrivateKeyInfo_from_der : string → outcome () PrivateKeyInfo;
  PrivateKeyInfo_to_vec : PrivateKeyInfo → outcome () string;
  der_round_trip : ∀ i d, PrivateKeyInfo_to_vec i = Ok d → PrivateKeyInfo_from_der d = Ok i
}.

(** ** lib.rs *)

Inductive Algorithm := Ed25519.

Definition Algorithm_as_ref (a : Algorithm) : string :=
  match a with Ed25519 => "ed25519" end.

Definition is_version_byte (b : ascii) : bool := is_ascii_alphanumeric b || byte_is "_" b.

Definition split_id (id : string) : outcome SplitError (Algorithm * string) :=
  match str_split ":" id with
  | [algorithm_input; version] =>
      if negb (bytes_all is_version_byte version) then Err (InvalidVersion version)
      else if decide (algorithm_input = "ed25519") then Ok (Ed25519, version)
      else Err (UnsupportedAlgorithm algorithm_input)
  | signature_id => Err (InvalidLength (length signature_id))
  end.

(** ** signatures.rs *)

Record Signature := { algorithm : Algorithm; signature : string; version : string }.

Definition Signature_new (id bytes : string) : outcome SignatureError Signature :=
  '(algorithm, version) ← map_err ErrorSplit (split_id id);
  Ok {| algorithm := algorithm; signature := bytes; version := version |}.

(** [format!("{}:{}", self.algorithm, self.version)] *)
Definition Signature_id (s : Signature) : string :=
  Algorithm_as_ref (algorithm s) +:+ ":" +:+ version s.

Section keys.
Context `{Crypto}.

Definition Signature_base64 (s : Signature) : string := encode_config STANDARD_NO_PAD (signature s).

(** ** keys.rs *)

Definition ED25519_OID : string := "1.3.101.112".

(** The trait [KeyPair]: what a key pair does to a message. *)
Definition KeyPair : Type := string → Signature.

Record Ed25519KeyPair := { privkey : SecretKey; pubkey : string; kp_version : string }.

(** The two bytes 0x04, 0x20 in front of 32 others *)
Definition octet_header : string := String "004" (String "032" "").

Definition correct_privkey_from_octolet (key : string) : string :=
  if bool_decide (str_len key = 34) && bool_decide (str_take 2 key = octet_header)
  then str_drop 2 key else key.

Definition Ed25519KeyPair_new (oid privkey : string) (pubkey : option string) (version : string) :
    outcome SignatureError Ed25519KeyPair :=
  if decide (oid ≠ ED25519_OID) then Err (ErrorParse (ParseOid ED25519_OID oid))
  else
    secret_key ← map_err (λ _, ErrorParse ParseSecretKey)
      (SecretKey_from_bytes (correct_privkey_from_octolet privkey));
    let derived_pubkey := PublicKey_from_secret secret_key in
    let mismatch :=
      match pubkey with Some oak_key => bool_decide (oak_key ≠ derived_pubkey) | None => false end in
    if mismatch then Err (derived_vs_parsed_mismatch (default "" pubkey) derived_pubkey)
    else Ok {| privkey := secret_key; pubkey := derived_pubkey; kp_version := version |}.

Definition from_pkcs8_oak (oak : PrivateKeyInfo) (version : string) :
    outcome SignatureError Ed25519KeyPair :=
  Ed25519KeyPair_new (oid oak) (private_key oak) (public_key oak) version.

Definition from_pkcs8_pki (oak : PrivateKeyInfo) (version : string) :
    outcome SignatureError Ed25519KeyPair :=
  Ed25519KeyPair_new (oid oak) (private_key oak) None version.

Definition from_der (document version : string) : outcome SignatureError Ed25519KeyPair :=
  oak ← map_err (λ _, DerParse) (PrivateKeyInfo_from_der document);
  from_pkcs8_oak oak version.

(** [generate], after the random generator has given the secret *)
Definition Ed25519KeyPair_generate (secret : SecretKey) : outcome SignatureError string :=
  let private := octet_header +:+ SecretKey_as_bytes secret in
  let pkinfo := {| oid := ED25519_OID; private_key := private;
                   public_key := Some (PublicKey_from_secret secret) |} in
  map_err (λ _, DerParse) (PrivateKeyInfo_to_vec pkinfo).

Definition Ed25519KeyPair_sign (k : Ed25519KeyPair) : KeyPair := λ message,
  {| algorithm := Ed25519; signature := secret_sign (privkey k) message; version := kp_version k |}.

(** ** verification.rs *)

Definition Ed25519Verifier_verify_json (public_key signature message : string) :
    outcome SignatureError () :=
  if negb (PublicKey_valid public_key) then Err (ErrorParse ParsePublicKey)
  else if negb (Signature_valid signature) then Err (ErrorParse ParseSignature)
  else if ed25519_verify public_key message signature then Ok ()
  else Err (ErrorVerification VerificationSignature).
End keys.

Inductive Verified := VerifiedAll | VerifiedSignatures.

(** ** Key identifiers and key pairs *)

Lemma version_no_colon v :
  bytes_all is_version_byte v = true → bytes_all (λ b, negb (byte_is ":" b)) v = true.
Proof.
  apply bytes_all_impl. intros b Hb. apply negb_true_iff. destruct (byte_is ":" b) eqn:Hc; [|done].
  apply byte_is_true in Hc as ->. by vm_compute in Hb.
Qed.

Lemma split_id_Ok id a v :
  split_id id = Ok (a, v) ↔ id = "ed25519:" +:+ v ∧ bytes_all is_version_byte v = true.
Proof.
  split.
  - unfold split_id. destruct (str_split ":" id) as [|p [|q [|]]] eqn:Hs; try done.
    destruct (bytes_all is_version_byte q) eqn:Hv; [|done]. simpl. case_decide as Hp; [|done].
    intros Heq. simplify_eq. split; [|done]. rewrite <- (str_join_split ":" id), Hs. simpl. reflexivity.
  - intros [-> Hv]. destruct a. unfold split_id.
    change ("ed25519:" +:+ v) with ("ed25519" +:+ String ":" v).
    rewrite str_split_sep, str_split_no_sep by (reflexivity || by apply version_no_colon).
    rewrite Hv. reflexivity.
Qed.

(** A key identifier splits exactly when it is [ed25519:] followed by a version of ASCII
    letters, digits and underscores; a signature made under an identifier has that identifier,
    and the identifier of a signature whose version is well formed gives it back. *)
Theorem split_id_spec :
  (∀ id a v, split_id id = Ok (a, v) ↔
     id = "ed25519:" +:+ v ∧ bytes_all is_version_byte v = true) ∧
  (∀ id bytes s, Signature_new id bytes = Ok s → Signature_id s = id ∧ signature s = bytes) ∧
  ∀ s, bytes_all is_version_byte (version s) = true →
    Signature_new (Signature_id s) (signature s) = Ok s.
Proof.
  split; [exact split_id_Ok|]. split.
  - unfold Signature_new. intros id bytes s ([a v] & Hs & [= <-])%bind_Ok.
    apply map_err_Ok, split_id_Ok in Hs as [-> _]. by destruct a.
  - intros [a b v] Hv. unfold Signature_new.
    rewrite (proj2 (split_id_Ok (Signature_id {| algorithm := a; signature := b; version := v |}) a v));
      [done|]. by destruct a.
Qed.

(** A generated document is read back as the key pair of its secret, with the public key
    checked; what the pair signs, the verifier accepts under the pair's public key. *)
Theorem generated_key_pair `{Crypto} secret document version message :
  Ed25519KeyPair_generate secret = Ok document →
  let pair := {| privkey := secret; pubkey := PublicKey_from_secret secret; kp_version := version |} in
  from_der document version = Ok pair ∧
  Ed25519Verifier_verify_json (pubkey pair) (signature (Ed25519KeyPair_sign pair message)) message =
    Ok ().
Proof.
  intros Hd%map_err_Ok%der_round_trip pair. split.
  - unfold from_der. rewrite Hd. cbn [map_err mbind outcome_bind].
    unfold from_pkcs8_oak, Ed25519KeyPair_new. cbn [oid private_key public_key].
    rewrite decide_False by auto.
    assert (correct_privkey_from_octolet (octet_header +:+ SecretKey_as_bytes secret) =
      SecretKey_as_bytes secret) as Hc.
    { unfold correct_privkey_from_octolet. rewrite str_len_app, secret_len.
      rewrite (str_take_app octet_header), (str_drop_app octet_header). reflexivity. }
    rewrite Hc, secret_round_trip. cbn [map_err mbind outcome_bind].
    by rewrite bool_decide_false by auto.
  - unfold Ed25519Verifier_verify_json. simpl.
    by rewrite public_key_valid, signature_valid, verify_sign.
Qed.

(** ** An implementation for the examples

    The functions satisfy the laws and protect nothing: a key is its own public key and a
    signature is the key followed by the message. *)
Definition toy_info_to_vec (i : PrivateKeyInfo) : string :=
  positive_to_string (encode (oid i, private_key i, public_key i)).
Definition toy_info_from_der (d : string) : outcome () PrivateKeyInfo :=
  match decode (A := string * string * option string) (string_to_positive d) with
  | Some (o, k, p) => Ok {| oid := o; private_key := k; public_key := p |}
  | None => Err ()
  end.

Lemma toy_der i d : Ok (toy_info_to_vec i) = Ok (E := ()) d → toy_info_from_der d = Ok i.
Proof.
  intros [= <-]. unfold toy_info_from_der, toy_info_to_vec.
  rewrite string_to_positive_to_string, decode_encode. by destruct i.
Qed.

(** Secrets are 32 bytes long. *)
Record toy_key := { toy_bytes : string; toy_len : str_len toy_bytes = 32 }.

Definition toy_key_from_bytes (s : string) : outcome () toy_key :=
  match decide (str_len s = 32) with
  | left H => Ok {| toy_bytes := s; toy_len := H |}
  | right _ => Err ()
  end.

Lemma toy_key_round_trip k : toy_key_from_bytes (toy_bytes k) = Ok k.
Proof.
  unfold toy_key_from_bytes. destruct k as [s Hs]. simpl.
  destruct (decide (str_len s = 32)) as [Hs'|]; [|done]. by rewrite (proof_irrel Hs' Hs).
Qed.

Definition toy_crypto : Crypto := {|
  sha256 := λ s, s;
  encode_config := λ _ s, s;
  decode_config := λ _ s, Ok s;
  base64_round_trip := λ _ _, eq_refl;
  SecretKey := toy_key;
  SecretKey_from_bytes := toy_key_from_bytes;
  SecretKey_as_bytes := toy_bytes;
  PublicKey_from_secret := toy_bytes;
  secret_sign := λ k m, toy_bytes k +:+ m;
  secret_round_trip := toy_key_round_trip;
  secret_len := toy_len;
  PublicKey_valid := λ _, true;
  Signature_valid := λ _, true;
  ed25519_verify := λ p m s, bool_decide (s = p +:+ m);
  public_key_valid := λ _, eq_refl;
  signature_valid := λ _ _, eq_refl;
  verify_sign := λ k m, bool_decide_eq_true_2 _ eq_refl;
  PrivateKeyInfo_from_der := toy_info_from_der;
  PrivateKeyInfo_to_vec := λ i, Ok (toy_info_to_vec i);
  der_round_trip := toy_der
|}.

Definition toy_secret : toy_key :=
  {| toy_bytes := "0123456789abcdef0123456789abcdef"; toy_len := eq_refl |}.

Lemma generated_key_pair_witness :
  let _ := toy_crypto in
  ∃ document, Ed25519KeyPair_generate toy_secret = Ok document ∧
    from_der document "1" =
      Ok {| privkey := toy_secret : SecretKey; pubkey := toy_bytes toy_secret; kp_version := "1" |}.
Proof.
  intros c. eexists. split; [reflexivity|].
  exact (proj1 (generated_key_pair toy_secret _ "1" "" eq_refl)).
Defined.
