(* ===== verification/Signing.v ===== *)
(** * Signing, hashing, verifying and redacting JSON

    [ruma-signatures/src/functions.rs], function by function. An object that a function takes
    by [&mut] is given back beside the result, also when the result is an error. *)

From S2P Require Import Prelude RustStr RustNet IdValidation StringEnum Identifiers Json.
From S2P Require Import CanonicalJson SigningKeys.
From Stdlib Require Import Ascii NArith.
Open Scope string_scope.
Open Scope nat_scope.

(** [BTreeMap<String, BTreeMap<String, String>>] *)
Notation PublicKeySet := (gmap string string).
Notation PublicKeyMap := (gmap string (gmap string string)).

Definition MAX_PDU_BYTES : nat := 65535.

Definition ALLOWED_KEYS : list string :=
  [ "event_id"; "type"; "room_id"; "sender"; "state_key"; "content"; "hashes"; "signatures";
    "depth"; "prev_events"; "prev_state"; "auth_events"; "origin"; "origin_server_ts";
    "membership" ].

Definition allowed_content_keys_for (event_type : string) (version : RoomVersionId) : list string :=
  if decide (event_type = "m.room.member") then ["membership"]
  else if decide (event_type = "m.room.create") then ["creator"]
  else if decide (event_type = "m.room.join_rules") then ["join_rule"]
  else if decide (event_type = "m.room.power_levels") then
    ["ban"; "events"; "events_default"; "kick"; "redact"; "state_default"; "users";
     "users_default"]
  else if decide (event_type = "m.room.aliases") then
    match version with
    | V1 | V2 | V3 | V4 | V5 => ["aliases"]
    | _ => []
    end
  else if decide (event_type = "m.room.history_visibility") then ["history_visibility"]
  else [].

Definition CANONICAL_JSON_FIELDS_TO_REMOVE : list string := ["signatures"; "unsigned"].
Definition CONTENT_HASH_FIELDS_TO_REMOVE : list string := ["hashes"; "signatures"; "unsigned"].
Definition REFERENCE_HASH_FIELDS_TO_REMOVE : list string := ["age_ts"; "signatures"; "unsigned"].

(** ** Redaction *)

(** [for &key in keys { if let Some(v) = old.remove(key) { new.insert(key, v); } }] *)
Definition move_keys (keys : list string) (old : CanonicalJsonObject) : CanonicalJsonObject :=
  (fold_left (λ '(old, new) key,
      match old !! key with
      | Some value => (delete key old, <[key := value]> new)
      | None => (old, new)
      end) keys (old, ∅)).2.

Definition redact (object : CanonicalJsonObject) (version : RoomVersionId) :
    outcome SignatureError CanonicalJsonObject :=
  event_type_value ← ok_or (field_missing_from_object "type") (object !! "type");
  event_type ← ok_or (not_of_type "type" JT_String) (as_str event_type_value);
  let allowed_content_keys := allowed_content_keys_for event_type version in
  event ←
    match object !! "content" with
    | Some content_value =>
        content ← ok_or (not_of_type "content" JT_Object) (as_object content_value);
        Ok (<["content" := CObject (move_keys allowed_content_keys content)]> object)
    | None => Ok object
    end;
  Ok (move_keys ALLOWED_KEYS event).

Definition is_third_party_invite (object : CanonicalJsonObject) : outcome SignatureError bool :=
  match object !! "type" with
  | Some (CString raw_type) => Ok (bool_decide (raw_type = "m.room.third_party_invite"))
  | _ => Err (not_of_type "type" JT_String)
  end.

Section functions.
Context `{Unicode} `{SerdeJson} `{Crypto}.

Definition canonical_json_with_fields_to_remove (object : CanonicalJsonObject)
    (fields : list string) : outcome SignatureError string :=
  Ok (to_json_string (CObject (fold_left (λ o field, delete field o) fields object))).

Definition canonical_json (object : CanonicalJsonObject) : outcome SignatureError string :=
  canonical_json_with_fields_to_remove object CANONICAL_JSON_FIELDS_TO_REMOVE.

Definition content_hash (object : CanonicalJsonObject) : outcome SignatureError string :=
  json ← canonical_json_with_fields_to_remove object CONTENT_HASH_FIELDS_TO_REMOVE;
  if decide (MAX_PDU_BYTES < str_len json) then Err PduSize
  else Ok (encode_config STANDARD_NO_PAD (sha256 json)).

Definition reference_hash (value : CanonicalJsonObject) (version : RoomVersionId) :
    outcome SignatureError string :=
  redacted_value ← redact value version;
  json ← canonical_json_with_fields_to_remove redacted_value REFERENCE_HASH_FIELDS_TO_REMOVE;
  if decide (MAX_PDU_BYTES < str_len json) then Err PduSize
  else
    let config := match version with V1 | V2 | V3 => STANDARD_NO_PAD | _ => URL_SAFE_NO_PAD end in
    Ok (encode_config config (sha256 json)).

(** ** Signing *)

Definition sign_json (entity_id : string) (key_pair : KeyPair) (object : CanonicalJsonObject) :
    outcome SignatureError () * CanonicalJsonObject :=
  let removed := object !! "signatures" in
  let object := delete "signatures" object in
  match
    match removed with
    | Some (CObject signatures) => Some signatures
    | Some _ => None
    | None => Some ∅
    end
  with
  | None => (Err (not_of_type "signatures" JT_Object), object)
  | Some signature_map =>
      let maybe_unsigned_entry := object !! "unsigned" in
      let object := delete "unsigned" object in
      let json := to_json_string (CObject object) in
      let signature := key_pair json in
      match default (CObject ∅) (signature_map !! entity_id) with
      | CObject signature_set =>
          let signature_set :=
            <[Signature_id signature := CString (Signature_base64 signature)]> signature_set in
          let signature_map := <[entity_id := CObject signature_set]> signature_map in
          let object := <["signatures" := CObject signature_map]> object in
          (Ok (), match maybe_unsigned_entry with
                  | Some v => <["unsigned" := v]> object
                  | None => object
                  end)
      | _ => (Err (not_multiples_of_type "signatures" JT_Object), object)
      end
  end.

Definition hash_and_sign_event (entity_id : string) (key_pair : KeyPair)
    (object : CanonicalJsonObject) (version : RoomVersionId) :
    outcome SignatureError () * CanonicalJsonObject :=
  match content_hash object with
  | Err e => (Err e, object)
  | Panic => (Panic, object)
  | Ok hash =>
      let hashes_value := default (CObject ∅) (object !! "hashes") in
      match hashes_value with
      | CObject hashes =>
          let object := <["hashes" := CObject (<["sha256" := CString hash]> hashes)]> object in
          match redact object version with
          | Err e => (Err e, object)
          | Panic => (Panic, object)
          | Ok redacted =>
              match sign_json entity_id key_pair redacted with
              | (Err e, _) => (Err e, object)
              | (Panic, _) => (Panic, object)
              | (Ok _, redacted) =>
                  match redacted !! "signatures" with
                  | Some signatures => (Ok (), <["signatures" := signatures]> object)
                  | None => (Panic, object)
                  end
              end
          end
      | _ => (Err (not_of_type "hashes" JT_Object), <["hashes" := hashes_value]> object)
      end
  end.

(** ** Verifying *)

Definition verify_json_with (verifier : string → string → string → outcome SignatureError ())
    (public_key signature : string) (object : CanonicalJsonObject) : outcome SignatureError () :=
  json ← canonical_json object;
  verifier public_key signature json.

(** The closure [verify] of both verifying functions, for the one configuration in use. *)
Definition verify_encoded (signature public_key : string) (object : CanonicalJsonObject) :
    outcome SignatureError () :=
  signature_bytes ← map_err (λ _, parse_base64 "signature" signature)
    (decode_config STANDARD_NO_PAD signature);
  public_key_bytes ← map_err (λ _, parse_base64 "public key" public_key)
    (decode_config STANDARD_NO_PAD public_key);
  verify_json_with Ed25519Verifier_verify_json public_key_bytes signature_bytes object.

(** One signature of an entity's set. *)
Definition verify_one (entity_id : string) (public_keys : PublicKeySet)
    (object : CanonicalJsonObject) (key_id : string) (signature : CanonicalJsonValue) :
    outcome SignatureError () :=
  signature ← ok_or (not_of_type "signature" JT_String) (as_str signature);
  public_key ← ok_or (key_missing ("public_keys of " +:+ entity_id) "signature" key_id)
    (public_keys !! key_id);
  verify_encoded signature public_key object.

(** One entity of the signature map. *)
Definition verify_entity (public_key_map : PublicKeyMap) (object : CanonicalJsonObject)
    (entity_id : string) (signature_set : CanonicalJsonValue) : outcome SignatureError () :=
  signature_set ← ok_or (not_multiples_of_type "signature sets" JT_Object) (as_object signature_set);
  public_keys ← ok_or (key_missing "public_key_map" "public_keys" entity_id)
    (public_key_map !! entity_id);
  for_each (λ _ '(key_id, signature), verify_one entity_id public_keys object key_id signature)
    () (btree_iter signature_set).

(** The signature map of an object, or the error that both verifying functions give. *)
Definition get_signature_map (object : CanonicalJsonObject) :
    outcome SignatureError CanonicalJsonObject :=
  match object !! "signatures" with
  | Some (CObject signatures) => Ok signatures
  | Some _ => Err (not_of_type "signatures" JT_Object)
  | None => Err (field_missing_from_object "signatures")
  end.

Definition verify_json (public_key_map : PublicKeyMap) (object : CanonicalJsonObject) :
    outcome SignatureError () :=
  signature_map ← get_signature_map object;
  for_each (λ _ '(entity_id, signature_set),
      verify_entity public_key_map object entity_id signature_set)
    () (btree_iter signature_map).

Definition servers_to_check_signatures (object : CanonicalJsonObject) (version : RoomVersionId) :
    outcome SignatureError (gset string) :=
  invite ← is_third_party_invite object;
  servers_to_check ←
    if (invite : bool) then Ok ∅
    else
      match object !! "sender" with
      | Some (CString raw_sender) =>
          user_id ← map_err (λ e, ErrorParse (ParseUserId e)) (UserId_parse raw_sender);
          server ← map_err (λ e, ErrorParse (ParseUserId e)) (server_name user_id);
          Ok {[server]}
      | _ => Err (not_of_type "sender" JT_String)
      end;
  match version with
  | V1 | V2 =>
      match object !! "event_id" with
      | Some (CString raw_event_id) =>
          event_id ← map_err (λ e, ErrorParse (ParseEventId e)) (EventId_parse raw_event_id);
          server ← map_err (λ e, ErrorParse (ParseEventId e)) (EventId_server_name event_id);
          server ← ok_or (from_event_id_by_room_version event_id version) server;
          Ok ({[server]} ∪ servers_to_check)
      | _ => Err (field_missing_from_object "event_id")
      end
  | _ => Ok servers_to_check
  end.

(** The loop over the known keys of a server: the first that the event is signed with, unless
    a key identifier that does not split comes before it. *)
Fixpoint find_signature (public_keys : list (string * string))
    (signature_set : CanonicalJsonObject) : option (CanonicalJsonValue * string) :=
  match public_keys with
  | [] => None
  | (key_id, public_key) :: public_keys =>
      match split_id key_id with
      | Ok _ =>
          match signature_set !! key_id with
          | Some signature => Some (signature, public_key)
          | None => find_signature public_keys signature_set
          end
      | _ => None
      end
  end.

(** One server whose signature is required. *)
Definition verify_server (public_key_map : PublicKeyMap) (signature_map canonical_json : CanonicalJsonObject)
    (entity_id : string) : outcome SignatureError () :=
  signature_set ←
    match signature_map !! entity_id with
    | Some (CObject set) => Ok set
    | Some _ => Err (not_multiples_of_type "signature sets" JT_Object)
    | None => Err (signature_not_found entity_id)
    end;
  public_keys ← ok_or (public_key_not_found entity_id) (public_key_map !! entity_id);
  '(signature, public_key) ← ok_or (ErrorVerification UnknownPublicKeysForSignature)
    (find_signature (btree_iter public_keys) signature_set);
  signature ← ok_or (not_of_type "signature" JT_String) (as_str signature);
  verify_encoded signature public_key canonical_json.

Definition get_sha256 (object : CanonicalJsonObject) : outcome SignatureError string :=
  match object !! "hashes" with
  | Some (CObject hashes) =>
      match hashes !! "sha256" with
      | Some (CString hash) => Ok hash
      | Some _ => Err (not_of_type "sha256 hash" JT_String)
      | None => Err (not_of_type "hashes" JT_Object)
      end
  | Some _ => Err (field_missing_from_object "sha256")
  | None => Err (field_missing_from_object "hashes")
  end.

(** [from_json_str(&canonical_json(&redacted)?)] *)
Definition reparse (redacted : CanonicalJsonObject) : outcome SignatureError CanonicalJsonObject :=
  json ← canonical_json redacted;
  map_err (λ _, ErrorJson JsonSerde) (CanonicalJsonObject_from_str json).

(** A [BTreeSet] is visited in order. *)
Definition servers_in_order (s : gset string) : list string :=
  merge_sort str_le (elements s).

Definition verify_event (public_key_map : PublicKeyMap) (object : CanonicalJsonObject)
    (version : RoomVersionId) : outcome SignatureError Verified :=
  redacted ← redact object version;
  hash ← get_sha256 object;
  signature_map ← get_signature_map object;
  servers_to_check ← servers_to_check_signatures object version;
  canonical_json ← reparse redacted;
  _ ← for_each (λ _ entity_id, verify_server public_key_map signature_map canonical_json entity_id)
        () (servers_in_order servers_to_check);
  calculated_hash ← content_hash object;
  if decide (hash = calculated_hash) then Ok VerifiedAll else Ok VerifiedSignatures.
End functions.
