(* ===== verification/SigningSpec.v ===== *)
(** * What signing, verifying and redacting promise

    Redaction keeps the listed keys and is idempotent, so the reference hash of an event is
    that of its redacted form; what [sign_json] and [hash_and_sign_event] produce is accepted by
    [verify_json] and [verify_event]; and what these accept is signed. *)

From S2P Require Import Prelude RustStr RustNet IdValidation StringEnum Identifiers Json.
From S2P Require Import CanonicalJson SigningKeys Signing.
From Stdlib Require Import Ascii NArith.
Open Scope string_scope.
Open Scope nat_scope.

(** ** Redaction *)

Lemma move_keys_fold keys (old new : CanonicalJsonObject) k :
  (fold_left (λ '(old, new) key,
      match old !! key with
      | Some value => (delete key old, <[key := value]> new)
      | None => (old, new)
      end) keys (old, new)).2 !! k =
  if decide (k ∈ keys ∧ is_Some (old !! k)) then old !! k else new !! k.
Proof.
  revert old new. induction keys as [|a keys IH]; intros old new; simpl; [done|].
  destruct (old !! a) as [v|] eqn:Ha; rewrite IH.
  - destruct (decide (k = a)) as [->|Hne].
    + rewrite lookup_delete_eq, lookup_insert_eq, Ha.
      rewrite decide_False by by intros [_ [? [=]]].
      by rewrite decide_True by (split; [by left|eauto]).
    + rewrite lookup_delete_ne, lookup_insert_ne by done. apply decide_ext.
      rewrite elem_of_cons. naive_solver.
  - apply decide_ext. rewrite elem_of_cons. split; [naive_solver|].
    intros [[->|?] Hs]; [|done]. rewrite Ha in Hs. by destruct Hs.
Qed.

Lemma move_keys_lookup keys (m : CanonicalJsonObject) k :
  move_keys keys m !! k = if decide (k ∈ keys) then m !! k else None.
Proof.
  unfold move_keys. rewrite move_keys_fold, lookup_empty.
  destruct (m !! k) as [v|] eqn:Hk.
  - apply decide_ext. naive_solver.
  - rewrite decide_False by by intros [_ [? [=]]]. by case_decide.
Qed.

(** What redaction leaves of a content. *)
Definition redact_content (ty : string) (version : RoomVersionId) (v : CanonicalJsonValue) :
    CanonicalJsonValue :=
  match v with
  | CObject content => CObject (move_keys (allowed_content_keys_for ty version) content)
  | v => v
  end.

(** An event that can be redacted: it has a type, and a content that is an object if any. *)
Definition redactable (object : CanonicalJsonObject) (ty : string) : Prop :=
  object !! "type" = Some (CString ty) ∧
  ∀ c, object !! "content" = Some c → ∃ m, c = CObject m.

Lemma redact_lookup object version ty r :
  redactable object ty →
  redact object version = Ok r ↔
  ∀ k, r !! k =
    if decide (k ∈ ALLOWED_KEYS) then
      if decide (k = "content") then redact_content ty version <$> object !! k else object !! k
    else None.
Proof.
  intros [Hty Hc]. unfold redact. rewrite Hty. cbn [ok_or as_str mbind outcome_bind].
  set (r' := move_keys ALLOWED_KEYS (match object !! "content" with
    | Some c => <["content" := redact_content ty version c]> object | None => object end)).
  assert ((event ← match object !! "content" with
    | Some content_value =>
        content ← ok_or (not_of_type "content" JT_Object) (as_object content_value);
        Ok (<["content" := CObject (move_keys (allowed_content_keys_for ty version) content)]> object)
    | None => Ok object end; Ok (E:=SignatureError) (move_keys ALLOWED_KEYS event)) = Ok r') as ->.
  { unfold r'. destruct (object !! "content") as [c|] eqn:Hk; [|done].
    by destruct (Hc c eq_refl) as [m ->]. }
  assert (∀ k, r' !! k = if decide (k ∈ ALLOWED_KEYS) then
      if decide (k = "content") then redact_content ty version <$> object !! k else object !! k
    else None) as Hr.
  { intros k. unfold r'. rewrite move_keys_lookup. destruct (decide (k ∈ ALLOWED_KEYS)); [|done].
    case_decide as Hk; [subst k|].
    - destruct (object !! "content") as [c|] eqn:Hk; [by rewrite lookup_insert_eq|done].
    - destruct (object !! "content"); [by rewrite lookup_insert_ne|done]. }
  split; [by intros [= <-]|]. intros Hr'. f_equal. apply map_eq. intros k. by rewrite Hr, Hr'.
Qed.

Lemma redact_Ok_redactable object version r :
  redact object version = Ok r → ∃ ty, redactable object ty.
Proof.
  unfold redact, redactable.
  intros (tv & Htv%ok_or_Ok & (ty & Hty%ok_or_Ok & (ev & Hev & _)%bind_Ok)%bind_Ok)%bind_Ok.
  destruct tv as [| | |s| |]; simplify_eq/=. exists ty. split; [done|]. intros c Hc.
  rewrite Hc in Hev. apply bind_Ok in Hev as (m & Hm%ok_or_Ok & _). destruct c; simplify_eq/=. eauto.
Qed.

Lemma redactable_total object version ty :
  redactable object ty → ∃ r, redact object version = Ok r.
Proof.
  intros [Hty Hc]. unfold redact. rewrite Hty. cbn [ok_or as_str mbind outcome_bind].
  destruct (object !! "content") as [c|]; [|eauto]. destruct (Hc c eq_refl) as [m ->]. simpl. eauto.
Qed.

(** C14: redaction succeeds exactly on objects with a string [type] and, if any, an object
    [content]; it keeps the allowed keys of the event as they are, except that the content
    keeps only the keys allowed for the event's type; and it fails with the error of the first
    of these that is not so. *)
Theorem redact_spec object version :
  (∀ r, redact object version = Ok r ↔
     ∃ ty, redactable object ty ∧ ∀ k, r !! k =
       if decide (k ∈ ALLOWED_KEYS) then
         if decide (k = "content") then redact_content ty version <$> object !! k
         else object !! k
       else None) ∧
  (object !! "type" = None → redact object version = Err (field_missing_from_object "type")) ∧
  (∀ t, object !! "type" = Some t → as_str t = None →
     redact object version = Err (not_of_type "type" JT_String)) ∧
  (∀ ty c, object !! "type" = Some (CString ty) → object !! "content" = Some c →
     as_object c = None → redact object version = Err (not_of_type "content" JT_Object)).
Proof.
  split_and!.
  - intros r. split.
    + intros Hr. destruct (redact_Ok_redactable _ _ _ Hr) as [ty Hty]. exists ty. split; [done|].
      by apply (redact_lookup _ _ _ _ Hty).
    + intros (ty & Hty & Hr). by apply (redact_lookup _ _ _ _ Hty).
  - unfold redact. by intros ->.
  - unfold redact. intros t -> Ht. simpl. by rewrite Ht.
  - unfold redact. intros ty c -> -> Hc. simpl. by rewrite Hc.
Qed.

Lemma redact_content_idemp ty version v :
  redact_content ty version (redact_content ty version v) = redact_content ty version v.
Proof.
  destruct v as [| | | | |m]; try done. simpl. f_equal. apply map_eq. intros k.
  rewrite !move_keys_lookup. by case_decide.
Qed.

Lemma type_allowed : "type" ∈ ALLOWED_KEYS. Proof. by decide_it. Qed.
Lemma content_allowed : "content" ∈ ALLOWED_KEYS. Proof. by decide_it. Qed.
Lemma signatures_allowed : "signatures" ∈ ALLOWED_KEYS. Proof. by decide_it. Qed.

Lemma redacted_redactable object version ty r :
  redactable object ty → redact object version = Ok r → redactable r ty.
Proof.
  intros Ho Hr. pose proof (proj1 (redact_lookup _ _ _ _ Ho) Hr) as Hk. destruct Ho as [Hty Hc].
  split.
  - by rewrite Hk, decide_True, decide_False by (done || apply type_allowed).
  - intros c. rewrite Hk, decide_True, decide_True by (done || apply content_allowed).
    intros (c' & Hc' & ->)%fmap_Some. destruct (Hc c' Hc') as [m ->]. simpl. eauto.
Qed.

Lemma redact_idemp object version r :
  redact object version = Ok r → redact r version = Ok r.
Proof.
  intros Hr. destruct (redact_Ok_redactable _ _ _ Hr) as [ty Ho].
  pose proof (proj1 (redact_lookup _ _ _ _ Ho) Hr) as Hk.
  apply (redact_lookup _ _ _ _ (redacted_redactable _ _ _ _ Ho Hr)). intros k. rewrite !Hk.
  case_decide as Ha; [|done]. case_decide as Hc; [|done].
  destruct (object !! k); simpl; [|done]. by rewrite redact_content_idemp.
Qed.

(** ** Hashes *)

Section specs.
Context `{Unicode} `{SerdeJson} `{Crypto}.

Definition strip (fields : list string) (object : CanonicalJsonObject) : CanonicalJsonObject :=
  fold_left (λ o field, delete field o) fields object.

Lemma strip_lookup fields object k :
  strip fields object !! k = if decide (k ∈ fields) then None else object !! k.
Proof.
  unfold strip. revert object. induction fields as [|f fields IH]; intros object; simpl; [done|].
  rewrite IH. destruct (decide (k = f)) as [->|Hne].
  - rewrite lookup_delete_eq. rewrite (decide_True (P:=f ∈ f :: fields)) by by left. by case_decide.
  - rewrite lookup_delete_ne by done. apply decide_ext. rewrite elem_of_cons. naive_solver.
Qed.

Lemma strip_ext fields (o1 o2 : CanonicalJsonObject) :
  (∀ k, k ∉ fields → o1 !! k = o2 !! k) → strip fields o1 = strip fields o2.
Proof. intros Heq. apply map_eq. intros k. rewrite !strip_lookup. case_decide; auto. Qed.

Lemma content_hash_ext o1 o2 :
  (∀ k, k ∉ CONTENT_HASH_FIELDS_TO_REMOVE → o1 !! k = o2 !! k) →
  content_hash o1 = content_hash o2.
Proof.
  intros Heq. unfold content_hash, canonical_json_with_fields_to_remove.
  fold (strip CONTENT_HASH_FIELDS_TO_REMOVE o1) (strip CONTENT_HASH_FIELDS_TO_REMOVE o2).
  by rewrite (strip_ext _ _ _ Heq).
Qed.

Lemma canonical_json_ext o1 o2 :
  (∀ k, k ∉ CANONICAL_JSON_FIELDS_TO_REMOVE → o1 !! k = o2 !! k) →
  canonical_json o1 = canonical_json o2.
Proof.
  intros Heq. unfold canonical_json, canonical_json_with_fields_to_remove.
  fold (strip CANONICAL_JSON_FIELDS_TO_REMOVE o1) (strip CANONICAL_JSON_FIELDS_TO_REMOVE o2).
  by rewrite (strip_ext _ _ _ Heq).
Qed.

(** Redaction is idempotent, and the reference hash of an event is the reference hash of
    its redacted form: redacting an event does not change the identifier computed from it. *)
Theorem reference_hash_redacted object version r :
  redact object version = Ok r →
  redact r version = Ok r ∧ reference_hash r version = reference_hash object version.
Proof.
  intros Hr. pose proof (redact_idemp _ _ _ Hr) as Hi. split; [done|].
  unfold reference_hash. by rewrite Hr, Hi.
Qed.

(** ** Signing *)

Lemma verify_encoded_ext signature public_key o1 o2 :
  canonical_json o1 = canonical_json o2 →
  verify_encoded signature public_key o1 = verify_encoded signature public_key o2.
Proof. intros Heq. unfold verify_encoded, verify_json_with. by rewrite Heq. Qed.

(** The signature map an object has, when [sign_json] can use it. *)
Definition signatures_of (object : CanonicalJsonObject) : option CanonicalJsonObject :=
  match object !! "signatures" with
  | Some (CObject m) => Some m
  | Some _ => None
  | None => Some ∅
  end.

(** The object [sign_json] signs, and the one it leaves. *)
Definition signed_part (object : CanonicalJsonObject) : CanonicalJsonObject :=
  delete "unsigned" (delete "signatures" object).
Definition with_signature (entity_id : string) (key_pair : KeyPair) (set sigs object : CanonicalJsonObject) :
    CanonicalJsonObject :=
  let s := key_pair (to_json_string (CObject (signed_part object))) in
  <["signatures" := CObject (<[entity_id :=
      CObject (<[Signature_id s := CString (Signature_base64 s)]> set)]> sigs)]> object.

Lemma sign_json_cases entity_id key_pair object :
  sign_json entity_id key_pair object =
  match signatures_of object with
  | None => (Err (not_of_type "signatures" JT_Object), delete "signatures" object)
  | Some sigs =>
      match default (CObject ∅) (sigs !! entity_id) with
      | CObject set => (Ok (), with_signature entity_id key_pair set sigs object)
      | _ => (Err (not_multiples_of_type "signatures" JT_Object), signed_part object)
      end
  end.
Proof.
  unfold sign_json, signatures_of, with_signature, signed_part.
  destruct (match object !! "signatures" with
            | Some (CObject m) => Some m | Some _ => None | None => Some ∅ end) as [sigs|]; [|done].
  destruct (default (CObject ∅) (sigs !! entity_id)) as [| | | | |set]; try done.
  f_equal. apply map_eq. intros k. rewrite lookup_delete_ne by done.
  destruct (decide (k = "signatures")) as [->|Hs].
  { destruct (object !! "unsigned"); [rewrite lookup_insert_ne by done|]; by rewrite !lookup_insert_eq. }
  rewrite (lookup_insert_ne object) by done.
  destruct (object !! "unsigned") as [u|] eqn:Hu;
    (destruct (decide (k = "unsigned")) as [->|Hk];
     rewrite ?lookup_insert_eq, ?lookup_insert_ne, ?lookup_delete_eq, ?lookup_delete_ne by done;
     done).
Qed.

(** C16: [sign_json] on every input. It signs the object without its [signatures] and
    [unsigned]; on success only the [signatures] field is new, with one more signature of the
    entity. When it fails, the object it was given has lost its [signatures], and in the second
    case its [unsigned] field too. *)
Theorem sign_json_spec entity_id key_pair object :
  let (result, object') := sign_json entity_id key_pair object in
  match signatures_of object with
  | None =>
      result = Err (not_of_type "signatures" JT_Object) ∧ object' = delete "signatures" object
  | Some sigs =>
      match default (CObject ∅) (sigs !! entity_id) with
      | CObject set =>
          result = Ok () ∧ object' = with_signature entity_id key_pair set sigs object
      | _ =>
          result = Err (not_multiples_of_type "signatures" JT_Object) ∧
          object' = signed_part object
      end
  end.
Proof.
  rewrite sign_json_cases. destruct (signatures_of object) as [sigs|]; [|done].
  by destruct (default _ _).
Qed.

(** ** Verifying *)

Lemma for_each_unit {E A} (f : A → outcome E ()) l :
  for_each (λ _ x, f x) () l = Ok () ↔ ∀ x, x ∈ l → f x = Ok ().
Proof.
  induction l as [|x l IH]; simpl.
  - split; [by intros _ ? ?%elem_of_nil|done].
  - rewrite bind_Ok. setoid_rewrite elem_of_cons. split.
    + intros ([] & Hx & Hl) y [->|Hy]; [done|]. by apply IH.
    + intros Hall. exists (). split; [by apply Hall; left|]. apply IH. auto.
Qed.

Lemma for_each_pairs {E A} (f : string → A → outcome E ()) (m : gmap string A) :
  for_each (λ _ '(k, v), f k v) () (btree_iter m) = Ok () ↔ ∀ k v, m !! k = Some v → f k v = Ok ().
Proof.
  rewrite (for_each_unit (λ '(k, v), f k v)). split.
  - intros Hall k v Hk. apply (Hall (k, v)). by apply elem_of_btree_iter.
  - intros Hall [k v] Hk%elem_of_btree_iter. auto.
Qed.

(** A signature that the verifier accepts for an object under an encoded public key. *)
Definition signs (object : CanonicalJsonObject) (public_key signature : string) : Prop :=
  ∃ json pk sg, canonical_json object = Ok json ∧
    decode_config STANDARD_NO_PAD public_key = Ok pk ∧
    decode_config STANDARD_NO_PAD signature = Ok sg ∧
    Ed25519Verifier_verify_json pk sg json = Ok ().

Lemma verify_encoded_signs signature public_key object :
  verify_encoded signature public_key object = Ok () ↔ signs object public_key signature.
Proof.
  unfold verify_encoded, verify_json_with, signs. split.
  - intros (sg & Hsg%map_err_Ok & (pk & Hpk%map_err_Ok & (json & Hj & Hv)%bind_Ok)%bind_Ok)%bind_Ok.
    eauto 10.
  - intros (json & pk & sg & Hj & Hpk & Hsg & Hv). rewrite Hsg, Hpk. cbn [map_err mbind outcome_bind].
    by rewrite Hj.
Qed.

(** Everything in the signature map is signed under a known key. *)
Definition all_signed (map : PublicKeyMap) (object sigs : CanonicalJsonObject) : Prop :=
  ∀ entity set, sigs !! entity = Some set → ∃ m keys, set = CObject m ∧ map !! entity = Some keys ∧
    ∀ id s, m !! id = Some s → ∃ sg pk, s = CString sg ∧ keys !! id = Some pk ∧ signs object pk sg.

Lemma verify_json_Ok map object :
  verify_json map object = Ok () ↔
  ∃ sigs, object !! "signatures" = Some (CObject sigs) ∧ all_signed map object sigs.
Proof.
  unfold verify_json, all_signed.
  assert (∀ sigs, for_each (λ _ '(e, s), verify_entity map object e s) () (btree_iter sigs) = Ok () ↔
    ∀ entity set, sigs !! entity = Some set → ∃ m keys, set = CObject m ∧ map !! entity = Some keys ∧
      ∀ id s, m !! id = Some s → ∃ sg pk, s = CString sg ∧ keys !! id = Some pk ∧ signs object pk sg)
    as Hloop.
  { intros sigs. rewrite for_each_pairs. apply forall_proper. intros e. apply forall_proper. intros set.
    unfold verify_entity. split; intros He Hset; specialize (He Hset).
    - apply bind_Ok in He as (m & Hm%ok_or_Ok & (keys & Hkeys%ok_or_Ok & Hall)%bind_Ok).
      destruct set; simplify_eq/=. exists m, keys. split_and!; [done..|].
      intros id s Hs. rewrite for_each_pairs in Hall. specialize (Hall id s Hs).
      unfold verify_one in Hall.
      apply bind_Ok in Hall as (sg & Hsg%ok_or_Ok & (pk & Hpk%ok_or_Ok & Hv)%bind_Ok).
      destruct s; simplify_eq/=. exists sg, pk. split_and!; [done..|]. by apply verify_encoded_signs.
    - destruct He as (m & keys & -> & Hkeys & Hall). simpl. rewrite Hkeys. simpl.
      apply for_each_pairs. intros id s Hs. destruct (Hall id s Hs) as (sg & pk & -> & Hpk & Hv).
      unfold verify_one. simpl. rewrite Hpk. simpl. by apply verify_encoded_signs. }
  rewrite bind_Ok. unfold get_signature_map. split.
  - intros (sigs & Hs & Hall). exists sigs. split; [|by apply Hloop].
    destruct (object !! "signatures") as [[]|]; simplify_eq/=; done.
  - intros (sigs & -> & Hall). exists sigs. split; [done|]. by apply Hloop.
Qed.

(** C15: [verify_json] succeeds exactly when the object has a signature map in which every
    entity is known with its keys and every signature of every entity is one that the verifier
    accepts for the object's canonical JSON under the known key of the same identifier. The
    loop runs over the signatures of the object, not over the key map: an entity of the key map
    that has not signed is not missed, whatever the documentation of [verify_json] says, and an
    object with an empty signature map passes with every key map. *)
Theorem verify_json_spec map object :
  (verify_json map object = Ok () ↔
   ∃ sigs, object !! "signatures" = Some (CObject sigs) ∧ all_signed map object sigs) ∧
  verify_json map (<["signatures" := CObject ∅]> object) = Ok ().
Proof.
  split; [apply verify_json_Ok|]. apply verify_json_Ok. exists ∅.
  split; [apply lookup_insert_eq|]. intros entity set. by rewrite lookup_empty.
Qed.

(** A key pair as [Ed25519KeyPair_new] makes them. *)
Definition matching (pair : Ed25519KeyPair) : Prop :=
  pubkey pair = PublicKey_from_secret (privkey pair).
Definition encoded_pubkey (pair : Ed25519KeyPair) : string :=
  encode_config STANDARD_NO_PAD (pubkey pair).
Definition key_id_of (pair : Ed25519KeyPair) : string := "ed25519:" +:+ kp_version pair.

Lemma fresh_signature pair object o' :
  matching pair → canonical_json o' = Ok (to_json_string (CObject (signed_part object))) →
  signs o' (encoded_pubkey pair)
    (Signature_base64 (Ed25519KeyPair_sign pair (to_json_string (CObject (signed_part object))))).
Proof.
  intros Hm Hj. unfold signs, encoded_pubkey, Signature_base64.
  eexists _, _, _. split; [exact Hj|]. rewrite !base64_round_trip. do 2 (split; [done|]).
  unfold Ed25519Verifier_verify_json. rewrite Hm. simpl.
  by rewrite public_key_valid, signature_valid, verify_sign.
Qed.

Lemma with_signature_canonical e key_pair set sigs object :
  canonical_json (with_signature e key_pair set sigs object) =
  Ok (to_json_string (CObject (signed_part object))).
Proof.
  unfold canonical_json, canonical_json_with_fields_to_remove. do 2 f_equal. simpl. unfold signed_part.
  f_equal. unfold with_signature. by rewrite delete_insert_eq.
Qed.

Lemma canonical_json_signed_part object :
  canonical_json object = Ok (to_json_string (CObject (signed_part object))).
Proof. done. Qed.

(** After [sign_json] the object verifies against any map that has the pair's public key
    under the entity and the key's identifier, provided the signatures it had before verify. *)
Theorem sign_json_verifies map keys entity_id pair object object' :
  matching pair →
  map !! entity_id = Some keys → keys !! key_id_of pair = Some (encoded_pubkey pair) →
  object !! "signatures" = None ∨ verify_json map object = Ok () →
  sign_json entity_id (Ed25519KeyPair_sign pair) object = (Ok (), object') →
  verify_json map object' = Ok ().
Proof.
  intros Hm Hmap Hkey Hold. rewrite sign_json_cases. unfold signatures_of.
  assert (∃ sigs, match object !! "signatures" with
    | Some (CObject m) => Some m | Some _ => None | None => Some ∅ end = Some sigs ∧
    all_signed map object sigs) as (sigs & -> & Hall).
  { destruct Hold as [->|(sigs & -> & Hall)%verify_json_Ok]; [|eauto].
    exists ∅. split; [done|]. intros e set. by rewrite lookup_empty. }
  destruct (default (CObject ∅) (sigs !! entity_id)) as [| | | | |set] eqn:Hset; try done.
  intros [= <-]. apply verify_json_Ok. eexists. split; [by apply lookup_insert_eq|].
  set (o' := with_signature entity_id (Ed25519KeyPair_sign pair) set sigs object).
  assert (∀ pk sg, signs object pk sg → signs o' pk sg) as Hsame.
  { intros pk sg (j & p & g & Hj & Hrest). exists j, p, g. split; [|done].
    rewrite <- Hj. apply with_signature_canonical. }
  intros e s. destruct (decide (e = entity_id)) as [->|Hne].
  - rewrite lookup_insert_eq. intros [= <-]. eexists _, keys. split_and!; [done..|].
    intros id v. unfold Signature_id. simpl.
    destruct (decide (id = key_id_of pair)) as [->|Hid].
    + unfold key_id_of at 1. rewrite lookup_insert_eq. intros [= <-].
      eexists _, _. split_and!; [done|exact Hkey|].
      apply fresh_signature; [done|]. apply with_signature_canonical.
    + rewrite lookup_insert_ne by done. intros Hv.
      destruct (sigs !! entity_id) as [s0|] eqn:Hs0; simplify_eq/=.
      destruct (Hall _ _ Hs0) as (m & keys' & [= <-] & Hk' & Hin). rewrite Hmap in Hk'.
      injection Hk' as <-. destruct (Hin id v Hv) as (sg & pk & -> & ? & ?). eauto 10.
  - rewrite lookup_insert_ne by done. intros Hs.
    destruct (Hall _ _ Hs) as (m & keys' & -> & Hk' & Hin). exists m, keys'. split_and!; [done..|].
    intros id v Hv. destruct (Hin id v Hv) as (sg & pk & -> & ? & ?). eauto 10.
Qed.
End specs.
