(* ===== verification/SigningEvents.v ===== *)
(** * Signed events

    [verify_event] accepts only events that every required server has signed, and it accepts
    what [hash_and_sign_event] makes, with a matching hash. *)

From S2P Require Import Prelude RustStr RustNet IdValidation StringEnum Identifiers Json.
From S2P Require Import CanonicalJson SigningKeys Signing SigningSpec.
From Stdlib Require Import Ascii NArith.
Open Scope string_scope.
Open Scope nat_scope.

(** ** Well-formedness *)

Lemma wf_insert k v (m : CanonicalJsonObject) :
  wf_canonical v = true → wf_canonical (CObject m) = true →
  wf_canonical (CObject (<[k := v]> m)) = true.
Proof. rewrite !wf_object. intros. by apply map_Forall_insert_2. Qed.

Lemma wf_lookup (m : CanonicalJsonObject) k v :
  wf_canonical (CObject m) = true → m !! k = Some v → wf_canonical v = true.
Proof. rewrite wf_object. intros Hm Hk. exact (Hm k v Hk). Qed.

(** A map whose values are those of another, or redacted forms of them. *)
Lemma wf_sub (m m' : CanonicalJsonObject) :
  wf_canonical (CObject m) = true → (∀ k v, m' !! k = Some v → m !! k = Some v) →
  wf_canonical (CObject m') = true.
Proof. rewrite !wf_object. intros Hm Hs k v Hk. apply (Hm k v). auto. Qed.

Lemma wf_default (m : CanonicalJsonObject) k o :
  wf_canonical (CObject m) = true → default (CObject ∅) (m !! k) = CObject o →
  wf_canonical (CObject o) = true.
Proof.
  intros Hm. destruct (m !! k) as [v|] eqn:Hk; simpl; [|by intros [= <-]].
  intros ->. exact (wf_lookup m k _ Hm Hk).
Qed.

Lemma wf_redact_content ty version v :
  wf_canonical v = true → wf_canonical (redact_content ty version v) = true.
Proof.
  destruct v as [| | | | |m]; try done. unfold redact_content. intros Hm. apply (wf_sub m); [done|].
  intros k v. rewrite move_keys_lookup. by case_decide.
Qed.

Lemma wf_redacted object version r :
  redact object version = Ok r → wf_canonical (CObject object) = true →
  wf_canonical (CObject r) = true.
Proof.
  intros Hr Hwf. destruct (redact_Ok_redactable _ _ _ Hr) as [ty Ho].
  pose proof (proj1 (redact_lookup _ _ _ _ Ho) Hr) as Hk.
  apply wf_object. intros k v Hv. rewrite Hk in Hv. case_decide; [|done].
  case_decide; [|by eapply wf_lookup].
  apply fmap_Some in Hv as (c & Hc & ->). apply wf_redact_content. by eapply wf_lookup.
Qed.

Lemma wf_signed_part object :
  wf_canonical (CObject object) = true → wf_canonical (CObject (signed_part object)) = true.
Proof.
  intros Hwf. apply (wf_sub object); [done|]. unfold signed_part. intros k v Hk.
  apply lookup_delete_Some in Hk as [_ Hk]. by apply lookup_delete_Some in Hk as [_ Hk].
Qed.

Section events.
Context `{Unicode} `{SerdeJson} `{Crypto}.

Lemma reparse_Ok redacted :
  wf_canonical (CObject redacted) = true → reparse redacted = Ok (signed_part redacted).
Proof.
  intros Hwf. unfold reparse. rewrite canonical_json_signed_part. cbn [mbind outcome_bind].
  by rewrite canonical_object_from_str by by apply wf_signed_part.
Qed.

Lemma signs_signed_part object pk sg : signs (signed_part object) pk sg ↔ signs object pk sg.
Proof.
  unfold signs. rewrite !canonical_json_signed_part.
  assert (signed_part (signed_part object) = signed_part object) as ->; [|done].
  apply map_eq. intros k. unfold signed_part.
  destruct (decide (k = "unsigned")) as [->|]; [by rewrite !lookup_delete_eq|].
  rewrite !(lookup_delete_ne _ "unsigned") by done.
  destruct (decide (k = "signatures")) as [->|]; [by rewrite !lookup_delete_eq|].
  by rewrite !lookup_delete_ne by done.
Qed.

(** ** What an accepted event carries *)

(** One known key of the server has signed the object. *)
Definition signed_by_server (map : PublicKeyMap) (sigs object : CanonicalJsonObject)
    (server : string) : Prop :=
  ∃ set keys key_id public_key signature version,
    sigs !! server = Some (CObject set) ∧ map !! server = Some keys ∧
    keys !! key_id = Some public_key ∧ set !! key_id = Some (CString signature) ∧
    split_id key_id = Ok (Ed25519, version) ∧ signs object public_key signature.

Lemma find_signature_Some keys set s pk :
  find_signature keys set = Some (s, pk) →
  ∃ id version, (id, pk) ∈ keys ∧ set !! id = Some s ∧ split_id id = Ok (Ed25519, version).
Proof.
  induction keys as [|[id k] keys IH]; simpl; [done|].
  destruct (split_id id) as [[[] version]| |] eqn:Hid; [|done..].
  destruct (set !! id) as [s'|] eqn:Hs.
  - intros [= -> ->]. exists id, version. split_and!; [by left|done..].
  - intros (id' & v' & ? & ?)%IH. exists id', v'. split; [by right|done].
Qed.

Lemma verify_server_sound map sigs object server :
  verify_server map sigs object server = Ok () → signed_by_server map sigs object server.
Proof.
  unfold verify_server. intros (set & Hset & (keys & Hkeys%ok_or_Ok & ([s pk] & Hf%ok_or_Ok &
    (sg & Hsg%ok_or_Ok & Hv)%bind_Ok)%bind_Ok)%bind_Ok)%bind_Ok.
  destruct (sigs !! server) as [[]|] eqn:Hsigs; simplify_eq/=.
  apply find_signature_Some in Hf as (id & version & Hin%elem_of_btree_iter & Hs & Hid).
  destruct s; simplify_eq/=. exists set, keys, id, pk, sg, version. split_and!; try done.
  by apply verify_encoded_signs.
Qed.

Lemma elem_of_servers_in_order s x : x ∈ servers_in_order s ↔ x ∈ s.
Proof. unfold servers_in_order. by rewrite merge_sort_Permutation, elem_of_elements. Qed.

(** C12: an event that [verify_event] accepts can be redacted; every server whose signature is
    required has signed its redacted form under one of its known keys; and the verdict is
    [All] exactly when the recorded hash is the content hash. *)
Theorem verify_event_sound map object version verdict :
  wf_canonical (CObject object) = true →
  verify_event map object version = Ok verdict →
  ∃ redacted sigs servers hash calculated,
    redact object version = Ok redacted ∧
    object !! "signatures" = Some (CObject sigs) ∧
    servers_to_check_signatures object version = Ok servers ∧
    (∀ server, server ∈ servers → signed_by_server map sigs redacted server) ∧
    get_sha256 object = Ok hash ∧ content_hash object = Ok calculated ∧
    (verdict = VerifiedAll ↔ hash = calculated).
Proof.
  intros Hwf. unfold verify_event.
  intros (r & Hr & (hash & Hh & (sigs & Hs & (servers & Hsv & (c & Hc & ([] & Hall & (calc & Hcalc &
    Hv)%bind_Ok)%bind_Ok)%bind_Ok)%bind_Ok)%bind_Ok)%bind_Ok)%bind_Ok.
  exists r, sigs, servers, hash, calc. split; [done|]. split.
  { unfold get_signature_map in Hs. destruct (object !! "signatures") as [[]|]; simplify_eq/=; done. }
  split; [done|]. split; [|split_and!; [done..|by case_decide; simplify_eq]].
  rewrite (reparse_Ok r) in Hc by (by eapply wf_redacted). injection Hc as <-.
  intros server Hin. rewrite for_each_unit in Hall.
  specialize (Hall server (proj2 (elem_of_servers_in_order servers server) Hin)).
  apply verify_server_sound in Hall as (set & keys & id & pk & sg & v & ? & ? & ? & ? & ? & Hsg).
  exists set, keys, id, pk, sg, v. split_and!; try done. by apply signs_signed_part.
Qed.

(** ** Signing an event and verifying it *)

Definition signed_event (entity_id : string) (s : Signature) (set sigs object : CanonicalJsonObject) :
    CanonicalJsonObject :=
  <["signatures" := CObject (<[entity_id :=
      CObject (<[Signature_id s := CString (Signature_base64 s)]> set)]> sigs)]> object.

Lemma hash_and_sign_Ok entity_id key_pair object version object' :
  hash_and_sign_event entity_id key_pair object version = (Ok (), object') →
  ∃ hash hashes redacted sigs set,
    let hashed := <["hashes" := CObject (<["sha256" := CString hash]> hashes)]> object in
    content_hash object = Ok hash ∧ default (CObject ∅) (object !! "hashes") = CObject hashes ∧
    redact hashed version = Ok redacted ∧ signatures_of redacted = Some sigs ∧
    default (CObject ∅) (sigs !! entity_id) = CObject set ∧
    object' = signed_event entity_id (key_pair (to_json_string (CObject (signed_part redacted))))
                set sigs hashed.
Proof.
  unfold hash_and_sign_event. destruct (content_hash object) as [hash| |]; [|done..].
  destruct (default (CObject ∅) (object !! "hashes")) as [| | | | |hashes] eqn:Hhs; try done.
  set (hashed := <["hashes" := _]> object).
  destruct (redact hashed version) as [redacted| |] eqn:Hr; [|done..].
  rewrite sign_json_cases. destruct (signatures_of redacted) as [sigs|] eqn:Hsigs; [|done].
  destruct (default (CObject ∅) (sigs !! entity_id)) as [| | | | |set] eqn:Hset; try done.
  unfold with_signature. rewrite lookup_insert_eq. intros [= <-].
  by exists hash, hashes, redacted, sigs, set.
Qed.

Lemma redact_signed entity_id s set sigs hashed version redacted :
  redact hashed version = Ok redacted →
  redact (signed_event entity_id s set sigs hashed) version =
    Ok (signed_event entity_id s set sigs redacted).
Proof.
  intros Hr. destruct (redact_Ok_redactable _ _ _ Hr) as [ty Ho].
  pose proof (proj1 (redact_lookup _ _ _ _ Ho) Hr) as Hk. unfold signed_event.
  apply (redact_lookup _ _ ty).
  - destruct Ho as [Hty Hc]. split; by rewrite lookup_insert_ne.
  - intros k. destruct (decide (k = "signatures")) as [->|Hne].
    + rewrite !lookup_insert_eq. rewrite decide_True by apply signatures_allowed.
      by rewrite decide_False.
    + rewrite !lookup_insert_ne by done. apply Hk.
Qed.

Lemma signed_part_signed entity_id s set sigs object :
  signed_part (signed_event entity_id s set sigs object) = signed_part object.
Proof. unfold signed_part, signed_event. by rewrite delete_insert_eq. Qed.

Lemma get_signature_map_signed entity_id s set sigs object :
  get_signature_map (signed_event entity_id s set sigs object) =
  Ok (<[entity_id := CObject (<[Signature_id s := CString (Signature_base64 s)]> set)]> sigs).
Proof. unfold get_signature_map, signed_event. by rewrite lookup_insert_eq. Qed.

Lemma wf_signed_event entity_id s set sigs object :
  wf_canonical (CObject object) = true → wf_canonical (CObject sigs) = true →
  wf_canonical (CObject set) = true →
  wf_canonical (CObject (signed_event entity_id s set sigs object)) = true.
Proof. intros. unfold signed_event. by repeat (apply wf_insert; try done). Qed.

Lemma btree_iter_singleton {A} k (v : A) : btree_iter {[k := v]} = [(k, v)].
Proof. unfold btree_iter. by rewrite map_to_list_singleton. Qed.

Lemma servers_in_order_Forall (servers : gset string) e x :
  (∀ s, s ∈ servers → s = e) → x ∈ servers_in_order servers → x = e.
Proof. intros Hs Hx%elem_of_servers_in_order. auto. Qed.

Lemma verify_server_own pair e set sigs r :
  matching pair → bytes_all is_version_byte (kp_version pair) = true →
  let s := Ed25519KeyPair_sign pair (to_json_string (CObject (signed_part r))) in
  verify_server {[e := {[key_id_of pair := encoded_pubkey pair]}]}
    (<[e := CObject (<[Signature_id s := CString (Signature_base64 s)]> set)]> sigs)
    (signed_part r) e = Ok ().
Proof.
  intros Hm Hver s. unfold verify_server. rewrite lookup_insert_eq, lookup_singleton_eq.
  cbn [mbind outcome_bind ok_or]. rewrite btree_iter_singleton. cbn [find_signature].
  rewrite (proj2 (split_id_Ok (key_id_of pair) Ed25519 (kp_version pair))) by done.
  assert (Signature_id s = key_id_of pair) as -> by done.
  rewrite lookup_insert_eq. cbn [mbind outcome_bind ok_or as_str].
  apply verify_encoded_signs, signs_signed_part.
  apply (fresh_signature pair r); [done|]. apply canonical_json_signed_part.
Qed.

Lemma hash_and_sign_verifies pair entity_id object version object' servers :
  matching pair → bytes_all is_version_byte (kp_version pair) = true →
  wf_canonical (CObject object) = true →
  hash_and_sign_event entity_id (Ed25519KeyPair_sign pair) object version = (Ok (), object') →
  servers_to_check_signatures object' version = Ok servers →
  (∀ s, s ∈ servers → s = entity_id) →
  verify_event {[entity_id := {[key_id_of pair := encoded_pubkey pair]}]} object' version =
    Ok VerifiedAll.
Proof.
  intros Hm Hver Hwf Hsign Hservers Hone.
  destruct (hash_and_sign_Ok _ _ _ _ _ Hsign) as
    (hash & hashes & redacted & sigs & set & Hhash & Hhashes & Hr & Hsigs & Hset & ->).
  set (s := Ed25519KeyPair_sign pair _) in *.
  set (hashed := <["hashes" := CObject (<["sha256" := CString hash]> hashes)]> object) in *.
  assert (wf_canonical (CObject hashed) = true) as Hwfh.
  { unfold hashed. apply wf_insert; [|done]. apply wf_insert; [done|]. by eapply wf_default. }
  pose proof (wf_redacted _ _ _ Hr Hwfh) as Hwfr.
  assert (wf_canonical (CObject sigs) = true) as Hwfs.
  { unfold signatures_of in Hsigs. destruct (redacted !! "signatures") as [v|] eqn:Hv;
      [|by injection Hsigs as <-]. destruct v; simplify_eq. by eapply wf_lookup. }
  pose proof (wf_default _ _ _ Hwfs Hset) as Hwfset.
  unfold verify_event. rewrite (redact_signed _ _ _ _ _ _ _ Hr). cbn [mbind outcome_bind].
  assert (get_sha256 (signed_event entity_id s set sigs hashed) = Ok hash) as ->.
  { unfold get_sha256, signed_event, hashed. rewrite lookup_insert_ne, lookup_insert_eq by done.
    by rewrite lookup_insert_eq. }
  cbn [mbind outcome_bind]. rewrite get_signature_map_signed.
  cbn [mbind outcome_bind]. rewrite Hservers. cbn [mbind outcome_bind].
  rewrite reparse_Ok by by apply wf_signed_event. cbn [mbind outcome_bind].
  rewrite signed_part_signed.
  rewrite (proj2 (for_each_unit _ _)).
  2:{ intros x ->%(servers_in_order_Forall _ entity_id); [|done]. by apply verify_server_own. }
  cbn [mbind outcome_bind].
  rewrite (content_hash_ext _ object), Hhash; [by simpl; rewrite decide_True|].
  intros k Hk. unfold signed_event, hashed.
  rewrite !lookup_insert_ne; [done|..]; intros <-; apply Hk; decide_it.
Qed.

(** C13: an event hashed and signed by a server verifies completely under the server's public
    key, when that server is the only one whose signature the event needs. *)
Theorem hash_and_sign_event_verifies pair entity_id object version object' servers :
  matching pair → bytes_all is_version_byte (kp_version pair) = true →
  wf_canonical (CObject object) = true →
  hash_and_sign_event entity_id (Ed25519KeyPair_sign pair) object version = (Ok (), object') →
  servers_to_check_signatures object' version = Ok servers →
  (∀ s, s ∈ servers → s = entity_id) →
  verify_event {[entity_id := {[key_id_of pair := encoded_pubkey pair]}]} object' version =
    Ok VerifiedAll.
Proof. apply hash_and_sign_verifies. Qed.
End events.

(** ** Examples *)

Definition toy_pair : @Ed25519KeyPair toy_crypto :=
  @Build_Ed25519KeyPair toy_crypto toy_secret (toy_bytes toy_secret) "1".

Definition example_object : CanonicalJsonObject :=
  {[ "type" := CString "m.room.topic"; "sender" := CString "@a:a"; "room_id" := CString "!r:a";
     "content" := CObject {[ "topic" := CString "t" ]};
     "unsigned" := CObject {[ "age_ts" := CInteger 1000000 ]} ]}.

Definition example_signed : outcome SignatureError () * CanonicalJsonObject :=
  let _ := ascii_unicode in let _ := tree_json in let _ := toy_crypto in
  hash_and_sign_event "a" (Ed25519KeyPair_sign toy_pair) example_object V6.

Definition example_keys : PublicKeyMap :=
  let _ := toy_crypto in {[ "a" := {[ key_id_of toy_pair := encoded_pubkey toy_pair ]} ]}.

Lemma example_signed_Ok : example_signed = (Ok (), example_signed.2).
Proof.
  rewrite (surjective_pairing example_signed) at 1. apply (f_equal2 pair); [vm_compute; reflexivity|reflexivity].
Qed.

Lemma example_servers :
  let _ := ascii_unicode in
  ∃ servers, servers_to_check_signatures example_signed.2 V6 = Ok servers ∧
    ∀ s, s ∈ servers → s = "a".
Proof.
  intros u. exists (default ∅ (ok (servers_to_check_signatures example_signed.2 V6))). split.
  - apply ok_default. vm_compute. reflexivity.
  - change (set_Forall (λ s, s = "a")
      (default ∅ (ok (servers_to_check_signatures example_signed.2 V6)))).
    decide_it.
Qed.

Lemma hash_and_sign_event_verifies_witness :
  let _ := ascii_unicode in let _ := tree_json in let _ := toy_crypto in
  verify_event example_keys example_signed.2 V6 = Ok VerifiedAll.
Proof.
  intros u j c. destruct example_servers as (servers & Hs & Hone).
  apply (hash_and_sign_event_verifies toy_pair "a" example_object V6 example_signed.2 servers).
  - reflexivity.
  - reflexivity.
  - vm_compute. reflexivity.
  - exact example_signed_Ok.
  - exact Hs.
  - exact Hone.
Defined.

Lemma verify_event_sound_witness :
  let _ := ascii_unicode in let _ := tree_json in let _ := toy_crypto in
  ∃ redacted sigs servers,
    redact example_signed.2 V6 = Ok redacted ∧
    servers_to_check_signatures example_signed.2 V6 = Ok servers ∧
    ∀ server, server ∈ servers → signed_by_server example_keys sigs redacted server.
Proof.
  intros u j c.
  destruct (verify_event_sound example_keys example_signed.2 V6 VerifiedAll)
    as (redacted & sigs & servers & _ & _ & Hr & _ & Hs & Hall & _).
  - vm_compute. reflexivity.
  - vm_compute. reflexivity.
  - exists redacted, sigs, servers. split; [exact Hr|]. split; [exact Hs|exact Hall].
Defined.

Definition example_json : CanonicalJsonObject := {[ "one" := CInteger 1 ]}.

Lemma sign_json_verifies_witness :
  let _ := ascii_unicode in let _ := tree_json in let _ := toy_crypto in
  verify_json example_keys (sign_json "a" (Ed25519KeyPair_sign toy_pair) example_json).2 = Ok ().
Proof.
  intros u j c.
  apply (sign_json_verifies example_keys {[ key_id_of toy_pair := encoded_pubkey toy_pair ]} "a"
    toy_pair example_json).
  - reflexivity.
  - reflexivity.
  - reflexivity.
  - left. reflexivity.
  - rewrite (surjective_pairing (sign_json _ _ _)) at 1. apply (f_equal2 pair); [vm_compute; reflexivity|reflexivity].
Defined.

Lemma reference_hash_redacted_witness :
  let _ := ascii_unicode in let _ := tree_json in let _ := toy_crypto in
  ∃ r, redact example_object V6 = Ok r ∧ redact r V6 = Ok r ∧
    reference_hash r V6 = reference_hash example_object V6.
Proof.
  intros u j c. exists (default ∅ (ok (redact example_object V6))).
  assert (redact example_object V6 = Ok (default ∅ (ok (redact example_object V6)))) as Hr
    by (apply ok_default; vm_compute; reflexivity).
  split; [exact Hr|]. exact (reference_hash_redacted example_object V6 _ Hr).
Defined.
