(* ===== verification/MemberCount.v ===== *)
(** * Conditions on the member count

    [ruma-common/src/push/condition/room_member_count_is.rs]: a comparison operator and a
    number, printed and parsed as in ["<=10"], and read as a range of numbers. *)

From S2P Require Import Prelude RustStr.
From Stdlib Require Import Ascii NArith DecimalString DecimalN DecimalPos.
Open Scope string_scope.
Open Scope nat_scope.
Open Scope list_scope.

(** js_int's reading of a decimal number into a [UInt]. The code relies on a printed [UInt]
    being read back and on a result that is in range. *)
Class JsInt := {
  UInt_from_str : string → outcome () Z;
  UInt_from_str_display z :
    uint_in_range z = true → UInt_from_str (N_to_string (Z.to_N z)) = Ok z;
  UInt_from_str_range s z : UInt_from_str s = Ok z → uint_in_range z = true
}.

(** Display of a [UInt] *)
Definition UInt_to_string (z : Z) : string := N_to_string (Z.to_N z).

Inductive ComparisonOperator := OpEq | OpLt | OpGt | OpGe | OpLe.

#[export] Instance ComparisonOperator_eq_dec : EqDecision ComparisonOperator.
Proof. solve_decision. Defined.

Definition ComparisonOperator_default : ComparisonOperator := OpEq.

Record RoomMemberCountIs := { prefix : ComparisonOperator; count : Z }.

#[export] Instance RoomMemberCountIs_eq_dec : EqDecision RoomMemberCountIs.
Proof. solve_decision. Defined.

(** [gt] and the conversions from a number, [x..], [..x] and [..=x] *)
Definition gt (x : Z) : RoomMemberCountIs := {| prefix := OpGt; count := x |}.
Definition from_UInt (x : Z) : RoomMemberCountIs := {| prefix := OpEq; count := x |}.
Definition from_RangeFrom (start : Z) : RoomMemberCountIs := {| prefix := OpGe; count := start |}.
Definition from_RangeTo (end_ : Z) : RoomMemberCountIs := {| prefix := OpLt; count := end_ |}.
Definition from_RangeToInclusive (end_ : Z) : RoomMemberCountIs :=
  {| prefix := OpLe; count := end_ |}.

(** Display *)
Definition operator_prefix (op : ComparisonOperator) : string :=
  match op with
  | OpEq => ""
  | OpLt => "<"
  | OpGt => ">"
  | OpGe => ">="
  | OpLe => "<="
  end.

Definition RoomMemberCountIs_to_string (m : RoomMemberCountIs) : string :=
  operator_prefix (prefix m) +:+ UInt_to_string (count m).

(** FromStr: the tests in the order of the source. *)
Definition split_prefix (s : string) : ComparisonOperator * string :=
  if starts_with "<=" s then (OpLe, str_drop 2 s)
  else if starts_with_char "<" s then (OpLt, str_drop 1 s)
  else if starts_with ">=" s then (OpGe, str_drop 2 s)
  else if starts_with_char ">" s then (OpGt, str_drop 1 s)
  else if starts_with "==" s then (OpEq, str_drop 2 s)
  else (OpEq, s).

Definition RoomMemberCountIs_from_str `{JsInt} (s : string) : outcome () RoomMemberCountIs :=
  let '(prefix, count_str) := split_prefix s in
  count ← UInt_from_str count_str;
  Ok {| prefix := prefix; count := count |}.

(** [RangeBounds<UInt>]; [contains] is the trait's own method. *)
Inductive Bound := Included (z : Z) | Excluded (z : Z) | Unbounded.

Definition start_bound (m : RoomMemberCountIs) : Bound :=
  match prefix m with
  | OpEq => Included (count m)
  | OpLt | OpLe => Unbounded
  | OpGt => Excluded (count m)
  | OpGe => Included (count m)
  end.

Definition end_bound (m : RoomMemberCountIs) : Bound :=
  match prefix m with
  | OpEq => Included (count m)
  | OpGt | OpGe => Unbounded
  | OpLt => Excluded (count m)
  | OpLe => Included (count m)
  end.

Definition range_contains (lo hi : Bound) (x : Z) : bool :=
  match lo with
  | Included z => (z <=? x)%Z
  | Excluded z => (z <? x)%Z
  | Unbounded => true
  end &&
  match hi with
  | Included z => (x <=? z)%Z
  | Excluded z => (x <? z)%Z
  | Unbounded => true
  end.

Definition contains (m : RoomMemberCountIs) (x : Z) : bool :=
  range_contains (start_bound m) (end_bound m) x.

(** ** What the prefix means *)

Definition compares (op : ComparisonOperator) (x y : Z) : Prop :=
  match op with
  | OpEq => x = y
  | OpLt => (x < y)%Z
  | OpGt => (y < x)%Z
  | OpGe => (y ≤ x)%Z
  | OpLe => (x ≤ y)%Z
  end.

Lemma contains_compares m x : contains m x = true ↔ compares (prefix m) x (count m).
Proof.
  destruct m as [op c]. unfold contains, range_contains, start_bound, end_bound.
  rewrite andb_true_iff. destruct op; simpl; rewrite ?Z.leb_le, ?Z.ltb_lt; lia.
Qed.

Lemma split_prefix_print op n :
  split_prefix (operator_prefix op +:+ N_to_string n) = (op, N_to_string n).
Proof.
  destruct (N_to_string_digit n) as (c & r & -> & Hc).
  destruct c as [[] [] [] [] [] [] [] []]; try discriminate Hc; by destruct op.
Qed.

Section member_count.
Context `{JsInt}.

Definition valid_count (m : RoomMemberCountIs) : Prop := uint_in_range (count m) = true.

Lemma RoomMemberCountIs_round_trip m :
  valid_count m → RoomMemberCountIs_from_str (RoomMemberCountIs_to_string m) = Ok m.
Proof.
  intros Hc. unfold RoomMemberCountIs_from_str, RoomMemberCountIs_to_string, UInt_to_string.
  rewrite split_prefix_print, UInt_from_str_display by done. by destruct m.
Qed.

Lemma RoomMemberCountIs_from_str_valid s m :
  RoomMemberCountIs_from_str s = Ok m → valid_count m.
Proof.
  unfold RoomMemberCountIs_from_str. destruct (split_prefix s) as [op r].
  intros (c & Hc & [= <-])%bind_Ok. by apply UInt_from_str_range in Hc.
Qed.

Lemma split_prefix_double_eq s : split_prefix ("==" +:+ s) = (OpEq, s).
Proof.
  unfold split_prefix, starts_with, starts_with_char. simpl.
  by rewrite (proj2 (prefix_app "" s) (ex_intro _ s eq_refl)).
Qed.

(** Member counts: what is printed is read back; what is read is in range and reads the
    same after printing; a leading "==" is dropped; and a count matches exactly the numbers its
    prefix says. *)
Theorem RoomMemberCountIs_spec :
  (∀ m, valid_count m → RoomMemberCountIs_from_str (RoomMemberCountIs_to_string m) = Ok m) ∧
  (∀ s m, RoomMemberCountIs_from_str s = Ok m →
     valid_count m ∧ RoomMemberCountIs_from_str (RoomMemberCountIs_to_string m) = Ok m) ∧
  (∀ z, uint_in_range z = true →
     RoomMemberCountIs_from_str ("==" +:+ UInt_to_string z) = Ok (from_UInt z)) ∧
  ∀ m x, contains m x = true ↔ compares (prefix m) x (count m).
Proof.
  split_and!.
  - apply RoomMemberCountIs_round_trip.
  - intros s m Hm. apply RoomMemberCountIs_from_str_valid in Hm.
    by auto using RoomMemberCountIs_round_trip.
  - intros z Hz. unfold RoomMemberCountIs_from_str. rewrite split_prefix_double_eq.
    unfold UInt_to_string. by rewrite UInt_from_str_display.
  - apply contains_compares.
Qed.
End member_count.

(** A reader for the examples. *)
Definition decimal_from_str (s : string) : outcome () Z :=
  match parse_unsigned U64_MAX s with
  | Some n => if uint_in_range (Z.of_N n) then Ok (Z.of_N n) else Err ()
  | None => Err ()
  end.

Lemma decimal_from_str_display z :
  uint_in_range z = true → decimal_from_str (N_to_string (Z.to_N z)) = Ok z.
Proof.
  intros Hz. unfold decimal_from_str. pose proof Hz as Hr. unfold uint_in_range, MAX_SAFE_INT in Hr.
  bool_to_prop. rewrite parse_unsigned_N_to_string by (unfold U64_MAX; lia).
  by rewrite Z2N.id, Hz by lia.
Qed.

Lemma decimal_from_str_range s z : decimal_from_str s = Ok z → uint_in_range z = true.
Proof. unfold decimal_from_str. intros. by case_match_simpl. Qed.

Definition decimal_js_int : JsInt := {|
  UInt_from_str := decimal_from_str;
  UInt_from_str_display := decimal_from_str_display;
  UInt_from_str_range := decimal_from_str_range
|}.

Example member_counts :
  let _ := decimal_js_int in
  RoomMemberCountIs_from_str "<=10" = Ok (from_RangeToInclusive 10) ∧
  RoomMemberCountIs_from_str "2" = Ok (from_UInt 2) ∧
  RoomMemberCountIs_from_str "=>2" = Err () ∧ RoomMemberCountIs_from_str ">" = Err () ∧
  RoomMemberCountIs_to_string (gt 3) = ">3" ∧ contains (gt 2) 2 = false.
Proof. vm_compute. repeat split. Qed.
