(* ===== verification/PushWords.v ===== *)
(** * Matching words

    The trait [StrExt] of [ruma-common/src/push/condition.rs]: walking over the characters of a
    UTF-8 string by byte index, and [matches_word], which looks for a pattern between word
    boundaries.

    A loop of the source that would not end is [Err Diverges]; the theorem at the end shows
    that on UTF-8 strings nothing diverges and nothing panics. *)

From S2P Require Import Prelude RustStr.
From Stdlib Require Import Ascii NArith.
Open Scope string_scope.
Open Scope nat_scope.
Open Scope list_scope.

Inductive Diverges := DivergesForever.

(** [s.find(pattern)] for a string and for a predicate on characters *)
Fixpoint find_str (pattern s : string) : option nat :=
  if starts_with pattern s then Some 0
  else match s with
       | EmptyString => None
       | String _ s => S <$> find_str pattern s
       end.

Fixpoint find_in_chars (p : string → bool) (cs : list string) : option nat :=
  match cs with
  | [] => None
  | c :: cs => if p c then Some 0 else (λ n, str_len c + n) <$> find_in_chars p cs
  end.

Definition find_char (p : string → bool) (s : string) : option nat := find_in_chars p (str_chars s).

Section words.
Context `{Unicode}.

Definition is_word_char (c : string) : bool := char_is_alphanumeric c || bool_decide (c = "_").

(** [while !self.is_char_boundary(index + len) { len += 1; }]: past the end there is no
    boundary, so the fuel is enough for every run that ends. *)
Fixpoint char_len_loop (s : string) (index fuel len : nat) : outcome Diverges nat :=
  if is_char_boundary s (index + len) then Ok len
  else match fuel with
       | O => Err DivergesForever
       | S fuel => char_len_loop s index fuel (len + 1)
       end.

Definition char_len (s : string) (index : nat) : outcome Diverges nat :=
  char_len_loop s index (str_len s) 1.

Definition char_at (s : string) (index : nat) : outcome Diverges string :=
  len ← char_len s index;
  char_str ← unwrap (slice index (index + len) s);
  match str_chars char_str with
  | [c] => Ok c
  | _ => Panic
  end.

(** [while !self.is_char_boundary(pos) { pos -= 1; }] *)
Fixpoint prev_boundary (s : string) (pos : nat) : nat :=
  if is_char_boundary s pos then pos
  else match pos with
       | O => O
       | S pos => prev_boundary s pos
       end.

Definition find_prev_char (s : string) (index : nat) : outcome Diverges (option string) :=
  if decide (index = 0) then Ok None
  else Some <$> char_at s (prev_boundary s (index - 1)).

(** The boundary conditions around a match, in the order of the source's tests. *)
Definition word_boundary_start (s : string) (start : nat) : outcome Diverges bool :=
  c ← char_at s start;
  if negb (is_word_char c) then Ok true
  else
    prev ← find_prev_char s start;
    Ok match prev with Some c => negb (is_word_char c) | None => true end.

Definition word_boundary_end (s : string) (end_ : nat) : outcome Diverges bool :=
  if decide (end_ = str_len s) then Ok true
  else
    prev ← find_prev_char s end_;
    c ← unwrap prev;
    if negb (is_word_char c) then Ok true
    else
      c ← char_at s end_;
      Ok (negb (is_word_char c)).

Fixpoint matches_word_fuel (fuel : nat) (s pattern : string) : outcome Diverges bool :=
  match fuel with
  | O => Err DivergesForever
  | S fuel =>
      if decide (s = pattern) then Ok true
      else if decide (pattern = "") then Ok false
      else
        match find_str pattern s with
        | None => Ok false
        | Some start =>
            at_start ← word_boundary_start s start;
            bounded ←
              if (at_start : bool) then word_boundary_end s (start + str_len pattern)
              else Ok false;
            if (bounded : bool) then Ok true
            else
              non_word_str ← unwrap (slice_from start s);
              match find_char (λ c, negb (is_word_char c)) non_word_str with
              | None => Ok false
              | Some non_word =>
                  word_str ← unwrap (slice_from non_word non_word_str);
                  match find_char is_word_char word_str with
                  | None => Ok false
                  | Some word =>
                      rest ← unwrap (slice_from word word_str);
                      matches_word_fuel fuel rest pattern
                  end
              end
        end
  end.

Definition matches_word (s pattern : string) : outcome Diverges bool :=
  matches_word_fuel (S (str_len s)) s pattern.
End words.

(** ** UTF-8 *)

(** The length of a character by its first byte. *)
Definition utf8_len (b : ascii) : nat :=
  if (byte b <? 192)%N then 1
  else if (byte b <? 224)%N then 2
  else if (byte b <? 240)%N then 3 else 4.

Definition char_ok (c : string) : bool :=
  match c with
  | String b t =>
      negb (is_continuation b) && bytes_all is_continuation t && bool_decide (str_len c = utf8_len b)
  | EmptyString => false
  end.

(** What the type [str] guarantees, as far as it matters here: a string is a sequence of
    characters, each a first byte and as many continuation bytes as that byte says. *)
Definition utf8 (s : string) : Prop := Forall (λ c, char_ok c = true) (str_chars s).

Definition sc (cs : list string) : string := foldr String.append "" cs.

Lemma sc_app a b : sc (a ++ b) = sc a +:+ sc b.
Proof. induction a as [|c a IH]; simpl; [done|]. by rewrite IH, str_app_assoc. Qed.

Lemma sc_chars s : sc (str_chars s) = s.
Proof.
  induction s as [|b s IH]; [done|]. simpl. destruct (str_chars s) as [|c cs]; simpl in *.
  - by rewrite <- IH.
  - destruct (starts_with_continuation c); simpl; by rewrite <- IH.
Qed.

Lemma chars_app_cons c s : char_ok c = true → utf8 s → str_chars (c +:+ s) = c :: str_chars s.
Proof.
  intros Hc Hs. destruct c as [|b t]; [done|].
  assert (bytes_all is_continuation t = true) as Ht by (simpl in Hc; by bool_to_prop).
  assert (str_chars s = [] ∨ ∃ d cs, str_chars s = d :: cs ∧ starts_with_continuation d = false) as Hd.
  { unfold utf8 in Hs. destruct (str_chars s) as [|d cs]; [by left|right]. exists d, cs.
    split; [done|]. apply list.Forall_cons in Hs as [Hd _]. destruct d; [done|]. simpl in Hd |- *.
    by bool_to_prop. }
  clear Hc. revert Ht.
  revert b. induction t as [|b' t IH]; intros b Ht; simpl in *.
  - destruct Hd as [->|(d & cs & -> & ->)]; done.
  - apply andb_true_iff in Ht as [Hb' Ht]. rewrite (IH b' Ht). simpl. by rewrite Hb'.
Qed.

Lemma chars_sc cs : Forall (λ c, char_ok c = true) cs → str_chars (sc cs) = cs.
Proof.
  induction 1 as [|c cs Hc Hcs IH]; [done|]. simpl. rewrite chars_app_cons; [by rewrite IH|done|].
  unfold utf8. by rewrite IH.
Qed.

(** A UTF-8 string is the concatenation of its characters, and conversely. *)
Lemma utf8_sc s : utf8 s ↔ ∃ cs, s = sc cs ∧ Forall (λ c, char_ok c = true) cs.
Proof.
  split.
  - intros Hs. exists (str_chars s). by rewrite sc_chars.
  - intros (cs & -> & Hcs). unfold utf8. by rewrite chars_sc.
Qed.

Lemma char_ok_nonempty c : char_ok c = true → 0 < str_len c.
Proof. destruct c; simpl; [done|lia]. Qed.

(** ** Bytes and characters *)

Notation all_ok := (Forall (λ c, char_ok c = true)).

Lemma char_ok_parts b t :
  char_ok (String b t) = true →
  is_continuation b = false ∧ bytes_all is_continuation t = true ∧ S (str_len t) = utf8_len b.
Proof. simpl. intros Hc. by bool_to_prop. Qed.

(** Two concatenations compared at the cut. *)
Lemma str_app_cut a b x y :
  a +:+ b = x +:+ y →
  (∃ z, x = a +:+ z ∧ b = z +:+ y) ∨ (∃ c z, a = x +:+ String c z ∧ y = String c z +:+ b).
Proof.
  revert x. induction a as [|c a IH]; intros x Heq; simpl in *; [by left; exists x|].
  destruct x as [|d x]; simpl in *.
  - right. by exists c, a.
  - injection Heq as <- Heq. destruct (IH x Heq) as [(z & -> & ->)|(e & z & -> & ->)]; [left|right].
    + by exists z.
    + by exists e, z.
Qed.

Lemma str_nth_app s t n : str_nth (str_len s + n) (s +:+ t) = str_nth n t.
Proof. apply str_nth_app_r. Qed.

Lemma boundary_at a b :
  all_ok b → is_char_boundary (sc a +:+ sc b) (str_len (sc a)) = true.
Proof.
  intros Hb. unfold is_char_boundary. case_decide; [done|].
  rewrite str_nth_app_len. destruct b as [|c b]; simpl.
  - rewrite str_app_nil_r. by rewrite bool_decide_true.
  - apply list.Forall_cons in Hb as [Hc _]. destruct c as [|h t]; [done|]. simpl.
    by destruct (char_ok_parts _ _ Hc) as [-> _].
Qed.

Lemma str_nth_continuation t k :
  bytes_all is_continuation t = true → k < str_len t →
  ∃ b, str_nth k t = Some b ∧ is_continuation b = true.
Proof.
  revert k. induction t as [|b t IH]; intros k Ht Hk; simpl in *; [lia|].
  apply andb_true_iff in Ht as [Hb Ht]. destruct k as [|k]; [eauto|]. apply IH; [done|lia].
Qed.

Lemma str_nth_app_l s t n : n < str_len s → str_nth n (s +:+ t) = str_nth n s.
Proof.
  revert n. induction s as [|b s IH]; intros n Hn; simpl in *; [lia|].
  destruct n as [|n]; [done|]. apply IH. lia.
Qed.

Lemma no_boundary_inside a c b k :
  char_ok c = true → 0 < k → k < str_len c →
  is_char_boundary (sc a +:+ (c +:+ b)) (str_len (sc a) + k) = false.
Proof.
  intros Hc H0 Hk. unfold is_char_boundary. rewrite decide_False by lia.
  rewrite str_nth_app, str_nth_app_l by done. destruct c as [|h t]; [done|].
  destruct (char_ok_parts _ _ Hc) as (_ & Ht & _). destruct k as [|k]; [lia|]. simpl in *.
  destruct (str_nth_continuation t k Ht ltac:(lia)) as (b' & -> & ->). done.
Qed.

Lemma slice_from_at a b :
  all_ok b → slice_from (str_len (sc a)) (sc a +:+ sc b) = Some (sc b).
Proof. intros Hb. unfold slice_from. rewrite boundary_at by done. by rewrite str_drop_app. Qed.

Section char_walk.
Context `{Unicode}.

Lemma char_len_loop_at a c b fuel len :
  char_ok c = true → all_ok b → 0 < len → len ≤ str_len c → str_len c - len ≤ fuel →
  char_len_loop (sc a +:+ sc (c :: b)) (str_len (sc a)) fuel len = Ok (str_len c).
Proof.
  intros Hc Hb. revert len. induction fuel as [|fuel IH]; intros len H0 Hle Hf; simpl.
  - assert (len = str_len c) as -> by lia. simpl.
    replace (sc a +:+ (c +:+ sc b)) with (sc (a ++ [c]) +:+ sc b)
      by (rewrite sc_app; simpl; by rewrite str_app_nil_r, str_app_assoc).
    replace (str_len (sc a) + str_len c) with (str_len (sc (a ++ [c])))
      by (rewrite sc_app, str_len_app; simpl; by rewrite str_app_nil_r).
    by rewrite boundary_at.
  - destruct (decide (len = str_len c)) as [->|Hne].
    + replace (sc a +:+ (c +:+ sc b)) with (sc (a ++ [c]) +:+ sc b)
        by (rewrite sc_app; simpl; by rewrite str_app_nil_r, str_app_assoc).
      replace (str_len (sc a) + str_len c) with (str_len (sc (a ++ [c])))
        by (rewrite sc_app, str_len_app; simpl; by rewrite str_app_nil_r).
      by rewrite boundary_at.
    + rewrite no_boundary_inside by (done || lia). apply IH; lia.
Qed.

Lemma char_at_spec a c b :
  all_ok (a ++ c :: b) → char_at (sc a +:+ sc (c :: b)) (str_len (sc a)) = Ok c.
Proof.
  intros [Ha [Hc Hb]%list.Forall_cons]%Forall_app.
  unfold char_at, char_len.
  pose proof (char_ok_nonempty c Hc) as Hlen.
  rewrite char_len_loop_at; [|done|done|lia|lia|]; cycle 1.
  { rewrite str_len_app. simpl. rewrite str_len_app. lia. }
  cbn [mbind outcome_bind]. unfold slice.
  rewrite boundary_at by by constructor.
  assert (is_char_boundary (sc a +:+ sc (c :: b)) (str_len (sc a) + str_len c) = true) as ->.
  { replace (sc a +:+ sc (c :: b)) with (sc (a ++ [c]) +:+ sc b)
      by (rewrite sc_app; simpl; by rewrite str_app_nil_r, str_app_assoc).
    replace (str_len (sc a) + str_len c) with (str_len (sc (a ++ [c])))
      by (rewrite sc_app, str_len_app; simpl; by rewrite str_app_nil_r).
    by apply boundary_at. }
  rewrite bool_decide_true by lia. simpl.
  rewrite str_drop_app. replace (str_len (sc a) + str_len c - str_len (sc a)) with (str_len c) by lia.
  rewrite str_take_app. replace c with (sc [c]) at 1 by (simpl; apply str_app_nil_r).
  rewrite chars_sc by (by repeat constructor). done.
Qed.

Lemma prev_boundary_true s pos : is_char_boundary s pos = true → prev_boundary s pos = pos.
Proof. destruct pos; cbn [prev_boundary]; by intros ->. Qed.

Lemma prev_boundary_at a c b k :
  all_ok (a ++ c :: b) → k < str_len c →
  prev_boundary (sc a +:+ sc (c :: b)) (str_len (sc a) + k) = str_len (sc a).
Proof.
  intros [Ha [Hc Hb]%list.Forall_cons]%Forall_app. induction k as [|k IH]; intros Hk.
  - rewrite Nat.add_0_r. apply prev_boundary_true, boundary_at. by constructor.
  - replace (str_len (sc a) + S k) with (S (str_len (sc a) + k)) by lia. cbn [prev_boundary].
    replace (S (str_len (sc a) + k)) with (str_len (sc a) + S k) by lia.
    cbn [sc foldr]. rewrite no_boundary_inside by (done || lia). apply IH. lia.
Qed.

Lemma find_prev_char_spec a b :
  all_ok (a ++ b) → find_prev_char (sc a +:+ sc b) (str_len (sc a)) = Ok (list.last a).
Proof.
  intros Hall. unfold find_prev_char.
  destruct a as [|c a _] using rev_ind; [done|].
  apply Forall_app in Hall as [Ha Hb]. apply Forall_app in Ha as [Ha Hc].
  pose proof (proj1 (list.Forall_singleton _ _) Hc) as Hc'. simpl in Hc'.
  pose proof (char_ok_nonempty c Hc') as Hlen.
  assert (sc (a ++ [c]) = sc a +:+ c) as Hsc by (rewrite sc_app; simpl; by rewrite str_app_nil_r).
  rewrite last_snoc, Hsc, str_len_app.
  rewrite decide_False by lia.
  replace (str_len (sc a) + str_len c - 1) with (str_len (sc a) + (str_len c - 1)) by lia.
  rewrite str_app_assoc. change (c +:+ sc b) with (sc (c :: b)).
  assert (all_ok (a ++ c :: b)) as Hall by (apply Forall_app; split; [done|by constructor]).
  rewrite prev_boundary_at by (done || lia). by rewrite char_at_spec.
Qed.
End char_walk.

(** ** Searching *)

Lemma find_in_chars_spec p cs :
  match find_in_chars p cs with
  | None => Forall (λ c, p c = false) cs
  | Some n => ∃ a c b, cs = a ++ c :: b ∧ n = str_len (sc a) ∧ Forall (λ c, p c = false) a ∧ p c = true
  end.
Proof.
  induction cs as [|c cs IH]; simpl; [constructor|].
  destruct (p c) eqn:Hc; [exists [], c, cs; by repeat constructor|].
  destruct (find_in_chars p cs) as [n|]; simpl; [|by constructor].
  destruct IH as (a & d & b & -> & -> & Ha & Hd). exists (c :: a), d, b.
  split_and!; [done| |by constructor|done]. simpl. by rewrite str_len_app.
Qed.

Lemma find_str_spec p s :
  match find_str p s with
  | None => ∀ x y, s ≠ x +:+ (p +:+ y)
  | Some n => ∃ x y, s = x +:+ (p +:+ y) ∧ n = str_len x ∧
      ∀ x' y', s = x' +:+ (p +:+ y') → str_len x ≤ str_len x'
  end.
Proof.
  assert (∀ s, starts_with p s = false → ∀ y, s ≠ p +:+ y) as Hno.
  { intros t Ht y Hy. unfold starts_with in Ht.
    by rewrite (proj2 (prefix_app p t) (ex_intro _ y Hy)) in Ht. }
  induction s as [|b s IH]; cbn [find_str].
  - destruct (starts_with p "") eqn:Hp.
    + apply prefix_app in Hp as [y Hy]. exists "", y. split_and!; [done..|simpl; lia].
    + intros [|? x] y Heq; [|done]. by destruct (Hno "" Hp y).
  - destruct (starts_with p (String b s)) eqn:Hp.
    + apply prefix_app in Hp as [y Hy]. exists "", y. split_and!; [done..|simpl; lia].
    + specialize (Hno _ Hp). destruct (find_str p s) as [n|]; simpl.
      * destruct IH as (x & y & -> & -> & Hmin). exists (String b x), y. split_and!; [done..|].
        intros [|b' x'] y' Heq; [by destruct (Hno y')|]. simpl in *. injection Heq as _ Heq.
        specialize (Hmin x' y' Heq). lia.
      * intros [|b' x'] y' Heq; [by destruct (Hno y')|]. simpl in *. injection Heq as _ Heq.
        by apply (IH x' y').
Qed.

(** A cut in front of a first byte is a cut between characters. *)
Lemma cut_aligned cs x h z :
  all_ok cs → sc cs = x +:+ String h z → is_continuation h = false →
  ∃ a r, cs = a ++ r ∧ x = sc a ∧ sc r = String h z.
Proof.
  intros Hcs. revert x. induction Hcs as [|c cs Hc Hcs IH]; intros x Heq Hh; simpl in Heq.
  { by destruct x. }
  destruct (str_app_cut _ _ _ _ Heq) as [(w & -> & Hw)|(d & w & -> & Hw)].
  - destruct (IH w Hw Hh) as (a & r & -> & -> & Hr). by exists (c :: a), r.
  - destruct x as [|h' x].
    + exists [], (String d w :: cs). by split_and!.
    + exfalso. simpl in Hc. destruct (char_ok_parts h' (x +:+ String d w) Hc) as (_ & Ht & _).
      rewrite bytes_all_app in Ht. simpl in Ht, Hw. injection Hw as <- _.
      rewrite Hh in Ht. rewrite andb_false_r in Ht. done.
Qed.

Lemma prefix_aligned cs ps y :
  all_ok cs → all_ok ps → sc cs = sc ps +:+ y → ∃ b, cs = ps ++ b ∧ y = sc b.
Proof.
  intros Hcs Hps. revert cs Hcs. induction Hps as [|p ps Hp Hps IH]; intros cs Hcs Heq; simpl in *.
  { by exists cs. }
  destruct Hcs as [|c cs Hc Hcs]; simpl in Heq.
  { destruct p; [done|]. by simpl in Heq. }
  assert (c = p ∧ sc cs = sc ps +:+ y) as [-> Hrest].
  { rewrite str_app_assoc in Heq. destruct c as [|h t], p as [|h' t']; try done.
    destruct (char_ok_parts _ _ Hc) as (_ & _ & Hlc), (char_ok_parts _ _ Hp) as (_ & _ & Hlp).
    simpl in Heq. injection Heq as <- Heq.
    assert (str_len t = str_len t') as Hlen by lia.
    destruct (str_app_cut _ _ _ _ Heq) as [(z & -> & Hz)|(d & z & -> & Hz)];
      rewrite str_len_app in Hlen; simpl in Hlen; [|lia].
    destruct z; [|simpl in Hlen; lia]. rewrite str_app_nil_r. by simpl in Hz. }
  destruct (IH cs Hcs Hrest) as (b & -> & ->). by exists b.
Qed.

(** An occurrence of one string in another is an occurrence of its characters. *)
Lemma occurrence_aligned cs ps x y :
  all_ok cs → all_ok ps → ps ≠ [] → sc cs = x +:+ (sc ps +:+ y) →
  ∃ a b, cs = a ++ ps ++ b ∧ x = sc a ∧ y = sc b.
Proof.
  intros Hcs Hps Hne Heq. destruct ps as [|p ps]; [done|].
  apply list.Forall_cons in Hps as Hps'. destruct Hps' as [Hp Hps'].
  destruct p as [|h t]; [done|]. destruct (char_ok_parts _ _ Hp) as (Hh & _ & _).
  destruct (cut_aligned cs x h (t +:+ (sc ps +:+ y)) Hcs) as (a & r & -> & -> & Hr); [|done|].
  { rewrite Heq. simpl. by rewrite str_app_assoc. }
  apply Forall_app in Hcs as [Ha Hr'].
  destruct (prefix_aligned r (String h t :: ps) y Hr' Hps) as (b & -> & ->).
  { rewrite Hr. simpl. by rewrite str_app_assoc. }
  by exists a, b.
Qed.
