(* ===== verification/PushWordsSpec.v ===== *)
(** * What [matches_word] decides

    On UTF-8 strings [matches_word] ends, does not panic, and says whether the pattern is the
    whole string or occurs in it between word boundaries: the jump to the next word after a
    failed match skips no such occurrence. *)

From S2P Require Import Prelude RustStr PushWords.
From Stdlib Require Import Ascii NArith.
Open Scope string_scope.
Open Scope nat_scope.
Open Scope list_scope.

(** ** Occurrences between boundaries, on lists of characters *)

Section occurrences.
Variable W : string → bool.   (* the word characters *)

(** There is a boundary between [a] and [b] when one side is empty or not a word character. *)
Definition left_open (a b : list string) : bool :=
  match head b with
  | Some c => negb (W c) || from_option (λ c, negb (W c)) true (list.last a)
  | None => true
  end.
Definition right_open (a b : list string) : bool :=
  match list.last a, head b with
  | Some c, Some d => negb (W c) || negb (W d)
  | _, _ => true
  end.

Definition bounded (a p b : list string) : Prop :=
  left_open a (p ++ b) = true ∧ right_open (a ++ p) b = true.

Definition occurs_bounded (p cs : list string) : Prop :=
  ∃ a b, cs = a ++ p ++ b ∧ bounded a p b.

Implicit Types a b p u v w x cs : list string.

Notation words := (Forall (λ c, W c = true)).
Notation gaps := (Forall (λ c, W c = false)).

Lemma last_app_ne a b : b ≠ [] → list.last (a ++ b) = list.last b.
Proof.
  intros Hb. rewrite last_app. destruct b as [|c b _] using rev_ind; [done|]. by rewrite last_snoc.
Qed.

(** In front of a word character there is a boundary only at the start or after a gap. *)
Lemma left_open_word a c b :
  W c = true → left_open a (c :: b) = true → list.last a = None ∨ ∃ d, list.last a = Some d ∧ W d = false.
Proof.
  unfold left_open. simpl. intros ->. simpl. destruct (list.last a) as [d|]; simpl; [|by left].
  intros Hd%negb_true_iff. eauto.
Qed.

Lemma words_last u : words u → u ≠ [] → ∃ d, list.last u = Some d ∧ W d = true.
Proof.
  intros Hu Hne. destruct u as [|d u _] using rev_ind; [done|]. rewrite last_snoc.
  apply Forall_app in Hu as [_ Hd]. exists d. split; [done|]. by rewrite list.Forall_singleton in Hd.
Qed.

Lemma gaps_last v : gaps v → v ≠ [] → ∃ d, list.last v = Some d ∧ W d = false.
Proof.
  intros Hv Hne. destruct v as [|d v _] using rev_ind; [done|]. rewrite last_snoc.
  apply Forall_app in Hv as [_ Hd]. exists d. split; [done|]. by rewrite list.Forall_singleton in Hd.
Qed.

(** A pattern of gaps is bounded wherever it occurs. *)
Lemma gaps_bounded a p b : p ≠ [] → gaps p → bounded a p b.
Proof.
  intros Hne Hp. split.
  - destruct p as [|c p]; [done|]. unfold left_open. simpl. apply list.Forall_cons in Hp as [-> _]. done.
  - unfold right_open. rewrite last_app_ne by done. destruct (gaps_last p Hp Hne) as (d & -> & Hd).
    destruct (head b); [|done]. by rewrite Hd.
Qed.

(** The initial gaps of a list. *)
Lemma gap_prefix cs : ∃ n r, cs = n ++ r ∧ gaps n ∧ (∀ y, head r = Some y → W y = true).
Proof.
  induction cs as [|c cs (n & r & -> & Hn & Hr)]; [by exists [], []|].
  destruct (W c) eqn:Hc.
  - exists [], (c :: n ++ r). split_and!; [done|constructor|]. by intros y [= <-].
  - exists (c :: n), r. split_and!; [done|by constructor|done].
Qed.

Lemma gap_prefix_unique n n' y y' r r' :
  n ++ y :: r = n' ++ y' :: r' → gaps n → gaps n' → W y = true → W y' = true → n = n'.
Proof.
  revert n'. induction n as [|c n IH]; intros [|c' n'] Heq Hn Hn' Hy Hy'; simplify_eq/=; [done|..].
  - apply list.Forall_cons in Hn' as [? _]. congruence.
  - apply list.Forall_cons in Hn as [? _]. congruence.
  - apply list.Forall_cons in Hn as [_ Hn], Hn' as [_ Hn']. f_equal. by apply (IH n').
Qed.

(** Inside the first word no occurrence is bounded: word characters on both sides. *)
Lemma not_inside_word a p b' v w x k :
  words (x ++ k) → x ≠ [] → k ≠ [] → p ++ b' = k ++ v ++ w →
  left_open (a ++ x) (p ++ b') = true → False.
Proof.
  intros [Hx Hk]%Forall_app Hxne Hkne -> Hleft. destruct k as [|y k]; [done|].
  apply list.Forall_cons in Hk as [Hy _].
  destruct (words_last x Hx Hxne) as (d & Hd & HWd).
  destruct (left_open_word _ _ _ Hy Hleft) as [Hn|(d' & Hd' & HW)];
    rewrite last_app_ne in * by done; congruence.
Qed.

(** A pattern that starts with gaps and goes on with a word character has one place in a run of
    gaps followed by a word. *)
Lemma one_place_in_gap c p n r y b g w :
  c :: p = n ++ y :: r → gaps n → W y = true → gaps g → (∀ y, head w = Some y → W y = true) →
  (c :: p) ++ b = g ++ w → g = n.
Proof.
  intros Hcp Hn Hy Hg Hw Heq. rewrite Hcp, <- (assoc_L (++)) in Heq. destruct w as [|y' w].
  - exfalso. rewrite app_nil_r in Heq. simpl in Heq. rewrite <- Heq in Hg.
    apply Forall_app in Hg as [_ [? _]%list.Forall_cons]. congruence.
  - symmetry. apply (gap_prefix_unique _ _ y y' (r ++ b) w); auto.
Qed.

(** After an occurrence that is not bounded, the next bounded one starts beyond the following
    gap: [p ++ b] is a run of word characters [u], a run of gaps [v] and the rest [w]. *)
Lemma next_occurrence a p b u v w x b' :
  p ≠ [] → ¬ bounded a p b → p ++ b = u ++ v ++ w → words u → gaps v →
  (∀ y, head w = Some y → W y = true) →
  p ++ b = x ++ p ++ b' → x ≠ [] → left_open (a ++ x) (p ++ b') = true →
  ∃ x', x = u ++ v ++ x' ∧ w = x' ++ p ++ b'.
Proof.
  intros Hp Hno Huvw Hu Hv Hw Hx Hxne Hleft.
  assert (∃ k, x = u ++ k ∧ v ++ w = k ++ p ++ b') as (k & -> & Hk).
  { rewrite Huvw in Hx. destruct (app_eq_inv _ _ _ _ Hx) as [(k & -> & Hk)|(k & -> & Hk)]; [|eauto].
    destruct (decide (k = [])) as [->|Hkne].
    - exists []. by rewrite !app_nil_r.
    - by destruct (not_inside_word a p b' v w x k). }
  destruct (app_eq_inv _ _ _ _ Hk) as [(v2 & -> & Hv2)|(x' & -> & Hx')]; [|eauto].
  destruct (decide (v2 = [])) as [->|Hne].
  { exists []. rewrite !app_nil_r. split; [done|]. by simpl in *. }
  exfalso. clear Hk. destruct p as [|c p]; [done|].
  destruct v2 as [|c' v2]; [done|]. pose proof Hv2 as Hhead. injection Hhead as <- _.
  assert (u = []) as ->.
  { destruct u as [|y u]; [done|]. simpl in Huvw. injection Huvw as -> _.
    apply list.Forall_cons in Hu as [? _]. apply Forall_app in Hv as [_ [? _]%list.Forall_cons].
    congruence. }
  destruct (gap_prefix (c :: p)) as (n & r & Hcp & Hn & Hr). destruct r as [|y r].
  { rewrite app_nil_r in Hcp. apply Hno, gaps_bounded; [done|]. by rewrite Hcp. }
  specialize (Hr y eq_refl).
  assert (k ++ c :: v2 = n) as Hn1
    by (eapply one_place_in_gap; [exact Hcp|done..|exact Hw|exact Huvw]).
  assert (c :: v2 = n) as Hn2.
  { apply Forall_app in Hv as [_ Hv]. eapply one_place_in_gap; [exact Hcp|done..|exact Hw|].
    exact Hv2. }
  rewrite <- Hn2 in Hn1. apply (f_equal length) in Hn1. rewrite length_app in Hn1.
  simpl in Hxne. destruct k; [done|]. simpl in Hn1. lia.
Qed.
End occurrences.

(** ** Boundaries of a larger string *)

Section context.
Variable W : string → bool.
Implicit Types a b p x : list string.

Lemma left_open_context a x b :
  x ≠ [] → left_open W (a ++ x) b = left_open W x b.
Proof. intros Hx. unfold left_open. by rewrite last_app_ne. Qed.

Lemma left_open_start b : left_open W [] b = true.
Proof. unfold left_open. simpl. destruct (head b); [|done]. apply orb_true_r. Qed.

Lemma left_open_gap a d b : list.last a = Some d → W d = false → left_open W a b = true.
Proof. unfold left_open. intros -> Hd. destruct (head b); [|done]. simpl. rewrite Hd. apply orb_true_r. Qed.

Lemma right_open_context a x b : x ≠ [] → right_open W (a ++ x) b = right_open W x b.
Proof. intros Hx. unfold right_open. by rewrite last_app_ne. Qed.

Lemma bounded_whole p : bounded W [] p [].
Proof.
  split; [apply left_open_start|]. unfold right_open. simpl. by destruct (list.last p).
Qed.

(** What follows a gap can be looked at on its own. *)
Lemma occurs_after_gap a v d p w :
  p ≠ [] → list.last v = Some d → W d = false →
  (∃ x b, w = x ++ p ++ b ∧ bounded W (a ++ v ++ x) p b) ↔ occurs_bounded W p w.
Proof.
  intros Hp Hv Hd. assert (v ≠ []) as Hvne by by intros ->.
  assert (∀ x b, bounded W (a ++ v ++ x) p b ↔ bounded W x p b) as Hb.
  { intros x b. unfold bounded.
    rewrite !(right_open_context _ p) by done.
    assert (left_open W (a ++ v ++ x) (p ++ b) = left_open W x (p ++ b)) as ->; [|done].
    destruct (decide (x = [])) as [->|Hx].
    - rewrite app_nil_r, left_open_start. by apply (left_open_gap _ d); [rewrite last_app_ne|].
    - by rewrite (assoc_L (++)), left_open_context. }
  unfold occurs_bounded. split; intros (x & b & -> & Hxb); exists x, b; (split; [done|]);
    by apply Hb.
Qed.
End context.

(** ** The function *)

Section matches_word.
Context `{Unicode}.
Implicit Types a b p x cs ps : list string.

Lemma sc_empty cs : all_ok cs → sc cs = "" ↔ cs = [].
Proof.
  intros Hcs. split; [|by intros ->]. destruct Hcs as [|c cs Hc _]; [done|].
  destruct c; [done|]. by simpl.
Qed.

Lemma sc_inj a b : all_ok a → all_ok b → sc a = sc b ↔ a = b.
Proof.
  intros Ha Hb. split; [|by intros ->]. intros Heq.
  by rewrite <- (chars_sc a Ha), <- (chars_sc b Hb), Heq.
Qed.

Lemma word_boundary_start_spec a p b :
  all_ok (a ++ p ++ b) → p ≠ [] →
  word_boundary_start (sc (a ++ p ++ b)) (str_len (sc a)) = Ok (left_open is_word_char a (p ++ b)).
Proof.
  intros Hall Hp. destruct p as [|c p]; [done|]. unfold word_boundary_start. rewrite sc_app.
  change ((c :: p) ++ b) with (c :: (p ++ b)) in *.
  rewrite char_at_spec by done. cbn [mbind outcome_bind].
  unfold left_open. cbn [head]. destruct (is_word_char c); [|done]. cbn [negb].
  rewrite find_prev_char_spec by done. simpl. by destruct (list.last a).
Qed.

Lemma word_boundary_end_spec a p b :
  all_ok (a ++ p ++ b) → p ≠ [] →
  word_boundary_end (sc (a ++ p ++ b)) (str_len (sc (a ++ p))) =
    Ok (right_open is_word_char (a ++ p) b).
Proof.
  intros Hall Hp. rewrite (assoc_L (++)) in *. rewrite sc_app.
  unfold word_boundary_end, right_open. rewrite last_app_ne by done. rewrite str_len_app.
  destruct b as [|d b].
  { rewrite decide_True by (simpl; lia). by destruct (list.last p). }
  assert (0 < str_len (sc (d :: b))) as Hlen.
  { apply Forall_app in Hall as [_ [Hd _]%list.Forall_cons]. simpl. rewrite str_len_app.
    pose proof (char_ok_nonempty d Hd). lia. }
  rewrite decide_False by lia. rewrite find_prev_char_spec by done. rewrite last_app_ne by done.
  destruct p as [|c p _] using rev_ind; [done|]. rewrite last_snoc. cbn [unwrap mbind outcome_bind head].
  destruct (is_word_char c); [|done]. cbn [negb]. by rewrite char_at_spec.
Qed.

(** The first occurrence, as [find] gives it. *)
Lemma find_str_first cs ps :
  all_ok cs → all_ok ps → ps ≠ [] →
  match find_str (sc ps) (sc cs) with
  | None => ∀ a b, cs ≠ a ++ ps ++ b
  | Some n => ∃ a b, cs = a ++ ps ++ b ∧ n = str_len (sc a) ∧
      ∀ a' b', cs = a' ++ ps ++ b' → ∃ x, a' = a ++ x ∧ ps ++ b = x ++ ps ++ b'
  end.
Proof.
  intros Hcs Hps Hne. pose proof (find_str_spec (sc ps) (sc cs)) as Hf.
  destruct (find_str (sc ps) (sc cs)) as [n|].
  - destruct Hf as (x & y & Heq & -> & Hmin).
    destruct (occurrence_aligned cs ps x y Hcs Hps Hne Heq) as (a & b & -> & -> & ->).
    exists a, b. split_and!; [done..|]. intros a' b' Heq'.
    specialize (Hmin (sc a') (sc b')). rewrite Heq' in Hmin. rewrite !sc_app in Hmin.
    specialize (Hmin eq_refl).
    destruct (app_eq_inv _ _ _ _ Heq') as [(k & -> & Hk)|(k & -> & Hk)].
    + assert (k = []) as ->.
      { destruct k as [|c k]; [done|]. rewrite sc_app, str_len_app in Hmin. simpl in Hmin.
        rewrite str_len_app in Hmin. apply Forall_app in Hcs as [Hcs _].
        apply Forall_app in Hcs as [_ [Hc _]%list.Forall_cons].
        pose proof (char_ok_nonempty c Hc). lia. }
      exists []. rewrite !app_nil_r. split; [done|]. by simpl in *.
    + exists k. split; [done|]. by rewrite Hk.
  - intros a b ->. apply (Hf (sc a) (sc b)). by rewrite !sc_app.
Qed.

(** From an occurrence that is not bounded to the word after it. *)
Lemma occurs_later a p b u v w :
  p ≠ [] → ¬ bounded is_word_char a p b → p ++ b = u ++ v ++ w →
  Forall (λ c, is_word_char c = true) u → Forall (λ c, is_word_char c = false) v →
  (∀ y, head w = Some y → is_word_char y = true) →
  (∀ a' b', a ++ p ++ b = a' ++ p ++ b' → ∃ x, a' = a ++ x ∧ p ++ b = x ++ p ++ b') →
  occurs_bounded is_word_char p (a ++ p ++ b) ↔
  ∃ x b', w = x ++ p ++ b' ∧ bounded is_word_char (a ++ u ++ v ++ x) p b'.
Proof.
  intros Hp Hno Huvw Hu Hv Hw Hfirst. split.
  - intros (a' & b' & Heq & Hb). destruct (Hfirst a' b' Heq) as (x & -> & Hx).
    destruct (decide (x = [])) as [->|Hxne].
    { exfalso. simpl in Hx. apply app_inv_head in Hx as <-. by rewrite app_nil_r in Hb. }
    destruct (next_occurrence is_word_char a p b u v w x b') as (x' & -> & ->); try done.
    { apply Hb. }
    by exists x', b'.
  - intros (x & b' & -> & Hb). exists (a ++ u ++ v ++ x), b'. split; [|done].
    rewrite Huvw. by rewrite <- !(assoc_L (++)).
Qed.
End matches_word.

Section matches_word_spec.
Context `{Unicode}.

Lemma find_char_sc f cs :
  all_ok cs →
  match find_char f (sc cs) with
  | None => Forall (λ c, f c = false) cs
  | Some n => ∃ a c b, cs = a ++ c :: b ∧ n = str_len (sc a) ∧ Forall (λ c, f c = false) a ∧ f c = true
  end.
Proof. intros Hcs. unfold find_char. rewrite chars_sc by done. apply find_in_chars_spec. Qed.

(** One round: what the search for the next word leaves. *)
Definition next_round (fuel : nat) (non_word_str pattern : string) : outcome Diverges bool :=
  match find_char (λ c, negb (is_word_char c)) non_word_str with
  | None => Ok false
  | Some non_word =>
      word_str ← unwrap (slice_from non_word non_word_str);
      match find_char is_word_char word_str with
      | None => Ok false
      | Some word =>
          rest ← unwrap (slice_from word word_str);
          matches_word_fuel fuel rest pattern
      end
  end.

Lemma next_round_spec fuel cs p :
  all_ok cs →
  (next_round fuel (sc cs) p = Ok false ∧ ∃ u v, cs = u ++ v ++ [] ∧
     Forall (λ c, is_word_char c = true) u ∧ Forall (λ c, is_word_char c = false) v) ∨
  ∃ u v w d y w', cs = u ++ v ++ w ∧ next_round fuel (sc cs) p = matches_word_fuel fuel (sc w) p ∧
    Forall (λ c, is_word_char c = true) u ∧ Forall (λ c, is_word_char c = false) v ∧
    list.last v = Some d ∧ w = y :: w' ∧ is_word_char y = true.
Proof.
  intros Hcs. unfold next_round.
  pose proof (find_char_sc (λ c, negb (is_word_char c)) cs Hcs) as Hf.
  destruct (find_char _ (sc cs)) as [n|].
  2:{ left. split; [done|]. exists cs, []. rewrite !app_nil_r. split_and!; [done| |constructor].
      eapply list.Forall_impl; [exact Hf|]. by intros c ?%negb_false_iff. }
  destruct Hf as (u & c & b & -> & -> & Hu & Hc).
  apply Forall_app in Hcs as [Hok Hcb]. rewrite sc_app, slice_from_at by done.
  cbn [unwrap mbind outcome_bind].
  assert (Forall (λ c, is_word_char c = true) u) as Hu'
    by (eapply list.Forall_impl; [exact Hu|]; by intros ? ?%negb_false_iff).
  pose proof (find_char_sc is_word_char (c :: b) Hcb) as Hg.
  destruct (find_char is_word_char (sc (c :: b))) as [n|].
  2:{ left. split; [done|]. exists u, (c :: b). by rewrite app_nil_r. }
  destruct Hg as (v & y & w' & Heq & -> & Hv & Hy). right. rewrite Heq in Hcb |- *.
  destruct v as [|d v _] using rev_ind.
  { simpl in Heq. injection Heq as -> _. apply negb_true_iff in Hc. congruence. }
  exists u, (v ++ [d]), (y :: w'), d, y, w'. split_and!; try done.
  - apply Forall_app in Hcb as [_ Hyw]. rewrite (sc_app (v ++ [d])), slice_from_at by done. done.
  - by rewrite last_snoc.
Qed.

Lemma matches_word_fuel_spec fuel cs p :
  all_ok cs → all_ok p → length cs < fuel →
  ∃ r, matches_word_fuel fuel (sc cs) (sc p) = Ok r ∧
    (r = true ↔ cs = p ∨ p ≠ [] ∧ occurs_bounded is_word_char p cs).
Proof.
  revert cs. induction fuel as [|fuel IH]; intros cs Hcs Hp Hlen; [lia|]. cbn [matches_word_fuel].
  destruct (decide (sc cs = sc p)) as [Heq|Hne].
  { apply sc_inj in Heq as ->; [|done..]. exists true. split; [done|]. by split; [left|]. }
  assert (cs ≠ p) as Hcp by by intros ->.
  destruct (decide (sc p = "")) as [Hemp|Hpne].
  { apply sc_empty in Hemp as ->; [|done]. exists false. split; [done|]. split; [done|]. naive_solver. }
  assert (p ≠ []) as Hp' by by intros ->.
  pose proof (find_str_first cs p Hcs Hp Hp') as Hfind.
  destruct (find_str (sc p) (sc cs)) as [start|].
  2:{ exists false. split; [done|]. split; [done|]. intros [?|[_ (a & b & Hab & _)]]; [done|].
      by destruct (Hfind a b). }
  destruct Hfind as (a & b & -> & -> & Hfirst).
  rewrite word_boundary_start_spec by done. cbn [mbind outcome_bind].
  assert (str_len (sc a) + str_len (sc p) = str_len (sc (a ++ p))) as -> by by rewrite sc_app, str_len_app.
  assert ((if left_open is_word_char a (p ++ b)
           then word_boundary_end (sc (a ++ p ++ b)) (str_len (sc (a ++ p))) else Ok false) =
    Ok (left_open is_word_char a (p ++ b) && right_open is_word_char (a ++ p) b)) as ->.
  { destruct (left_open _ _ _); [|done]. by rewrite word_boundary_end_spec. }
  cbn [mbind outcome_bind].
  destruct (left_open is_word_char a (p ++ b) && right_open is_word_char (a ++ p) b) eqn:Hb.
  { apply andb_true_iff in Hb. exists true. split; [done|]. split; [|done]. intros _. right.
    split; [done|]. by exists a, b. }
  assert (¬ bounded is_word_char a p b) as Hno.
  { intros [H1 H2]. by rewrite H1, H2 in Hb. }
  pose proof (proj2 (proj1 (Forall_app _ _ _) Hcs)) as Hpb. rewrite sc_app, slice_from_at by done.
  cbn [unwrap mbind outcome_bind]. fold (next_round fuel (sc (p ++ b)) (sc p)).
  destruct (next_round_spec fuel (p ++ b) (sc p) Hpb) as
    [(-> & u & v & Huv & Hu & Hv)|(u & v & w & d & y & w' & Huvw & -> & Hu & Hv & Hd & -> & Hy)].
  - exists false. split; [done|]. split; [done|]. intros [?|[_ Hocc]]; [done|].
    apply (occurs_later a p b u v []) in Hocc as (x & b' & Hx & _); [|done..].
    destruct x; [|done]. by destruct p.
  - assert (Forall (λ c, char_ok c = true) (y :: w')) as Hw.
    { rewrite Huvw in Hpb. by apply Forall_app in Hpb as [_ [_ ?]%Forall_app]. }
    destruct (IH (y :: w') Hw Hp) as (r & -> & Hr).
    { rewrite length_app, Huvw, !length_app in Hlen. destruct v; [done|]. simpl in *. lia. }
    exists r. split; [done|]. rewrite Hr.
    assert (gap_d : is_word_char d = false).
    { destruct v as [|d' v _] using rev_ind; [done|]. rewrite last_snoc in Hd. injection Hd as ->.
      apply Forall_app in Hv as [_ Hv]. by rewrite list.Forall_singleton in Hv. }
    assert (occurs_bounded is_word_char p (a ++ p ++ b) ↔ occurs_bounded is_word_char p (y :: w')) as ->.
    { rewrite (occurs_later a p b u v (y :: w')); [|done..|by intros ? [= <-]|done].
      rewrite <- (occurs_after_gap is_word_char (a ++ u) v d p (y :: w')) by done.
      by setoid_rewrite <- (assoc_L (++)). }
    split; [|naive_solver]. intros [->|[_ Hocc]]; right; (split; [done|]); [|done].
    exists [], []. rewrite app_nil_r. split; [done|]. apply bounded_whole.
Qed.

Lemma chars_length s : length (str_chars s) ≤ str_len s.
Proof.
  induction s as [|b s IH]; simpl; [done|]. destruct (str_chars s) as [|c cs]; simpl in *; [lia|].
  destruct (starts_with_continuation c); simpl; lia.
Qed.

Lemma matches_word_total s p :
  utf8 s → utf8 p →
  ∃ r, matches_word s p = Ok r ∧
    (r = true ↔ s = p ∨ p ≠ "" ∧ occurs_bounded is_word_char (str_chars p) (str_chars s)).
Proof.
  intros Hs Hp. unfold matches_word.
  destruct (matches_word_fuel_spec (S (str_len s)) (str_chars s) (str_chars p) Hs Hp) as (r & Hr & Hiff).
  { pose proof (chars_length s). lia. }
  rewrite !sc_chars in Hr. exists r. split; [done|]. rewrite Hiff.
  assert (str_chars s = str_chars p ↔ s = p) as ->.
  { split; [|by intros ->]. intros Heq. by rewrite <- (sc_chars s), Heq, sc_chars. }
  assert (str_chars p = [] ↔ p = "") as ->; [|done].
  split; [|by intros ->]. intros Heq. by rewrite <- (sc_chars p), Heq.
Qed.

(** C17: on UTF-8 strings [matches_word] ends without panic; its answer is yes exactly when the
    pattern is the whole string or is not empty and occurs in it with a word boundary on both
    sides, where a boundary is the end of the string or a place with a character on one side
    that is not part of a word. *)
Theorem matches_word_spec s p :
  utf8 s → utf8 p →
  ∃ r, matches_word s p = Ok r ∧
    (r = true ↔ s = p ∨ p ≠ "" ∧ occurs_bounded is_word_char (str_chars p) (str_chars s)).
Proof. apply matches_word_total. Qed.
End matches_word_spec.

Lemma matches_word_spec_witness :
  let _ := ascii_unicode in
  ∃ r, matches_word "foobar bar barfoo bar bar" "bar bar" = Ok r ∧
    (r = true ↔ "foobar bar barfoo bar bar" = "bar bar" ∨ "bar bar" ≠ "" ∧
       occurs_bounded is_word_char (str_chars "bar bar") (str_chars "foobar bar barfoo bar bar")).
Proof.
  intros u. apply (matches_word_spec "foobar bar barfoo bar bar" "bar bar").
  - unfold utf8. decide_it.
  - unfold utf8. decide_it.
Defined.

(** Some of the source's own tests. *)
Example words_match :
  let _ := ascii_unicode in
  matches_word "foo bar" "foo" = Ok true ∧ matches_word "Foo bar" "foo" = Ok false ∧
  matches_word "foobar" "foo" = Ok false ∧ matches_word "foobar foo" "foo" = Ok true ∧
  matches_word "foobar foobar" "foo" = Ok false ∧ matches_word "foobar bar" "bar bar" = Ok false ∧
  matches_word "foobar bar bar" "bar bar" = Ok true ∧
  matches_word "foobar bar barfoo" "bar bar" = Ok false.
Proof. vm_compute. repeat split. Qed.
