(* ===== verification/PushConditions.v ===== *)
(** * Push conditions

    [ruma-common/src/push/condition.rs]: the flattened form of an event, glob and word matching
    on one of its fields, and the four kinds of condition.

    [applies] panics or diverges in the model where the source would; on the strings Rust can
    hold it does neither, which [PushConditionsSpec] shows. *)

From S2P Require Import Prelude RustStr RustNet IdValidation StringEnum Identifiers Json.
From S2P Require Import EventTypes EventContents CanonicalJson MemberCount PushWords.
From Stdlib Require Import Ascii NArith.
Open Scope string_scope.
Open Scope nat_scope.
Open Scope list_scope.

(** The crate wildmatch. Its documentation: [*] stands for any characters, [?] for any one
    character; a pattern without them matches itself only. *)
Definition is_wildcard (b : ascii) : bool := bool_decide (b = "*"%char) || bool_decide (b = "?"%char).

Class WildMatch := {
  wild_matches : string → string → bool;      (* the pattern, the value *)
  wild_matches_literal p v :
    bytes_any is_wildcard p = false → wild_matches p v = true ↔ v = p
}.

(** What serde_json says of the text of a [Raw]: whether it can be held as a [Value], which has
    limits on nesting and on numbers, and how a [Value] prints a floating point number. *)
Class SerdeValue := {
  holds_value : json → bool;
  float_to_string : string → string
}.

(** ** Flattened events *)

Notation FlattenedJson := (gmap string string).

(** [Value::to_string] of a number or a boolean, the string itself of a string *)
Definition scalar_string `{SerdeValue} (j : json) : option string :=
  match j with
  | JString s => Some s
  | JNumber (NInt z) =>
      Some (if (z <? 0)%Z then "-" +:+ N_to_string (Z.to_N (- z)) else N_to_string (Z.to_N z))
  | JNumber (NFloat lexeme) => Some (float_to_string lexeme)
  | JBool b => Some (if b then "true" else "false")
  | _ => None
  end.

Definition join_path (path key : string) : string :=
  if decide (path = "") then key else path +:+ "." +:+ key.

(** [flatten_value]: the object of a [Value] holds the last entry of each key and iterates by
    key. A duplicate path is logged and overwritten. *)
Fixpoint flatten_value `{SerdeValue} (value : json) : string → FlattenedJson → FlattenedJson :=
  match value with
  | JObject fields => λ path self,
      fold_left (λ self '(key, flatten), flatten (join_path path key) self)
        (btree_iter (last_entries ((λ '(key, value), (key, flatten_value value)) <$> fields))) self
  | JArray _ | JNull => λ _ self, self
  | _ => λ path self,
      match scalar_string value with
      | Some s => <[path := s]> self
      | None => self
      end
  end.

Definition from_raw `{SerdeValue} {E} (raw : json) : outcome E FlattenedJson :=
  value ← unwrap (if holds_value raw then Some raw else None);
  Ok (flatten_value value "" ∅).

Definition FlattenedJson_get (event : FlattenedJson) (path : string) : option string := event !! path.

(** ** Conditions *)

Record PushConditionRoomCtx := {
  room_id : string;
  member_count : Z;
  user_display_name : string;
  users_power_levels : gmap string Z;
  ctx_default_power_level : Z;
  notification_power_levels : NotificationPowerLevels
}.

Inductive PushCondition :=
  | EventMatch (key pattern : string)
  | ContainsDisplayName
  | RoomMemberCount (m : RoomMemberCountIs)
  | SenderNotificationPermission (key : string).

#[export] Instance PushCondition_eq_dec : EqDecision PushCondition.
Proof. solve_decision. Defined.

Section conditions.
Context `{Unicode} `{WildMatch}.

Definition matches_pattern (s pattern : string) (match_words : bool) : outcome Diverges bool :=
  let value := to_lowercase s in
  let pattern := to_lowercase pattern in
  if match_words then matches_word value pattern
  else Ok (wild_matches pattern value).

Definition check_event_match (event : FlattenedJson) (key pattern : string)
    (context : PushConditionRoomCtx) : outcome Diverges bool :=
  match (if decide (key = "room_id") then Some (room_id context)
         else FlattenedJson_get event key) with
  | None => Ok false
  | Some value => matches_pattern value pattern (bool_decide (key = "content.body"))
  end.

Definition PushCondition_applies (self : PushCondition) (event : FlattenedJson)
    (context : PushConditionRoomCtx) : outcome Diverges bool :=
  match self with
  | EventMatch key pattern => check_event_match event key pattern context
  | ContainsDisplayName =>
      match FlattenedJson_get event "content.body" with
      | None => Ok false
      | Some value => matches_pattern value (user_display_name context) true
      end
  | RoomMemberCount m => Ok (contains m (member_count context))
  | SenderNotificationPermission key =>
      match FlattenedJson_get event "sender" with
      | None => Ok false
      | Some v =>
          match UserId_parse v with
          | Panic => Panic
          | Err _ => Ok false
          | Ok sender_id =>
              let sender_level :=
                default (ctx_default_power_level context) (users_power_levels context !! sender_id) in
              match NotificationPowerLevels_get (notification_power_levels context) key with
              | Some l => Ok (l <=? sender_level)%Z
              | None => Ok false
              end
          end
      end
  end.
End conditions.
