(* ===== verification/PushConditionsSpec.v ===== *)
(** * What the flattened event holds and what the conditions decide

    The flattened form gives each scalar of the event under its dotted path; conditions end
    without panic on the strings Rust can hold. *)

From S2P Require Import Prelude RustStr RustNet IdValidation StringEnum Identifiers Json.
From S2P Require Import EventTypes EventContents CanonicalJson MemberCount PushWords.
From S2P Require Import PushWordsSpec PushConditions.
From Stdlib Require Import Ascii NArith.
Open Scope string_scope.
Open Scope nat_scope.
Open Scope list_scope.

(** ** The scalars of a JSON value *)

Section flatten.
Context `{SerdeValue}.

(** [leaf j ks s]: the keys [ks] lead from [j] to a scalar printed as [s]. *)
Inductive leaf : json → list string → string → Prop :=
  | leaf_scalar j s : scalar_string j = Some s → leaf j [] s
  | leaf_field fields k v ks s :
      last_entries fields !! k = Some v → leaf v ks s → leaf (JObject fields) (k :: ks) s.

Definition dotted_from (path : string) (ks : list string) : string := fold_left join_path ks path.
Definition dotted : list string → string := dotted_from "".

Lemma leaf_functional j ks s s' : leaf j ks s → leaf j ks s' → s = s'.
Proof.
  intros Hs. revert s'. induction Hs as [j s Hj|fields k v ks s Hk _ IH]; intros s' Hs';
    inversion Hs'; simplify_eq; [congruence|]. apply IH. congruence.
Qed.

Lemma elem_of_flattened fields k F :
  (k, F) ∈ btree_iter (last_entries ((λ '(k, v), (k, flatten_value v)) <$> fields)) ↔
  ∃ v, last_entries fields !! k = Some v ∧ F = flatten_value v.
Proof.
  rewrite elem_of_btree_iter, last_entries_map, lookup_fmap, fmap_Some. done.
Qed.

Implicit Types (L : list (string * (string → FlattenedJson → FlattenedJson))).

Notation flatten_all L path m :=
  (fold_left (λ self '(key, flatten), flatten (join_path path key) self) L m).

Lemma flatten_all_sound (R : string → string → string → Prop) L path m p s :
  (∀ k F m, (k, F) ∈ L → F (join_path path k) m !! p = Some s → m !! p = Some s ∨ R k p s) →
  flatten_all L path m !! p = Some s → m !! p = Some s ∨ ∃ k, R k p s.
Proof.
  revert m. induction L as [|[k F] L IH]; intros m HR; simpl; [by left|]. intros Hp.
  apply IH in Hp as [Hp|?]; [|by right|].
  - apply HR in Hp as [?|?]; [by left|right; eauto|by left].
  - intros k' F' m' Hin. apply HR. by right.
Qed.

Lemma flatten_all_keeps L path m p :
  (∀ k F m, (k, F) ∈ L → is_Some (m !! p) → is_Some (F (join_path path k) m !! p)) →
  is_Some (m !! p) → is_Some (flatten_all L path m !! p).
Proof.
  revert m. induction L as [|[k F] L IH]; intros m HF Hm; simpl; [done|].
  apply IH; [|apply (HF k F); [by left|done]]. intros k' F' m' Hin. apply HF. by right.
Qed.

Lemma flatten_all_has L path m p k F :
  (∀ k F m, (k, F) ∈ L → is_Some (m !! p) → is_Some (F (join_path path k) m !! p)) →
  (k, F) ∈ L → (∀ m, is_Some (F (join_path path k) m !! p)) →
  is_Some (flatten_all L path m !! p).
Proof.
  revert m. induction L as [|[k' F'] L IH]; intros m Hkeep Hin HF; simpl; [by apply elem_of_nil in Hin|].
  apply elem_of_cons in Hin as [[= <- <-]|Hin].
  - apply flatten_all_keeps; [|apply HF]. intros k' F' m' Hin. apply Hkeep. by right.
  - apply IH; [|done..]. intros k'' F'' m' Hin'. apply Hkeep. by right.
Qed.

Lemma flatten_sound j path m p s :
  flatten_value j path m !! p = Some s →
  m !! p = Some s ∨ ∃ ks, leaf j ks s ∧ p = dotted_from path ks.
Proof.
  revert path m. induction j as [|b|n|s'|l IH|l IH] using json_nested_ind; intros path m Hp;
    try (by left).
  1-3: simpl in Hp; try (destruct n); rewrite lookup_insert in Hp; case_decide; simplify_eq;
    try (by left); right; exists []; (split; [by apply leaf_scalar|done]).
  cbn [flatten_value] in Hp.
  apply (flatten_all_sound (λ k p s, ∃ v ks, last_entries l !! k = Some v ∧ leaf v ks s ∧
    p = dotted_from path (k :: ks))) in Hp as [?|(k & v & ks & Hk & Hl & ->)]; [by left| |].
  - right. exists (k :: ks). split; [by eapply leaf_field|done].
  - intros k F m' (v & Hk & ->)%elem_of_flattened Hp'.
    apply last_entries_elem in Hk as Hin. rewrite list.Forall_forall in IH.
    specialize (IH (k, v) Hin). simpl in IH.
    apply IH in Hp' as [?|(ks & Hl & ->)]; [by left|right; by exists v, ks].
Qed.

Lemma flatten_keeps j path m p :
  is_Some (m !! p) → is_Some (flatten_value j path m !! p).
Proof.
  revert path m. induction j as [|b|n|s|l IH|l IH] using json_nested_ind; intros path m Hm; try done.
  1-3: simpl; try (destruct n); rewrite lookup_insert; case_decide; eauto.
  cbn [flatten_value]. apply flatten_all_keeps; [|done].
  intros k F m' (v & Hk & ->)%elem_of_flattened. apply last_entries_elem in Hk.
  rewrite list.Forall_forall in IH. apply (IH (k, v) Hk).
Qed.

Lemma flatten_complete j ks s :
  leaf j ks s → ∀ path m, is_Some (flatten_value j path m !! dotted_from path ks).
Proof.
  induction 1 as [j s Hj|fields k v ks s Hk _ IH]; intros path m.
  - destruct j as [|b|n|s'|l|l]; simpl in *; try done; try destruct n;
      simpl; rewrite lookup_insert_eq; eauto.
  - cbn [flatten_value]. apply (flatten_all_has _ _ _ _ k (flatten_value v)).
    + intros k' F m' (v' & _ & ->)%elem_of_flattened. apply flatten_keeps.
    + apply elem_of_flattened. eauto.
    + intros m'. apply IH.
Qed.

(** ** Plain keys *)

Definition plain_key (k : string) : bool :=
  negb (bool_decide (k = "")) && negb (str_contains "." k).

Fixpoint plain_json (j : json) : bool :=
  match j with
  | JObject fields => forallb (λ '(k, v), plain_key k && plain_json v) fields
  | _ => true
  end.

Lemma leaf_plain j ks s : leaf j ks s → plain_json j = true → Forall (λ k, plain_key k = true) ks.
Proof.
  induction 1 as [|fields k v ks s Hk _ IH]; simpl; intros Hp; [constructor|].
  rewrite forallb_forall in Hp. apply last_entries_elem, list_elem_of_In in Hk.
  specialize (Hp _ Hk). simpl in Hp. bool_to_prop. constructor; auto.
Qed.

Lemma join_path_dot path k : path ≠ "" → join_path path k = path +:+ String "." k.
Proof. intros Hp. unfold join_path. by rewrite decide_False. Qed.

Lemma dotted_from_ne path ks :
  path ≠ "" → dotted_from path ks = str_join "." (path :: ks).
Proof.
  revert path. induction ks as [|k ks IH]; intros path Hp; [done|].
  change (dotted_from path (k :: ks)) with (dotted_from (join_path path k) ks).
  rewrite join_path_dot by done. rewrite IH by by destruct path.
  cbn [str_join]. destruct ks; [done|]. by rewrite str_app_assoc.
Qed.

Lemma str_split_join c ks :
  ks ≠ [] → Forall (λ k, str_contains c k = false) ks → str_split c (str_join c ks) = ks.
Proof.
  intros Hne Hall. induction Hall as [|k ks Hk Hks IH]; [done|].
  unfold str_contains in Hk. apply bool_decide_eq_false, eq_None_not_Some, str_find_None in Hk.
  destruct ks as [|k' ks]; [by apply str_split_no_sep|].
  change (str_join c (k :: k' :: ks)) with (k +:+ String c (str_join c (k' :: ks))).
  rewrite str_split_sep by done. by rewrite IH.
Qed.

Lemma str_split_dotted ks :
  ks ≠ [] → Forall (λ k, plain_key k = true) ks → str_split "." (dotted ks) = ks.
Proof.
  intros Hne Hall. destruct Hall as [|k ks Hk Hks]; [done|]. unfold dotted.
  change (dotted_from "" (k :: ks)) with (dotted_from k ks).
  unfold plain_key in Hk. bool_to_prop. rewrite dotted_from_ne by done.
  apply str_split_join; [done|]. constructor; [done|].
  eapply list.Forall_impl; [exact Hks|]. unfold plain_key. intros x Hx. by bool_to_prop.
Qed.

Lemma dotted_split p :
  Forall (λ k, plain_key k = true) (str_split "." p) → dotted (str_split "." p) = p.
Proof.
  intros Hall. rewrite <- (str_join_split "." p) at 2.
  destruct Hall as [|k ks Hk Hks]; [done|]. unfold dotted.
  change (dotted_from "" (k :: ks)) with (dotted_from k ks).
  unfold plain_key in Hk. bool_to_prop. by rewrite dotted_from_ne.
Qed.

Lemma from_raw_get {E} raw event p :
  from_raw (E:=E) raw = Ok event → FlattenedJson_get event p = flatten_value raw "" ∅ !! p.
Proof. unfold from_raw. destruct (holds_value raw); [|done]. by intros [= <-]. Qed.

Lemma from_raw_sound {E} raw event p s :
  from_raw (E:=E) raw = Ok event → FlattenedJson_get event p = Some s →
  ∃ ks, leaf raw ks s ∧ p = dotted ks.
Proof.
  intros Hraw. rewrite (from_raw_get _ _ _ Hraw).
  intros [Hp|?]%flatten_sound; [|done]. by rewrite lookup_empty in Hp.
Qed.

Lemma from_raw_complete {E} raw event ks s :
  from_raw (E:=E) raw = Ok event → leaf raw ks s → is_Some (FlattenedJson_get event (dotted ks)).
Proof. intros Hraw Hl. rewrite (from_raw_get _ _ _ Hraw). by eapply flatten_complete. Qed.

(** The flattened form of an event has under each path the string of some scalar that its
    keys, joined by dots, lead to, and has every such path; when no key is empty or has a dot
    in it, a path gives exactly the scalar that its parts lead to. *)
Theorem flattened_event_spec {E} raw event :
  from_raw (E:=E) raw = Ok event →
  (∀ p s, FlattenedJson_get event p = Some s → ∃ ks, leaf raw ks s ∧ p = dotted ks) ∧
  (∀ ks s, leaf raw ks s → is_Some (FlattenedJson_get event (dotted ks))) ∧
  (∀ fields p s, raw = JObject fields → plain_json raw = true →
     FlattenedJson_get event p = Some s ↔ leaf raw (str_split "." p) s).
Proof.
  intros Hraw. split_and!; [by eauto using from_raw_sound|by eauto using from_raw_complete|].
  intros fields p s Hobj Hplain. split.
  - intros Hp. destruct (from_raw_sound _ _ _ _ Hraw Hp) as (ks & Hl & ->).
    rewrite str_split_dotted; [done| |by eapply leaf_plain].
    intros ->. rewrite Hobj in Hl. inversion Hl. done.
  - intros Hl. pose proof (leaf_plain _ _ _ Hl Hplain) as Hks.
    destruct (from_raw_complete _ _ _ _ Hraw Hl) as [s' Hs'].
    rewrite dotted_split in Hs' by done.
    destruct (from_raw_sound _ _ _ _ Hraw Hs') as (ks' & Hl' & ->).
    rewrite str_split_dotted in Hl; [|by intros ->; rewrite Hobj in Hl'; inversion Hl'|by eapply leaf_plain].
    by rewrite (leaf_functional _ _ _ _ Hl Hl').
Qed.
End flatten.

(** ** What the conditions decide *)

(** Lowercasing gives a string again. *)
Class LowercaseUtf8 `{Unicode} := lowercase_utf8 s : utf8 s → utf8 (to_lowercase s).

Section conditions.
Context `{LowercaseUtf8} `{WildMatch}.

Definition pattern_holds (s pattern : string) (match_words : bool) : Prop :=
  let value := to_lowercase s in
  let pattern := to_lowercase pattern in
  if match_words then
    value = pattern ∨ pattern ≠ "" ∧ occurs_bounded is_word_char (str_chars pattern) (str_chars value)
  else wild_matches pattern value = true.

Definition event_field (event : FlattenedJson) (context : PushConditionRoomCtx) (key : string) :
    option string :=
  if decide (key = "room_id") then Some (room_id context) else FlattenedJson_get event key.

Definition condition_holds (c : PushCondition) (event : FlattenedJson)
    (context : PushConditionRoomCtx) : Prop :=
  match c with
  | EventMatch key pattern =>
      ∃ value, event_field event context key = Some value ∧
        pattern_holds value pattern (bool_decide (key = "content.body"))
  | ContainsDisplayName =>
      ∃ body, FlattenedJson_get event "content.body" = Some body ∧
        pattern_holds body (user_display_name context) true
  | RoomMemberCount m => compares (prefix m) (member_count context) (count m)
  | SenderNotificationPermission key =>
      key = "room" ∧ ∃ sender, FlattenedJson_get event "sender" = Some sender ∧
        user_id_validate sender = Ok () ∧
        (room (notification_power_levels context) ≤
         default (ctx_default_power_level context) (users_power_levels context !! sender))%Z
  end.

(** The strings of events, contexts and conditions are UTF-8. *)
Definition utf8_event (event : FlattenedJson) : Prop := map_Forall (λ _ s, utf8 s) event.
Definition utf8_context (context : PushConditionRoomCtx) : Prop :=
  utf8 (room_id context) ∧ utf8 (user_display_name context).
Definition utf8_condition (c : PushCondition) : Prop :=
  match c with EventMatch _ pattern => utf8 pattern | _ => True end.

Lemma matches_pattern_total s p w :
  utf8 s → utf8 p → ∃ r, matches_pattern s p w = Ok r ∧ (r = true ↔ pattern_holds s p w).
Proof.
  intros Hs Hp. unfold matches_pattern, pattern_holds. destruct w; [|eauto].
  by apply matches_word_total; apply lowercase_utf8.
Qed.

Lemma check_event_match_total event key pattern context :
  utf8_event event → utf8_context context → utf8 pattern →
  ∃ r, check_event_match event key pattern context = Ok r ∧
    (r = true ↔ ∃ value, event_field event context key = Some value ∧
       pattern_holds value pattern (bool_decide (key = "content.body"))).
Proof.
  intros He [Hr _] Hp. unfold check_event_match. fold (event_field event context key).
  destruct (event_field event context key) as [v|] eqn:Hv; [|exists false; naive_solver].
  assert (utf8 v) as Hutf.
  { unfold event_field in Hv. case_decide; simplify_eq; [done|]. by apply (He key). }
  destruct (matches_pattern_total v pattern (bool_decide (key = "content.body")) Hutf Hp)
    as (r & -> & Hiff).
  exists r. split; [done|]. rewrite Hiff. naive_solver.
Qed.

Lemma user_id_validate_no_panic s : user_id_validate s ≠ Panic.
Proof.
  unfold user_id_validate, parse_id, validate_id. repeat case_match; simpl; try done.
  all: destruct (str_find ":" s) as [n|]; simpl; [|done].
  all: pose proof (server_name_validate_no_panic (str_drop (n + 1) s)).
  all: destruct (server_name_validate _); simpl; [|done..].
  all: unfold localpart_is_fully_conforming; case_match; done.
Qed.

Lemma applies_total c event context :
  utf8_event event → utf8_context context → utf8_condition c →
  ∃ r, PushCondition_applies c event context = Ok r ∧ (r = true ↔ condition_holds c event context).
Proof.
  intros He Hctx Hc. destruct c as [key pattern| |m|key]; cbn [PushCondition_applies condition_holds].
  - by apply check_event_match_total.
  - destruct (FlattenedJson_get event "content.body") as [v|] eqn:Hv; [|exists false; naive_solver].
    destruct (matches_pattern_total v (user_display_name context) true) as (r & -> & Hiff);
      [by apply (He "content.body")|apply Hctx|].
    exists r. split; [done|]. rewrite Hiff. naive_solver.
  - eexists. split; [done|]. apply contains_compares.
  - destruct (FlattenedJson_get event "sender") as [v|] eqn:Hv; [|exists false; naive_solver].
    unfold UserId_parse, parse. pose proof (user_id_validate_no_panic v) as Hno.
    destruct (user_id_validate v) as [[]|e|] eqn:Hid; cbn [mbind outcome_bind];
      [|exists false; split; [done|]; split; [done|]; intros (_ & s & [= <-] & Hs & _); congruence|done].
    unfold NotificationPowerLevels_get. case_decide as Hk; [|exists false; naive_solver].
    eexists. split; [done|]. rewrite Z.leb_le. naive_solver.
Qed.

(** C20: On UTF-8 strings a condition is decided without panic and holds exactly when: the
    field matches the pattern, as a glob or, for the body, as words; the body has the display
    name as words; the member count compares as the condition says; the sender's power level
    reaches the level of room notifications, which is the only key there is. A pattern without
    glob characters has to be the whole field, but for the body and letter case: the asterisks
    that the documentation of [EventMatch] puts around such a pattern are not there. *)
Theorem condition_applies_spec c event context :
  utf8_event event → utf8_context context → utf8_condition c →
  (∃ r, PushCondition_applies c event context = Ok r ∧
     (r = true ↔ condition_holds c event context)) ∧
  ∀ key pattern, c = EventMatch key pattern → key ≠ "content.body" →
    bytes_any is_wildcard (to_lowercase pattern) = false →
    condition_holds c event context ↔
      ∃ value, event_field event context key = Some value ∧
        to_lowercase value = to_lowercase pattern.
Proof.
  intros He Hctx Hc. split; [by apply applies_total|]. intros key pattern -> Hkey Hlit.
  cbn [condition_holds]. unfold pattern_holds. rewrite bool_decide_false by done.
  by setoid_rewrite (wild_matches_literal _ _ Hlit).
Qed.
End conditions.

(** ** Instances for the examples *)

Definition every_value : SerdeValue := {| holds_value := λ _, true; float_to_string := id |}.

(** [*] and [?] on lists of characters. *)
Fixpoint glob (p v : list string) : bool :=
  match p with
  | [] => bool_decide (v = [])
  | c :: p =>
      if decide (c = "*") then
        (fix star (v : list string) : bool :=
           glob p v || match v with [] => false | _ :: v => star v end) v
      else match v with
           | [] => false
           | d :: v => (bool_decide (c = "?") || bool_decide (c = d)) && glob p v
           end
  end.

Lemma glob_literal p v :
  Forall (λ c, c ≠ "*" ∧ c ≠ "?") p → glob p v = true ↔ v = p.
Proof.
  intros Hp. revert v. induction Hp as [|c p [Hs Hq] Hp IH]; intros v; simpl; [apply bool_decide_eq_true|].
  rewrite decide_False by done. destruct v as [|d v]; [done|].
  rewrite bool_decide_false by done. simpl. rewrite andb_true_iff, bool_decide_eq_true, IH. naive_solver.
Qed.

Lemma literal_chars p :
  bytes_any is_wildcard p = false → Forall (λ c, c ≠ "*" ∧ c ≠ "?") (str_chars p).
Proof.
  intros Hp%bytes_any_false. rewrite list.Forall_forall. intros c Hc.
  apply list_elem_of_split in Hc as (a & b & Heq).
  rewrite <- (sc_chars p), Heq, sc_app, bytes_all_app in Hp. simpl in Hp. rewrite bytes_all_app in Hp.
  bool_to_prop. split; intros ->; discriminate.
Qed.

Lemma glob_matches_literal p v :
  bytes_any is_wildcard p = false → glob (str_chars p) (str_chars v) = true ↔ v = p.
Proof.
  intros Hp. rewrite glob_literal by by apply literal_chars. split; [|by intros ->].
  intros Heq. by rewrite <- (sc_chars v), Heq, sc_chars.
Qed.

Definition char_glob : WildMatch := {|
  wild_matches := λ p v, glob (str_chars p) (str_chars v);
  wild_matches_literal := glob_matches_literal
|}.

Lemma is_continuation_lower b : is_continuation (ascii_to_lower b) = is_continuation b.
Proof. destruct b as [[] [] [] [] [] [] [] []]; reflexivity. Qed.

Lemma utf8_len_lower b : utf8_len (ascii_to_lower b) = utf8_len b.
Proof. destruct b as [[] [] [] [] [] [] [] []]; reflexivity. Qed.

Lemma chars_lower s :
  str_chars (str_map ascii_to_lower s) = str_map ascii_to_lower <$> str_chars s.
Proof.
  induction s as [|b s IH]; [done|]. simpl. rewrite IH. destruct (str_chars s) as [|c cs]; [done|].
  csimpl. assert (starts_with_continuation (str_map ascii_to_lower c) = starts_with_continuation c) as ->.
  { destruct c; simpl; [done|]. apply is_continuation_lower. }
  by destruct (starts_with_continuation c).
Qed.

Lemma char_ok_lower c : char_ok (str_map ascii_to_lower c) = char_ok c.
Proof.
  destruct c as [|b t]; [done|]. simpl. rewrite is_continuation_lower, utf8_len_lower.
  assert (bytes_all is_continuation (str_map ascii_to_lower t) = bytes_all is_continuation t ∧
    str_len (str_map ascii_to_lower t) = str_len t) as [-> ->]; [|done].
  induction t as [|b' t [IH1 IH2]]; simpl; [done|]. by rewrite is_continuation_lower, IH1, IH2.
Qed.

Lemma ascii_lowercase_utf8 : @LowercaseUtf8 ascii_unicode.
Proof.
  intros s Hs. unfold utf8. simpl. rewrite chars_lower. apply list.Forall_fmap.
  eapply list.Forall_impl; [exact Hs|]. intros c Hc. simpl. by rewrite char_ok_lower.
Qed.

Lemma flattened_event_spec_witness :
  let _ := every_value in
  let raw := JObject [("sender", JString "@a:a");
                      ("content", JObject [("body", JString "hi"); ("n", JNumber (NInt 10))])] in
  ∃ event, from_raw (E:=Diverges) raw = Ok event ∧
    ((∀ p s, FlattenedJson_get event p = Some s → ∃ ks, leaf raw ks s ∧ p = dotted ks) ∧
     (∀ ks s, leaf raw ks s → is_Some (FlattenedJson_get event (dotted ks))) ∧
     (∀ fields p s, raw = JObject fields → plain_json raw = true →
        FlattenedJson_get event p = Some s ↔ leaf raw (str_split "." p) s)) ∧
    FlattenedJson_get event "content.n" = Some "10".
Proof.
  intros v raw. eexists. split; [reflexivity|]. split.
  - apply (flattened_event_spec (E:=Diverges) raw). reflexivity.
  - vm_compute. reflexivity.
Defined.

(** A key with a dot in it hides the field that its path names. *)
Example dotted_key_hides_field :
  let _ := every_value in
  FlattenedJson_get (flatten_value
    (JObject [("content.body", JString "shown"); ("content", JObject [("body", JString "real")])])
    "" ∅) "content.body" = Some "shown".
Proof. vm_compute. reflexivity. Qed.

Definition example_context : PushConditionRoomCtx := {|
  room_id := "!room:server.name";
  member_count := 3;
  user_display_name := "Groovy Gorilla";
  users_power_levels := {[ "@worthy_whale:server.name" := 25%Z ]};
  ctx_default_power_level := 50;
  notification_power_levels := {| room := 50 |}
|}.

Definition example_event : FlattenedJson :=
  {[ "sender" := "@worthy_whale:server.name"; "content.msgtype" := "m.text";
     "content.body" := "@room Give a warm welcome to Groovy Gorilla" ]}.

Lemma example_event_utf8 : utf8_event example_event.
Proof. unfold utf8_event, utf8. decide_it. Qed.

Lemma example_context_utf8 : utf8_context example_context.
Proof. unfold utf8_context, utf8. decide_it. Qed.

Lemma condition_applies_spec_witness :
  let _ := ascii_unicode in
  let _ := char_glob in
  (∃ r, PushCondition_applies ContainsDisplayName example_event example_context = Ok r ∧
     (r = true ↔ condition_holds ContainsDisplayName example_event example_context)) ∧
  PushCondition_applies ContainsDisplayName example_event example_context = Ok true.
Proof.
  intros u w. split; [|vm_compute; reflexivity].
  apply (@condition_applies_spec u ascii_lowercase_utf8 w ContainsDisplayName example_event
    example_context); [apply example_event_utf8|apply example_context_utf8|exact I].
Defined.

(** The source's own examples. *)
Example conditions_apply_to_events :
  let _ := ascii_unicode in
  let _ := char_glob in
  let applies c := PushCondition_applies c example_event example_context in
  applies (EventMatch "room_id" "!room:server.name") = Ok true ∧
  applies (EventMatch "room_id" "!incorrect:server.name") = Ok false ∧
  applies (EventMatch "content.body" "come") = Ok false ∧
  applies (EventMatch "content.msgtype" "m.*") = Ok true ∧
  applies (RoomMemberCount (from_RangeFrom 2)) = Ok true ∧
  applies (RoomMemberCount (from_RangeTo 3)) = Ok false ∧
  applies (SenderNotificationPermission "room") = Ok false.
Proof. vm_compute. repeat split. Qed.
