(* ===== verification/PushRules.v ===== *)
(** * Push rules and rulesets

    [ruma-common/src/push.rs], [push/action.rs] (the types) and [push/iter.rs]: the three kinds
    of rule, the ruleset that keeps five sets of them, its iterator by priority, and the search
    for the rule that applies to an event. *)

From S2P Require Import Prelude RustStr RustNet IdValidation StringEnum Identifiers Json.
From S2P Require Import EventTypes EventContents CanonicalJson MemberCount PushWords PushConditions.
From Stdlib Require Import Ascii NArith.
Open Scope string_scope.
Open Scope nat_scope.
Open Scope list_scope.

(** ** Actions *)

Inductive Tweak :=
  | Sound (s : string)
  | Highlight (b : bool)
  | CustomTweak (name : string) (value : json).

Inductive Action :=
  | Notify
  | DontNotify
  | Coalesce
  | SetTweak (t : Tweak).

(** ** Rules *)

Record SimplePushRule := {
  simple_actions : list Action;
  simple_default : bool;
  simple_enabled : bool;
  simple_rule_id : string
}.

Record ConditionalPushRule := {
  cond_actions : list Action;
  cond_default : bool;
  cond_enabled : bool;
  cond_rule_id : string;
  conditions : list PushCondition
}.

Record PatternedPushRule := {
  pat_actions : list Action;
  pat_default : bool;
  pat_enabled : bool;
  pat_rule_id : string;
  pattern : string
}.

(** [Hash], [PartialEq] and [Eq] look at the rule's ID only. *)
Class HasRuleId (A : Set) := rule_id_of : A → string.
#[export] Instance SimplePushRule_id : HasRuleId SimplePushRule := simple_rule_id.
#[export] Instance ConditionalPushRule_id : HasRuleId ConditionalPushRule := cond_rule_id.
#[export] Instance PatternedPushRule_id : HasRuleId PatternedPushRule := pat_rule_id.

Definition same_rule `{HasRuleId A} (a b : A) : bool := bool_decide (rule_id_of a = rule_id_of b).

(** The crate indexmap: an [IndexSet] iterates in the order of insertion; inserting an element
    equal to one that is there changes nothing and returns [false]. *)
Class IndexSets := {
  IndexSet : Set → Set;
  iset_new {A : Set} : IndexSet A;
  iset_iter {A} : IndexSet A → list A;
  iset_insert {A} `{HasRuleId A} : A → IndexSet A → bool * IndexSet A;
  iset_iter_new {A} : iset_iter (iset_new (A:=A)) = [];
  iset_insert_result {A} `{HasRuleId A} (x : A) s :
    (iset_insert x s).1 = negb (existsb (same_rule x) (iset_iter s));
  iset_iter_insert {A} `{HasRuleId A} (x : A) s :
    iset_iter (iset_insert x s).2 =
      if existsb (same_rule x) (iset_iter s) then iset_iter s else iset_iter s ++ [x]
}.

(** [indexset![...]] *)
Definition iset_of_list `{IndexSets} `{HasRuleId A} (l : list A) : IndexSet A :=
  fold_left (λ s x, (iset_insert x s).2) l iset_new.

Inductive AnyPushRule :=
  | Override (r : ConditionalPushRule)
  | Content (r : PatternedPushRule)
  | Room (r : SimplePushRule)
  | Sender (r : SimplePushRule)
  | Underride (r : ConditionalPushRule).

Definition enabled (r : AnyPushRule) : bool :=
  match r with
  | Override r | Underride r => cond_enabled r
  | Content r => pat_enabled r
  | Room r | Sender r => simple_enabled r
  end.

Definition actions (r : AnyPushRule) : list Action :=
  match r with
  | Override r | Underride r => cond_actions r
  | Content r => pat_actions r
  | Room r | Sender r => simple_actions r
  end.

Definition rule_id (r : AnyPushRule) : string :=
  match r with
  | Override r | Underride r => cond_rule_id r
  | Content r => pat_rule_id r
  | Room r | Sender r => simple_rule_id r
  end.

Section applies.
Context `{Unicode} `{WildMatch}.

(** [self.conditions.iter().all(...)] *)
Fixpoint all_apply (cs : list PushCondition) (event : FlattenedJson)
    (context : PushConditionRoomCtx) : outcome Diverges bool :=
  match cs with
  | [] => Ok true
  | c :: cs =>
      b ← PushCondition_applies c event context;
      if (b : bool) then all_apply cs event context else Ok false
  end.

Definition ConditionalPushRule_applies (self : ConditionalPushRule) (event : FlattenedJson)
    (context : PushConditionRoomCtx) : outcome Diverges bool :=
  if cond_enabled self then all_apply (conditions self) event context else Ok false.

Definition PatternedPushRule_applies_to (self : PatternedPushRule) (key : string)
    (event : FlattenedJson) (context : PushConditionRoomCtx) : outcome Diverges bool :=
  if pat_enabled self then check_event_match event key (pattern self) context else Ok false.

Definition AnyPushRule_applies (self : AnyPushRule) (event : FlattenedJson)
    (context : PushConditionRoomCtx) : outcome Diverges bool :=
  match self with
  | Override rule | Underride rule => ConditionalPushRule_applies rule event context
  | Content rule => PatternedPushRule_applies_to rule "content.body" event context
  | Room rule =>
      if simple_enabled rule
      then check_event_match event "room_id" (simple_rule_id rule) context else Ok false
  | Sender rule =>
      if simple_enabled rule
      then check_event_match event "sender" (simple_rule_id rule) context else Ok false
  end.
End applies.

(** ** Rulesets *)

Section ruleset.
Context `{IndexSets}.

Record Ruleset := {
  content : IndexSet PatternedPushRule;
  override_ : IndexSet ConditionalPushRule;
  room_rules : IndexSet SimplePushRule;
  sender_rules : IndexSet SimplePushRule;
  underride : IndexSet ConditionalPushRule
}.

Definition Ruleset_new : Ruleset := {|
  content := iset_new; override_ := iset_new; room_rules := iset_new; sender_rules := iset_new;
  underride := iset_new |}.

Definition add (self : Ruleset) (rule : AnyPushRule) : bool * Ruleset :=
  let '(Build_Ruleset c o r s u) := self in
  match rule with
  | Override x => let '(b, o) := iset_insert x o in (b, Build_Ruleset c o r s u)
  | Underride x => let '(b, u) := iset_insert x u in (b, Build_Ruleset c o r s u)
  | Content x => let '(b, c) := iset_insert x c in (b, Build_Ruleset c o r s u)
  | Room x => let '(b, r) := iset_insert x r in (b, Build_Ruleset c o r s u)
  | Sender x => let '(b, s) := iset_insert x s in (b, Build_Ruleset c o r s u)
  end.

Definition extend (self : Ruleset) (rules : list AnyPushRule) : Ruleset :=
  fold_left (λ self rule, (add self rule).2) rules self.

(** The iterator: what is left of each of the five sets. *)
Record RulesetIter := {
  it_content : list PatternedPushRule;
  it_override : list ConditionalPushRule;
  it_room : list SimplePushRule;
  it_sender : list SimplePushRule;
  it_underride : list ConditionalPushRule
}.

Definition iter (self : Ruleset) : RulesetIter := {|
  it_content := iset_iter (content self);
  it_override := iset_iter (override_ self);
  it_room := iset_iter (room_rules self);
  it_sender := iset_iter (sender_rules self);
  it_underride := iset_iter (underride self) |}.

Definition RulesetIter_next (it : RulesetIter) : option (AnyPushRule * RulesetIter) :=
  let '(Build_RulesetIter c o r s u) := it in
  match o with
  | x :: o => Some (Override x, Build_RulesetIter c o r s u)
  | [] =>
  match c with
  | x :: c => Some (Content x, Build_RulesetIter c o r s u)
  | [] =>
  match r with
  | x :: r => Some (Room x, Build_RulesetIter c o r s u)
  | [] =>
  match s with
  | x :: s => Some (Sender x, Build_RulesetIter c o r s u)
  | [] =>
  match u with
  | x :: u => Some (Underride x, Build_RulesetIter c o r s u)
  | [] => None
  end end end end end.

(** [Iterator::find] *)
Fixpoint find_rule (fuel : nat) (p : AnyPushRule → outcome Diverges bool) (it : RulesetIter) :
    outcome Diverges (option AnyPushRule) :=
  match fuel with
  | O => Err DivergesForever
  | S fuel =>
      match RulesetIter_next it with
      | None => Ok None
      | Some (rule, it) =>
          b ← p rule;
          if (b : bool) then Ok (Some rule) else find_rule fuel p it
      end
  end.

(** How many rules an iterator has left: the calls to [next] that find one. *)
Definition remaining (it : RulesetIter) : nat :=
  length (it_override it) + length (it_content it) + length (it_room it) +
  length (it_sender it) + length (it_underride it).

Context `{Unicode} `{WildMatch} `{SerdeValue}.

Definition get_match (self : Ruleset) (event : json) (context : PushConditionRoomCtx) :
    outcome Diverges (option AnyPushRule) :=
  event ← from_raw event;
  find_rule (S (remaining (iter self))) (λ rule, AnyPushRule_applies rule event context) (iter self).

Definition get_actions (self : Ruleset) (event : json) (context : PushConditionRoomCtx) :
    outcome Diverges (list Action) :=
  rule ← get_match self event context;
  Ok match rule with Some rule => actions rule | None => [] end.
End ruleset.
Arguments Ruleset {_}.
