(* ===== verification/PushDefaults.v ===== *)
(** * The server's default push rules

    [ruma-common/src/push/predefined.rs], in the default build. *)

From S2P Require Import Prelude RustStr RustNet IdValidation StringEnum Identifiers Json.
From S2P Require Import MemberCount PushConditions PushRules.
From Stdlib Require Import Ascii NArith.
Open Scope string_scope.
Open Scope nat_scope.
Open Scope list_scope.

(** ** Override rules *)

Definition master : ConditionalPushRule := {|
  cond_actions := [DontNotify];
  cond_default := true;
  cond_enabled := false;
  cond_rule_id := ".m.rule.master";
  conditions := []
|}.

Definition suppress_notices : ConditionalPushRule := {|
  cond_actions := [DontNotify];
  cond_default := true;
  cond_enabled := true;
  cond_rule_id := ".m.rule.suppress_notices";
  conditions := [EventMatch "content.msgtype" "m.notice"]
|}.

Definition invite_for_me (user_id : string) : ConditionalPushRule := {|
  cond_actions := [Notify; SetTweak (Sound "default"); SetTweak (Highlight false)];
  cond_default := true;
  cond_enabled := true;
  cond_rule_id := ".m.rule.invite_for_me";
  conditions := [EventMatch "type" "m.room.member"; EventMatch "content.membership" "invite";
                 EventMatch "state_key" user_id]
|}.

Definition member_event : ConditionalPushRule := {|
  cond_actions := [DontNotify];
  cond_default := true;
  cond_enabled := true;
  cond_rule_id := ".m.rule.member_event";
  conditions := [EventMatch "type" "m.room.member"]
|}.

Definition contains_display_name : ConditionalPushRule := {|
  cond_actions := [Notify; SetTweak (Sound "default"); SetTweak (Highlight true)];
  cond_default := true;
  cond_enabled := true;
  cond_rule_id := ".m.rule.contains_display_name";
  conditions := [ContainsDisplayName]
|}.

Definition tombstone : ConditionalPushRule := {|
  cond_actions := [Notify; SetTweak (Highlight true)];
  cond_default := true;
  cond_enabled := false;
  cond_rule_id := ".m.rule.tombstone";
  conditions := [EventMatch "type" "m.room.tombstone"; EventMatch "state_key" ""]
|}.

Definition roomnotif : ConditionalPushRule := {|
  cond_actions := [Notify; SetTweak (Highlight true)];
  cond_default := true;
  cond_enabled := true;
  cond_rule_id := ".m.rule.roomnotif";
  conditions := [EventMatch "content.body" "@room"; SenderNotificationPermission "room"]
|}.

(** ** Content rules *)

Definition contains_user_name (user_id : string) : outcome Error PatternedPushRule :=
  localpart ← localpart user_id;
  Ok {| pat_actions := [Notify; SetTweak (Sound "default"); SetTweak (Highlight true)];
        pat_default := true;
        pat_enabled := true;
        pat_rule_id := ".m.rules.contains_user_name";
        pattern := localpart |}.

(** ** Underride rules *)

Definition call : ConditionalPushRule := {|
  cond_actions := [Notify; SetTweak (Sound "ring"); SetTweak (Highlight false)];
  cond_default := true;
  cond_enabled := true;
  cond_rule_id := ".m.rules.call";
  conditions := [EventMatch "type" "m.call.invite"]
|}.

Definition encrypted_room_one_to_one : ConditionalPushRule := {|
  cond_actions := [Notify; SetTweak (Sound "default"); SetTweak (Highlight false)];
  cond_default := true;
  cond_enabled := true;
  cond_rule_id := ".m.rules.encrypted_room_one_to_one";
  conditions := [RoomMemberCount (from_UInt 2); EventMatch "type" "m.room.encrypted"]
|}.

Definition room_one_to_one : ConditionalPushRule := {|
  cond_actions := [Notify; SetTweak (Sound "default"); SetTweak (Highlight false)];
  cond_default := true;
  cond_enabled := true;
  cond_rule_id := ".m.rules.room_one_to_one";
  conditions := [RoomMemberCount (from_UInt 2); EventMatch "type" "m.room.message"]
|}.

Definition message : ConditionalPushRule := {|
  cond_actions := [Notify; SetTweak (Highlight false)];
  cond_default := true;
  cond_enabled := true;
  cond_rule_id := ".m.rules.message";
  conditions := [EventMatch "type" "m.room.message"]
|}.

Definition encrypted : ConditionalPushRule := {|
  cond_actions := [Notify; SetTweak (Highlight false)];
  cond_default := true;
  cond_enabled := true;
  cond_rule_id := ".m.rules.encrypted";
  conditions := [EventMatch "type" "m.room.encrypted"]
|}.

Definition server_default `{IndexSets} (user_id : string) : outcome Error Ruleset :=
  contains_user_name ← contains_user_name user_id;
  Ok {|
    content := iset_of_list [contains_user_name];
    override_ := iset_of_list [master; suppress_notices; invite_for_me user_id; member_event;
                               contains_display_name; tombstone; roomnotif];
    room_rules := iset_new;
    sender_rules := iset_new;
    underride := iset_of_list [call; encrypted_room_one_to_one; room_one_to_one; message; encrypted]
  |}.
