(* ===== verification/PushRulesSpec.v ===== *)
(** * What a ruleset promises

    No two rules of a kind share an ID; rules are tried in the order override, content, room,
    sender, underride, and within a kind in the order they were added; the first enabled rule
    whose conditions hold gives the actions. *)

From S2P Require Import Prelude RustStr RustNet IdValidation StringEnum Identifiers Json.
From S2P Require Import EventTypes EventContents CanonicalJson MemberCount PushWords.
From S2P Require Import PushWordsSpec PushConditions PushConditionsSpec PushRules PushDefaults.
From Stdlib Require Import Ascii NArith.
Open Scope string_scope.
Open Scope nat_scope.
Open Scope list_scope.

(** ** Sets of rules *)

Section isets.
Context `{IndexSets} `{HasRuleId A}.

Definition iset_ids (s : IndexSet A) : list string := rule_id_of <$> iset_iter s.

Lemma existsb_same_rule (x : A) (l : list A) :
  existsb (same_rule x) l = bool_decide (rule_id_of x ∈ rule_id_of <$> l).
Proof.
  apply eq_true_iff_eq. rewrite existsb_exists, bool_decide_eq_true, list_elem_of_fmap.
  unfold same_rule. setoid_rewrite bool_decide_eq_true. setoid_rewrite <- list_elem_of_In. naive_solver.
Qed.

Lemma iset_insert_true (x : A) s :
  (iset_insert x s).1 = true ↔ rule_id_of x ∉ iset_ids s.
Proof.
  rewrite iset_insert_result, existsb_same_rule, negb_true_iff, bool_decide_eq_false. done.
Qed.

Lemma iset_iter_insert_cases (x : A) s :
  iset_iter (iset_insert x s).2 =
    if decide (rule_id_of x ∈ iset_ids s) then iset_iter s else iset_iter s ++ [x].
Proof. rewrite iset_iter_insert, existsb_same_rule. unfold iset_ids. by repeat case_decide. Qed.

Lemma iset_insert_distinct (x : A) s : NoDup (iset_ids s) → NoDup (iset_ids (iset_insert x s).2).
Proof.
  intros Hs. unfold iset_ids. rewrite iset_iter_insert_cases. case_decide as Hx; [done|].
  rewrite fmap_app. apply list.NoDup_app. split_and!; [done| |by apply NoDup_singleton].
  intros y Hy Hyx%list_elem_of_singleton. by subst.
Qed.

Lemma iset_of_list_distinct (l : list A) :
  NoDup (rule_id_of <$> l) → iset_iter (iset_of_list l) = l.
Proof.
  intros Hl. unfold iset_of_list. rewrite <- (app_nil_l l) in Hl at 1.
  rewrite <- (app_nil_l l) at 2. revert Hl. rewrite <- (iset_iter_new (A:=A)) at 1 2.
  generalize (iset_new (A:=A)). induction l as [|x l IH]; intros s Hl; csimpl; [by rewrite app_nil_r|].
  assert (iset_iter (iset_insert x s).2 = iset_iter s ++ [x]) as Hins.
  { rewrite iset_iter_insert_cases, decide_False; [done|]. rewrite fmap_app in Hl.
    apply list.NoDup_app in Hl as (_ & Hno & _). intros Hin. apply (Hno _ Hin). csimpl. by left. }
  rewrite IH; rewrite Hins; rewrite <- (assoc_L (++)); [done|]. done.
Qed.
End isets.

Section spec.
Context `{IndexSets}.

(** ** Adding rules *)

Definition distinct (self : Ruleset) : Prop :=
  NoDup (iset_ids (override_ self)) ∧ NoDup (iset_ids (content self)) ∧
  NoDup (iset_ids (room_rules self)) ∧ NoDup (iset_ids (sender_rules self)) ∧
  NoDup (iset_ids (underride self)).

(** All rules by priority. *)
Definition by_priority (self : Ruleset) : list AnyPushRule :=
  (Override <$> iset_iter (override_ self)) ++ (Content <$> iset_iter (content self)) ++
  (Room <$> iset_iter (room_rules self)) ++ (Sender <$> iset_iter (sender_rules self)) ++
  (Underride <$> iset_iter (underride self)).

Inductive RuleKind := KOverride | KContent | KRoom | KSender | KUnderride.
#[export] Instance RuleKind_eq_dec : EqDecision RuleKind.
Proof. solve_decision. Defined.

Definition kind_of (r : AnyPushRule) : RuleKind :=
  match r with
  | Override _ => KOverride | Content _ => KContent | Room _ => KRoom | Sender _ => KSender
  | Underride _ => KUnderride
  end.

Definition of_kind (k : RuleKind) (self : Ruleset) : list AnyPushRule :=
  match k with
  | KOverride => Override <$> iset_iter (override_ self)
  | KContent => Content <$> iset_iter (content self)
  | KRoom => Room <$> iset_iter (room_rules self)
  | KSender => Sender <$> iset_iter (sender_rules self)
  | KUnderride => Underride <$> iset_iter (underride self)
  end.

Definition known (self : Ruleset) (r : AnyPushRule) : Prop :=
  rule_id r ∈ rule_id <$> of_kind (kind_of r) self.

#[export] Instance known_dec self r : Decision (known self r).
Proof. unfold known. apply _. Defined.

Lemma rule_ids_of_kind self :
  rule_id <$> of_kind KOverride self = iset_ids (override_ self) ∧
  rule_id <$> of_kind KContent self = iset_ids (content self) ∧
  rule_id <$> of_kind KRoom self = iset_ids (room_rules self) ∧
  rule_id <$> of_kind KSender self = iset_ids (sender_rules self) ∧
  rule_id <$> of_kind KUnderride self = iset_ids (underride self).
Proof. unfold iset_ids. simpl. by rewrite <- !list_fmap_compose. Qed.

Lemma distinct_of_kind self : distinct self ↔ ∀ k, NoDup (rule_id <$> of_kind k self).
Proof.
  destruct (rule_ids_of_kind self) as (H1 & H2 & H3 & H4 & H5). unfold distinct.
  rewrite <- H1, <- H2, <- H3, <- H4, <- H5. split; [intros (?&?&?&?&?) []; done|].
  intros Hall. split_and!; [apply (Hall KOverride)|apply (Hall KContent)|apply (Hall KRoom)|
    apply (Hall KSender)|apply (Hall KUnderride)].
Qed.

Lemma iset_insert_app {A} `{HasRuleId A} (x : A) s :
  iset_iter (iset_insert x s).2 = iset_iter s ++ (if (iset_insert x s).1 then [x] else []).
Proof.
  rewrite iset_iter_insert, iset_insert_result. destruct (existsb _ _); [by rewrite app_nil_r|done].
Qed.

Lemma add_result self r : (add self r).1 = true ↔ ¬ known self r.
Proof.
  unfold known. destruct (rule_ids_of_kind self) as (H1 & H2 & H3 & H4 & H5).
  destruct self as [c o rm s u], r as [x|x|x|x|x]; cbn [kind_of];
    rewrite ?H1, ?H2, ?H3, ?H4, ?H5; simpl;
    match goal with |- context [iset_insert x ?st] =>
      pose proof (iset_insert_true x st) as Hr; destruct (iset_insert x st); exact Hr end.
Qed.

Lemma add_of_kind self r k :
  of_kind k (add self r).2 =
    of_kind k self ++ (if (add self r).1 && bool_decide (k = kind_of r) then [r] else []).
Proof.
  destruct self as [c o rm s u], r as [x|x|x|x|x]; simpl;
    match goal with |- context [iset_insert x ?st] =>
      pose proof (iset_insert_app x st) as Hi; destruct (iset_insert x st) as [b st'] end;
    destruct k; simpl in *; rewrite ?andb_false_r, ?andb_true_r, ?app_nil_r; try done;
    rewrite Hi, fmap_app; by destruct b.
Qed.

Lemma elem_of_kind self k r : r ∈ of_kind k self → kind_of r = k.
Proof. destruct k; simpl; by intros (x & -> & _)%list_elem_of_fmap. Qed.

Lemma add_distinct self r : distinct self → distinct (add self r).2.
Proof.
  rewrite !distinct_of_kind. intros Hd k. rewrite add_of_kind, fmap_app. apply list.NoDup_app.
  split_and!; [done| |by case_match; [apply NoDup_singleton|constructor]].
  intros id Hid Hin. case_match eqn:Hb; [|by apply elem_of_nil in Hin].
  apply andb_true_iff in Hb as [Hb ->%bool_decide_eq_true].
  apply list_elem_of_singleton in Hin as ->. by apply add_result in Hb.
Qed.

Lemma new_distinct : distinct Ruleset_new.
Proof.
  unfold distinct, iset_ids, Ruleset_new. simpl. rewrite !iset_iter_new. split_and!; constructor.
Qed.

Lemma new_of_kind k : of_kind k Ruleset_new = [].
Proof. destruct k; simpl; by rewrite iset_iter_new. Qed.

Lemma extend_distinct self rules : distinct self → distinct (extend self rules).
Proof.
  revert self. induction rules as [|r rules IH]; intros self Hd; simpl; [done|].
  by apply IH, add_distinct.
Qed.

(** A rule that is new to the ruleset and the first of its kind and ID in the list. *)
Definition first_in (self : Ruleset) (rules : list AnyPushRule) (r : AnyPushRule) : Prop :=
  ∃ before after, rules = before ++ r :: after ∧ ¬ known self r ∧
    ∀ r', r' ∈ before → kind_of r' = kind_of r → rule_id r' ≠ rule_id r.

Lemma known_add self r r' :
  known (add self r).2 r' ↔ known self r' ∨ kind_of r = kind_of r' ∧ rule_id r = rule_id r'.
Proof.
  unfold known at 1. rewrite add_of_kind, fmap_app, elem_of_app. fold (known self r').
  destruct (add self r).1 eqn:Hb; simpl.
  - case_bool_decide as Hk; csimpl; [|rewrite elem_of_nil; naive_solver].
    rewrite list_elem_of_singleton. naive_solver.
  - rewrite elem_of_nil. assert (known self r) as Hr.
    { destruct (decide (known self r)); [done|]. exfalso. apply not_true_iff_false in Hb.
      by apply Hb, add_result. }
    split; [naive_solver|]. intros [?|[Hk Hid]]; [by left|left].
    unfold known in *. by rewrite <- Hk, <- Hid.
Qed.

Lemma extend_elem self rules k r :
  r ∈ of_kind k (extend self rules) ↔ r ∈ of_kind k self ∨ kind_of r = k ∧ first_in self rules r.
Proof.
  revert self. induction rules as [|r0 rules IH]; intros self; simpl.
  { split; [by left|]. intros [?|[_ (b & a & Hb & _)]]; [done|]. by destruct b. }
  rewrite IH, add_of_kind, elem_of_app. split.
  - intros [[Hin|Hin]|[Hk (b & a & -> & Hno & Hb)]].
    + by left.
    + case_match eqn:Hb; [|by apply elem_of_nil in Hin].
      apply andb_true_iff in Hb as [Hb ->%bool_decide_eq_true].
      apply list_elem_of_singleton in Hin as ->. right. split; [done|]. exists [], rules.
      split_and!; [done|by apply add_result|]. by intros ? ?%elem_of_nil.
    + right. split; [done|]. rewrite known_add in Hno. exists (r0 :: b), a.
      split_and!; [done|naive_solver|]. intros r' [->|Hr']%elem_of_cons; [naive_solver|by apply Hb].
  - intros [Hin|[Hk (b & a & Heq & Hno & Hb)]]; [by left; left|].
    destruct b as [|r1 b]; simplify_eq/=.
    + left. right. rewrite (proj2 (add_result self r) Hno), bool_decide_true by done. by left.
    + right. split; [done|]. exists b, a. split_and!; [done| |].
      * rewrite known_add. intros [?|[Hk Hid]]; [done|]. apply (Hb r1); [by left|done..].
      * intros r' Hr'. apply Hb. by right.
Qed.

(** C19: A ruleset has no two rules of a kind with the same ID, and keeps it so: [add] says
    whether the ID was free, and puts the rule last among its kind if it was and changes nothing
    otherwise; [extend] keeps the first rule of each kind and ID. *)
Theorem ruleset_invariant self :
  distinct Ruleset_new ∧
  (distinct self → (∀ r, distinct (add self r).2) ∧ ∀ rules, distinct (extend self rules)) ∧
  (∀ r, ((add self r).1 = true ↔ ¬ known self r) ∧
     ∀ k, of_kind k (add self r).2 =
       of_kind k self ++ (if (add self r).1 && bool_decide (k = kind_of r) then [r] else [])) ∧
  ∀ rules k r, r ∈ of_kind k (extend self rules) ↔
    r ∈ of_kind k self ∨ kind_of r = k ∧ first_in self rules r.
Proof.
  split_and!; [apply new_distinct|..].
  - intros Hd. split; intros; [by apply add_distinct|by apply extend_distinct].
  - intros r. split; [apply add_result|intros; apply add_of_kind].
  - intros. apply extend_elem.
Qed.

(** ** Iteration *)

Definition rest (it : RulesetIter) : list AnyPushRule :=
  (Override <$> it_override it) ++ (Content <$> it_content it) ++ (Room <$> it_room it) ++
  (Sender <$> it_sender it) ++ (Underride <$> it_underride it).

(** The iterator is a list being consumed. *)
Lemma next_rest it :
  match RulesetIter_next it with
  | Some (r, it') => rest it = r :: rest it' ∧ remaining it = S (remaining it')
  | None => rest it = []
  end.
Proof.
  destruct it as [c o r s u]. unfold rest, remaining. simpl.
  destruct o, c, r, s, u; simpl; split_and?; try done; lia.
Qed.

Lemma iter_rest self : rest (iter self) = by_priority self.
Proof. done. Qed.

(** [Iterator::next] called again and again: the rules that came out, and what is left *)
Inductive yields : RulesetIter → list AnyPushRule → RulesetIter → Prop :=
  | yields_nothing it : yields it [] it
  | yields_next it rule it' rules last :
      RulesetIter_next it = Some (rule, it') → yields it' rules last →
      yields it (rule :: rules) last.

Lemma yields_rest it rules last : yields it rules last → rest it = rules ++ rest last.
Proof.
  induction 1 as [it|it rule it' rules last Hn _ IH]; [done|].
  pose proof (next_rest it) as Hr. rewrite Hn in Hr. destruct Hr as [-> _]. by rewrite IH.
Qed.

Lemma next_None it : RulesetIter_next it = None ↔ rest it = [].
Proof.
  pose proof (next_rest it) as Hn. destruct (RulesetIter_next it) as [[r it']|].
  - destruct Hn as [-> _]. split; discriminate.
  - by split.
Qed.

Lemma yields_all it : ∃ last, yields it (rest it) last ∧ RulesetIter_next last = None.
Proof.
  remember (rest it) as rules eqn:Hr. revert it Hr.
  induction rules as [|r rules IH]; intros it Hr.
  - exists it. split; [constructor|by apply next_None].
  - pose proof (next_rest it) as Hn. destruct (RulesetIter_next it) as [[r' it']|] eqn:Hit.
    + destruct Hn as [Hrest _]. rewrite Hrest in Hr. injection Hr as <- Hr.
      destruct (IH it' Hr) as (last & Hy & Hl). exists last. split; [|done].
      by econstructor.
    + by rewrite Hn in Hr.
Qed.

(** Wherever an iteration over a ruleset has come to, every rule that it has not given yet is
    given if one goes on: the rules come in the order of their priority, each at its turn, and
    [next] returns nothing exactly when all have been given. *)
Theorem ruleset_iter_live self given it :
  yields (iter self) given it →
  (∃ later last, yields it later last ∧ RulesetIter_next last = None ∧
    by_priority self = given ++ later) ∧
  (RulesetIter_next it = None ↔ given = by_priority self).
Proof.
  intros Hy%yields_rest. rewrite iter_rest in Hy. split.
  - destruct (yields_all it) as (last & Hl & Hn). by exists (rest it), last.
  - rewrite next_None, Hy. split.
    + intros ->. by rewrite app_nil_r.
    + intros Hg%(f_equal length). rewrite length_app in Hg.
      destruct (rest it); [done|]. simpl in Hg. lia.
Qed.

Lemma find_rule_spec p it fuel (P : AnyPushRule → Prop) :
  (∀ r, r ∈ rest it → ∃ b, p r = Ok b ∧ (b = true ↔ P r)) → remaining it < fuel →
  ∃ res, find_rule fuel p it = Ok res ∧
    match res with
    | None => ∀ r, r ∈ rest it → ¬ P r
    | Some r => ∃ before after, rest it = before ++ r :: after ∧ P r ∧ ∀ r', r' ∈ before → ¬ P r'
    end.
Proof.
  revert it. induction fuel as [|fuel IH]; intros it Hp Hlt; [lia|]. cbn [find_rule].
  pose proof (next_rest it) as Hn. destruct (RulesetIter_next it) as [[r it']|].
  2:{ exists None. split; [done|]. rewrite Hn. by intros ? ?%elem_of_nil. }
  destruct Hn as [Hrest Hrem].
  destruct (Hp r) as (b & Hb & HP); [rewrite Hrest; by left|]. rewrite Hb. cbn [mbind outcome_bind].
  destruct b.
  - exists (Some r). split; [done|]. exists [], (rest it'). split_and!; [done|by apply HP|].
    by intros ? ?%elem_of_nil.
  - assert (¬ P r) as HnP by (rewrite <- HP; done).
    destruct (IH it') as (res & Hres & Hspec); [intros; apply Hp; rewrite Hrest; by right|lia|].
    exists res. split; [done|]. rewrite Hrest. destruct res as [r1|].
    + destruct Hspec as (b & a & -> & ? & Hb'). exists (r :: b), a. split_and!; [done..|].
      by intros r' [->|?]%elem_of_cons; [|apply Hb'].
    + by intros r' [->|?]%elem_of_cons; [|apply Hspec].
Qed.

Context `{LowercaseUtf8} `{WildMatch} `{SerdeValue}.

(** ** What applies *)

Definition rule_holds (r : AnyPushRule) (event : FlattenedJson) (context : PushConditionRoomCtx) :
    Prop :=
  enabled r = true ∧
  match r with
  | Override r | Underride r => Forall (λ c, condition_holds c event context) (conditions r)
  | Content r => condition_holds (EventMatch "content.body" (pattern r)) event context
  | Room r => condition_holds (EventMatch "room_id" (simple_rule_id r)) event context
  | Sender r => condition_holds (EventMatch "sender" (simple_rule_id r)) event context
  end.

Definition utf8_rule (r : AnyPushRule) : Prop :=
  match r with
  | Override r | Underride r => Forall utf8_condition (conditions r)
  | Content r => utf8 (pattern r)
  | Room r | Sender r => utf8 (simple_rule_id r)
  end.

Lemma all_apply_total cs event context :
  utf8_event event → utf8_context context → Forall utf8_condition cs →
  ∃ b, all_apply cs event context = Ok b ∧
    (b = true ↔ Forall (λ c, condition_holds c event context) cs).
Proof.
  intros He Hctx. induction 1 as [|c cs Hc _ IH]; cbn [all_apply]; [by exists true|].
  destruct (applies_total c event context He Hctx Hc) as (b & -> & Hb). cbn [mbind outcome_bind].
  destruct b.
  - destruct IH as (b & -> & Hb'). exists b. rewrite list.Forall_cons. naive_solver.
  - exists false. rewrite list.Forall_cons. naive_solver.
Qed.

Lemma rule_applies_total r event context :
  utf8_event event → utf8_context context → utf8_rule r →
  ∃ b, AnyPushRule_applies r event context = Ok b ∧ (b = true ↔ rule_holds r event context).
Proof.
  intros He Hctx Hr. unfold rule_holds.
  destruct r as [r|r|r|r|r]; cbn [AnyPushRule_applies enabled utf8_rule] in *;
    unfold ConditionalPushRule_applies, PatternedPushRule_applies_to;
    (match goal with |- context [if ?e then _ else _] => destruct e end;
     [|exists false; split; [done|]; split; [done|by intros [? _]]]).
  1, 5: destruct (all_apply_total _ _ _ He Hctx Hr) as (b & -> & Hb); exists b; rewrite Hb;
    naive_solver.
  all: match goal with |- context [check_event_match ?ev ?k ?p ?ctx] =>
    destruct (check_event_match_total ev k p ctx He Hctx Hr) as (b & Hb & Hiff) end;
    exists b; rewrite Hb, Hiff; naive_solver.
Qed.

(** The strings of a ruleset and of the events it is used on are UTF-8. *)
Definition utf8_ruleset (self : Ruleset) : Prop := Forall utf8_rule (by_priority self).

Lemma get_match_total self raw event context :
  from_raw (E:=Diverges) raw = Ok event →
  utf8_event event → utf8_context context → utf8_ruleset self →
  ∃ res, get_match self raw context = Ok res ∧
    match res with
    | None => ∀ r, r ∈ by_priority self → ¬ rule_holds r event context
    | Some r => ∃ before after, by_priority self = before ++ r :: after ∧
        rule_holds r event context ∧ ∀ r', r' ∈ before → ¬ rule_holds r' event context
    end.
Proof.
  intros Hraw He Hctx Hself. unfold get_match. rewrite Hraw. cbn [mbind outcome_bind].
  rewrite <- iter_rest. apply find_rule_spec; [|lia].
  intros r Hr. apply rule_applies_total; [done..|]. unfold utf8_ruleset in Hself.
  rewrite list.Forall_forall in Hself. by apply Hself.
Qed.

(** C18: For an event that serde_json can hold, the search ends without panic with the first
    rule by priority that is enabled and whose conditions all hold, if there is one; its
    actions are the actions for the event, and there are none otherwise. *)
Theorem get_match_spec self raw event context :
  from_raw (E:=Diverges) raw = Ok event →
  utf8_event event → utf8_context context → utf8_ruleset self →
  ∃ res, get_match self raw context = Ok res ∧
    match res with
    | None => get_actions self raw context = Ok [] ∧
        ∀ r, r ∈ by_priority self → ¬ rule_holds r event context
    | Some r => get_actions self raw context = Ok (actions r) ∧
        ∃ before after, by_priority self = before ++ r :: after ∧
          rule_holds r event context ∧ ∀ r', r' ∈ before → ¬ rule_holds r' event context
    end.
Proof.
  intros Hraw He Hctx Hself.
  destruct (get_match_total self raw event context Hraw He Hctx Hself) as (res & Hres & Hspec).
  exists res. split; [done|]. unfold get_actions. rewrite Hres. by destruct res.
Qed.

(** The master switch: when the rule for all events comes first and is on, its actions are the
    answer for every event. *)
Lemma first_rule_without_conditions self raw event context r rs :
  from_raw (E:=Diverges) raw = Ok event →
  by_priority self = Override r :: rs → cond_enabled r = true → conditions r = [] →
  get_actions self raw context = Ok (cond_actions r).
Proof.
  intros Hraw Hprio Hen Hconds. unfold get_actions, get_match. rewrite Hraw. cbn [mbind outcome_bind].
  cbn [find_rule]. pose proof (next_rest (iter self)) as Hn. rewrite iter_rest, Hprio in Hn.
  destruct (RulesetIter_next (iter self)) as [[r' it]|]; [|done].
  destruct Hn as [[= <- _] _]. cbn [AnyPushRule_applies]. unfold ConditionalPushRule_applies.
  by rewrite Hen, Hconds.
Qed.
End spec.

(** ** Sets as lists, for the examples *)

Definition list_insert `{HasRuleId A} (x : A) (s : list A) : bool * list A :=
  if existsb (same_rule x) s then (false, s) else (true, s ++ [x]).

Lemma list_insert_result {A} `{HasRuleId A} (x : A) s :
  (list_insert x s).1 = negb (existsb (same_rule x) s).
Proof. unfold list_insert. by destruct (existsb _ _). Qed.

Lemma list_iter_insert {A} `{HasRuleId A} (x : A) s :
  (list_insert x s).2 = if existsb (same_rule x) s then s else s ++ [x].
Proof. unfold list_insert. by destruct (existsb _ _). Qed.

Definition list_sets : IndexSets := {|
  IndexSet := list;
  iset_new := @nil;
  iset_iter := λ A s, s;
  iset_insert := @list_insert;
  iset_iter_new := λ A, eq_refl;
  iset_insert_result := @list_insert_result;
  iset_iter_insert := @list_iter_insert
|}.
