(* ===== verification/PushDefaultsSpec.v ===== *)
(** * The default rules at work

    What the server's default ruleset holds and what it makes of notices and membership
    events, and the examples of [ruma-common/src/push.rs]. *)

From S2P Require Import Prelude RustStr RustNet IdValidation StringEnum Identifiers Json.
From S2P Require Import EventTypes EventContents CanonicalJson MemberCount PushWords.
From S2P Require Import PushWordsSpec PushConditions PushConditionsSpec PushRules PushDefaults.
From S2P Require Import PushRulesSpec.
From Stdlib Require Import Ascii NArith.
Open Scope string_scope.
Open Scope nat_scope.
Open Scope list_scope.

Section defaults.
Context `{IndexSets}.

Definition user_name_rule (l : string) : PatternedPushRule := {|
  pat_actions := [Notify; SetTweak (Sound "default"); SetTweak (Highlight true)];
  pat_default := true; pat_enabled := true; pat_rule_id := ".m.rules.contains_user_name";
  pattern := l |}.

Definition default_rules (user_id l : string) : list AnyPushRule :=
  [Override master; Override suppress_notices; Override (invite_for_me user_id);
   Override member_event; Override contains_display_name; Override tombstone; Override roomnotif;
   Content (user_name_rule l);
   Underride call; Underride encrypted_room_one_to_one; Underride room_one_to_one;
   Underride message; Underride encrypted].

Lemma server_default_rules user_id l s :
  localpart user_id = Ok l → server_default user_id = Ok s →
  by_priority s = default_rules user_id l ∧ distinct s.
Proof.
  unfold server_default, contains_user_name. intros -> [= <-].
  unfold by_priority, distinct, iset_ids. simpl.
  rewrite !iset_of_list_distinct by (simpl; unfold rule_id_of; simpl; decide_it).
  rewrite !iset_iter_new. split; [done|]. simpl. unfold rule_id_of. simpl.
  split_and!; decide_it.
Qed.

(** Every rule is a default rule; the switch for all events and the one for upgraded rooms are
    off. *)
Definition rule_default (r : AnyPushRule) : bool :=
  match r with
  | Override r | Underride r => cond_default r
  | Content r => pat_default r
  | Room r | Sender r => simple_default r
  end.

Context `{LowercaseUtf8} `{WildMatch} `{SerdeValue}.

(** The first rule that holds is among the rules up to one that holds. *)
Lemma first_up_to {A} (P : A → Prop) pre x post before r after :
  P x → pre ++ x :: post = before ++ r :: after → P r → (∀ y, y ∈ before → ¬ P y) →
  r ∈ pre ++ [x].
Proof.
  revert before. induction pre as [|y pre IH]; intros [|z before] Hx Heq Hr Hb; simplify_eq/=;
    [by left|exfalso; apply (Hb z); [by left|done]|by left|].
  right. apply (IH before); [done..|]. intros y' Hy. apply Hb. by right.
Qed.

Lemma get_actions_up_to self raw event context pre x post :
  from_raw (E:=Diverges) raw = Ok event →
  utf8_event event → utf8_context context → utf8_ruleset self →
  by_priority self = pre ++ x :: post → rule_holds x event context →
  ∃ r, get_actions self raw context = Ok (actions r) ∧ rule_holds r event context ∧ r ∈ pre ++ [x].
Proof.
  intros Hraw He Hctx Hself Hprio Hx.
  destruct (get_match_total self raw event context Hraw He Hctx Hself) as (res & Hres & Hspec).
  unfold get_actions. rewrite Hres. cbn [mbind outcome_bind]. destruct res as [r|].
  - destruct Hspec as (b & a & Heq & Hr & Hb). exists r. split_and!; [done..|].
    rewrite Hprio in Heq. by apply (first_up_to (λ r, rule_holds r event context) pre x post b r a).
  - exfalso. apply (Hspec x); [|done]. rewrite Hprio. apply elem_of_app. right. by left.
Qed.

(** A pattern without wildcards in lower-case ASCII. *)
Definition lower_literal (p : string) : bool :=
  bytes_all is_ascii_byte p && negb (bytes_any is_wildcard p) &&
  bool_decide (str_map ascii_to_lower p = p).

Lemma event_match_literal key p event context :
  lower_literal p = true → key ≠ "content.body" →
  condition_holds (EventMatch key p) event context ↔
  to_lowercase <$> event_field event context key = Some p.
Proof.
  unfold lower_literal. intros Hp Hkey. bool_to_prop.
  cbn [condition_holds]. rewrite bool_decide_false by done. unfold pattern_holds.
  rewrite (to_lowercase_ascii p) by done.
  match goal with Hl : str_map _ _ = _ |- _ => rewrite Hl end.
  rewrite fmap_Some. setoid_rewrite wild_matches_literal; [|done]. naive_solver.
Qed.

Lemma default_rules_utf8 user_id l :
  utf8 user_id → utf8 l → Forall utf8_rule (default_rules user_id l).
Proof.
  intros Hu Hl. unfold default_rules.
  repeat first [apply list.Forall_cons_2 | apply list.Forall_nil_2]; cbn [utf8_rule];
    try done; repeat first [apply list.Forall_cons_2 | apply list.Forall_nil_2];
    cbn [utf8_condition]; try done; unfold utf8; decide_it.
Qed.

(** The default rules of a user with a valid ID: thirteen rules with distinct IDs in this
    order, all but [.m.rule.master] and [.m.rule.tombstone] enabled. Of a notice they make
    nothing; of a membership event they make a notification only if it is an invitation whose
    state key matches the user. *)
Theorem server_default_spec user_id l :
  localpart user_id = Ok l → utf8 user_id → utf8 l →
  ∃ s, server_default user_id = Ok s ∧ distinct s ∧
    by_priority s = default_rules user_id l ∧
    Forall (λ r, rule_default r = true ∧
      (enabled r = false ↔ rule_id r = ".m.rule.master" ∨ rule_id r = ".m.rule.tombstone"))
      (by_priority s) ∧
    ∀ raw event context,
      from_raw (E:=Diverges) raw = Ok event → utf8_event event → utf8_context context →
      (to_lowercase <$> event_field event context "content.msgtype" = Some "m.notice" →
       get_actions s raw context = Ok [DontNotify]) ∧
      (to_lowercase <$> event_field event context "type" = Some "m.room.member" →
       get_actions s raw context = Ok [DontNotify] ∨
       get_actions s raw context = Ok (cond_actions (invite_for_me user_id)) ∧
       to_lowercase <$> event_field event context "content.membership" = Some "invite" ∧
       condition_holds (EventMatch "state_key" user_id) event context).
Proof.
  intros Hl Hu Hl8. assert (∃ s, server_default user_id = Ok s) as [s Hs].
  { unfold server_default, contains_user_name. rewrite Hl. eauto. }
  exists s. destruct (server_default_rules user_id l s Hl Hs) as [Hprio Hdist].
  assert (utf8_ruleset s) as H8 by (unfold utf8_ruleset; rewrite Hprio; by apply default_rules_utf8).
  split_and!; [done..| |].
  { rewrite Hprio. unfold default_rules.
    repeat first [apply list.Forall_cons_2 | apply list.Forall_nil_2]; (split; [done|]); simpl; naive_solver. }
  intros raw event context Hraw He Hctx. split.
  - intros Ht. destruct (get_actions_up_to s raw event context [Override master]
      (Override suppress_notices) _ Hraw He Hctx H8 Hprio) as (r & -> & Hr & Hin).
    + split; [done|]. apply list.Forall_singleton. by apply event_match_literal.
    + apply elem_of_cons in Hin as [->|Hin]; [by destruct Hr|].
      by apply list_elem_of_singleton in Hin as ->.
  - intros Ht. destruct (get_actions_up_to s raw event context
      [Override master; Override suppress_notices; Override (invite_for_me user_id)]
      (Override member_event) _ Hraw He Hctx H8 Hprio) as (r & -> & Hr & Hin).
    + split; [done|]. apply list.Forall_singleton. by apply event_match_literal.
    + apply elem_of_cons in Hin as [->|Hin]; [by destruct Hr|].
      apply elem_of_cons in Hin as [->|Hin]; [by left|].
      apply elem_of_cons in Hin as [->|Hin]; [|apply list_elem_of_singleton in Hin as ->; by left].
      right. split; [done|]. destruct Hr as [_ Hr]. cbn [conditions invite_for_me] in Hr.
      rewrite !list.Forall_cons in Hr. destruct Hr as (_ & Hm & Hk & _).
      split; [by apply event_match_literal in Hm|done].
Qed.
End defaults.

(** ** Examples *)

Definition jolly : string := "@jolly_jumper:server.name".

Definition one_to_one (members : Z) : PushConditionRoomCtx := {|
  room_id := "!dm:server.name";
  member_count := members;
  user_display_name := "Jolly Jumper";
  users_power_levels := ∅;
  ctx_default_power_level := 50;
  notification_power_levels := {| EventContents.room := 50 |}
|}.

Definition event_of (ty : string) (rest : list (string * json)) (content : list (string * json)) :
    json := JObject (("type", JString ty) :: ("content", JObject content) :: rest).

Definition default_actions (raw : json) (context : PushConditionRoomCtx) :
    outcome Diverges (list Action) :=
  let _ := list_sets in
  let _ := ascii_unicode in
  let _ := char_glob in
  let _ := every_value in
  match server_default jolly with
  | Ok s => get_actions s raw context
  | _ => Panic
  end.

(** The source's test of the default rules. *)
Example default_ruleset_applies :
  default_actions (event_of "m.room.message" [] []) (one_to_one 2) =
    Ok [Notify; SetTweak (Sound "default"); SetTweak (Highlight false)] ∧
  default_actions (event_of "m.room.message" [] []) (one_to_one 100) =
    Ok [Notify; SetTweak (Highlight false)] ∧
  default_actions (event_of "m.room.message" [] [("body", JString "Hi jolly_jumper!")])
    (one_to_one 2) = Ok [Notify; SetTweak (Sound "default"); SetTweak (Highlight true)] ∧
  default_actions (event_of "m.room.message" [] [("msgtype", JString "m.notice")])
    (one_to_one 2) = Ok [DontNotify] ∧
  default_actions (event_of "m.room.message" [("sender", JString "@rantanplan:server.name")]
    [("body", JString "@room Attention please!"); ("msgtype", JString "m.text")])
    (one_to_one 100) = Ok [Notify; SetTweak (Highlight true)] ∧
  default_actions (JObject []) (one_to_one 2) = Ok [].
Proof. vm_compute. repeat split. Qed.

Lemma jolly_utf8 : utf8 jolly ∧ utf8 "jolly_jumper".
Proof. split; unfold utf8; decide_it. Qed.

Lemma server_default_spec_witness :
  let _ := list_sets in
  let _ := ascii_unicode in
  let _ := char_glob in
  let _ := every_value in
  ∃ s, server_default jolly = Ok s ∧ distinct s ∧ by_priority s = default_rules jolly "jolly_jumper".
Proof.
  intros i u w v.
  destruct (@server_default_spec i u ascii_lowercase_utf8 w v jolly "jolly_jumper")
    as (s & Hs & Hd & Hp & _); [reflexivity|apply jolly_utf8..|].
  exists s. split; [exact Hs|]. split; [exact Hd|exact Hp].
Defined.

(** A ruleset with a room rule that goes before the message rule. *)
Definition dm_rule : AnyPushRule := Room {|
  simple_actions := [DontNotify]; simple_default := false; simple_enabled := true;
  simple_rule_id := "!dm:server.name" |}.

Definition example_ruleset `{IndexSets} : Ruleset :=
  extend Ruleset_new [Underride message; dm_rule; Underride message].

Definition example_message : json :=
  event_of "m.room.message" [("sender", JString "@rantanplan:server.name")] [].

Lemma ruleset_iter_live_witness :
  let _ := list_sets in
  ∃ r1 r2 it, yields (iter example_ruleset) [r1; r2] it ∧
    (∃ later last, yields it later last ∧ RulesetIter_next last = None ∧
      by_priority example_ruleset = [r1; r2] ++ later) ∧
    (RulesetIter_next it = None ↔ [r1; r2] = by_priority example_ruleset).
Proof.
  intros i. do 3 eexists. split; cycle 1.
  - eapply (@ruleset_iter_live i example_ruleset). do 2 (econstructor; [reflexivity|]). constructor.
  - do 2 (econstructor; [reflexivity|]). constructor.
Defined.

Lemma get_match_spec_witness :
  let _ := list_sets in
  let _ := ascii_unicode in
  let _ := char_glob in
  let _ := every_value in
  ∃ event res, from_raw (E:=Diverges) example_message = Ok event ∧
    get_match example_ruleset example_message (one_to_one 2) = Ok res ∧
    res = Some dm_rule ∧
    match res with
    | None => get_actions example_ruleset example_message (one_to_one 2) = Ok [] ∧
        ∀ r, r ∈ by_priority example_ruleset → ¬ rule_holds r event (one_to_one 2)
    | Some r => get_actions example_ruleset example_message (one_to_one 2) = Ok (actions r) ∧
        ∃ before after, by_priority example_ruleset = before ++ r :: after ∧
          rule_holds r event (one_to_one 2) ∧ ∀ r', r' ∈ before → ¬ rule_holds r' event (one_to_one 2)
    end.
Proof.
  intros i u w v.
  destruct (@get_match_spec i u ascii_lowercase_utf8 w v example_ruleset example_message
    (flatten_value example_message "" ∅) (one_to_one 2)) as (res & Hres & Hspec).
  - reflexivity.
  - unfold utf8_event, utf8. decide_it.
  - unfold utf8_context, utf8. split; decide_it.
  - unfold utf8_ruleset. simpl. repeat constructor; simpl; unfold utf8; decide_it.
  - exists (flatten_value example_message "" ∅), res.
    split; [reflexivity|]. split; [exact Hres|]. split; [|exact Hspec].
    assert (get_match example_ruleset example_message (one_to_one 2) = Ok (Some dm_rule)) as Hc
      by (vm_compute; reflexivity).
    congruence.
Defined.
