(* ===== verification/Serde.v ===== *)
(** * Values and their JSON

    What the components with JSON forms share: a class for a type with its encoder and decoder,
    the attributes [tag], [flatten], [untagged] and [skip_serializing_if] of serde, and
    [serde_json::Value], whose objects are sorted maps without duplicate keys. *)

From S2P Require Import Prelude RustStr RustNet IdValidation StringEnum Identifiers Json.
From S2P Require Import CanonicalJson.
From Stdlib Require Import Ascii NArith.
Open Scope string_scope.
Open Scope nat_scope.
Open Scope list_scope.

(** A type with its JSON form. *)
Class Serde (A : Type) := { ser : A → json; de : decoder A }.

Definition round_trips {A} `{Serde A} (a : A) : Prop := de (ser a) = Ok a.

#[export] Instance Serde_bool : Serde bool := { ser := JBool; de := de_bool }.
#[export] Instance Serde_string : Serde string := { ser := JString; de := de_string }.
#[export] Instance Serde_list {A} `{Serde A} : Serde (list A) :=
  { ser := λ l, JArray (ser <$> l); de := de_list de }.

(** ** Attributes *)

(** The first decoder that succeeds. *)
Definition or_else {A} (d1 d2 : decoder A) : decoder A := λ j,
  match d1 j with Err _ => d2 j | r => r end.

(** The tag of an internally tagged enum and what is left for the variant: the one entry of
    that key, or the first item of an array. *)
Definition take_tag (tag : string) (j : json) : outcome () (string * json) :=
  match j with
  | JObject entries =>
      match filter (λ kv, kv.1 = tag) entries with
      | [(_, t)] => t ← de_string t; Ok (t, JObject (filter (λ kv, kv.1 ≠ tag) entries))
      | _ => Err ()
      end
  | JArray (t :: items) => t ← de_string t; Ok (t, JArray items)
  | _ => Err ()
  end.

(** [skip_serializing_if = "Option::is_none"] *)
Definition skip_none {A} (name : string) (f : A → json) (o : option A) : list (string * json) :=
  match o with Some a => [(name, f a)] | None => [] end.

(** The fields of a struct that are written: an absent one is skipped. *)
Definition written (l : list (string * option json)) : list (string * json) :=
  omap (λ '(name, o), (name,.) <$> o) l.

(** A struct with a [flatten] field reads objects only: its own fields, and the entries of
    all other keys for the flattened field. *)
Definition flat_src (fields : list string) (j : json) :
    outcome () (struct_source * list (string * json)) :=
  match j with
  | JObject entries =>
      if decide (NoDup (filter (λ k, k ∈ fields) entries.*1))
      then Ok (FromMap entries, filter (λ kv, kv.1 ∉ fields) entries)
      else Err ()
  | _ => Err ()
  end.

(** ** [serde_json::Value] *)

(** Reading a [Value]: the last entry of a key counts, and keys are sorted. *)
Fixpoint to_value (j : json) : json :=
  match j with
  | JArray l => JArray (to_value <$> l)
  | JObject entries =>
      JObject (btree_iter (last_entries ((λ '(k, v), (k, to_value v)) <$> entries)))
  | _ => j
  end.

(** A [Map<String, Value>]: an object and nothing else. *)
Definition de_JsonObject : decoder (gmap string json) := λ j,
  match j with
  | JObject entries => Ok (last_entries ((λ '(k, v), (k, to_value v)) <$> entries))
  | _ => Err ()
  end.

Definition ser_JsonObject (m : gmap string json) : json := JObject (btree_iter m).

(** What is a [Value] already. *)
Definition is_value (j : json) : Prop := to_value j = j.

(** ** Lemmas *)

Lemma struct_src_obj fields entries :
  NoDup entries.*1 → struct_src fields (JObject entries) = Ok (FromMap entries).
Proof.
  intros Hnd. unfold struct_src. rewrite decide_True; [done|]. by apply list.NoDup_filter.
Qed.

Lemma de_parse_Ok {E A} (p : string → outcome E A) id a :
  p id = Ok a → de_parse p (JString id) = Ok a.
Proof. intros Hid. unfold de_parse. simpl. by rewrite Hid. Qed.

Lemma de_uint_Ok z : uint_in_range z = true → de_uint (JNumber (NInt z)) = Ok z.
Proof. unfold de_uint. by intros ->. Qed.

Lemma struct_src_one fields name j :
  struct_src fields (JObject [(name, j)]) = Ok (FromMap [(name, j)]).
Proof. apply struct_src_obj, list.NoDup_singleton. Qed.

Lemma assoc_None {A} key (l : list (string * A)) : key ∉ l.*1 → assoc key l = None.
Proof.
  induction l as [|[k v] l IH]; [done|]. csimpl. intros [Hk Hl]%not_elem_of_cons.
  rewrite assoc_cons, decide_False by congruence. by apply IH.
Qed.

Lemma assoc_app_r {A} key (l l' : list (string * A)) :
  key ∉ l.*1 → assoc key (l ++ l') = assoc key l'.
Proof. intros Hk. by rewrite assoc_app, assoc_None. Qed.

Lemma field_req_Some {A} fields name (d : decoder A) entries v :
  assoc name entries = Some v → field_req fields name d (FromMap entries) = d v.
Proof. intros Hv. unfold field_req, lookup_field. by rewrite Hv. Qed.

Lemma field_req_None {A} fields name (d : decoder A) entries :
  assoc name entries = None → field_req fields name d (FromMap entries) = Err ().
Proof. intros Hv. unfold field_req, lookup_field. by rewrite Hv. Qed.

Lemma assoc_filter {A} (fields : list string) name (entries : list (string * A)) :
  name ∉ fields → assoc name (filter (λ kv, kv.1 ∉ fields) entries) = assoc name entries.
Proof.
  intros Hn. induction entries as [|[k j] entries IH]; [done|].
  rewrite filter_cons, assoc_cons. simpl. destruct (decide (k ∉ fields)).
  - rewrite assoc_cons, IH. done.
  - rewrite IH, decide_False; [done|]. by intros ->.
Qed.

Lemma flat_src_NoDup fields entries :
  NoDup entries.*1 →
  flat_src fields (JObject entries) =
    Ok (FromMap entries, filter (λ kv, kv.1 ∉ fields) entries).
Proof. intros Hnd. unfold flat_src. by rewrite decide_True by by apply list.NoDup_filter. Qed.

(** The fields of a struct followed by those of its flattened field. *)
Lemma flat_src_app fields own rest :
  NoDup own.*1 → (∀ k, k ∈ own.*1 → k ∈ fields) → (∀ k, k ∈ rest.*1 → k ∉ fields) →
  flat_src fields (JObject (own ++ rest)) = Ok (FromMap (own ++ rest), rest).
Proof.
  intros Hnd Hown Hrest. unfold flat_src.
  rewrite fmap_app, list.filter_app, (list_filter_all _ own.*1), (list_filter_none _ rest.*1), app_nil_r by auto.
  rewrite decide_True by done. do 2 f_equal.
  rewrite list.filter_app, list_filter_none, list_filter_all; [done|..].
  - intros kv Hkv. by apply Hrest, list_elem_of_fmap_2.
  - intros kv Hkv Hno. by apply Hno, Hown, list_elem_of_fmap_2.
Qed.

(** Conversely, the flattened entries repeat no field that is there. *)
Lemma flat_src_disjoint fields own rest r k :
  flat_src fields (JObject (own ++ rest)) = Ok r → k ∈ own.*1 → k ∈ fields → k ∉ rest.*1.
Proof.
  unfold flat_src. rewrite fmap_app, list.filter_app. case_decide as Hnd; [|done]. intros _ Hk Hf Hr.
  apply list.NoDup_app in Hnd as (_ & Hno & _). apply (Hno k); by apply list_elem_of_filter.
Qed.

Lemma round_trips_bool (b : bool) : round_trips b.
Proof. done. Qed.
Lemma round_trips_string (s : string) : round_trips s.
Proof. done. Qed.

(** Reading one written field after another. *)
Ltac read_fields :=
  rewrite struct_src_obj by (cbn; decide_it); cbn [mbind outcome_bind];
  repeat (erewrite field_req_Some by reflexivity;
          cbn [snd prod_map compose id];
          first [match goal with H : round_trips _ |- _ => rewrite H end
                | rewrite round_trips_bool | rewrite round_trips_string]; cbn [mbind outcome_bind]).

(** Lists are read item by item. *)
Lemma de_list_Ok {A B} (d : decoder A) (f : B → json) (l : list B) r :
  de_list d (JArray (f <$> l)) = Ok r ↔ Forall2 (λ x y, d (f x) = Ok y) l r.
Proof.
  assert (∀ acc, for_each (λ acc x, a ← d x; Ok (acc ++ [a])) acc (f <$> l) = Ok r ↔
    ∃ l', r = acc ++ l' ∧ Forall2 (λ x y, d (f x) = Ok y) l l') as Hall.
  2: { simpl. rewrite Hall. naive_solver. }
  induction l as [|x l IH]; intros acc; csimpl.
  - split; [intros [= ->]; exists []; by rewrite app_nil_r|].
    intros (l' & -> & ->%Forall2_nil_inv_l). by rewrite app_nil_r.
  - destruct (d (f x)) as [y|e|] eqn:Hx; cbn [mbind outcome_bind].
    + rewrite IH. split.
      * intros (l' & -> & Hl). exists (y :: l'). rewrite <- (assoc_L (++)). eauto.
      * intros (l' & -> & (y' & l'' & Hy & Hl & ->)%Forall2_cons_inv_l).
        assert (y' = y) as -> by congruence. exists l''. by rewrite <- (assoc_L (++)).
    + split; [done|]. intros (l' & _ & (? & ? & ? & _)%Forall2_cons_inv_l). congruence.
    + split; [done|]. intros (l' & _ & (? & ? & ? & _)%Forall2_cons_inv_l). congruence.
Qed.

Lemma de_list_round_trip {A} (d : decoder A) (f : A → json) (l : list A) :
  de_list d (JArray (f <$> l)) = Ok l ↔ Forall (λ x, d (f x) = Ok x) l.
Proof.
  rewrite de_list_Ok. split; [|apply (Forall_Forall2_diag (λ x y, d (f x) = Ok y))].
  induction l as [|x l IH]; [done|]. intros [? ?]%Forall2_cons_1. constructor; auto.
Qed.

Lemma round_trips_list {A} `{Serde A} (l : list A) : Forall round_trips l → round_trips l.
Proof. intros Hl. by apply de_list_round_trip. Qed.

#[export] Hint Resolve round_trips_bool round_trips_string round_trips_list : ruma.


(** Distinct keys: the order of the entries does not matter. *)
Lemma last_entries_NoDup {A} (l : list (string * A)) : NoDup l.*1 → last_entries l = list_to_map l.
Proof.
  intros Hnd. unfold last_entries.
  assert (∀ m : gmap string A, fold_left (λ m '(k, v), <[k := v]> m) l m = list_to_map l ∪ m) as H;
    [|by rewrite H, (right_id_L ∅ (∪))].
  induction l as [|[k v] l IH]; intros m; simpl; [by rewrite (left_id_L ∅ (∪))|].
  apply list.NoDup_cons in Hnd as [Hk Hnd]. rewrite IH by done.
  rewrite <- insert_union_l, insert_union_r; [done|]. by apply not_elem_of_list_to_map.
Qed.

Lemma last_entries_btree_iter {A} (m : gmap string A) : last_entries (btree_iter m) = m.
Proof. rewrite last_entries_NoDup by apply NoDup_btree_iter_fst. apply list_to_map_btree_iter. Qed.

Lemma map_value_id (m : gmap string json) : map_Forall (λ _, is_value) m → to_value <$> m = m.
Proof.
  intros Hm. apply map_eq. intros k. rewrite lookup_fmap.
  destruct (m !! k) as [v|] eqn:Hk; [|done]. simpl. f_equal. exact (Hm k v Hk).
Qed.

Lemma is_value_to_value j : is_value (to_value j).
Proof.
  unfold is_value. induction j as [|b|n|s|l IH|l IH] using json_nested_ind; try done; simpl; f_equal.
  - induction IH as [|x l Hx _ IHl]; csimpl; [done|]. by rewrite Hx, IHl.
  - rewrite !last_entries_map, last_entries_btree_iter, map_value_id; [done|].
    apply map_Forall_fmap. intros k v Hv%last_entries_elem. rewrite list.Forall_forall in IH.
    exact (IH (k, v) Hv).
Qed.

(** A map of values is written and read back. *)
Lemma de_ser_JsonObject m : map_Forall (λ _, is_value) m → de_JsonObject (ser_JsonObject m) = Ok m.
Proof.
  intros Hm. unfold de_JsonObject, ser_JsonObject.
  by rewrite last_entries_map, last_entries_btree_iter, map_value_id.
Qed.

(** Fields of an object made from a map. *)
Lemma assoc_list_to_map {A} key (l : list (string * A)) :
  assoc key l = (list_to_map l : gmap string A) !! key.
Proof.
  induction l as [|[k v] l IH]; [done|]. rewrite assoc_cons. simpl.
  case_decide as Hk; [subst; by rewrite lookup_insert_eq|by rewrite lookup_insert_ne].
Qed.

(** The object of a struct, by field. *)
Lemma last_entries_assoc {A B} (f : A → B) (l : list (string * A)) key :
  NoDup l.*1 → last_entries ((λ '(k, v), (k, f v)) <$> l) !! key = f <$> assoc key l.
Proof.
  intros Hnd. rewrite last_entries_map, lookup_fmap, last_entries_NoDup by done.
  by rewrite assoc_list_to_map.
Qed.

Lemma assoc_btree_iter {A} key (m : gmap string A) : assoc key (btree_iter m) = m !! key.
Proof. by rewrite assoc_list_to_map, list_to_map_btree_iter. Qed.

Lemma struct_src_JsonObject fields m :
  struct_src fields (ser_JsonObject m) = Ok (FromMap (btree_iter m)).
Proof. apply struct_src_obj, NoDup_btree_iter_fst. Qed.

Lemma field_req_JsonObject {A} fields name (d : decoder A) m :
  field_req fields name d (FromMap (btree_iter m)) =
    match m !! name with Some j => d j | None => Err () end.
Proof. unfold field_req, lookup_field. by rewrite assoc_btree_iter. Qed.

Lemma field_opt_JsonObject {A} fields name (d : decoder A) m :
  field_opt fields name d (FromMap (btree_iter m)) =
    match m !! name with Some j => de_option d j | None => Ok None end.
Proof. unfold field_opt, lookup_field. by rewrite assoc_btree_iter. Qed.

(** Scalars are values. *)
Lemma de_bool_to_value j : de_bool (to_value j) = de_bool j.
Proof. by destruct j. Qed.
Lemma de_string_to_value j : de_string (to_value j) = de_string j.
Proof. by destruct j. Qed.
Lemma de_uint_to_value j : de_uint (to_value j) = de_uint j.
Proof. by destruct j. Qed.

(** ** Reading what a struct has written, itself or as a [Value] *)

(** The entries of an object give the fields, changed by [v]. *)
Definition holds_fields (v : json → json) (l : list (string * option json))
    (entries : list (string * json)) : Prop :=
  NoDup entries.*1 ∧ Forall (λ '(name, o), assoc name entries = v <$> o) l.

Lemma written_keys l : (written l).*1 `sublist_of` l.*1.
Proof.
  induction l as [|[name [j|]] l IH]; csimpl; [done|by apply sublist_skip|by apply sublist_cons].
Qed.

Lemma written_NoDup l : NoDup l.*1 → NoDup (written l).*1.
Proof. intros Hnd. eapply sublist_NoDup; [done|apply written_keys]. Qed.

Lemma written_assoc l name o : NoDup l.*1 → (name, o) ∈ l → assoc name (written l) = o.
Proof.
  induction l as [|[name' o'] l IH]; intros Hnd Hin; [by apply not_elem_of_nil in Hin|].
  csimpl in Hnd. apply list.NoDup_cons in Hnd as [Hno Hnd].
  apply elem_of_cons in Hin as [[= -> ->]|Hin].
  - destruct o' as [j|]; csimpl; [by rewrite assoc_cons, decide_True|].
    apply assoc_None. intros Hk. apply Hno. eapply elem_of_sublist; [done|apply written_keys].
  - destruct o' as [j|]; csimpl; [|by apply IH]. rewrite assoc_cons, decide_False; [by apply IH|].
    intros <-. apply Hno. by apply (list_elem_of_fmap_2 fst _ (name', o)).
Qed.

Lemma holds_written l : NoDup l.*1 → holds_fields id l (written l).
Proof.
  intros Hnd. split; [by apply written_NoDup|]. apply list.Forall_forall. intros [name o] Hin.
  rewrite option_fmap_id. by apply written_assoc.
Qed.

Lemma holds_value l entries :
  holds_fields id l entries →
  holds_fields to_value l
    (btree_iter (last_entries ((λ '(k, v), (k, to_value v)) <$> entries))).
Proof.
  intros [Hnd Hl]. split; [apply NoDup_btree_iter_fst|].
  eapply list.Forall_impl; [exact Hl|]. intros [name o] Ho.
  rewrite assoc_btree_iter, last_entries_assoc, Ho by done. by destruct o.
Qed.

Lemma holds_app v l l' entries : holds_fields v (l ++ l') entries → holds_fields v l entries.
Proof. intros [Hnd Hl]. split; [done|]. by apply Forall_app in Hl as [? _]. Qed.

Lemma holds_field v l entries name o :
  holds_fields v l entries → (name, o) ∈ l → assoc name entries = v <$> o.
Proof. intros [_ Hl] Hin. rewrite list.Forall_forall in Hl. exact (Hl _ Hin). Qed.

(** What a decoder makes of a written value, itself or as a [Value]. *)
Definition decodes {A} (d : decoder A) (j : json) (a : A) : Prop := d j = Ok a ∧ d (to_value j) = Ok a.

(** The ways a struct's JSON may have been changed: not at all, or by [to_value]. *)
Definition id_or_value (v : json → json) : Prop := v = id ∨ v = to_value.

Lemma decodes_v {A} (d : decoder A) j a v : decodes d j a → id_or_value v → d (v j) = Ok a.
Proof. by intros [? ?] [->| ->]. Qed.

Lemma id_or_value_null v j : id_or_value v → v j = JNull ↔ j = JNull.
Proof. intros [->| ->]; [done|]. by destruct j. Qed.

Lemma decodes_struct {A} (d : decoder A) l a :
  NoDup l.*1 →
  (∀ v entries, id_or_value v → holds_fields v l entries → d (JObject entries) = Ok a) →
  decodes d (JObject (written l)) a.
Proof.
  intros Hnd Hd. split.
  - apply (Hd id); [by left|by apply holds_written].
  - apply (Hd to_value); [by right|]. by apply holds_value, holds_written.
Qed.

Section holds.
Context {v : json → json} {l : list (string * option json)} {entries : list (string * json)}.
Hypothesis Hv : id_or_value v.
Hypothesis Hl : holds_fields v l entries.

Lemma struct_src_holds fields : struct_src fields (JObject entries) = Ok (FromMap entries).
Proof. apply struct_src_obj, Hl. Qed.

Lemma field_req_holds {A} fields name (d : decoder A) j a :
  (name, Some j) ∈ l → decodes d j a → field_req fields name d (FromMap entries) = Ok a.
Proof.
  intros Hin Hd. rewrite (field_req_Some _ _ _ _ (v j)); [by apply decodes_v|].
  by rewrite (holds_field _ _ _ _ _ Hl Hin).
Qed.

(** A decoder that reads no [null] of what is written. *)
Lemma field_opt_holds {A} fields name (d : decoder A) (f : A → json) (o : option A) :
  (name, f <$> o) ∈ l → (∀ a, o = Some a → decodes d (f a) a ∧ f a ≠ JNull) →
  field_opt fields name d (FromMap entries) = Ok o.
Proof.
  intros Hin Hd. unfold field_opt, lookup_field. rewrite (holds_field _ _ _ _ _ Hl Hin).
  destruct o as [a|]; [|done]. destruct (Hd a eq_refl) as [Ha Hnull]. simpl.
  pose proof (decodes_v d _ a v Ha Hv) as Hda.
  rewrite <- (id_or_value_null v _ Hv) in Hnull. unfold de_option.
  destruct (v (f a)); [done|..]; by rewrite Hda.
Qed.
End holds.
