(* ===== verification/PushSerde.v ===== *)
(** * Push rules as JSON

    What [derive(Serialize, Deserialize)] and the hand-written implementations of
    [ruma-common/src/push.rs], [push/action.rs], [push/condition.rs] and
    [push/condition/room_member_count_is.rs] write and read.

    The attribute [tag] on a struct ([SoundTweak], [HighlightTweak]) makes serde write the tag;
    on reading, the tag is one more unknown field and is skipped. *)

From S2P Require Import Prelude RustStr RustNet IdValidation StringEnum Identifiers Json.
From S2P Require Import CanonicalJson Serde.
From S2P Require Import MemberCount PushWords PushConditions PushRules PushWordsSpec.
From S2P Require Import PushConditionsSpec PushDefaults PushRulesSpec PushDefaultsSpec.
From Stdlib Require Import Ascii NArith.
Open Scope string_scope.
Open Scope nat_scope.
Open Scope list_scope.

(** What serde_json's [RawValue] reads from a value that serde has buffered. *)
Class RawContent := raw_from_content : decoder json.

(** ** Tweaks and actions *)

(** [tweak_serde::Tweak]: untagged, the variants tried in order. *)
Definition ser_Tweak (t : Tweak) : json :=
  match t with
  | Sound value => JObject [("set_tweak", JString "sound"); ("value", JString value)]
  | Highlight value =>
      JObject (("set_tweak", JString "highlight") :: if value then [] else [("value", JBool value)])
  | CustomTweak name value => JObject [("set_tweak", JString name); ("value", value)]
  end.

Definition de_SoundTweak : decoder string := λ j,
  src ← struct_src ["value"] j; field_req ["value"] "value" de_string src.

Definition de_HighlightTweak : decoder bool := λ j,
  src ← struct_src ["value"] j; field_default ["value"] "value" true de_bool src.

Section serde.
Context `{RawContent} `{JsInt} `{IndexSets}.

Definition de_CustomTweak : decoder Tweak := λ j,
  let fields := ["set_tweak"; "value"] in
  src ← struct_src fields j;
  name ← field_req fields "set_tweak" de_string src;
  value ← field_req fields "value" raw_from_content src;
  Ok (CustomTweak name value).

Definition de_Tweak : decoder Tweak :=
  or_else (λ j, Sound <$> de_SoundTweak j)
    (or_else (λ j, Highlight <$> de_HighlightTweak j) de_CustomTweak).

#[export] Instance Serde_Tweak : Serde Tweak := { ser := ser_Tweak; de := de_Tweak }.

Definition ser_Action (a : Action) : json :=
  match a with
  | Notify => JString "notify"
  | DontNotify => JString "dont_notify"
  | Coalesce => JString "coalesce"
  | SetTweak kind => ser kind
  end.

(** [ActionVisitor]: a string or a map *)
Definition de_Action : decoder Action := λ j,
  match j with
  | JString v =>
      if decide (v = "notify") then Ok Notify
      else if decide (v = "dont_notify") then Ok DontNotify
      else if decide (v = "coalesce") then Ok Coalesce
      else Err ()
  | JObject _ => SetTweak <$> de j
  | _ => Err ()
  end.

#[export] Instance Serde_Action : Serde Action := { ser := ser_Action; de := de_Action }.

(** ** Conditions *)

#[export] Instance Serde_RoomMemberCountIs : Serde RoomMemberCountIs := {
  ser m := JString (RoomMemberCountIs_to_string m);
  de := de_parse RoomMemberCountIs_from_str
}.

Definition ser_PushCondition (c : PushCondition) : json :=
  match c with
  | EventMatch key pattern =>
      JObject [("kind", JString "event_match"); ("key", JString key); ("pattern", JString pattern)]
  | ContainsDisplayName => JObject [("kind", JString "contains_display_name")]
  | RoomMemberCount m => JObject [("kind", JString "room_member_count"); ("is", ser m)]
  | SenderNotificationPermission key =>
      JObject [("kind", JString "sender_notification_permission"); ("key", JString key)]
  end.

Definition de_PushCondition : decoder PushCondition := λ j,
  '(kind, rest) ← take_tag "kind" j;
  if decide (kind = "event_match") then
    let fields := ["key"; "pattern"] in
    src ← struct_src fields rest;
    key ← field_req fields "key" de src;
    pattern ← field_req fields "pattern" de src;
    Ok (EventMatch key pattern)
  else if decide (kind = "contains_display_name") then
    _ ← struct_src [] rest; Ok ContainsDisplayName
  else if decide (kind = "room_member_count") then
    src ← struct_src ["is"] rest;
    m ← field_req ["is"] "is" de src;
    Ok (RoomMemberCount m)
  else if decide (kind = "sender_notification_permission") then
    src ← struct_src ["key"] rest;
    key ← field_req ["key"] "key" de src;
    Ok (SenderNotificationPermission key)
  else Err ().

#[export] Instance Serde_PushCondition : Serde PushCondition :=
  { ser := ser_PushCondition; de := de_PushCondition }.

(** ** Rules *)

Definition ser_SimplePushRule (r : SimplePushRule) : json :=
  JObject [("actions", ser (simple_actions r)); ("default", ser (simple_default r));
                  ("enabled", ser (simple_enabled r)); ("rule_id", ser (simple_rule_id r))].

Definition de_SimplePushRule : decoder SimplePushRule := λ j,
  let fields := ["actions"; "default"; "enabled"; "rule_id"] in
  src ← struct_src fields j;
  actions ← field_req fields "actions" de src;
  default ← field_req fields "default" de src;
  enabled ← field_req fields "enabled" de src;
  rule_id ← field_req fields "rule_id" de src;
  Ok (Build_SimplePushRule actions default enabled rule_id).

#[export] Instance Serde_SimplePushRule : Serde SimplePushRule := { ser := ser_SimplePushRule; de := de_SimplePushRule }.

Definition ser_ConditionalPushRule (r : ConditionalPushRule) : json :=
  JObject [("actions", ser (cond_actions r)); ("default", ser (cond_default r));
                  ("enabled", ser (cond_enabled r)); ("rule_id", ser (cond_rule_id r));
                  ("conditions", ser (conditions r))].

Definition de_ConditionalPushRule : decoder ConditionalPushRule := λ j,
  let fields := ["actions"; "default"; "enabled"; "rule_id"; "conditions"] in
  src ← struct_src fields j;
  actions ← field_req fields "actions" de src;
  default ← field_req fields "default" de src;
  enabled ← field_req fields "enabled" de src;
  rule_id ← field_req fields "rule_id" de src;
  conditions ← field_req fields "conditions" de src;
  Ok (Build_ConditionalPushRule actions default enabled rule_id conditions).

#[export] Instance Serde_ConditionalPushRule : Serde ConditionalPushRule := { ser := ser_ConditionalPushRule; de := de_ConditionalPushRule }.

Definition ser_PatternedPushRule (r : PatternedPushRule) : json :=
  JObject [("actions", ser (pat_actions r)); ("default", ser (pat_default r));
                  ("enabled", ser (pat_enabled r)); ("rule_id", ser (pat_rule_id r));
                  ("pattern", ser (pattern r))].

Definition de_PatternedPushRule : decoder PatternedPushRule := λ j,
  let fields := ["actions"; "default"; "enabled"; "rule_id"; "pattern"] in
  src ← struct_src fields j;
  actions ← field_req fields "actions" de src;
  default ← field_req fields "default" de src;
  enabled ← field_req fields "enabled" de src;
  rule_id ← field_req fields "rule_id" de src;
  pattern ← field_req fields "pattern" de src;
  Ok (Build_PatternedPushRule actions default enabled rule_id pattern).

#[export] Instance Serde_PatternedPushRule : Serde PatternedPushRule := { ser := ser_PatternedPushRule; de := de_PatternedPushRule }.

(** An [IndexSet] is written as the list of its items and read by inserting them. *)
#[export] Instance Serde_IndexSet {A} `{Serde A} `{HasRuleId A} : Serde (IndexSet A) := {
  ser s := ser (iset_iter s);
  de j := iset_of_list <$> de j
}.

Definition ser_Ruleset (s : Ruleset) : json :=
  JObject [("content", ser (content s)); ("override", ser (override_ s));
                  ("room", ser (room_rules s)); ("sender", ser (sender_rules s));
                  ("underride", ser (underride s))].

Definition de_Ruleset : decoder Ruleset := λ j,
  let fields := ["content"; "override"; "room"; "sender"; "underride"] in
  src ← struct_src fields j;
  content ← field_req fields "content" de src;
  override_ ← field_req fields "override" de src;
  room ← field_req fields "room" de src;
  sender ← field_req fields "sender" de src;
  underride ← field_req fields "underride" de src;
  Ok (Build_Ruleset content override_ room sender underride).

#[export] Instance Serde_Ruleset : Serde Ruleset := { ser := ser_Ruleset; de := de_Ruleset }.
End serde.

(** ** Pushers *)

Inductive PushFormat := EventIdOnly | PushFormat_Custom (s : string).

#[export] Instance PushFormat_eq_dec : EqDecision PushFormat.
Proof. solve_decision. Defined.

#[export, refine] Instance PushFormat_enum : StringEnum PushFormat := {|
  rename_all := SnakeCase;
  unit_variants := [("EventIdOnly", None, EventIdOnly)];
  custom := PushFormat_Custom;
  custom_inner a := match a with PushFormat_Custom s => Some s | _ => None end
|}.
Proof. all: string_enum_laws. Defined.

Record PusherData := { url : option string; format : option PushFormat }.

Definition PusherData_new : PusherData := {| url := None; format := None |}.

Definition is_empty (data : PusherData) : bool :=
  bool_decide (url data = None) && bool_decide (format data = None).

Definition ser_PusherData (data : PusherData) : json :=
  JObject (skip_none "url" JString (url data) ++
           skip_none "format" (λ f, JString (as_ref f)) (format data)).

Definition de_PusherData : decoder PusherData := λ j,
  let fields := ["url"; "format"] in
  src ← struct_src fields j;
  url ← field_opt fields "url" de_string src;
  format ← field_opt fields "format" de_string_enum src;
  Ok {| url := url; format := format |}.

#[export] Instance Serde_PusherData : Serde PusherData :=
  { ser := ser_PusherData; de := de_PusherData }.

(** ** Round trips *)

(** A pusher's data is read back, unless its custom format is the name of the known one. *)
Lemma round_trips_pusher data :
  format data ≠ Some (PushFormat_Custom "event_id_only") → round_trips data ∧
  (is_empty data = true ↔ ser data = JObject []).
Proof.
  destruct data as [u [[|f]|]]; intros Hf; (split; [|by destruct u]); try (by destruct u).
  assert (from f = PushFormat_Custom f) as Hfrom.
  { change (PushFormat_Custom f) with (custom f). apply custom_inner_inv, from_custom.
    intros Hin%list_elem_of_singleton. subst. by apply Hf. }
  transitivity (Ok (E:=()) {| url := u; format := Some (from f) |}); [by destruct u|by rewrite Hfrom].
Qed.

Section round_trips.
Context `{RawContent} `{JsInt} `{IndexSets}.

(** The actions the specification knows. *)
Definition standard_action (a : Action) : Prop :=
  match a with SetTweak (CustomTweak _ _) => False | _ => True end.

Lemma round_trips_action a : standard_action a → round_trips a.
Proof.
  destruct a as [| | |[v|[]|name value]]; intros Ha; try done; reflexivity.
Qed.

Lemma round_trips_count m : valid_count m → round_trips m.
Proof.
  intros Hm. unfold round_trips. cbn [de ser Serde_RoomMemberCountIs de_parse de_string mbind outcome_bind].
  by rewrite RoomMemberCountIs_round_trip.
Qed.

Definition valid_condition (c : PushCondition) : Prop :=
  match c with RoomMemberCount m => valid_count m | _ => True end.

Lemma round_trips_condition c : valid_condition c → round_trips c.
Proof.
  destruct c as [key pattern| |m|key]; intros Hc; try reflexivity.
  unfold round_trips.
  change (de (ser (RoomMemberCount m))) with (m ← de (ser m); Ok (RoomMemberCount m)).
  by rewrite round_trips_count.
Qed.

Definition standard_rule (r : AnyPushRule) : Prop :=
  Forall standard_action (actions r) ∧
  match r with Override r | Underride r => Forall valid_condition (conditions r) | _ => True end.

Lemma round_trips_actions l : Forall standard_action l → round_trips l.
Proof.
  intros Hl. apply round_trips_list. eapply list.Forall_impl; [exact Hl|]. apply round_trips_action.
Qed.

Lemma round_trips_simple r : Forall standard_action (simple_actions r) → round_trips r.
Proof.
  intros Ha%round_trips_actions. destruct r as [a d e i]. unfold round_trips.
  change (de_SimplePushRule (ser_SimplePushRule (Build_SimplePushRule a d e i)) = Ok (Build_SimplePushRule a d e i)).
  unfold de_SimplePushRule, ser_SimplePushRule. cbn [simple_actions simple_default simple_enabled simple_rule_id].
  simpl in Ha. read_fields. done.
Qed.

Lemma round_trips_conditional r :
  Forall standard_action (cond_actions r) → Forall valid_condition (conditions r) → round_trips r.
Proof.
  intros Ha%round_trips_actions Hc. destruct r as [a d e i c].
  assert (round_trips c) as Hcs.
  { apply round_trips_list. eapply list.Forall_impl; [exact Hc|]. apply round_trips_condition. }
  unfold round_trips.
  change (de_ConditionalPushRule (ser_ConditionalPushRule (Build_ConditionalPushRule a d e i c)) = Ok (Build_ConditionalPushRule a d e i c)).
  unfold de_ConditionalPushRule, ser_ConditionalPushRule. cbn [cond_actions cond_default cond_enabled cond_rule_id conditions]. simpl in Ha.
  read_fields. done.
Qed.

Lemma round_trips_patterned r : Forall standard_action (pat_actions r) → round_trips r.
Proof.
  intros Ha%round_trips_actions. destruct r as [a d e i p]. unfold round_trips.
  change (de_PatternedPushRule (ser_PatternedPushRule (Build_PatternedPushRule a d e i p)) = Ok (Build_PatternedPushRule a d e i p)).
  unfold de_PatternedPushRule, ser_PatternedPushRule. cbn [pat_actions pat_default pat_enabled pat_rule_id pattern].
  simpl in Ha. read_fields. done.
Qed.

(** A set of rules is read back as a set with the same items. *)
Lemma round_trips_set {A} `{Serde A} `{HasRuleId A} (s : IndexSet A) :
  NoDup (iset_ids s) → Forall round_trips (iset_iter s) →
  de (ser s) = Ok (iset_of_list (iset_iter s)) ∧ iset_iter (iset_of_list (iset_iter s)) = iset_iter s.
Proof.
  intros Hd Hs. split; [|by apply iset_of_list_distinct].
  unfold Serde_IndexSet. cbn [de ser]. by rewrite round_trips_list.
Qed.

Lemma iset_of_list_ids {A} `{HasRuleId A} (l : list A) : NoDup (iset_ids (iset_of_list l)).
Proof.
  unfold iset_of_list. assert (NoDup (iset_ids (iset_new (A:=A)))) as Hs.
  { unfold iset_ids. rewrite iset_iter_new. constructor. }
  revert Hs. generalize (iset_new (A:=A)). induction l as [|x l IH]; intros s Hs; simpl; [done|].
  by apply IH, iset_insert_distinct.
Qed.

Lemma de_set_distinct {A} `{Serde A} `{HasRuleId A} j (s : IndexSet A) :
  de j = Ok s → NoDup (iset_ids s).
Proof.
  unfold Serde_IndexSet. cbn [de]. intros (l & _ & ->)%fmap_Ok. apply iset_of_list_ids.
Qed.

Definition standard_ruleset (self : Ruleset) : Prop := Forall standard_rule (by_priority self).

Lemma standard_sets self :
  standard_ruleset self →
  Forall round_trips (iset_iter (content self)) ∧ Forall round_trips (iset_iter (override_ self)) ∧
  Forall round_trips (iset_iter (room_rules self)) ∧
  Forall round_trips (iset_iter (sender_rules self)) ∧
  Forall round_trips (iset_iter (underride self)).
Proof.
  unfold standard_ruleset, by_priority. rewrite !Forall_app, !list.Forall_fmap.
  intros (Ho & Hc & Hr & Hs & Hu).
  split_and!; eapply list.Forall_impl; try eassumption; intros x [Ha Hx].
  - by apply round_trips_patterned.
  - by apply round_trips_conditional.
  - by apply round_trips_simple.
  - by apply round_trips_simple.
  - by apply round_trips_conditional.
Qed.

Lemma de_ruleset_distinct j (self : Ruleset) : de j = Ok self → distinct self.
Proof.
  change (de j) with (de_Ruleset j). unfold de_Ruleset.
  intros (src & _ & (c & Hc & (o & Ho & (r & Hr & (s & Hs & (u & Hu & [= <-])%bind_Ok)%bind_Ok)%bind_Ok
    )%bind_Ok)%bind_Ok)%bind_Ok.
  unfold field_req in *. unfold distinct. simpl.
  repeat match goal with H : match ?x with _ => _ end = Ok _ |- _ => destruct x; [|done] end.
  split_and!; by eapply de_set_distinct.
Qed.

(** The ruleset with every set collected anew from its rules. *)
Definition collected (self : Ruleset) : Ruleset := {|
  content := iset_of_list (iset_iter (content self));
  override_ := iset_of_list (iset_iter (override_ self));
  room_rules := iset_of_list (iset_iter (room_rules self));
  sender_rules := iset_of_list (iset_iter (sender_rules self));
  underride := iset_of_list (iset_iter (underride self))
|}.

Lemma collected_same (self : Ruleset) :
  distinct self → distinct (collected self) ∧ ∀ k, of_kind k (collected self) = of_kind k self.
Proof.
  intros (Do & Dc & Dr & Ds & Du). split; [split_and!; apply iset_of_list_ids|].
  intros []; simpl; by rewrite iset_of_list_distinct.
Qed.

(** A written ruleset is read back as its rules, collected into new sets. *)
Lemma read_ruleset (self : Ruleset) :
  distinct self → standard_ruleset self → de (ser self) = Ok (collected self).
Proof.
  intros (Do & Dc & Dr & Ds & Du) Hstd. destruct (standard_sets self Hstd) as (Hc & Ho & Hr & Hs & Hu).
  destruct (round_trips_set _ Dc Hc) as [Rc Ic], (round_trips_set _ Do Ho) as [Ro Io],
    (round_trips_set _ Dr Hr) as [Rr Ir], (round_trips_set _ Ds Hs) as [Rs Is],
    (round_trips_set _ Du Hu) as [Ru Iu].
  change (de (ser self)) with (de_Ruleset (ser_Ruleset self)). unfold de_Ruleset, ser_Ruleset.
  rewrite struct_src_obj by (cbn; decide_it).
  cbn [mbind outcome_bind].
  repeat (erewrite field_req_Some by reflexivity; cbn [snd prod_map compose id];
          first [rewrite Rc|rewrite Ro|rewrite Rr|rewrite Rs|rewrite Ru]; cbn [mbind outcome_bind]).
  reflexivity.
Qed.

(** Rulesets that are read back as they are: the rules are standard ones with distinct IDs, and
    the sets are as collecting their rules makes them. *)
Definition readable_ruleset (self : Ruleset) : Prop :=
  distinct self ∧ standard_ruleset self ∧ collected self = self.

Lemma readable_collected (self : Ruleset) :
  distinct self → standard_ruleset self → readable_ruleset (collected self).
Proof.
  intros Hd Hstd. split; [by apply collected_same|]. destruct Hd as (Do & Dc & Dr & Ds & Du).
  unfold standard_ruleset, by_priority, collected in *. simpl. by rewrite !iset_of_list_distinct.
Qed.

(** C21: A ruleset with the standard actions and distinct IDs, written as JSON and read back, is
    the same rules in the same order; and whatever JSON a ruleset is read from, its rules have
    distinct IDs. *)
Theorem ruleset_round_trip (self : Ruleset) :
  (distinct self → standard_ruleset self →
   ∃ self', de (ser self) = Ok self' ∧ distinct self' ∧ ∀ k, of_kind k self' = of_kind k self) ∧
  ∀ j, de j = Ok self → distinct self.
Proof.
  split; [|intros j; apply de_ruleset_distinct].
  intros Hd Hstd. exists (collected self). split; [by apply read_ruleset|by apply collected_same].
Qed.

(** What is lost: a custom tweak with a string value is read back as a sound, one with a
    boolean value as a highlight, and any object without a [value] as a highlight. *)
Theorem custom_tweak_lost name :
  (∀ v, de (ser (SetTweak (CustomTweak name (JString v)))) = Ok (SetTweak (Sound v))) ∧
  (∀ b, de (ser (SetTweak (CustomTweak name (JBool b)))) = Ok (SetTweak (Highlight b))) ∧
  ∀ entries, "value" ∉ entries.*1 →
    de (A:=Action) (JObject entries) = Ok (SetTweak (Highlight true)).
Proof.
  split_and!; [done..|]. intros entries Hno. cbn [de Serde_Action de_Action Serde_Tweak].
  assert (filter (λ k, k ∈ ["value"]) entries.*1 = []) as Hf.
  { induction entries as [|[k v] entries IH]; [done|]. csimpl in *.
    rewrite not_elem_of_cons in Hno. destruct Hno as [Hk Hno].
    rewrite filter_cons_False; [by apply IH|]. intros Hin%list_elem_of_singleton. by subst. }
  assert (assoc "value" entries = None) as Ha.
  { destruct (assoc "value" entries) as [v|] eqn:Hv; [|done]. apply assoc_Some_elem in Hv.
    exfalso. apply Hno. by apply (list_elem_of_fmap_2 fst _ ("value", v)). }
  unfold de_Tweak, or_else, de_SoundTweak, de_HighlightTweak, struct_src. rewrite Hf.
  rewrite decide_True by constructor. cbn [mbind outcome_bind].
  unfold field_req, field_default, lookup_field. by rewrite Ha.
Qed.
End round_trips.

(** The predefined rules are read back as they are. *)
Lemma server_default_readable `{Unicode} `{RawContent} `{JsInt} `{IndexSets} user_id l self :
  localpart user_id = Ok l → server_default user_id = Ok self → readable_ruleset self.
Proof.
  intros Hl Hself. destruct (server_default_rules user_id l self Hl Hself) as [Hrules Hd].
  split; [exact Hd|]. split.
  - unfold standard_ruleset. rewrite Hrules. unfold default_rules, standard_rule. simpl.
    repeat constructor; vm_compute; intuition congruence.
  - unfold server_default, contains_user_name in Hself. rewrite Hl in Hself.
    injection Hself as <-. unfold collected. simpl.
    by rewrite !iset_of_list_distinct, !iset_iter_new by (simpl; unfold rule_id_of; simpl; decide_it).
Qed.
