(* ===== verification/UrlEncoded.v ===== *)
(** * Form encoding

    [ruma-serde/src/urlencoded]: the serializer and the deserializer of query strings. A value
    that serde hands to the serializer is a tree of the calls it makes ([sval]); what a type
    asks of the deserializer is a [shape].

    The crate form_urlencoded, which joins and splits the pairs, is a parameter. *)

From S2P Require Import Prelude RustStr.
From Stdlib Require Import Ascii NArith.
Open Scope string_scope.
Open Scope nat_scope.
Open Scope list_scope.

(** [str::from_utf8]: the byte sequences of one character *)
Definition valid_char (c : string) : bool :=
  let inb lo hi (b : ascii) := (lo <=? byte b)%N && (byte b <=? hi)%N in
  match c with
  | String a "" => inb 0 127 a
  | String a (String b "") => inb 194 223 a && inb 128 191 b
  | String a (String b (String c "")) =>
      (inb 224 224 a && inb 160 191 b || inb 225 236 a && inb 128 191 b
       || inb 237 237 a && inb 128 159 b || inb 238 239 a && inb 128 191 b) && inb 128 191 c
  | String a (String b (String c (String d ""))) =>
      (inb 240 240 a && inb 144 191 b || inb 241 243 a && inb 128 191 b
       || inb 244 244 a && inb 128 143 b) && inb 128 191 c && inb 128 191 d
  | _ => false
  end%N.

Definition valid_utf8 (s : string) : bool := forallb valid_char (str_chars s).

Notation pairs := (list (string * string)).

Class FormUrlencoded := {
  finish : pairs → string;
  parse : string → pairs;
  parse_finish l :
    Forall (λ kv, valid_utf8 kv.1 = true ∧ valid_utf8 kv.2 = true) l → parse (finish l) = l
}.

(** ** Serializing *)

Inductive sval :=
  | SBool (b : bool)
  | SInt (z : Z)
  | SFloat
  | SChar (c : string)
  | SStr (s : string)
  | SBytes (bytes : string)
  | SUnit
  | SUnitStruct (name : string)
  | SUnitVariant (variant : string)
  | SNewtypeStruct (v : sval)
  | SNewtypeVariant (v : sval)
  | SNone
  | SSome (v : sval)
  | SSeq (l : list sval)
  | STuple (l : list sval)
  | STupleStruct (l : list sval)
  | STupleVariant (l : list sval)
  | SMap (l : list (sval * sval))
  | SStruct (fields : list (string * sval))
  | SStructVariant (fields : list (string * sval)).

(** ser::Error: the messages of the source by name *)
Inductive SerError :=
  | Utf8Error
  | TopLevel
  | NoKey
  | PairDone
  | PairNotDone
  | UnsupportedPair
  | UnsupportedKey
  | UnsupportedValue.

#[export] Instance SerError_eq_dec : EqDecision SerError.
Proof. solve_decision. Defined.

Definition Z_to_string (z : Z) : string :=
  if (z <? 0)%Z then String "-" (N_to_string (Z.to_N (- z))) else N_to_string (Z.to_N z).

(** part.rs: [serialize_integer] writes into a buffer of twenty bytes. *)
Definition serialize_integer (z : Z) : outcome SerError string :=
  if bool_decide (str_len (Z_to_string z) ≤ 20) then Ok (Z_to_string z) else Panic.

(** part.rs: the values that end in one of the sink's string methods *)
Definition part_string (v : sval) : option (outcome SerError string) :=
  match v with
  | SBool b => Some (Ok (if b then "true" else "false"))
  | SInt z => Some (serialize_integer z)
  | SChar c => Some (Ok c)
  | SStr s => Some (Ok s)
  | SBytes bytes => Some (if valid_utf8 bytes then Ok bytes else Err Utf8Error)
  | SUnitStruct name => Some (Ok name)
  | SUnitVariant variant => Some (Ok variant)
  | _ => None
  end.

(** key.rs: a [PartSerializer] over a [KeySink] *)
Fixpoint serialize_key_part (v : sval) : outcome SerError string :=
  match part_string v with
  | Some r => r
  | None =>
      match v with
      | SNewtypeStruct v => serialize_key_part v
      | _ => Err UnsupportedKey
      end
  end.

(** A call that may fail after having written something: its result and the pairs written *)
Notation written := (outcome SerError () * pairs)%type.

Definition append_pair (key value : string) (out : pairs) : pairs := out ++ [(key, value)].

(** [serialize_element(x)?] for each item *)
Fixpoint each {A} (f : A → pairs → written) (l : list A) (out : pairs) : written :=
  match l with
  | [] => (Ok (), out)
  | x :: l =>
      match f x out with
      | (Ok _, out) => each f l out
      | r => r
      end
  end.

(** value.rs: a [PartSerializer] over a [ValueSink] *)
Fixpoint serialize_value_part (key : string) (nested : bool) (v : sval) (out : pairs) : written :=
  match part_string v with
  | Some (Ok s) => (Ok (), append_pair key s out)
  | Some (Err e) => (Err e, out)
  | Some Panic => (Panic, out)
  | None =>
      match v with
      | SNewtypeStruct v => serialize_value_part key nested v out
      | SNone => (Ok (), out)
      | SSome v => serialize_value_part key nested v out
      | SSeq l =>
          if nested then (Err UnsupportedValue, out)
          else each (serialize_value_part key true) l out
      | _ => (Err UnsupportedValue, out)
      end
  end.

(** pair.rs *)
Inductive PairState :=
  | WaitingForKey
  | WaitingForValue (key : string)
  | Done.

Record PairSerializer := { pair_out : pairs; pair_state : PairState }.

Definition PairSerializer_new (out : pairs) : PairSerializer :=
  {| pair_out := out; pair_state := WaitingForKey |}.

Definition pair_element (self : PairSerializer) (value : sval) :
    outcome SerError () * PairSerializer :=
  let out := pair_out self in
  match pair_state self with
  | WaitingForKey =>
      match serialize_key_part value with
      | Ok key => (Ok (), {| pair_out := out; pair_state := WaitingForValue key |})
      | Err e => (Err e, {| pair_out := out; pair_state := Done |})
      | Panic => (Panic, {| pair_out := out; pair_state := Done |})
      end
  | WaitingForValue key =>
      match serialize_value_part key false value out with
      | (Ok _, out) => (Ok (), {| pair_out := out; pair_state := Done |})
      | (r, out) => (r, {| pair_out := out; pair_state := WaitingForValue key |})
      end
  | Done => (Err PairDone, {| pair_out := out; pair_state := Done |})
  end.

Definition pair_end (self : PairSerializer) : outcome SerError () :=
  match pair_state self with Done => Ok () | _ => Err PairNotDone end.

(** The elements of a tuple, one by one, and [end]. *)
Fixpoint pair_elements (self : PairSerializer) (l : list sval) : written :=
  match l with
  | [] => (pair_end self, pair_out self)
  | v :: l =>
      match pair_element self v with
      | (Ok _, self) => pair_elements self l
      | (r, self) => (r, pair_out self)
      end
  end.

Fixpoint serialize_pair (v : sval) (out : pairs) : written :=
  match v with
  | SNewtypeStruct v | SSome v => serialize_pair v out
  | SNone => (Ok (), out)
  | STuple l =>
      if decide (length l = 2) then pair_elements (PairSerializer_new out) l
      else (Err UnsupportedPair, out)
  | _ => (Err UnsupportedPair, out)
  end.

(** ser.rs: the map serializer *)
Record MapSerializer := { map_out : pairs; map_key : option string }.

Definition serialize_key (self : MapSerializer) (key : sval) : outcome SerError () * MapSerializer :=
  match serialize_key_part key with
  | Ok key => (Ok (), {| map_out := map_out self; map_key := Some key |})
  | Err e => (Err e, self)
  | Panic => (Panic, self)
  end.

Definition serialize_value (self : MapSerializer) (value : sval) :
    outcome SerError () * MapSerializer :=
  match map_key self with
  | None => (Err NoKey, self)
  | Some key =>
      match serialize_value_part key false value (map_out self) with
      | (Ok _, out) => (Ok (), {| map_out := out; map_key := None |})
      | (r, out) => (r, {| map_out := out; map_key := Some key |})
      end
  end.

Definition serialize_entry (self : MapSerializer) (entry : sval * sval) :
    outcome SerError () * MapSerializer :=
  match serialize_key_part entry.1 with
  | Ok key =>
      match serialize_value_part key false entry.2 (map_out self) with
      | (Ok _, out) => (Ok (), {| map_out := out; map_key := None |})
      | (r, out) => (r, {| map_out := out; map_key := map_key self |})
      end
  | Err e => (Err e, self)
  | Panic => (Panic, self)
  end.

Fixpoint map_entries (self : MapSerializer) (l : list (sval * sval)) : written :=
  match l with
  | [] => (Ok (), map_out self)
  | e :: l =>
      match serialize_entry self e with
      | (Ok _, self) => map_entries self l
      | (r, self) => (r, map_out self)
      end
  end.

Definition serialize_field (field : string * sval) (out : pairs) : written :=
  serialize_value_part field.1 false field.2 out.

(** ser.rs: [Serializer] *)
Fixpoint serialize (v : sval) (out : pairs) : written :=
  match v with
  | SUnit | SUnitStruct _ | SNone => (Ok (), out)
  | SNewtypeStruct v | SSome v => serialize v out
  | SSeq l | STuple l => each serialize_pair l out
  | SMap l => map_entries {| map_out := out; map_key := None |} l
  | SStruct fields => each serialize_field fields out
  | _ => (Err TopLevel, out)
  end.

Definition to_string `{FormUrlencoded} (input : sval) : outcome SerError string :=
  match serialize input [] with
  | (Ok _, out) => Ok (finish out)
  | (Err e, _) => Err e
  | (Panic, _) => Panic
  end.

(** ** Deserializing *)

(** val_or_vec.rs *)
Inductive ValOrVec := Val (v : string) | Vec (l : list string).

Definition ValOrVec_push (self : ValOrVec) (new_val : string) : ValOrVec :=
  match self with
  | Val val => Vec [val; new_val]
  | Vec vec => Vec (vec ++ [new_val])
  end.

Definition ValOrVec_into_iter (self : ValOrVec) : list string :=
  match self with Val v => [v] | Vec l => l end.

Definition deserialize_val {A} (self : ValOrVec) (f : string → outcome () A) : outcome () A :=
  match self with
  | Val val => f val
  | Vec _ => Err ()
  end.

(** de.rs: [group_entries] *)
Definition group_entries (parsed : pairs) : gmap string ValOrVec :=
  fold_left (λ res '(key, value),
    match res !! key with
    | None => <[key := Val value]> res
    | Some v => <[key := ValOrVec_push v value]> res
    end) parsed ∅.

(** What the derived [Deserialize] of a type asks for. *)
Inductive shape :=
  | TString
  | TBool
  | TUnsigned (max : N)
  | TSigned (min max : Z)
  | TUnitEnum (variants : list string)
  | TNewtype (t : shape)
  | TOption (t : shape)
  | TSeq (t : shape).

(** [parse::<i64>()] and the narrower types *)
Definition parse_signed (min max : Z) (s : string) : option Z :=
  match s with
  | String "-" rest =>
      n ← N.of_uint <$> DecimalString.NilZero.uint_of_string rest;
      if (min <=? - Z.of_N n)%Z then Some (- Z.of_N n)%Z else None
  | _ => Z.of_N <$> parse_unsigned (Z.to_N max) s
  end.

(** [Deserializer for Part] *)
Fixpoint deserialize_part (t : shape) (part : string) : outcome () sval :=
  match t with
  | TString => Ok (SStr part)
  | TBool =>
      if decide (part = "true") then Ok (SBool true)
      else if decide (part = "false") then Ok (SBool false) else Err ()
  | TUnsigned max =>
      match parse_unsigned max part with Some n => Ok (SInt (Z.of_N n)) | None => Err () end
  | TSigned min max =>
      match parse_signed min max part with Some z => Ok (SInt z) | None => Err () end
  | TUnitEnum variants => if decide (part ∈ variants) then Ok (SUnitVariant part) else Err ()
  | TNewtype t => SNewtypeStruct <$> deserialize_part t part
  | TOption t => SSome <$> deserialize_part t part
  | TSeq _ => Err ()        (* a string where a sequence is expected *)
  end.

Fixpoint deserialize_items (t : shape) (parts : list string) : outcome () (list sval) :=
  match parts with
  | [] => Ok []
  | p :: parts => v ← deserialize_part t p; l ← deserialize_items t parts; Ok (v :: l)
  end.

(** [Deserializer for ValOrVec]: sequences take all values, everything else just one. *)
Definition deserialize_val_or_vec (t : shape) (self : ValOrVec) : outcome () sval :=
  match t with
  | TSeq t => SSeq <$> deserialize_items t (ValOrVec_into_iter self)
  | _ => deserialize_val self (deserialize_part t)
  end.

(** A field of a struct: its name, its type and its [serde(default)], if it has one. *)
Record field := { f_name : string; f_shape : shape; f_default : option sval }.

(** A derived visitor's [visit_map]: unknown keys are skipped; a missing field has its default,
    or is [None] if it is an [Option]. *)
Definition deserialize_field (entries : gmap string ValOrVec) (f : field) :
    outcome () (string * sval) :=
  match entries !! f_name f with
  | Some vv => v ← deserialize_val_or_vec (f_shape f) vv; Ok (f_name f, v)
  | None =>
      match f_default f, f_shape f with
      | Some d, _ => Ok (f_name f, d)
      | None, TOption _ => Ok (f_name f, SNone)
      | None, _ => Err ()
      end
  end.

Fixpoint deserialize_fields (entries : gmap string ValOrVec) (fields : list field) :
    outcome () (list (string * sval)) :=
  match fields with
  | [] => Ok []
  | f :: fields =>
      v ← deserialize_field entries f; l ← deserialize_fields entries fields; Ok (v :: l)
  end.

(** The types a query string is read into at the top. *)
Inductive top_shape :=
  | TopStruct (fields : list field)
  | TopMap (t : shape)                  (* [BTreeMap<String, T>] *)
  | TopPairs (t : shape)                (* [Vec<(String, T)>] *)
  | TopUnit.

Fixpoint deserialize_entries (t : shape) (l : list (string * ValOrVec)) :
    outcome () (list (string * sval)) :=
  match l with
  | [] => Ok []
  | (k, vv) :: l =>
      v ← deserialize_val_or_vec t vv; rest ← deserialize_entries t l; Ok ((k, v) :: rest)
  end.

(** de.rs: [Deserializer], over the grouped entries in the order of their keys *)
Definition deserialize (t : top_shape) (entries : gmap string ValOrVec) : outcome () sval :=
  match t with
  | TopStruct fields => SStruct <$> deserialize_fields entries fields
  | TopMap t =>
      (λ l, SMap ((λ kv, (SStr kv.1, kv.2)) <$> l)) <$> deserialize_entries t (btree_iter entries)
  | TopPairs t =>
      (λ l, SSeq ((λ kv, STuple [SStr kv.1; kv.2]) <$> l)) <$>
        deserialize_entries t (btree_iter entries)
  | TopUnit => if decide (entries = ∅) then Ok SUnit else Err ()
  end.

Definition from_str `{FormUrlencoded} (t : top_shape) (input : string) : outcome () sval :=
  deserialize t (group_entries (parse input)).
