(* ===== verification/UrlEncodedSpec.v ===== *)
(** * Round trips and protocols of the form encoding

    A struct whose fields the format supports is read back as it was written; the two forms
    that are written but not read back are an empty list without a default and a list in an
    option. The pair serializer accepts exactly two elements. *)

From S2P Require Import Prelude RustStr UrlEncoded.
From Stdlib Require Import Ascii NArith DecimalString DecimalN DecimalPos.
Open Scope string_scope.
Open Scope nat_scope.
Open Scope list_scope.

(** ** The width of integers *)

Lemma of_uint_acc_bound d acc :
  (N.pos acc * 10 ^ N.of_nat (Decimal.nb_digits d) <= N.pos (Pos.of_uint_acc d acc))%N.
Proof.
  revert acc. induction d as [|d IH|d IH|d IH|d IH|d IH|d IH|d IH|d IH|d IH|d IH]; intros acc;
    cbn [Pos.of_uint_acc Decimal.nb_digits]; [simpl; lia|..].
  all: rewrite Nat2N.inj_succ, N.pow_succ_r' by lia.
  all: etransitivity; [|apply IH]; rewrite !N.mul_assoc; apply N.mul_le_mono_r; lia.
Qed.

Lemma string_of_uint_len d : str_len (NilEmpty.string_of_uint d) = Decimal.nb_digits d.
Proof. induction d; simpl; by f_equal. Qed.

Lemma nzhead_D0 d u : Decimal.nzhead d ≠ Decimal.D0 u.
Proof. induction d; simpl; done. Qed.

Lemma unorm_D0_inv d u : Decimal.unorm d = Decimal.D0 u → u = Decimal.Nil.
Proof.
  unfold Decimal.unorm. pose proof (nzhead_D0 d) as Hno.
  intros Hu. destruct (Decimal.nzhead d) as [|u'|u'|u'|u'|u'|u'|u'|u'|u'|u'];
    try discriminate Hu; [by injection Hu|by destruct (Hno u')].
Qed.

Lemma N_to_string_len n k : (n < 10 ^ N.of_nat k)%N → 0 < k → str_len (N_to_string n) ≤ k.
Proof.
  intros Hn Hk. unfold N_to_string. pose proof (DecimalN.Unsigned.of_to n) as Hof.
  pose proof (DecimalN.Unsigned.to_of (N.to_uint n)) as Hto. rewrite Hof in Hto.
  assert (∀ u c, (N.pos (Pos.of_uint_acc u c) < 10 ^ N.of_nat k)%N → S (Decimal.nb_digits u) ≤ k) as Hlen.
  { intros u c Hu. pose proof (of_uint_acc_bound u c) as Hb.
    assert (10 ^ N.of_nat (Decimal.nb_digits u) < 10 ^ N.of_nat k)%N as Hlt by nia.
    apply N.pow_lt_mono_r_iff in Hlt; lia. }
  destruct (N.to_uint n) as [|u|u|u|u|u|u|u|u|u|u]; cbn [NilZero.string_of_uint];
    [simpl; lia|rewrite string_of_uint_len..].
  { rewrite (unorm_D0_inv _ u (eq_sym Hto)). simpl. lia. }
  all: simpl in Hof; rewrite <- Hof in Hn; by apply Hlen in Hn.
Qed.

(** [itoa::write] never finds the buffer too small: 64-bit integers have at most twenty
    characters. *)
Definition fits_64 (z : Z) : Prop := (- 2 ^ 63 ≤ z < 2 ^ 64)%Z.

Lemma serialize_integer_Ok z : fits_64 z → serialize_integer z = Ok (Z_to_string z).
Proof.
  intros Hz. unfold fits_64 in Hz. unfold serialize_integer. rewrite bool_decide_true; [done|].
  unfold Z_to_string. destruct (z <? 0)%Z eqn:Hneg.
  - apply Z.ltb_lt in Hneg. simpl. apply le_n_S, N_to_string_len; [|lia].
    change (10 ^ N.of_nat 19)%N with 10000000000000000000%N. lia.
  - apply Z.ltb_ge in Hneg. apply N_to_string_len; [|lia].
    change (10 ^ N.of_nat 20)%N with 100000000000000000000%N. lia.
Qed.

(** ** Values of a shape *)

Fixpoint scalar (t : shape) : bool :=
  match t with
  | TString | TBool | TUnitEnum _ => true
  | TUnsigned max => (max <? 2 ^ 64)%N
  | TSigned min max => (- 2 ^ 63 <=? min)%Z && (max <? 2 ^ 63)%Z
  | TNewtype t => scalar t
  | TOption _ | TSeq _ => false
  end.

Fixpoint has_scalar (t : shape) (v : sval) : Prop :=
  match t, v with
  | TString, SStr s => valid_utf8 s = true
  | TBool, SBool _ => True
  | TUnsigned max, SInt z => (0 ≤ z ≤ Z.of_N max)%Z
  | TSigned min max, SInt z => (min ≤ z ≤ max)%Z
  | TUnitEnum variants, SUnitVariant s => s ∈ variants ∧ valid_utf8 s = true
  | TNewtype t, SNewtypeStruct v => has_scalar t v
  | _, _ => False
  end.

Definition has_field (f : field) (v : sval) : Prop :=
  match f_shape f with
  | TOption t => scalar t = true ∧
      ((v = SNone ∧ (f_default f = None ∨ f_default f = Some SNone)) ∨ ∃ x, v = SSome x ∧ has_scalar t x)
  | TSeq t => scalar t = true ∧
      ∃ l, v = SSeq l ∧ Forall (has_scalar t) l ∧ (l = [] → f_default f = Some v)
  | t => scalar t = true ∧ has_scalar t v
  end.

Lemma ascii_chars_cons b s :
  bytes_all is_ascii_byte s = true → str_chars (String b s) = String b "" :: str_chars s.
Proof.
  intros Hs. destruct s as [|b' s]; [done|]. simpl in Hs. apply andb_true_iff in Hs as [Hb' _].
  change (str_chars (String b (String b' s))) with
    (match str_chars (String b' s) with
     | c :: cs => if starts_with_continuation c then String b c :: cs else String b "" :: c :: cs
     | [] => [String b ""] end).
  assert (∃ r cs, str_chars (String b' s) = String b' r :: cs) as (r & cs & ->).
  { simpl. destruct (str_chars s) as [|c cs]; [eauto|]. destruct (starts_with_continuation c); eauto. }
  simpl. assert (is_continuation b' = false) as ->; [|done].
  unfold is_ascii_byte, is_continuation in *. apply N.ltb_lt in Hb'.
  apply andb_false_iff. left. apply N.leb_gt. lia.
Qed.

Lemma digits_utf8 s : bytes_all is_ascii_byte s = true → valid_utf8 s = true.
Proof.
  unfold valid_utf8. induction s as [|b s IH]; [done|].
  intros Hall. simpl in Hall. apply andb_true_iff in Hall as [Hb Hs].
  rewrite ascii_chars_cons by done. cbn [forallb]. rewrite (IH Hs), andb_true_r.
  unfold is_ascii_byte in Hb. apply N.ltb_lt in Hb. simpl.
  apply andb_true_iff. rewrite !N.leb_le. lia.
Qed.

Lemma N_to_string_ascii n : bytes_all is_ascii_byte (N_to_string n) = true.
Proof.
  unfold N_to_string, NilZero.string_of_uint.
  assert (∀ d, bytes_all is_ascii_byte (NilEmpty.string_of_uint d) = true) as Hd by (by induction d).
  destruct (N.to_uint n); by auto.
Qed.

Lemma Z_to_string_utf8 z : valid_utf8 (Z_to_string z) = true.
Proof.
  apply digits_utf8. unfold Z_to_string. destruct (z <? 0)%Z; simpl; by rewrite ?N_to_string_ascii.
Qed.

(** ** One field *)

Lemma parse_signed_Z_to_string min max z :
  (min ≤ z ≤ max)%Z → parse_signed min max (Z_to_string z) = Some z.
Proof.
  intros Hz. unfold Z_to_string. destruct (z <? 0)%Z eqn:Hneg.
  - apply Z.ltb_lt in Hneg. cbn [parse_signed]. rewrite uint_of_N_to_string. simpl.
    rewrite Z2N.id, Z.opp_involutive, (proj2 (Z.leb_le min z)) by lia. done.
  - apply Z.ltb_ge in Hneg. pose proof (parse_unsigned_N_to_string (Z.to_N max) (Z.to_N z) ltac:(lia)) as Hp.
    destruct (N_to_string_digit (Z.to_N z)) as (c & r & Hs & Hc). unfold parse_signed. rewrite Hs in *.
    assert (c ≠ "-"%char) as Hne by by intros ->.
    transitivity (Z.of_N <$> parse_unsigned (Z.to_N max) (String c r)).
    { destruct c as [[] [] [] [] [] [] [] []]; try reflexivity; done. }
    rewrite Hp. simpl. by rewrite Z2N.id.
Qed.

Lemma scalar_written t v :
  scalar t = true → has_scalar t v →
  ∃ s, valid_utf8 s = true ∧ deserialize_part t s = Ok v ∧
    ∀ key nested out, serialize_value_part key nested v out = (Ok (), append_pair key s out).
Proof.
  revert v. induction t as [| |max|min max|vs|t IH|t IH|t IH]; intros v Ht Hv;
    try discriminate Ht; destruct v; try done; simpl in Ht, Hv.
  - by exists s.
  - exists (if b then "true" else "false"). by destruct b.
  - exists (Z_to_string z). apply N.ltb_lt in Ht. split_and!; [apply Z_to_string_utf8| |].
    + simpl. unfold Z_to_string. rewrite (proj2 (Z.ltb_ge z 0)) by lia.
      rewrite parse_unsigned_N_to_string by lia. by rewrite Z2N.id by lia.
    + intros. simpl. rewrite serialize_integer_Ok; [done|]. unfold fits_64. lia.
  - exists (Z_to_string z). bool_to_prop.
    repeat match goal with H : (_ <=? _)%Z = true |- _ => apply Z.leb_le in H
                      | H : (_ <? _)%Z = true |- _ => apply Z.ltb_lt in H end.
    split_and!; [apply Z_to_string_utf8| |].
    + simpl. by rewrite parse_signed_Z_to_string.
    + intros. simpl. rewrite serialize_integer_Ok; [done|]. unfold fits_64. lia.
  - exists variant. destruct Hv as [Hin Hu]. split_and!; [done| |done]. simpl. by rewrite decide_True.
  - destruct (IH v Ht Hv) as (s & Hs & Hd & Hw). exists s. split_and!; [done| |exact Hw].
    simpl. by rewrite Hd.
Qed.

(** The values of one key as the deserializer sees them. *)
Definition of_texts (l : list string) : option ValOrVec :=
  match l with [] => None | [s] => Some (Val s) | _ => Some (Vec l) end.

Lemma of_texts_items l vv : of_texts l = Some vv → ValOrVec_into_iter vv = l.
Proof. destruct l as [|s [|s' l]]; by intros [= <-]. Qed.

Lemma items_written t l :
  scalar t = true → Forall (has_scalar t) l →
  ∃ texts, length texts = length l ∧ Forall (λ s, valid_utf8 s = true) texts ∧
    deserialize_items t texts = Ok l ∧
    ∀ key out, each (serialize_value_part key true) l out = (Ok (), out ++ (pair key <$> texts)).
Proof.
  intros Ht. induction 1 as [|v l Hv _ (texts & Hlen & Hu & Hd & Hw)].
  { exists []. split_and!; [done|constructor|done|]. intros. simpl. by rewrite app_nil_r. }
  destruct (scalar_written t v Ht Hv) as (s & Hs & Hsd & Hsw). exists (s :: texts).
  split_and!; [simpl; by rewrite Hlen|by constructor| |].
  - simpl. by rewrite Hsd, Hd.
  - intros key out. simpl. rewrite Hsw, Hw. unfold append_pair. csimpl. by rewrite <- (assoc_L (++)).
Qed.

(** What a field is written as, and that it is read from just that. *)
Definition written_as (f : field) (v : sval) (texts : list string) : Prop :=
  Forall (λ s, valid_utf8 s = true) texts ∧
  (∀ out, serialize_field (f_name f, v) out = (Ok (), out ++ (pair (f_name f) <$> texts))) ∧
  ∀ entries, entries !! f_name f = of_texts texts → deserialize_field entries f = Ok (f_name f, v).

Lemma scalar_field f t v s :
  f_shape f = t → valid_utf8 s = true → deserialize_val_or_vec t (Val s) = Ok v →
  (∀ key nested out, serialize_value_part key nested v out = (Ok (), append_pair key s out)) →
  written_as f v [s].
Proof.
  intros <- Hs Hd Hw. split_and!; [by constructor|intros; apply Hw|].
  intros entries He. unfold deserialize_field. rewrite He. simpl. by rewrite Hd.
Qed.

Lemma field_written f v : has_field f v → ∃ texts, written_as f v texts.
Proof.
  unfold has_field. destruct (f_shape f) as [| |max|min max|vs|t|t|t] eqn:Hf; intros [Ht Hv].
  1-6: destruct (scalar_written _ v Ht Hv) as (s & Hs & Hd & Hw); exists [s];
    by apply (scalar_field f _ v s Hf).
  - destruct Hv as [[-> Hdef]|(x & -> & Hx)].
    + exists []. split_and!; [constructor|intros; simpl; by rewrite app_nil_r|].
      intros entries He. unfold deserialize_field. rewrite He, Hf. simpl.
      by destruct Hdef as [-> | ->].
    + destruct (scalar_written t x Ht Hx) as (s & Hs & Hd & Hw). exists [s].
      apply (scalar_field f _ _ s Hf); [done| |exact Hw]. simpl. by rewrite Hd.
  - destruct Hv as (l & -> & Hl & Hempty).
    destruct (items_written t l Ht Hl) as (texts & Hlen & Hu & Hd & Hw). exists texts.
    split_and!; [done|intros; apply Hw|]. intros entries He. unfold deserialize_field. rewrite He.
    destruct (of_texts texts) as [vv|] eqn:Hvv.
    + rewrite Hf. simpl. rewrite (of_texts_items _ _ Hvv), Hd. done.
    + destruct texts as [|? [|]]; try done. destruct l; [|done]. by rewrite (Hempty eq_refl).
Qed.

(** ** All fields *)

Definition values_of (k : string) (l : pairs) : list string := (filter (λ kv, kv.1 = k) l).*2.

Lemma values_of_app k l1 l2 : values_of k (l1 ++ l2) = values_of k l1 ++ values_of k l2.
Proof. unfold values_of. by rewrite list.filter_app, fmap_app. Qed.

Lemma values_of_same k l : values_of k (pair k <$> l) = l.
Proof.
  induction l as [|s l IH]; [done|]. unfold values_of in *. csimpl.
  rewrite filter_cons_True by done. csimpl. by rewrite IH.
Qed.

Lemma values_of_other k k' (l : list string) : k ≠ k' → values_of k (pair k' <$> l) = [].
Proof.
  intros Hne. induction l as [|s l IH]; [done|]. unfold values_of in *. csimpl.
  by rewrite filter_cons_False.
Qed.

(** Grouping keeps the values of each key in their order. *)
Lemma group_entries_lookup l k : group_entries l !! k = of_texts (values_of k l).
Proof.
  induction l as [|[k' v] l IH] using rev_ind; [done|]. unfold group_entries in *.
  rewrite fold_left_app, values_of_app. cbn [fold_left].
  set (res := fold_left _ l ∅) in *. destruct (decide (k = k')) as [->|Hne].
  - rewrite (values_of_same k' [v] : values_of k' [(k', v)] = [v]), IH. destruct (values_of k' l) as [|s [|s' ss]]; simpl;
      by rewrite lookup_insert_eq.
  - rewrite (values_of_other k k' [v] Hne : values_of k [(k', v)] = []), app_nil_r.
    destruct (res !! k'); by rewrite lookup_insert_ne.
Qed.

Definition entries_of (names : list string) (texts : list (list string)) : pairs :=
  concat (zip_with (λ n l, pair n <$> l) names texts).

Lemma values_of_entries names texts i n l :
  NoDup names → names !! i = Some n → texts !! i = Some l → length names = length texts →
  values_of n (entries_of names texts) = l.
Proof.
  unfold entries_of. revert texts i. induction names as [|m names IH]; intros texts i Hnd Hi Hl Hlen; [done|].
  destruct texts as [|t texts]; [done|]. apply list.NoDup_cons in Hnd as [Hm Hnd]. simpl.
  rewrite values_of_app. destruct i as [|i]; simplify_eq/=.
  - rewrite values_of_same. rewrite <- (app_nil_r l) at 2. f_equal.
    assert (∀ ts, values_of n (concat (zip_with (λ n l, pair n <$> l) names ts)) = []) as Hno; [|apply Hno].
    clear -Hm. induction names as [|m names IH]; intros ts; [done|]. destruct ts as [|t ts]; [done|].
    apply not_elem_of_cons in Hm as [Hne Hm]. simpl. by rewrite values_of_app, values_of_other, IH.
  - rewrite values_of_other; [simpl; by eapply IH; eauto|].
    intros ->. apply Hm. by eapply list_elem_of_lookup_2.
Qed.

Lemma fields_written fields vs :
  Forall2 has_field fields vs →
  ∃ texts, length texts = length fields ∧
    Forall (λ kv, Forall (λ s, valid_utf8 s = true) kv) texts ∧
    (∀ out, each serialize_field (zip (f_name <$> fields) vs) out =
       (Ok (), out ++ entries_of (f_name <$> fields) texts)) ∧
    ∀ entries,
      (∀ i n l, (f_name <$> fields) !! i = Some n → texts !! i = Some l →
         entries !! n = of_texts l) →
      deserialize_fields entries fields = Ok (zip (f_name <$> fields) vs).
Proof.
  induction 1 as [|f v fields vs Hf _ (texts & Hlen & Hu & Hw & Hd)].
  { exists []. split_and!; [done|constructor| |done]. intros. simpl. by rewrite app_nil_r. }
  destruct (field_written f v Hf) as (t & Ht & Hfw & Hfd). exists (t :: texts).
  split_and!; [simpl; by rewrite Hlen|by constructor| |].
  - intros out. csimpl. rewrite Hfw, Hw. unfold entries_of. simpl. by rewrite <- (assoc_L (++)).
  - intros entries He. csimpl. rewrite Hfd by by apply (He 0). simpl.
    rewrite Hd; [done|]. intros i n l Hi Hl. by apply (He (S i)).
Qed.

Section round_trip.
Context `{FormUrlencoded}.

(** What is parsed again of the entries that were written: for each name its values. *)
Lemma parsed_entries names texts :
  NoDup names → Forall (λ n, valid_utf8 n = true) names → length names = length texts →
  Forall (λ l, Forall (λ s, valid_utf8 s = true) l) texts →
  ∀ i n l, names !! i = Some n → texts !! i = Some l →
    group_entries (parse (finish (entries_of names texts))) !! n = of_texts l.
Proof.
  intros Hnd Hnames Hlen Hu i n l Hi Hl. rewrite parse_finish.
  - rewrite group_entries_lookup. f_equal. by apply (values_of_entries _ _ i).
  - apply list.Forall_forall. intros [k s] Hin. simpl. unfold entries_of in Hin.
    apply list_elem_of_In, in_concat in Hin as (l' & Hl' & Hin).
    apply list_elem_of_In, elem_of_lookup_zip_with in Hl' as (j & n' & t & -> & Hn & Ht).
    apply list_elem_of_In, list_elem_of_fmap in Hin as (s' & [= -> ->] & Hs').
    rewrite Forall_lookup in Hnames. rewrite Forall_lookup in Hu. specialize (Hu j t Ht).
    rewrite list.Forall_forall in Hu. eauto.
Qed.

(** C30: a struct of supported fields with distinct names is written, and the query string is
    read back as the same struct. The fields it holds for: scalars (strings, booleans, 64-bit
    integers and narrower, unit enums, newtypes of these), options of scalars, and lists of
    scalars, which must not be empty unless that is the field's default. *)
Theorem urlencoded_round_trip fields vs :
  NoDup (f_name <$> fields) → Forall (λ f, valid_utf8 (f_name f) = true) fields →
  Forall2 has_field fields vs →
  ∃ s, to_string (SStruct (zip (f_name <$> fields) vs)) = Ok s ∧
    from_str (TopStruct fields) s = Ok (SStruct (zip (f_name <$> fields) vs)).
Proof.
  intros Hnd Hnames Hvs. destruct (fields_written fields vs Hvs) as (texts & Hlen & Hu & Hw & Hd).
  unfold to_string. cbn [serialize]. rewrite Hw. eexists. split; [done|].
  unfold from_str. cbn [deserialize]. rewrite Hd; [done|].
  apply parsed_entries; [done|by apply list.Forall_fmap|by rewrite length_fmap|done].
Qed.

(** What is written but not read back: an empty list without a default is a missing field, and
    a list in an option is never read. *)
Lemma empty_list_lost name t :
  valid_utf8 name = true →
  ∃ s, to_string (SStruct [(name, SSeq [])]) = Ok s ∧
    from_str (TopStruct [{| f_name := name; f_shape := TSeq t; f_default := None |}]) s = Err ().
Proof.
  intros Hname. exists (finish []). split; [done|]. unfold from_str. by rewrite parse_finish by constructor.
Qed.

Lemma option_list_never_read t vv : deserialize_val_or_vec (TOption (TSeq t)) vv = Err ().
Proof. by destruct vv. Qed.
End round_trip.

(** ** The pair protocol *)

#[local] Arguments serialize_value_part : simpl never.
#[local] Arguments serialize_key_part : simpl never.

(** A tuple in a list of pairs is written exactly when it has two elements, the first of
    which is written as a key and the second as a value under that key; the pair serializer
    refuses a third element, and [end] before the second. *)
Theorem pair_protocol out l :
  (∀ out', pair_elements (PairSerializer_new out) l = (Ok (), out') ↔
     ∃ k v key, l = [k; v] ∧ serialize_key_part k = Ok key ∧
       serialize_value_part key false v out = (Ok (), out')) ∧
  (∀ k, l = [] ∨ l = [k] ∧ is_Some (ok (serialize_key_part k)) →
     (pair_elements (PairSerializer_new out) l).1 = Err PairNotDone) ∧
  (∀ k v w rest key out', l = k :: v :: w :: rest → serialize_key_part k = Ok key →
     serialize_value_part key false v out = (Ok (), out') →
     (pair_elements (PairSerializer_new out) l).1 = Err PairDone).
Proof.
  split_and!.
  - intros out'. destruct l as [|k [|v rest]]; cbn [pair_elements pair_element PairSerializer_new pair_state].
    + split; [done|naive_solver].
    + destruct (serialize_key_part k); simpl; naive_solver.
    + unfold pair_element. destruct (serialize_key_part k) as [key|e|] eqn:Hk; simpl.
      2-3: split; [done|]; intros (? & ? & ? & [= <- <- ->] & ? & ?); congruence.
      destruct (serialize_value_part key false v out) as [[[]|e|] out2] eqn:Hv; simpl.
      2-3: split; [done|]; intros (? & ? & ? & [= <- <- ->] & ? & ?); congruence.
      destruct rest as [|w rest]; simpl.
      * split; [intros [= ->]; eauto 10|]. intros (k' & v' & key' & Hl & Hk' & Hv').
        injection Hl as -> ->. rewrite Hk in Hk'. injection Hk' as <-. unfold pair_end. simpl. congruence.
      * split; [done|]. by intros (k' & v' & key' & Hl & _).
  - intros k [->|[-> [key Hk%ok_Some]]]; [done|]. unfold pair_elements, pair_element. simpl. by rewrite Hk.
  - intros k v w rest key out' -> Hk Hv. unfold pair_elements, pair_element. simpl. rewrite Hk. simpl. by rewrite Hv.
Qed.

(** A failed key leaves the serializer done: [end] would accept the pair that is not there. *)
Example end_after_failed_key :
  let '(result, self) := pair_element (PairSerializer_new []) SUnit in
  result = Err UnsupportedKey ∧ pair_end self = Ok () ∧ pair_out self = [].
Proof. vm_compute. repeat split. Qed.

(** ** Examples *)

(** Every byte as two letters: an encoding that is easy to read back. *)
Fixpoint hex (s : string) : string :=
  match s with
  | EmptyString => ""
  | String b s =>
      let digit n := String (ascii_of_N (n + 97)) "" in
      digit (byte b / 16)%N +:+ digit (byte b mod 16)%N +:+ hex s
  end.

Fixpoint unhex (s : string) : string :=
  match s with
  | String a (String b s) =>
      String (ascii_of_N ((byte a - 97) * 16 + (byte b - 97))) (unhex s)
  | _ => ""
  end.

Lemma unhex_hex s : unhex (hex s) = s.
Proof.
  induction s as [|b s IH]; [done|]. simpl. rewrite IH. f_equal.
  destruct b as [[] [] [] [] [] [] [] []]; reflexivity.
Qed.

Lemma hex_no_sep c s : (byte c < 97)%N → bytes_all (λ b, negb (byte_is c b)) (hex s) = true.
Proof.
  intros Hc. induction s as [|b s IH]; [done|]. simpl. rewrite IH, andb_true_r.
  assert (∀ n, (n < 16)%N → byte_is c (ascii_of_N (n + 97)) = false) as Hno.
  { intros n Hn. apply not_true_iff_false. intros Heq%byte_is_true.
    assert (byte (ascii_of_N (n + 97)) = n + 97)%N as Hb by (apply N_ascii_embedding; lia).
    rewrite Heq in Hb. lia. }
  rewrite !Hno; [done|apply N.mod_lt; lia|].
  apply N.Div0.div_lt_upper_bound. pose proof (N_ascii_bounded b). unfold byte. lia.
Qed.

Definition hex_finish (l : pairs) : string :=
  match l with
  | [] => ""
  | _ => str_join "&" ((λ kv, hex kv.1 +:+ String "=" (hex kv.2)) <$> l)
  end.

Definition hex_pair (s : string) : string * string :=
  match str_split "=" s with
  | [k; v] => (unhex k, unhex v)
  | _ => ("", "")
  end.

Definition hex_parse (s : string) : pairs :=
  if decide (s = "") then [] else hex_pair <$> str_split "&" s.

Lemma str_split_join_all c ks :
  ks ≠ [] → Forall (λ k, bytes_all (λ b, negb (byte_is c b)) k = true) ks →
  str_split c (str_join c ks) = ks.
Proof.
  intros Hne Hall. induction Hall as [|k ks Hk Hks IH]; [done|].
  destruct ks as [|k' ks]; [by apply str_split_no_sep|].
  change (str_join c (k :: k' :: ks)) with (k +:+ String c (str_join c (k' :: ks))).
  rewrite str_split_sep by done. by rewrite IH.
Qed.

Lemma hex_parse_finish l : hex_parse (hex_finish l) = l.
Proof.
  destruct l as [|kv l]; [done|]. unfold hex_parse, hex_finish. rewrite decide_False.
  2:{ destruct kv as [k v]. csimpl. destruct l; csimpl; destruct (hex k); simpl; done. }
  rewrite str_split_join_all; [|done|].
  - rewrite <- list_fmap_compose. rewrite <- (list_fmap_id (kv :: l)) at 2.
    apply list_fmap_ext. intros i [k v] _. simpl. unfold hex_pair.
    rewrite str_split_sep, str_split_no_sep by (by apply hex_no_sep). by rewrite !unhex_hex.
  - apply list.Forall_fmap, list.Forall_forall. intros [k v] _. simpl. rewrite bytes_all_app. simpl.
    by rewrite !hex_no_sep.
Qed.

Definition hex_form : FormUrlencoded := {|
  finish := hex_finish;
  parse := hex_parse;
  parse_finish l _ := hex_parse_finish l
|}.

Definition example_fields : list field :=
  [ {| f_name := "xs"; f_shape := TSeq TBool; f_default := None |};
    {| f_name := "a"; f_shape := TSigned (-128) 127; f_default := None |};
    {| f_name := "c"; f_shape := TOption (TUnsigned 255); f_default := None |} ].

Definition example_values : list sval := [SSeq [SBool true; SBool false]; SInt (-5); SNone].

Lemma urlencoded_round_trip_witness :
  let _ := hex_form in
  ∃ s, to_string (SStruct (zip (f_name <$> example_fields) example_values)) = Ok s ∧
    from_str (TopStruct example_fields) s =
      Ok (SStruct (zip (f_name <$> example_fields) example_values)).
Proof.
  intros h. apply (urlencoded_round_trip example_fields example_values).
  - apply (bool_decide_unpack _). vm_compute. exact I.
  - repeat constructor.
  - constructor; [|constructor; [|constructor; [|constructor]]].
    + split; [reflexivity|]. exists [SBool true; SBool false]. split; [reflexivity|].
      split; [repeat constructor|discriminate].
    + split; [reflexivity|]. simpl. lia.
    + split; [reflexivity|]. left. split; [reflexivity|]. left. reflexivity.
Defined.

(** Some of the source's tests. *)
Example url_tests :
  let _ := hex_form in
  let read t l := from_str t (hex_finish l) in
  read (TopPairs (TUnsigned 255)) [("first", "23"); ("last", "42")] =
    Ok (SSeq [STuple [SStr "first"; SInt 23]; STuple [SStr "last"; SInt 42]]) ∧
  read (TopPairs TString) [("a", "a"); ("a", "b")] = Err () ∧
  read (TopPairs (TSeq TString)) [("a", "a"); ("a", "b")] =
    Ok (SSeq [STuple [SStr "a"; SSeq [SStr "a"; SStr "b"]]]) ∧
  read TopUnit [] = Ok SUnit ∧ read TopUnit [("first", "23")] = Err () ∧
  to_string (SSeq [STuple [SStr "list"; SSeq [SSeq [SInt 0]]]]) = Err UnsupportedValue ∧
  to_string (SSeq [STuple [SStr "first"; SSome (SInt 23)]; STuple [SStr "middle"; SNone]]) =
    Ok (hex_finish [("first", "23")]).
Proof. vm_compute. repeat split. Qed.
