(* ===== verification/ClientErrors.v ===== *)
(** * Errors of the client-server API

    [ruma-client-api/src/error.rs] and [error/kind_serde.rs]: the kinds of error, their JSON
    with its hand-written visitor, the error body and the error with its HTTP status.

    An HTTP body is the JSON it parses to, or [None] if it is not JSON. *)

From S2P Require Import Prelude RustStr RustNet IdValidation StringEnum Identifiers Json.
From S2P Require Import CanonicalJson Serde EventContents.
From Stdlib Require Import Ascii NArith.
Open Scope string_scope.
Open Scope nat_scope.
Open Scope list_scope.

(** ** Error codes *)

Module ErrCode.
Inductive ErrCode :=
  | Forbidden | UnknownToken | MissingToken | BadJson | NotJson | NotFound | LimitExceeded
  | Unknown | Unrecognized | Unauthorized | UserDeactivated | UserInUse | InvalidUsername
  | RoomInUse | InvalidRoomState | ThreepidInUse | ThreepidNotFound | ThreepidAuthFailed
  | ThreepidDenied | ServerNotTrusted | UnsupportedRoomVersion | IncompatibleRoomVersion
  | BadState | GuestAccessForbidden | CaptchaNeeded | CaptchaInvalid | MissingParam
  | InvalidParam | TooLarge | Exclusive | ResourceLimitExceeded | CannotLeaveServerNoticeRoom
  | Custom (errcode : string).

#[export] Instance ErrCode_eq_dec : EqDecision ErrCode.
Proof. solve_decision. Defined.

Definition variants : list (string * option string * ErrCode) :=
  [("Forbidden", None, Forbidden); ("UnknownToken", None, UnknownToken);
   ("MissingToken", None, MissingToken); ("BadJson", None, BadJson);
   ("NotJson", None, NotJson); ("NotFound", None, NotFound);
   ("LimitExceeded", None, LimitExceeded); ("Unknown", None, Unknown);
   ("Unrecognized", None, Unrecognized); ("Unauthorized", None, Unauthorized);
   ("UserDeactivated", None, UserDeactivated); ("UserInUse", None, UserInUse);
   ("InvalidUsername", None, InvalidUsername); ("RoomInUse", None, RoomInUse);
   ("InvalidRoomState", None, InvalidRoomState); ("ThreepidInUse", None, ThreepidInUse);
   ("ThreepidNotFound", None, ThreepidNotFound);
   ("ThreepidAuthFailed", None, ThreepidAuthFailed);
   ("ThreepidDenied", None, ThreepidDenied); ("ServerNotTrusted", None, ServerNotTrusted);
   ("UnsupportedRoomVersion", None, UnsupportedRoomVersion);
   ("IncompatibleRoomVersion", None, IncompatibleRoomVersion);
   ("BadState", None, BadState); ("GuestAccessForbidden", None, GuestAccessForbidden);
   ("CaptchaNeeded", None, CaptchaNeeded); ("CaptchaInvalid", None, CaptchaInvalid);
   ("MissingParam", None, MissingParam); ("InvalidParam", None, InvalidParam);
   ("TooLarge", None, TooLarge); ("Exclusive", None, Exclusive);
   ("ResourceLimitExceeded", None, ResourceLimitExceeded);
   ("CannotLeaveServerNoticeRoom", None, CannotLeaveServerNoticeRoom)].

#[export, refine] Instance ErrCode_enum : StringEnum ErrCode := {|
  rename_all := MatrixErrorCase;
  unit_variants := variants;
  custom := Custom;
  custom_inner c := match c with Custom s => Some s | _ => None end
|}.
Proof.
  - done.
  - intros [] ?; naive_solver.
  - intros a Ha. apply (bool_decide_unpack _). destruct a; [vm_compute; exact I..|discriminate Ha].
  - intros a Ha. apply dec_stable. intros Hn. revert Ha.
    destruct a; [exfalso; apply Hn; reflexivity..|]. decide_it.
  - decide_it.
Defined.
End ErrCode.
Export (hints) ErrCode.

(** ** Error kinds *)

(** [std::time::Duration], in nanoseconds. *)
Definition as_millis (d : N) : N := (d / 1000000)%N.
Definition from_millis (ms : N) : N := (ms * 1000000)%N.

Inductive ErrorKind :=
  | Forbidden
  | UnknownToken (soft_logout : bool)
  | MissingToken
  | BadJson
  | NotJson
  | NotFound
  | LimitExceeded (retry_after_ms : option N)
  | Unknown
  | Unrecognized
  | Unauthorized
  | UserDeactivated
  | UserInUse
  | InvalidUsername
  | RoomInUse
  | InvalidRoomState
  | ThreepidInUse
  | ThreepidNotFound
  | ThreepidAuthFailed
  | ThreepidDenied
  | ServerNotTrusted
  | UnsupportedRoomVersion
  | IncompatibleRoomVersion (room_version : RoomVersionId)
  | BadState
  | GuestAccessForbidden
  | CaptchaNeeded
  | CaptchaInvalid
  | MissingParam
  | InvalidParam
  | TooLarge
  | Exclusive
  | ResourceLimitExceeded (admin_contact : string)
  | CannotLeaveServerNoticeRoom
  | Custom (errcode : string) (extra : gmap string json).

(** [AsRef<str>] *)
Definition ErrorKind_as_ref (k : ErrorKind) : string :=
  match k with
  | Forbidden => "M_FORBIDDEN"
  | UnknownToken _ => "M_UNKNOWN_TOKEN"
  | MissingToken => "M_MISSING_TOKEN"
  | BadJson => "M_BAD_JSON"
  | NotJson => "M_NOT_JSON"
  | NotFound => "M_NOT_FOUND"
  | LimitExceeded _ => "M_LIMIT_EXCEEDED"
  | Unknown => "M_UNKNOWN"
  | Unrecognized => "M_UNRECOGNIZED"
  | Unauthorized => "M_UNAUTHORIZED"
  | UserDeactivated => "M_USER_DEACTIVATED"
  | UserInUse => "M_USER_IN_USE"
  | InvalidUsername => "M_INVALID_USERNAME"
  | RoomInUse => "M_ROOM_IN_USE"
  | InvalidRoomState => "M_INVALID_ROOM_STATE"
  | ThreepidInUse => "M_THREEPID_IN_USE"
  | ThreepidNotFound => "M_THREEPID_NOT_FOUND"
  | ThreepidAuthFailed => "M_THREEPID_AUTH_FAILED"
  | ThreepidDenied => "M_THREEPID_DENIED"
  | ServerNotTrusted => "M_SERVER_NOT_TRUSTED"
  | UnsupportedRoomVersion => "M_UNSUPPORTED_ROOM_VERSION"
  | IncompatibleRoomVersion _ => "M_INCOMPATIBLE_ROOM_VERSION"
  | BadState => "M_BAD_STATE"
  | GuestAccessForbidden => "M_GUEST_ACCESS_FORBIDDEN"
  | CaptchaNeeded => "M_CAPTCHA_NEEDED"
  | CaptchaInvalid => "M_CAPTCHA_INVALID"
  | MissingParam => "M_MISSING_PARAM"
  | InvalidParam => "M_INVALID_PARAM"
  | TooLarge => "M_TOO_LARGE"
  | Exclusive => "M_EXCLUSIVE"
  | ResourceLimitExceeded _ => "M_RESOURCE_LIMIT_EXCEEDED"
  | CannotLeaveServerNoticeRoom => "M_CANNOT_LEAVE_SERVER_NOTICE_ROOM"
  | Custom errcode _ => errcode
  end.

(** [Serialize for ErrorKind]: the entries, in the order they are written. *)
Definition ErrorKind_serialize (k : ErrorKind) : outcome () (list (string * json)) :=
  fields ←
    match k with
    | UnknownToken true => Ok [("soft_logout", JBool true)]
    | LimitExceeded (Some duration) =>
        let ms := Z.of_N (as_millis duration) in
        if uint_in_range ms then Ok [("retry_after_ms", JNumber (NInt ms))] else Err ()
    | IncompatibleRoomVersion room_version =>
        Ok [("room_version", JString (RoomVersionId_as_str room_version))]
    | ResourceLimitExceeded admin_contact => Ok [("admin_contact", JString admin_contact)]
    | Custom _ extra => Ok (btree_iter extra)
    | _ => Ok []
    end;
  Ok (("errcode", JString (ErrorKind_as_ref k)) :: fields).

(** ** The visitor *)

(** [Field] *)
Inductive Field := F_ErrCode | F_SoftLogout | F_RetryAfterMs | F_RoomVersion | F_AdminContact
  | F_Other (s : string).

Definition Field_new (s : string) : Field :=
  if decide (s = "errcode") then F_ErrCode
  else if decide (s = "soft_logout") then F_SoftLogout
  else if decide (s = "retry_after_ms") then F_RetryAfterMs
  else if decide (s = "room_version") then F_RoomVersion
  else if decide (s = "admin_contact") then F_AdminContact
  else F_Other s.

(** The variables of [visit_map]. *)
Record Visited := {
  errcode : option ErrCode.ErrCode;
  soft_logout : option json;
  retry_after_ms : option json;
  room_version : option json;
  admin_contact : option json;
  extra : gmap string json
}.

Definition visited_nothing : Visited :=
  {| errcode := None; soft_logout := None; retry_after_ms := None; room_version := None;
     admin_contact := None; extra := ∅ |}.

(** [set_field!] for a field of one variant: once another variant is known, the value is
    skipped. *)
Definition set_field (variant : ErrCode.ErrCode) (errcode : option ErrCode.ErrCode)
    (field : option json) (value : json) : outcome () (option json) :=
  if decide (errcode = None ∨ errcode = Some variant) then
    match field with Some _ => Err () | None => Ok (Some (to_value value)) end
  else Ok field.

(** One round of the loop. *)
Definition visit_entry (s : Visited) (entry : string * json) : outcome () Visited :=
  let '(key, value) := entry in
  let '(Build_Visited code sl ra rv ac ex) := s in
  match Field_new key with
  | F_ErrCode =>
      match code with
      | Some _ => Err ()
      | None => c ← de_string_enum value; Ok (Build_Visited (Some c) sl ra rv ac ex)
      end
  | F_SoftLogout =>
      sl ← set_field ErrCode.UnknownToken code sl value; Ok (Build_Visited code sl ra rv ac ex)
  | F_RetryAfterMs =>
      ra ← set_field ErrCode.LimitExceeded code ra value; Ok (Build_Visited code sl ra rv ac ex)
  | F_RoomVersion =>
      rv ← set_field ErrCode.IncompatibleRoomVersion code rv value;
      Ok (Build_Visited code sl ra rv ac ex)
  | F_AdminContact =>
      ac ← set_field ErrCode.ResourceLimitExceeded code ac value;
      Ok (Build_Visited code sl ra rv ac ex)
  | F_Other other =>
      match ex !! other with
      | Some _ => Err ()
      | None => Ok (Build_Visited code sl ra rv ac (<[other := to_value value]> ex))
      end
  end.

(** [.map(from_json_value).transpose()?] *)
Definition transpose {A} (d : decoder A) (o : option json) : outcome () (option A) :=
  match o with Some j => Some <$> d j | None => Ok None end.

(** The match after the loop. *)
Definition visit_end (s : Visited) : outcome () ErrorKind :=
  errcode ← ok_or () (errcode s);
  match errcode with
  | ErrCode.Forbidden => Ok Forbidden
  | ErrCode.UnknownToken => b ← transpose de_bool (soft_logout s); Ok (UnknownToken (default false b))
  | ErrCode.MissingToken => Ok MissingToken
  | ErrCode.BadJson => Ok BadJson
  | ErrCode.NotJson => Ok NotJson
  | ErrCode.NotFound => Ok NotFound
  | ErrCode.LimitExceeded =>
      ms ← transpose de_uint (retry_after_ms s);
      Ok (LimitExceeded ((λ ms, from_millis (Z.to_N ms)) <$> ms))
  | ErrCode.Unknown => Ok Unknown
  | ErrCode.Unrecognized => Ok Unrecognized
  | ErrCode.Unauthorized => Ok Unauthorized
  | ErrCode.UserDeactivated => Ok UserDeactivated
  | ErrCode.UserInUse => Ok UserInUse
  | ErrCode.InvalidUsername => Ok InvalidUsername
  | ErrCode.RoomInUse => Ok RoomInUse
  | ErrCode.InvalidRoomState => Ok InvalidRoomState
  | ErrCode.ThreepidInUse => Ok ThreepidInUse
  | ErrCode.ThreepidNotFound => Ok ThreepidNotFound
  | ErrCode.ThreepidAuthFailed => Ok ThreepidAuthFailed
  | ErrCode.ThreepidDenied => Ok ThreepidDenied
  | ErrCode.ServerNotTrusted => Ok ServerNotTrusted
  | ErrCode.UnsupportedRoomVersion => Ok UnsupportedRoomVersion
  | ErrCode.IncompatibleRoomVersion =>
      j ← ok_or () (room_version s); v ← de_RoomVersionId j; Ok (IncompatibleRoomVersion v)
  | ErrCode.BadState => Ok BadState
  | ErrCode.GuestAccessForbidden => Ok GuestAccessForbidden
  | ErrCode.CaptchaNeeded => Ok CaptchaNeeded
  | ErrCode.CaptchaInvalid => Ok CaptchaInvalid
  | ErrCode.MissingParam => Ok MissingParam
  | ErrCode.InvalidParam => Ok InvalidParam
  | ErrCode.TooLarge => Ok TooLarge
  | ErrCode.Exclusive => Ok Exclusive
  | ErrCode.ResourceLimitExceeded =>
      j ← ok_or () (admin_contact s); c ← de_string j; Ok (ResourceLimitExceeded c)
  | ErrCode.CannotLeaveServerNoticeRoom => Ok CannotLeaveServerNoticeRoom
  | ErrCode.Custom errcode => Ok (Custom errcode (extra s))
  end.

Definition visit_map (entries : list (string * json)) : outcome () ErrorKind :=
  s ← for_each visit_entry visited_nothing entries;
  visit_end s.

Definition de_ErrorKind : decoder ErrorKind := λ j,
  match j with JObject entries => visit_map entries | _ => Err () end.

(** ** Error bodies and responses *)

Record ErrorBody := { kind : ErrorKind; message : string }.

Definition ErrorBody_serialize (b : ErrorBody) : outcome () (list (string * json)) :=
  entries ← ErrorKind_serialize (kind b);
  Ok (entries ++ [("error", JString (message b))]).

Definition de_ErrorBody : decoder ErrorBody := λ j,
  '(src, rest) ← flat_src ["error"] j;
  message ← field_req ["error"] "error" de_string src;
  kind ← visit_map rest;
  Ok {| kind := kind; message := message |}.

Record ApiError := { err_kind : ErrorKind; err_message : string; status_code : N }.

Definition into_error (b : ErrorBody) (status_code : N) : ApiError :=
  {| err_kind := kind b; err_message := message b; status_code := status_code |}.

Definition ErrorBody_from (e : ApiError) : ErrorBody :=
  {| kind := err_kind e; message := err_message e |}.

Record Response := { status : N; body : option json }.

(** [from_json_slice(response.body())] *)
Definition from_body {A} (d : decoder A) (r : Response) : outcome () A :=
  j ← ok_or () (body r); d j.

Definition ApiError_try_from_http_response (response : Response) : outcome () ApiError :=
  error_body ← from_body de_ErrorBody response;
  Ok (into_error error_body (status response)).

Definition ApiError_try_into_http_response (e : ApiError) : outcome () Response :=
  entries ← ErrorBody_serialize (ErrorBody_from e);
  Ok {| status := status_code e; body := Some (JObject entries) |}.
