(* ===== verification/ClientErrorsSpec.v ===== *)
(** * What the error visitor reads

    Entries with distinct keys are read alike in every order: the error code decides which of
    the other fields count. An error written to a response is read back exactly when it is
    well formed. *)

From S2P Require Import Prelude RustStr RustNet IdValidation StringEnum Identifiers Json.
From S2P Require Import CanonicalJson Serde EventContents ClientErrors.
From Stdlib Require Import Ascii NArith.
Open Scope string_scope.
Open Scope nat_scope.
Open Scope list_scope.

Definition known_codes : list string := variant_str <$> ErrCode.variants.

Lemma known_codes_distinct : NoDup (variant_str <$> unit_variants (A:=ErrCode.ErrCode)).
Proof. decide_it. Qed.

(** The code of a kind, and the string both stand for. *)
Definition code_of (k : ErrorKind) : ErrCode.ErrCode :=
  match k with
  | Forbidden => ErrCode.Forbidden
  | UnknownToken _ => ErrCode.UnknownToken
  | MissingToken => ErrCode.MissingToken
  | BadJson => ErrCode.BadJson
  | NotJson => ErrCode.NotJson
  | NotFound => ErrCode.NotFound
  | LimitExceeded _ => ErrCode.LimitExceeded
  | Unknown => ErrCode.Unknown
  | Unrecognized => ErrCode.Unrecognized
  | Unauthorized => ErrCode.Unauthorized
  | UserDeactivated => ErrCode.UserDeactivated
  | UserInUse => ErrCode.UserInUse
  | InvalidUsername => ErrCode.InvalidUsername
  | RoomInUse => ErrCode.RoomInUse
  | InvalidRoomState => ErrCode.InvalidRoomState
  | ThreepidInUse => ErrCode.ThreepidInUse
  | ThreepidNotFound => ErrCode.ThreepidNotFound
  | ThreepidAuthFailed => ErrCode.ThreepidAuthFailed
  | ThreepidDenied => ErrCode.ThreepidDenied
  | ServerNotTrusted => ErrCode.ServerNotTrusted
  | UnsupportedRoomVersion => ErrCode.UnsupportedRoomVersion
  | IncompatibleRoomVersion _ => ErrCode.IncompatibleRoomVersion
  | BadState => ErrCode.BadState
  | GuestAccessForbidden => ErrCode.GuestAccessForbidden
  | CaptchaNeeded => ErrCode.CaptchaNeeded
  | CaptchaInvalid => ErrCode.CaptchaInvalid
  | MissingParam => ErrCode.MissingParam
  | InvalidParam => ErrCode.InvalidParam
  | TooLarge => ErrCode.TooLarge
  | Exclusive => ErrCode.Exclusive
  | ResourceLimitExceeded _ => ErrCode.ResourceLimitExceeded
  | CannotLeaveServerNoticeRoom => ErrCode.CannotLeaveServerNoticeRoom
  | Custom s _ => ErrCode.Custom s
  end.

Lemma as_ref_code_of k : as_ref (code_of k) = ErrorKind_as_ref k.
Proof. by destruct k. Qed.

(** Reading an error code. *)
Lemma de_code_Ok j c :
  de_string_enum j = Ok c ↔
    j = JString (as_ref c) ∧ (∀ s, c = ErrCode.Custom s → s ∉ known_codes).
Proof.
  unfold de_string_enum. rewrite fmap_Ok. split.
  - intros (s & ->%de_string_Ok & ->). split; [by rewrite as_ref_from|]. intros s' Hs.
    assert (s = s') as -> by by rewrite <- (as_ref_from (A:=ErrCode.ErrCode) s), Hs.
    change known_codes with (variant_str <$> unit_variants (A:=ErrCode.ErrCode)).
    apply (from_custom (A:=ErrCode.ErrCode)). by rewrite Hs.
  - intros [-> Hc]. eexists. split; [reflexivity|]. destruct (custom_inner c) as [s|] eqn:Hs.
    + apply custom_inner_inv in Hs as ->. specialize (Hc s eq_refl).
      change known_codes with (variant_str <$> unit_variants (A:=ErrCode.ErrCode)) in Hc.
      apply from_custom, custom_inner_inv in Hc. by symmetry.
    + symmetry. by apply from_as_ref_unit; [apply known_codes_distinct|].
Qed.

(** ** The fields by name *)

Definition field_names : list string :=
  ["errcode"; "soft_logout"; "retry_after_ms"; "room_version"; "admin_contact"].

(** The result for a set of entries without an order. *)
Definition kind_of (m : gmap string json) : outcome () ErrorKind :=
  j ← ok_or () (m !! "errcode");
  c ← de_string_enum j;
  visit_end {|
    errcode := Some c;
    soft_logout := to_value <$> m !! "soft_logout";
    retry_after_ms := to_value <$> m !! "retry_after_ms";
    room_version := to_value <$> m !! "room_version";
    admin_contact := to_value <$> m !! "admin_contact";
    extra := to_value <$> filter (λ kv, kv.1 ∉ field_names) m
  |}.

(** What the loop knows after the entries [m]: the field of a variant is exact as long as that
    variant is possible. *)
Record visited (m : gmap string json) (s : Visited) : Prop := {
  v_errcode : Ok (errcode s) = transpose de_string_enum (m !! "errcode");
  v_soft_logout : errcode s = None ∨ errcode s = Some ErrCode.UnknownToken →
    soft_logout s = to_value <$> m !! "soft_logout";
  v_retry : errcode s = None ∨ errcode s = Some ErrCode.LimitExceeded →
    retry_after_ms s = to_value <$> m !! "retry_after_ms";
  v_room : errcode s = None ∨ errcode s = Some ErrCode.IncompatibleRoomVersion →
    room_version s = to_value <$> m !! "room_version";
  v_admin : errcode s = None ∨ errcode s = Some ErrCode.ResourceLimitExceeded →
    admin_contact s = to_value <$> m !! "admin_contact";
  v_extra : extra s = to_value <$> filter (λ kv, kv.1 ∉ field_names) m
}.

Lemma visited_start : visited ∅ visited_nothing.
Proof. by split. Qed.

Lemma Field_new_other k : k ∉ field_names → Field_new k = F_Other k.
Proof. unfold field_names. rewrite !not_elem_of_cons. intros (?&?&?&?&?&_). unfold Field_new. by repeat case_decide. Qed.

Lemma set_field_fresh variant code field value f0 :
  (code = None ∨ code = Some variant → field = f0) → f0 = None →
  ∃ field', set_field variant code field value = Ok field' ∧
    (code = None ∨ code = Some variant → field' = Some (to_value value)).
Proof.
  intros Hf ->. unfold set_field. case_decide as Hc; [rewrite Hf by done; eauto|eauto].
  exists field. split; [done|]. intros; contradiction.
Qed.

Lemma visit_entry_visited m s k v :
  visited m s → m !! k = None →
  (∃ s', visit_entry s (k, v) = Ok s' ∧ visited (<[k := v]> m) s') ∨
  (visit_entry s (k, v) = Err () ∧ k = "errcode" ∧ de_string_enum (A:=ErrCode.ErrCode) v = Err ()).
Proof.
  intros [He Hsl Hra Hrv Hac Hex] Hk. destruct s as [code sl ra rv ac ex]. simpl in *.
  destruct (decide (k ∈ field_names)) as [Hin|Hout].
  - assert (filter (λ kv : string * json, kv.1 ∉ field_names) (<[k:=v]> m) =
      filter (λ kv, kv.1 ∉ field_names) m) as Hfil.
    { rewrite map_filter_insert_False by (simpl; tauto). by rewrite delete_id. }
    unfold field_names in Hin. rewrite !elem_of_cons in Hin.
    destruct Hin as [->|[->|[->|[->|[->|Hin]]]]]; [..|set_solver].
    { rewrite Hk in He. injection He as ->. simpl.
      destruct (de_string_enum v) as [c|[]|] eqn:Hv; simpl; [left|by right|by destruct v].
      eexists. split; [done|].
      split; simpl; rewrite ?lookup_insert_eq; simpl; rewrite ?lookup_insert_ne by done;
        rewrite ?Hfil, ?Hv; auto. }
    all: left; rewrite Hk in *; cbn [visit_entry];
      match goal with |- context [Field_new ?key] =>
        let f := eval cbv in (Field_new key) in change (Field_new key) with f end; cbn iota;
      match goal with |- context [set_field ?var ?c ?f ?w] =>
        destruct (set_field_fresh var c f w None) as (f' & -> & Hf'); [by auto|done|] end;
      cbn [mbind outcome_bind]; eexists; (split; [done|]);
      split; simpl; rewrite ?lookup_insert_eq; rewrite ?lookup_insert_ne by done;
        rewrite ?Hfil; auto.
  - left. cbn [visit_entry]. rewrite Field_new_other by done. cbn iota.
    assert (ex !! k = None) as ->.
    { rewrite Hex, lookup_fmap. apply fmap_None, map_lookup_filter_None. auto. }
    eexists. split; [done|].
    assert (∀ f, f ∈ field_names → k ≠ f) as Hne by (intros f ? ->; done).
    split; simpl; rewrite ?lookup_insert_ne by (apply Hne; unfold field_names; set_solver); auto.
    rewrite map_filter_insert_True by done. by rewrite fmap_insert, Hex.
Qed.

#[local] Arguments visit_entry : simpl never.

(** The end of the visit looks only at the fields that are exact. *)
Lemma visit_end_visited m s : visited m s → visit_end s = kind_of m.
Proof.
  intros [He Hsl Hra Hrv Hac Hex]. destruct s as [code sl ra rv ac ex]. simpl in *. unfold kind_of.
  destruct (m !! "errcode") as [j|]; simpl in *; [|by injection He as ->].
  destruct (de_string_enum j) as [c|e|]; simpl in *; [|done..]. injection He as ->.
  rewrite <- Hex. destruct c; try reflexivity; simpl.
  - by rewrite Hsl by auto.
  - by rewrite Hra by auto.
  - by rewrite Hrv by auto.
  - by rewrite Hac by auto.
Qed.

Lemma visit_map_kind_of entries :
  NoDup entries.*1 → visit_map entries = kind_of (list_to_map entries).
Proof.
  intros Hnd. unfold visit_map.
  assert (∀ l (m : gmap string json) s, visited m s → NoDup l.*1 → (∀ k, k ∈ l.*1 → m !! k = None) →
    (s ← for_each visit_entry s l; visit_end s) = kind_of (list_to_map l ∪ m)) as Hall.
  { clear. induction l as [|[k v] l IH]; intros m s Hs Hnd Hm; simpl.
    { by rewrite (left_id_L ∅ (∪)), (visit_end_visited m). }
    apply list.NoDup_cons in Hnd as [Hk Hnd].
    destruct (visit_entry_visited m s k v) as [(s' & -> & Hs')|(-> & -> & Hv)]; [done|apply Hm; by left|..]; simpl.
    - rewrite <- insert_union_l, insert_union_r by by apply not_elem_of_list_to_map.
      apply IH; [done..|]. intros k' Hk'. rewrite lookup_insert_ne by (intros ->; done).
      apply Hm. by right.
    - unfold kind_of. assert ((<["errcode":=v]> (list_to_map l) ∪ m : gmap string json) !! "errcode" =
        Some v) as -> by (apply lookup_union_Some_l, lookup_insert_eq). simpl. by rewrite Hv. }
  rewrite (Hall _ ∅), (right_id_L ∅ (∪)); auto using visited_start.
Qed.

(** ** What a set of entries describes *)

(** The kinds without fields. *)
Definition plain (k : ErrorKind) : bool :=
  match k with
  | UnknownToken _ | LimitExceeded _ | IncompatibleRoomVersion _ | ResourceLimitExceeded _
  | Custom _ _ => false
  | _ => true
  end.

Section describes.
Variable m : gmap string json.

(** The error code decides, and of the other entries only its own field counts. *)
Inductive describes : ErrorKind → Prop :=
  | describes_plain k :
      plain k = true → m !! "errcode" = Some (JString (ErrorKind_as_ref k)) → describes k
  | describes_unknown_token b :
      m !! "errcode" = Some (JString "M_UNKNOWN_TOKEN") →
      m !! "soft_logout" = Some (JBool b) ∨ m !! "soft_logout" = None ∧ b = false →
      describes (UnknownToken b)
  | describes_limit_exceeded ms :
      m !! "errcode" = Some (JString "M_LIMIT_EXCEEDED") → (Z.of_N ms ≤ MAX_SAFE_INT)%Z →
      m !! "retry_after_ms" = Some (JNumber (NInt (Z.of_N ms))) →
      describes (LimitExceeded (Some (from_millis ms)))
  | describes_no_limit :
      m !! "errcode" = Some (JString "M_LIMIT_EXCEEDED") → m !! "retry_after_ms" = None →
      describes (LimitExceeded None)
  | describes_room_version s v :
      m !! "errcode" = Some (JString "M_INCOMPATIBLE_ROOM_VERSION") →
      m !! "room_version" = Some (JString s) → RoomVersionId_try_from s = Ok v →
      describes (IncompatibleRoomVersion v)
  | describes_resource_limit s :
      m !! "errcode" = Some (JString "M_RESOURCE_LIMIT_EXCEEDED") →
      m !! "admin_contact" = Some (JString s) → describes (ResourceLimitExceeded s)
  | describes_custom s :
      s ∉ known_codes → m !! "errcode" = Some (JString s) →
      describes (Custom s (to_value <$> filter (λ kv, kv.1 ∉ field_names) m)).
End describes.

Lemma transpose_Ok {A} (d : decoder A) o a :
  transpose d o = Ok a ↔
    (o = None ∧ a = None) ∨ (∃ j x, o = Some j ∧ a = Some x ∧ d j = Ok x).
Proof.
  destruct o as [j|]; simpl.
  - rewrite fmap_Ok. naive_solver.
  - naive_solver.
Qed.

Lemma de_uint_of_N ms :
  (Z.of_N ms ≤ MAX_SAFE_INT)%Z → de_uint (JNumber (NInt (Z.of_N ms))) = Ok (Z.of_N ms).
Proof.
  intros Hms. unfold de_uint. assert (uint_in_range (Z.of_N ms) = true) as ->; [|done].
  unfold uint_in_range. lia.
Qed.

Lemma kind_of_describes m k : kind_of m = Ok k ↔ describes m k.
Proof.
  split.
  - unfold kind_of. intros (j & Hj%ok_or_Ok & (c & [-> Hc]%de_code_Ok & He)%bind_Ok)%bind_Ok.
    unfold visit_end in He. cbn [errcode ok_or mbind outcome_bind] in He.
    destruct c; try (injection He as <-; constructor; [reflexivity|exact Hj]).
    + apply bind_Ok in He as (b & Hb%transpose_Ok & [= <-]).
      cbn [soft_logout] in Hb.
      destruct Hb as [[Hn ->]|(j & x & Hs & -> & Hx)]; apply describes_unknown_token; auto.
      * right. by apply fmap_None in Hn.
      * left. apply fmap_Some in Hs as (j' & -> & ->). rewrite de_bool_to_value in Hx.
        by destruct j'; simplify_eq/=.
    + apply bind_Ok in He as (b & Hb%transpose_Ok & [= <-]).
      destruct Hb as [[Hn ->]|(j & x & Hs & -> & Hx)]; simpl.
      * apply describes_no_limit; [done|]. by apply fmap_None in Hn.
      * apply fmap_Some in Hs as (j' & Hj' & ->). rewrite de_uint_to_value in Hx.
        destruct j' as [| |[z|]| | |]; try done. simpl in Hx.
        destruct (uint_in_range z) eqn:Hz; [|done]. injection Hx as <-.
        unfold uint_in_range in Hz. apply describes_limit_exceeded; [done| |];
          rewrite ?Z2N.id by lia; [lia|done].
    + apply bind_Ok in He as (j & (j' & Hj' & ->)%ok_or_Ok%fmap_Some & (v & Hv & [= <-])%bind_Ok).
      unfold de_RoomVersionId, de_parse in Hv.
      apply bind_Ok in Hv as (s & Hs & Hv%map_err_Ok). rewrite de_string_to_value in Hs.
      apply de_string_Ok in Hs as ->. by eapply describes_room_version.
    + apply bind_Ok in He as (j & (j' & Hj' & ->)%ok_or_Ok%fmap_Some & (v & Hv & [= <-])%bind_Ok).
      rewrite de_string_to_value in Hv. apply de_string_Ok in Hv as ->. by apply describes_resource_limit.
    + injection He as <-. apply describes_custom; [by apply Hc|done].
  - intros H. unfold kind_of.
    destruct H as [k Hp Hj|b Hj Hb|ms Hj Hms Hr|Hj Hr|s v Hj Hr Hv|s Hj Hr|s Hs Hj];
      rewrite Hj; cbn [ok_or mbind outcome_bind].
    + rewrite <- as_ref_code_of.
      rewrite (proj2 (de_code_Ok _ (code_of k))); [by destruct k|]. split; [done|]. by destruct k.
    + simpl. change (from "M_UNKNOWN_TOKEN") with ErrCode.UnknownToken. simpl.
      by destruct Hb as [->|[-> ->]].
    + simpl. change (from "M_LIMIT_EXCEEDED") with ErrCode.LimitExceeded. rewrite Hr.
      unfold visit_end. cbn [errcode retry_after_ms ok_or mbind outcome_bind transpose fmap option_fmap
        option_map to_value].
      rewrite de_uint_of_N by done. simpl. by rewrite N2Z.id.
    + simpl. change (from "M_LIMIT_EXCEEDED") with ErrCode.LimitExceeded. simpl. by rewrite Hr.
    + simpl. change (from "M_INCOMPATIBLE_ROOM_VERSION") with ErrCode.IncompatibleRoomVersion. simpl.
      rewrite Hr. unfold visit_end, de_RoomVersionId, de_parse.
      cbn [errcode room_version ok_or mbind outcome_bind fmap option_fmap option_map to_value de_string].
      by rewrite Hv.
    + simpl. change (from "M_RESOURCE_LIMIT_EXCEEDED") with ErrCode.ResourceLimitExceeded. simpl.
      by rewrite Hr.
    + rewrite (proj2 (de_code_Ok _ (ErrCode.Custom s))); [done|]. split; [done|]. by intros ? [= ->].
Qed.

Lemma transpose_no_panic {A} (d : decoder A) o : (∀ j, d j ≠ Panic) → transpose d o ≠ Panic.
Proof. intros Hd. destruct o as [j|]; [|done]. simpl. specialize (Hd j). by destruct (d j). Qed.

Lemma bind_no_panic {E A B} (m : outcome E A) (f : A → outcome E B) :
  m ≠ Panic → (∀ a, f a ≠ Panic) → m ≫= f ≠ Panic.
Proof. destruct m; simpl; auto. Qed.

Lemma kind_of_no_panic m : kind_of m ≠ Panic.
Proof.
  unfold kind_of. apply bind_no_panic; [by destruct (m !! _)|intros j].
  apply bind_no_panic; [by destruct j|intros c].
  unfold visit_end. cbn [errcode ok_or mbind outcome_bind]. destruct c; try done.
  - apply bind_no_panic; [|done]. apply transpose_no_panic. by intros [].
  - apply bind_no_panic; [|done]. apply transpose_no_panic. intros [| |[z|]| | |]; try done. simpl.
    by destruct (uint_in_range z).
  - apply bind_no_panic; [simpl; by destruct (m !! _)|intros j']. apply bind_no_panic; [|done].
    apply bind_no_panic; [by destruct j'|intros s]. unfold RoomVersionId_try_from, room_version_id_validate.
    by repeat case_decide.
  - apply bind_no_panic; [simpl; by destruct (m !! _)|intros j']. apply bind_no_panic; [|done].
    by destruct j'.
Qed.

(** The visitor reads entries with distinct keys the same way in every order: it never
    panics, and its result is the kind they describe, with everything that does not belong to
    that kind skipped. *)
Theorem visit_map_spec entries :
  NoDup entries.*1 →
  visit_map entries ≠ Panic ∧ ∀ k, visit_map entries = Ok k ↔ describes (list_to_map entries) k.
Proof.
  intros Hnd. rewrite visit_map_kind_of by done.
  split; [apply kind_of_no_panic|intros k; apply kind_of_describes].
Qed.

(** ** Round trips *)

Lemma de_ErrorBody_app entries msg :
  de_ErrorBody (JObject (entries ++ [("error", JString msg)])) =
    if decide ("error" ∈ entries.*1) then Err ()
    else k ← visit_map entries; Ok {| kind := k; message := msg |}.
Proof.
  unfold de_ErrorBody, flat_src. rewrite fmap_app. csimpl. rewrite list.filter_app.
  change (filter (λ k : string, k ∈ ["error"]) ["error"]) with ["error"].
  case_decide as Hnd; case_decide as Hin; try done.
  - exfalso. apply list.NoDup_app in Hnd as (_ & Hno & _).
    apply (Hno "error"); [|by left]. apply list_elem_of_filter. split; [by left|done].
  - assert (∀ kv, kv ∈ entries → kv.1 ≠ "error") as Hne.
    { intros kv Hkv Heq. apply Hin. rewrite <- Heq. by apply list_elem_of_fmap_2. }
    cbn [mbind outcome_bind]. rewrite list.filter_app, list_filter_all.
    2: { intros kv Hkv [Heq|[]%elem_of_nil]%elem_of_cons. by apply (Hne kv). }
    change (filter _ [("error", JString msg)]) with (@nil (string * json)). rewrite app_nil_r.
    rewrite (field_req_Some _ _ _ _ (JString msg)); [reflexivity|].
    by rewrite assoc_app_r.
  - exfalso. apply Hnd. rewrite list_filter_none; [apply NoDup_singleton|].
    intros k Hk [->|[]%elem_of_nil]%elem_of_cons. done.
Qed.

Definition reserved : list string := "error" :: field_names.

(** What survives a response: durations of whole milliseconds up to the largest number of
    JSON, room versions as they are parsed, and custom kinds with an unknown code and no field
    of a name that means something. *)
Definition wf_kind (k : ErrorKind) : Prop :=
  match k with
  | LimitExceeded (Some d) =>
      (d mod 1000000 = 0)%N ∧ (Z.of_N (as_millis d) ≤ MAX_SAFE_INT)%Z
  | IncompatibleRoomVersion v => room_version_wf v
  | Custom s extra =>
      s ∉ known_codes ∧ (∀ name, name ∈ reserved → extra !! name = None) ∧
      map_Forall (λ _, is_value) extra
  | _ => True
  end.

(** A kind written and read back. *)
Definition survives (k : ErrorKind) : Prop :=
  ∃ entries, ErrorKind_serialize k = Ok entries ∧ "error" ∉ entries.*1 ∧ visit_map entries = Ok k.

Lemma visit_entries_code l s s' c :
  errcode s = Some c → for_each visit_entry s l = Ok s' → "errcode" ∉ l.*1.
Proof.
  revert s. induction l as [|[k v] l IH]; intros s Hc Hl; [by intros ?%elem_of_nil|].
  simpl in Hl. apply bind_Ok in Hl as (s1 & H1 & Hl). destruct s as [code sl ra rv ac ex].
  simpl in Hc. subst code. assert (errcode s1 = Some c ∧ k ≠ "errcode") as [Hc1 Hk].
  { unfold visit_entry, Field_new in H1.
    repeat case_decide; try done; try (apply bind_Ok in H1 as (f & _ & [= <-])); try done.
    by destruct (ex !! k); simplify_eq/=. }
  rewrite fmap_cons, not_elem_of_cons. split; [intros Heq; by apply Hk|by apply (IH s1)].
Qed.

Lemma describes_custom_inv m s extra :
  describes m (Custom s extra) →
  s ∉ known_codes ∧ extra = to_value <$> filter (λ kv, kv.1 ∉ field_names) m.
Proof. inversion 1; [done|auto]. Qed.

Lemma survives_custom s extra : survives (Custom s extra) ↔ wf_kind (Custom s extra).
Proof.
  unfold survives. cbn [ErrorKind_serialize ErrorKind_as_ref mbind outcome_bind]. split.
  - intros (entries & [= <-] & He & Hv). cbn [fmap list_fmap fst] in He.
    apply not_elem_of_cons in He as [_ He].
    assert ("errcode" ∉ (btree_iter extra).*1) as Hc.
    { unfold visit_map in Hv. apply bind_Ok in Hv as (s2 & Hv & _). simpl in Hv.
      by apply visit_entries_code with (c := from s) in Hv. }
    rewrite visit_map_kind_of in Hv by (simpl; constructor; [done|apply NoDup_btree_iter_fst]).
    simpl in Hv. rewrite list_to_map_btree_iter in Hv.
    apply kind_of_describes, describes_custom_inv in Hv as [Hs Heq].
    assert (∀ name, name ∈ reserved → extra !! name = None) as Hres.
    { intros name Hname. destruct (decide (name = "error")) as [->|].
      { apply eq_None_not_Some. intros [v Hx]. apply He.
        apply (list_elem_of_fmap_2' fst _ ("error", v)); [|done]. by apply elem_of_btree_iter. }
      rewrite Heq, lookup_fmap. apply fmap_None, map_lookup_filter_None. right. intros x _ Hno.
      apply Hno. simpl. unfold reserved in Hname. set_solver. }
    split_and!; [done|done|]. rewrite Heq. apply map_Forall_fmap. intros name v _. apply is_value_to_value.
  - intros (Hs & Hres & Hval). eexists. split; [done|].
    assert (∀ name, name ∈ reserved → name ∉ (btree_iter extra).*1) as Hno.
    { intros name Hn ([name' v] & -> & Hin)%list_elem_of_fmap. apply elem_of_btree_iter in Hin.
      simpl in Hn. rewrite Hres in Hin; done. }
    split; [simpl; rewrite not_elem_of_cons; split; [done|apply Hno; by left]|].
    rewrite visit_map_kind_of.
    2: { simpl. constructor; [|apply NoDup_btree_iter_fst]. apply Hno. unfold reserved, field_names. set_solver. }
    simpl. rewrite list_to_map_btree_iter. apply kind_of_describes.
    assert (extra = to_value <$> filter (λ kv, kv.1 ∉ field_names) (<["errcode":=JString s]> extra)) as Heq.
    { rewrite map_filter_insert_False by (simpl; unfold field_names; set_solver).
      rewrite delete_id by (apply Hres; unfold reserved, field_names; set_solver).
      rewrite map_filter_id; [by rewrite map_value_id|].
      intros k v Hk Hin. simpl in Hin. rewrite (Hres k) in Hk; [done|]. by right. }
    rewrite Heq at 2. apply describes_custom; [done|]. apply lookup_insert_eq.
Qed.

(** The visitor on an error code and one more field. *)
Lemma visit_limit ms :
  (Z.of_N ms ≤ MAX_SAFE_INT)%Z →
  visit_map [("errcode", JString "M_LIMIT_EXCEEDED");
             ("retry_after_ms", JNumber (NInt (Z.of_N ms)))] =
    Ok (LimitExceeded (Some (from_millis ms))).
Proof.
  intros Hms. rewrite visit_map_kind_of by decide_it. apply kind_of_describes.
  by apply describes_limit_exceeded.
Qed.

Lemma visit_room_version s :
  visit_map [("errcode", JString "M_INCOMPATIBLE_ROOM_VERSION"); ("room_version", JString s)] =
    v ← map_err (λ _, ()) (RoomVersionId_try_from s); Ok (IncompatibleRoomVersion v).
Proof. reflexivity. Qed.

Lemma survives_wf k : survives k ↔ wf_kind k.
Proof.
  destruct k as [|[]| | | | |[d|]| | | | | | | | | | | | | | |v| | | | | | | | |c| |s extra];
    try apply survives_custom;
    try (split; [done|]; intros _; eexists; split; [reflexivity|]; split; [decide_it|reflexivity]).
  - unfold survives. cbn [ErrorKind_serialize ErrorKind_as_ref mbind outcome_bind]. split.
    + intros (entries & Hs & _ & Hv). destruct (uint_in_range _) eqn:Hr; simplify_eq/=.
      unfold uint_in_range in Hr. rewrite visit_limit in Hv by lia. injection Hv as Hv.
      split; [|lia]. rewrite <- Hv. by apply N.Div0.mod_mul.
    + intros [Hd Hr]. assert (uint_in_range (Z.of_N (as_millis d)) = true) as ->
        by (unfold uint_in_range; lia).
      eexists. split; [done|]. split; [simpl; rewrite !not_elem_of_cons; split_and!; by try apply not_elem_of_nil|].
      rewrite visit_limit by done. do 3 f_equal. unfold from_millis, as_millis.
      pose proof (N.div_mod d 1000000). lia.
  - unfold survives. cbn [ErrorKind_serialize ErrorKind_as_ref mbind outcome_bind].
    change (wf_kind (IncompatibleRoomVersion v)) with (room_version_wf v). split.
    + intros (entries & [= <-] & _ & Hv). rewrite visit_room_version in Hv.
      apply bind_Ok in Hv as (v' & Hv'%map_err_Ok & [= ->]).
      by apply RoomVersionId_parse_print in Hv' as [_ ?].
    + intros Hwf. eexists. split; [done|]. split; [simpl; rewrite !not_elem_of_cons; split_and!; by try apply not_elem_of_nil|].
      rewrite visit_room_version. by rewrite (proj2 (RoomVersionId_parse_print _ v)).
Qed.

Lemma serialize_limit d :
  ErrorKind_serialize (LimitExceeded (Some d)) =
    if uint_in_range (Z.of_N (as_millis d)) then
      Ok [("errcode", JString "M_LIMIT_EXCEEDED");
          ("retry_after_ms", JNumber (NInt (Z.of_N (as_millis d))))]
    else Err ().
Proof. unfold ErrorKind_serialize. by destruct (uint_in_range _). Qed.

Lemma ErrorBody_round_trip b :
  (∃ entries, ErrorBody_serialize b = Ok entries ∧ de_ErrorBody (JObject entries) = Ok b) ↔
    wf_kind (kind b).
Proof.
  rewrite <- survives_wf. unfold survives, ErrorBody_serialize. destruct b as [k msg].
  cbn [kind message]. split.
  - intros (entries' & (entries & Hs & [= <-])%bind_Ok & Hb). exists entries. split; [done|].
    rewrite de_ErrorBody_app in Hb. case_decide; [done|]. split; [done|].
    destruct (visit_map entries); simplify_eq/=; done.
  - intros (entries & -> & Hin & Hv). eexists. split; [done|].
    rewrite de_ErrorBody_app, decide_False by done. by rewrite Hv.
Qed.

(** The keys that an error writes. *)
Lemma ErrorBody_keys b entries k :
  ErrorBody_serialize b = Ok entries → k ∈ entries.*1 →
  k ∈ reserved ∨ ∃ s extra, kind b = Custom s extra ∧ is_Some (extra !! k).
Proof.
  unfold ErrorBody_serialize. destruct b as [kd msg]. cbn [kind message].
  intros (es & Hs & [= <-])%bind_Ok. rewrite fmap_app, elem_of_app. intros [Hk| ->%list_elem_of_singleton];
    [|left; by left].
  destruct kd as [|[]| | | | |[d|]| | | | | | | | | | | | | | |v| | | | | | | | |c| |s extra];
    try (injection Hs as <-; left; revert k Hk; apply list.Forall_forall; decide_it).
  - rewrite serialize_limit in Hs. destruct (uint_in_range _); [|done]. injection Hs as <-.
    left; revert k Hk; apply list.Forall_forall; decide_it.
  - injection Hs as <-. simpl in Hk. apply elem_of_cons in Hk as [->|Hk]; [left; right; by left|].
    right. exists s, extra. split; [done|]. apply list_elem_of_fmap in Hk as ([k' v] & -> & Hin).
    exists v. by apply elem_of_btree_iter.
Qed.

(** C27: An error written to an HTTP response is read back as it was, status and message included,
    exactly when its kind is well formed; and it is written unless it asks to wait longer than
    JSON integers can say. *)
Theorem api_error_round_trip e :
  ((∃ r, ApiError_try_into_http_response e = Ok r ∧ status r = status_code e ∧
     ApiError_try_from_http_response r = Ok e) ↔ wf_kind (err_kind e)) ∧
  (ApiError_try_into_http_response e = Err () ↔
     ∃ d, err_kind e = LimitExceeded (Some d) ∧ (MAX_SAFE_INT < Z.of_N (as_millis d))%Z).
Proof.
  destruct e as [k msg st]. cbn [err_kind].
  unfold ApiError_try_into_http_response, ErrorBody_serialize, ErrorBody_from.
  cbn [err_kind err_message status_code kind message]. split.
  - rewrite <- (ErrorBody_round_trip {| kind := k; message := msg |}). unfold ErrorBody_serialize. cbn [kind message].
    split.
    + intros (r & (entries & Hs & [= <-])%bind_Ok & _ & (b & Hb & [= <- <-])%bind_Ok).
      exists entries. split; [done|]. by destruct b.
    + intros (entries & -> & Hb). eexists. split; [done|]. split; [done|].
      unfold ApiError_try_from_http_response, from_body. cbn [body ok_or mbind outcome_bind status].
      by rewrite Hb.
  - split.
    + destruct k as [|[]| | | | |[d|]| | | | | | | | | | | | | | |v| | | | | | | | |c| |s extra]; try done.
      rewrite serialize_limit. destruct (uint_in_range (Z.of_N (as_millis d))) eqn:Hr; [done|].
      intros _. exists d. split; [done|].
      unfold uint_in_range in Hr. lia.
    + intros (d & -> & Hd). rewrite serialize_limit. assert (uint_in_range (Z.of_N (as_millis d)) = false) as ->; [|done].
      unfold uint_in_range. lia.
Qed.

(** A field that comes before the error code may make a difference only if it is there twice. *)
Example repeated_field_order :
  visit_map [("soft_logout", JNull); ("soft_logout", JNull); ("errcode", JString "M_FORBIDDEN")] = Err () ∧
  visit_map [("errcode", JString "M_FORBIDDEN"); ("soft_logout", JNull); ("soft_logout", JNull)] = Ok Forbidden.
Proof. split; reflexivity. Qed.

Lemma visit_map_spec_witness :
  let entries := [("soft_logout", JBool true); ("errcode", JString "M_UNKNOWN_TOKEN");
                  ("retry_after_ms", JNull)] in
  NoDup entries.*1 ∧ visit_map entries ≠ Panic ∧
  ∀ k, visit_map entries = Ok k ↔ describes (list_to_map entries) k.
Proof.
  intros entries. assert (NoDup entries.*1) as Hnd by decide_it.
  split; [exact Hnd|]. exact (visit_map_spec entries Hnd).
Defined.
