(* ===== verification/Uiaa.v ===== *)
(** * User-interactive authentication

    [ruma-client-api/src/r0/uiaa.rs] and [uiaa/user_serde.rs]: the data a client sends for one
    stage, and the response that lists the stages that are left. [AuthData] borrows and
    [IncomingAuthData] owns the same fields; one type stands for both. Default features. *)

From S2P Require Import Prelude RustStr RustNet IdValidation StringEnum Identifiers Json.
From S2P Require Import CanonicalJson Serde EventContents ClientErrors.
From Stdlib Require Import Ascii NArith.
Open Scope string_scope.
Open Scope nat_scope.
Open Scope list_scope.

(** ** Types of stages *)

Module AuthType.
Inductive AuthType :=
  | Password | ReCaptcha | Token | OAuth2 | EmailIdentity | Msisdn | Sso | Dummy
  | Custom (s : string).

#[export] Instance AuthType_eq_dec : EqDecision AuthType.
Proof. solve_decision. Defined.

#[export, refine] Instance AuthType_enum : StringEnum AuthType := {|
  rename_all := RenameNone;
  unit_variants :=
    [("Password", Some "m.login.password", Password);
     ("ReCaptcha", Some "m.login.recaptcha", ReCaptcha); ("Token", Some "m.login.token", Token);
     ("OAuth2", Some "m.login.oauth2", OAuth2);
     ("EmailIdentity", Some "m.login.email.identity", EmailIdentity);
     ("Msisdn", Some "m.login.msisdn", Msisdn); ("Sso", Some "m.login.sso", Sso);
     ("Dummy", Some "m.login.dummy", Dummy)];
  custom := Custom;
  custom_inner c := match c with Custom s => Some s | _ => None end
|}.
Proof. all: string_enum_laws. Defined.
End AuthType.
Export (hints) AuthType.

(** [ruma_common::thirdparty::Medium] *)
Module Medium.
Inductive Medium := Email | Msisdn | Custom (s : string).

#[export] Instance Medium_eq_dec : EqDecision Medium.
Proof. solve_decision. Defined.

#[export, refine] Instance Medium_enum : StringEnum Medium := {|
  rename_all := LowerCase;
  unit_variants := [("Email", None, Email); ("Msisdn", None, Msisdn)];
  custom := Custom;
  custom_inner c := match c with Custom s => Some s | _ => None end
|}.
Proof. all: string_enum_laws. Defined.
End Medium.
Export (hints) Medium.

(** ** The data of a stage *)

Inductive UserIdentifier :=
  | MatrixId (user : string)
  | ThirdPartyId (address : string) (medium : Medium.Medium)
  | PhoneNumber (country phone : string).

Record ThirdpartyIdCredentials := {
  sid : string;
  client_secret : string;
  id_server : string;
  id_access_token : string
}.

(** Each variant with the fields of its struct; [session] comes last. *)
Inductive AuthData :=
  | Password (identifier : UserIdentifier) (password : string) (session : option string)
  | ReCaptcha (response : string) (session : option string)
  | Token (token txn_id : string) (session : option string)
  | OAuth2 (uri : string) (session : option string)
  | EmailIdentity (thirdparty_id_creds : list ThirdpartyIdCredentials) (session : option string)
  | Msisdn (thirdparty_id_creds : list ThirdpartyIdCredentials) (session : option string)
  | Dummy (session : option string)
  | FallbackAcknowledgement (session : string)
  | CustomAuthData (auth_type : string) (session : option string) (extra : gmap string json).

Definition auth_type (a : AuthData) : option AuthType.AuthType :=
  match a with
  | Password _ _ _ => Some AuthType.Password
  | ReCaptcha _ _ => Some AuthType.ReCaptcha
  | Token _ _ _ => Some AuthType.Token
  | OAuth2 _ _ => Some AuthType.OAuth2
  | EmailIdentity _ _ => Some AuthType.EmailIdentity
  | Msisdn _ _ => Some AuthType.Msisdn
  | Dummy _ => Some AuthType.Dummy
  | FallbackAcknowledgement _ => None
  | CustomAuthData auth_type _ _ => Some (AuthType.Custom auth_type)
  end.

Definition session (a : AuthData) : option string :=
  match a with
  | Password _ _ session | ReCaptcha _ session | Token _ _ session | OAuth2 _ session
  | EmailIdentity _ session | Msisdn _ session | Dummy session
  | CustomAuthData _ session _ => session
  | FallbackAcknowledgement session => Some session
  end.

(** ** Serialization *)

Definition ser_option {A} (f : A → json) (o : option A) : json :=
  match o with Some a => f a | None => JNull end.

(** user_serde.rs: an internally tagged enum *)
Definition ser_UserIdentifier (u : UserIdentifier) : json :=
  match u with
  | MatrixId user => JObject [("type", JString "m.id.user"); ("user", JString user)]
  | ThirdPartyId address medium =>
      JObject [("type", JString "m.id.thirdparty"); ("medium", JString (as_ref medium));
               ("address", JString address)]
  | PhoneNumber country phone =>
      JObject [("type", JString "m.id.phone"); ("country", JString country);
               ("phone", JString phone)]
  end.

Definition ser_ThirdpartyIdCredentials (c : ThirdpartyIdCredentials) : json :=
  JObject [("sid", JString (sid c)); ("client_secret", JString (client_secret c));
           ("id_server", JString (id_server c)); ("id_access_token", JString (id_access_token c))].

(** The entries of the struct of a variant: its tag, its fields. *)
Definition AuthData_entries (a : AuthData) : list (string * json) :=
  let se := ("session", ser_option JString (session a)) in
  match a with
  | Password identifier password _ =>
      [("type", JString "m.login.password"); ("identifier", ser_UserIdentifier identifier);
       ("password", JString password); se]
  | ReCaptcha response _ =>
      [("type", JString "m.login.recaptcha"); ("response", JString response); se]
  | Token token txn_id _ =>
      [("type", JString "m.login.token"); ("token", JString token); ("txn_id", JString txn_id); se]
  | OAuth2 uri _ => [("type", JString "m.login.oauth2"); ("uri", JString uri); se]
  | EmailIdentity creds _ =>
      [("type", JString "m.login.email.identity");
       ("threepidCreds", JArray (ser_ThirdpartyIdCredentials <$> creds)); se]
  | Msisdn creds _ =>
      [("type", JString "m.login.msisdn");
       ("threepidCreds", JArray (ser_ThirdpartyIdCredentials <$> creds)); se]
  | Dummy _ => [("type", JString "m.login.dummy"); se]
  | FallbackAcknowledgement session => [("session", JString session)]
  | CustomAuthData auth_type _ extra => [("type", JString auth_type); se] ++ btree_iter extra
  end.

Definition ser_AuthData (a : AuthData) : json := JObject (AuthData_entries a).

(** The same data without a session. *)
Definition without_session (a : AuthData) : AuthData :=
  match a with
  | Password identifier password _ => Password identifier password None
  | ReCaptcha response _ => ReCaptcha response None
  | Token token txn_id _ => Token token txn_id None
  | OAuth2 uri _ => OAuth2 uri None
  | EmailIdentity creds _ => EmailIdentity creds None
  | Msisdn creds _ => Msisdn creds None
  | a => a
  end.

(** [serde_json::to_value] of a struct, as an object *)
Definition data (a : AuthData) : gmap string json :=
  match a with
  | Dummy _ | FallbackAcknowledgement _ => ∅
  | CustomAuthData _ _ extra => extra
  | a => last_entries ((λ '(k, v), (k, to_value v)) <$> AuthData_entries (without_session a))
  end.

(** ** Deserialization *)

Definition de_UserIdentifier : decoder UserIdentifier := λ j,
  '(tag, rest) ← take_tag "type" j;
  if decide (tag = "m.id.user") then
    src ← struct_src ["user"] rest;
    user ← field_req ["user"] "user" de_string src;
    Ok (MatrixId user)
  else if decide (tag = "m.id.thirdparty") then
    let fields := ["medium"; "address"] in
    src ← struct_src fields rest;
    medium ← field_req fields "medium" de_string_enum src;
    address ← field_req fields "address" de_string src;
    Ok (ThirdPartyId address medium)
  else if decide (tag = "m.id.phone") then
    let fields := ["country"; "phone"] in
    src ← struct_src fields rest;
    country ← field_req fields "country" de_string src;
    phone ← field_req fields "phone" de_string src;
    Ok (PhoneNumber country phone)
  else Err ().

Section unicode.
Context `{Unicode}.

Definition de_SessionId : decoder string :=
  de_parse (parse session_id_validate).
Definition de_ClientSecret : decoder string :=
  de_parse (parse client_secret_validate).

Definition de_ThirdpartyIdCredentials : decoder ThirdpartyIdCredentials := λ j,
  let fields := ["sid"; "client_secret"; "id_server"; "id_access_token"] in
  src ← struct_src fields j;
  sid ← field_req fields "sid" de_SessionId src;
  client_secret ← field_req fields "client_secret" de_ClientSecret src;
  id_server ← field_req fields "id_server" de_string src;
  id_access_token ← field_req fields "id_access_token" de_string src;
  Ok {| sid := sid; client_secret := client_secret; id_server := id_server;
        id_access_token := id_access_token |}.

Definition de_Password : decoder AuthData := λ j,
  let fields := ["identifier"; "password"; "session"] in
  src ← struct_src fields j;
  identifier ← field_req fields "identifier" de_UserIdentifier src;
  password ← field_req fields "password" de_string src;
  session ← field_opt fields "session" de_string src;
  Ok (Password identifier password session).

Definition de_ReCaptcha : decoder AuthData := λ j,
  let fields := ["response"; "session"] in
  src ← struct_src fields j;
  response ← field_req fields "response" de_string src;
  session ← field_opt fields "session" de_string src;
  Ok (ReCaptcha response session).

Definition de_Token : decoder AuthData := λ j,
  let fields := ["token"; "txn_id"; "session"] in
  src ← struct_src fields j;
  token ← field_req fields "token" de_string src;
  txn_id ← field_req fields "txn_id" de_string src;
  session ← field_opt fields "session" de_string src;
  Ok (Token token txn_id session).

Definition de_OAuth2 : decoder AuthData := λ j,
  let fields := ["uri"; "session"] in
  src ← struct_src fields j;
  uri ← field_req fields "uri" de_string src;
  session ← field_opt fields "session" de_string src;
  Ok (OAuth2 uri session).

Definition de_EmailIdentity : decoder AuthData := λ j,
  let fields := ["threepidCreds"; "session"] in
  src ← struct_src fields j;
  creds ← field_req fields "threepidCreds" (de_list de_ThirdpartyIdCredentials) src;
  session ← field_opt fields "session" de_string src;
  Ok (EmailIdentity creds session).

Definition de_Msisdn : decoder AuthData := λ j,
  let fields := ["threepidCreds"; "session"] in
  src ← struct_src fields j;
  creds ← field_req fields "threepidCreds" (de_list de_ThirdpartyIdCredentials) src;
  session ← field_opt fields "session" de_string src;
  Ok (Msisdn creds session).

Definition de_Dummy : decoder AuthData := λ j,
  src ← struct_src ["session"] j;
  session ← field_opt ["session"] "session" de_string src;
  Ok (Dummy session).

Definition de_FallbackAcknowledgement : decoder AuthData := λ j,
  src ← struct_src ["session"] j;
  session ← field_req ["session"] "session" de_string src;
  Ok (FallbackAcknowledgement session).

Definition de_CustomAuthData : decoder AuthData := λ j,
  let fields := ["type"; "session"] in
  '(src, rest) ← flat_src fields j;
  auth_type ← field_req fields "type" de_string src;
  session ← field_opt fields "session" de_string src;
  extra ← de_JsonObject (JObject rest);
  Ok (CustomAuthData auth_type session extra).

(** [Deserialize for IncomingAuthData]: the type decides how the same text is read again. *)
Definition de_AuthData : decoder AuthData := λ j,
  src ← struct_src ["type"] j;
  auth_type ← field_opt ["type"] "type" de_string src;
  match auth_type with
  | None => de_FallbackAcknowledgement j
  | Some t =>
      if decide (t = "m.login.password") then de_Password j
      else if decide (t = "m.login.recaptcha") then de_ReCaptcha j
      else if decide (t = "m.login.token") then de_Token j
      else if decide (t = "m.login.oauth2") then de_OAuth2 j
      else if decide (t = "m.login.email.identity") then de_EmailIdentity j
      else if decide (t = "m.login.msisdn") then de_Msisdn j
      else if decide (t = "m.login.dummy") then de_Dummy j
      else de_CustomAuthData j
  end.

(** [IncomingAuthData::new] *)
Definition deserialize_variant (d : decoder AuthData) (session : option string)
    (obj : gmap string json) : outcome () AuthData :=
  let obj :=
    match session with Some s => <["session" := JString s]> obj | None => obj end in
  d (ser_JsonObject obj).

Definition AuthData_new (auth_type : string) (session : option string)
    (data : gmap string json) : outcome () AuthData :=
  if decide (auth_type = "m.login.password") then deserialize_variant de_Password session data
  else if decide (auth_type = "m.login.recaptcha") then
    deserialize_variant de_ReCaptcha session data
  else if decide (auth_type = "m.login.token") then deserialize_variant de_Token session data
  else if decide (auth_type = "m.login.oauth2") then deserialize_variant de_OAuth2 session data
  else if decide (auth_type = "m.login.email.identity") then
    deserialize_variant de_EmailIdentity session data
  else if decide (auth_type = "m.login.msisdn") then deserialize_variant de_Msisdn session data
  else if decide (auth_type = "m.login.dummy") then deserialize_variant de_Dummy session data
  else Ok (CustomAuthData auth_type session data).
End unicode.

(** ** The response *)

Record AuthFlow := { stages : list AuthType.AuthType }.

Record UiaaInfo := {
  flows : list AuthFlow;
  completed : list AuthType.AuthType;
  params : json;
  info_session : option string;
  auth_error : option ErrorBody
}.

Definition UiaaInfo_new (flows : list AuthFlow) (params : json) : UiaaInfo :=
  {| flows := flows; completed := []; params := params; info_session := None;
     auth_error := None |}.

Definition ser_stages (l : list AuthType.AuthType) : json := JArray ((λ t, JString (as_ref t)) <$> l).

(** [skip_serializing_if = "Vec::is_empty"] *)
Definition skip_empty (name : string) (l : list AuthType.AuthType) : list (string * json) :=
  match l with [] => [] | _ => [(name, ser_stages l)] end.

Definition ser_AuthFlow (f : AuthFlow) : json := JObject (skip_empty "stages" (stages f)).

Definition de_AuthFlow : decoder AuthFlow := λ j,
  src ← struct_src ["stages"] j;
  stages ← field_default ["stages"] "stages" [] (de_list de_string_enum) src;
  Ok {| stages := stages |}.

Definition UiaaInfo_serialize (i : UiaaInfo) : outcome () json :=
  error ← match auth_error i with Some e => ErrorBody_serialize e | None => Ok [] end;
  Ok (JObject ([("flows", JArray (ser_AuthFlow <$> flows i))] ++
               skip_empty "completed" (completed i) ++ [("params", params i)] ++
               skip_none "session" JString (info_session i) ++ error)).

(** A flattened [Option]: what cannot be read is [None]. *)
Definition de_UiaaInfo : decoder UiaaInfo := λ j,
  let fields := ["flows"; "completed"; "params"; "session"] in
  '(src, rest) ← flat_src fields j;
  flows ← field_req fields "flows" (de_list de_AuthFlow) src;
  completed ← field_default fields "completed" [] (de_list de_string_enum) src;
  params ← field_req fields "params" de_raw src;
  session ← field_opt fields "session" de_string src;
  auth_error ← try_ok (de_ErrorBody (JObject rest));
  Ok {| flows := flows; completed := completed; params := params; info_session := session;
        auth_error := auth_error |}.

Inductive UiaaResponse :=
  | AuthResponse (info : UiaaInfo)
  | MatrixError (e : ApiError).

Definition UNAUTHORIZED : N := 401.

Definition UiaaResponse_try_from_http_response (response : Response) : outcome () UiaaResponse :=
  if decide (status response = UNAUTHORIZED) then
    info ← from_body de_UiaaInfo response; Ok (AuthResponse info)
  else MatrixError <$> ApiError_try_from_http_response response.

Definition UiaaResponse_try_into_http_response (r : UiaaResponse) : outcome () Response :=
  match r with
  | AuthResponse authentication_info =>
      j ← UiaaInfo_serialize authentication_info;
      Ok {| status := UNAUTHORIZED; body := Some j |}
  | MatrixError error => ApiError_try_into_http_response error
  end.
