(* ===== verification/UiaaSpec.v ===== *)
(** * What interactive authentication sends and reads

    The data of a stage is read back exactly when it is well formed, and can be rebuilt from
    its type, session and data; a response is read back unless it is an error with the status
    of an unfinished authentication. *)

From S2P Require Import Prelude RustStr RustNet IdValidation StringEnum Identifiers Json.
From S2P Require Import CanonicalJson Serde EventContents ClientErrors ClientErrorsSpec Uiaa.
From Stdlib Require Import Ascii NArith.
Open Scope string_scope.
Open Scope nat_scope.
Open Scope list_scope.

Definition known_types : list string :=
  ["m.login.password"; "m.login.recaptcha"; "m.login.token"; "m.login.oauth2";
   "m.login.email.identity"; "m.login.msisdn"; "m.login.dummy"].

Section spec.
Context `{Unicode}.

Definition valid_credentials (c : ThirdpartyIdCredentials) : Prop :=
  session_id_validate (sid c) = Ok () ∧ client_secret_validate (client_secret c) = Ok ().

Definition wf_identifier (u : UserIdentifier) : Prop :=
  match u with ThirdPartyId _ medium => canonical medium | _ => True end.

Definition wf_auth (a : AuthData) : Prop :=
  match a with
  | Password identifier _ _ => wf_identifier identifier
  | EmailIdentity creds _ | Msisdn creds _ => Forall valid_credentials creds
  | CustomAuthData t _ extra =>
      t ∉ known_types ∧ extra !! "type" = None ∧ extra !! "session" = None ∧
      map_Forall (λ _, is_value) extra
  | _ => True
  end.

Lemma parse_Ok (validate : string → outcome Error ()) s r :
  parse validate s = Ok r ↔ validate s = Ok () ∧ r = s.
Proof. unfold parse. rewrite bind_Ok. split; [intros ([] & -> & [= <-])|intros [-> ->]]; eauto. Qed.

Lemma de_credentials c r :
  de_ThirdpartyIdCredentials (ser_ThirdpartyIdCredentials c) = Ok r ↔ valid_credentials c ∧ r = c.
Proof.
  transitivity ((s ← map_err (λ _, ()) (parse session_id_validate (sid c));
    cs ← map_err (λ _, ()) (parse client_secret_validate (client_secret c));
    Ok {| sid := s; client_secret := cs; id_server := id_server c;
          id_access_token := id_access_token c |}) = Ok r); [reflexivity|].
  rewrite bind_Ok. setoid_rewrite bind_Ok. setoid_rewrite map_err_Ok. setoid_rewrite parse_Ok.
  unfold valid_credentials. split.
  - intros (s & [Hs ->] & cs & [Hcs ->] & [= <-]). by destruct c.
  - intros [[Hs Hcs] ->]. exists (sid c). split; [done|]. exists (client_secret c). by destruct c.
Qed.

Lemma de_credentials_list creds :
  de_list de_ThirdpartyIdCredentials (JArray (ser_ThirdpartyIdCredentials <$> creds)) = Ok creds ↔
    Forall valid_credentials creds.
Proof.
  rewrite de_list_round_trip. apply Forall_iff. intros c. rewrite de_credentials. naive_solver.
Qed.

Lemma de_ser_identifier u : de_UserIdentifier (ser_UserIdentifier u) = Ok u ↔ wf_identifier u.
Proof.
  destruct u as [user|address medium|country phone]; [done| |done].
  transitivity (Ok (E:=()) (ThirdPartyId address (from (as_ref medium))) = Ok (ThirdPartyId address medium));
    [reflexivity|]. unfold wf_identifier, canonical.
  split; [intros [= H']; exact H'|by intros ->].
Qed.

Lemma de_ser_auth_custom t se extra :
  de_AuthData (ser_AuthData (CustomAuthData t se extra)) = Ok (CustomAuthData t se extra) ↔
    wf_auth (CustomAuthData t se extra).
Proof.
  set (j := ser_AuthData (CustomAuthData t se extra)).
  assert (∀ k, extra !! k = None ↔ k ∉ (btree_iter extra).*1) as Hkey.
  { intros k. rewrite <- (list_to_map_btree_iter extra) at 1. symmetry. apply not_elem_of_list_to_map. }
  assert (t ∉ known_types → flat_src ["type"; "session"] j =
    Ok (FromMap (AuthData_entries (CustomAuthData t se extra)), btree_iter extra) →
    de_CustomAuthData j = Ok (CustomAuthData t se (to_value <$> extra))) as Hde.
  { intros Ht Hsrc. unfold de_CustomAuthData. rewrite Hsrc. cbn [mbind outcome_bind].
    unfold de_JsonObject. rewrite last_entries_map, last_entries_btree_iter. by destruct se. }
  assert (extra !! "type" = None → de_AuthData j =
    if decide (t = "m.login.password") then de_Password j
    else if decide (t = "m.login.recaptcha") then de_ReCaptcha j
    else if decide (t = "m.login.token") then de_Token j
    else if decide (t = "m.login.oauth2") then de_OAuth2 j
    else if decide (t = "m.login.email.identity") then de_EmailIdentity j
    else if decide (t = "m.login.msisdn") then de_Msisdn j
    else if decide (t = "m.login.dummy") then de_Dummy j
    else de_CustomAuthData j) as Htype.
  { intros Hno%Hkey. unfold de_AuthData. assert (struct_src ["type"] j =
      Ok (FromMap (AuthData_entries (CustomAuthData t se extra)))) as ->; [|reflexivity].
    unfold struct_src, j, ser_AuthData. rewrite decide_True; [done|]. simpl.
    rewrite filter_cons_True, filter_cons_False by decide_it. rewrite list_filter_none; [apply NoDup_singleton|].
    intros k Hk [->|[]%elem_of_nil]%elem_of_cons. done. }
  assert (extra !! "type" = None → extra !! "session" = None → flat_src ["type"; "session"] j =
    Ok (FromMap (AuthData_entries (CustomAuthData t se extra)), btree_iter extra)) as Hsrc.
  { intros Hty Hse. apply flat_src_app; [decide_it|done|].
    intros k Hk. rewrite !not_elem_of_cons. split_and!; [..|by apply not_elem_of_nil]; intros ->; by apply Hkey in Hk. }
  split.
  - intros Hj. assert (extra !! "type" = None) as Hty.
    { apply Hkey. unfold de_AuthData, struct_src, j, ser_AuthData in Hj. case_decide as Hnd; [|done].
      simpl in Hnd. rewrite filter_cons_True in Hnd by decide_it.
      apply list.NoDup_cons in Hnd as [Hnd _]. intros Hin. apply Hnd. apply list_elem_of_filter.
      split; [by left|by right]. }
    rewrite (Htype Hty) in Hj.
    assert (t ∉ known_types ∧ de_CustomAuthData j = Ok (CustomAuthData t se extra)) as [Ht Hc].
    { unfold known_types. rewrite !not_elem_of_cons.
      repeat (case_decide;
        [exfalso; repeat (apply bind_Ok in Hj as (? & _ & Hj)); discriminate|]).
      split_and!; by try apply not_elem_of_nil. }
    pose proof Hc as (r & Hr & _)%bind_Ok.
    assert (extra !! "session" = None) as Hse.
    { apply Hkey. apply (flat_src_disjoint ["type"; "session"] [("type", JString t);
        ("session", ser_option JString se)] _ r); [done|by right; left..]. }
    rewrite Hde in Hc; [|done|].
    + injection Hc as Heq. split_and!; [done..|]. rewrite <- Heq. apply map_Forall_fmap.
      intros k v _. apply is_value_to_value.
    + by apply Hsrc.
  - intros (Ht & Hty & Hse & Hval). rewrite (Htype Hty).
    assert (∀ x, x ∈ known_types → t ≠ x) as Hne by (intros x ? ->; done).
    repeat (rewrite decide_False by (apply Hne; decide_it)).
    rewrite Hde; [by rewrite map_value_id|done|by apply Hsrc].
Qed.

Lemma de_ser_auth a : de_AuthData (ser_AuthData a) = Ok a ↔ wf_auth a.
Proof.
  destruct a as [u p se|r se|t x se|u se|creds se|creds se|se|se|t se extra];
    try (split; [done|]; intros _; by destruct se).
  - transitivity ((u' ← de_UserIdentifier (ser_UserIdentifier u); Ok (Password u' p se)) =
      Ok (Password u p se)); [by destruct se|].
    simpl. rewrite <- de_ser_identifier. destruct (de_UserIdentifier _); simpl; naive_solver.
  - transitivity ((l ← de_list de_ThirdpartyIdCredentials (JArray (ser_ThirdpartyIdCredentials <$> creds));
      Ok (EmailIdentity l se)) = Ok (EmailIdentity creds se)); [by destruct se|].
    simpl wf_auth. rewrite <- de_credentials_list. destruct (de_list _ _); simpl; naive_solver.
  - transitivity ((l ← de_list de_ThirdpartyIdCredentials (JArray (ser_ThirdpartyIdCredentials <$> creds));
      Ok (Msisdn l se)) = Ok (Msisdn creds se)); [by destruct se|].
    simpl wf_auth. rewrite <- de_credentials_list. destruct (de_list _ _); simpl; naive_solver.
  - apply de_ser_auth_custom.
Qed.
(** ** Rebuilding from the parts *)

Lemma de_identifier_value u : de_UserIdentifier (to_value (ser_UserIdentifier u)) = de_UserIdentifier (ser_UserIdentifier u).
Proof. destruct u; reflexivity. Qed.

Lemma de_credentials_value c :
  de_ThirdpartyIdCredentials (to_value (ser_ThirdpartyIdCredentials c)) =
    de_ThirdpartyIdCredentials (ser_ThirdpartyIdCredentials c).
Proof. reflexivity. Qed.

(** The object that [new] reads: the data, with the session in it. *)
Definition with_session (se : option string) (m : gmap string json) : gmap string json :=
  match se with Some s => <["session" := JString s]> m | None => m end.

Lemma with_session_ne se m k : "session" ≠ k → with_session se m !! k = m !! k.
Proof. intros Hk. destruct se; simpl; [|done]. by apply lookup_insert_ne. Qed.

Lemma with_session_opt fields se m :
  m !! "session" = Some JNull ∨ m !! "session" = None →
  field_opt fields "session" de_string (FromMap (btree_iter (with_session se m))) = Ok se.
Proof.
  rewrite field_opt_JsonObject. destruct se as [s|]; simpl; [by rewrite lookup_insert_eq|].
  by intros [->| ->].
Qed.

(** The fields of a rebuilt struct, looked up by name. *)
Definition has_struct (a : AuthData) : Prop :=
  match a with Dummy _ | FallbackAcknowledgement _ | CustomAuthData _ _ _ => False | _ => True end.

Lemma data_lookup a name :
  has_struct a → data a !! name = to_value <$> assoc name (AuthData_entries (without_session a)).
Proof. destruct a; try done; intros _; apply last_entries_assoc; decide_it. Qed.

Ltac read_data d a se :=
  change (AuthData_new _ _ _) with (d (ser_JsonObject (with_session se (data a))));
  unfold de_Password, de_ReCaptcha, de_Token, de_OAuth2, de_EmailIdentity, de_Msisdn;
  rewrite struct_src_JsonObject; cbn [mbind outcome_bind];
  repeat (rewrite field_req_JsonObject, with_session_ne, data_lookup by done;
          match goal with |- context [assoc ?name ?l] =>
            let o := eval hnf in (assoc name l) in change (assoc name l) with o end;
          cbn [compose prod_map snd id de_string to_value fmap option_fmap option_map mbind outcome_bind]);
  rewrite with_session_opt by first [left; reflexivity|right; reflexivity].

Lemma de_creds_value creds :
  Forall valid_credentials creds →
  de_list de_ThirdpartyIdCredentials (JArray (to_value <$> (ser_ThirdpartyIdCredentials <$> creds))) =
    Ok creds.
Proof.
  intros Hc. rewrite <- list_fmap_compose. apply de_list_round_trip. eapply list.Forall_impl; [exact Hc|].
  intros c Hv. unfold compose. rewrite de_credentials_value. by apply de_credentials.
Qed.

Lemma new_data a t :
  auth_type a = Some t → wf_auth a → AuthData_new (as_ref t) (session a) (data a) = Ok a.
Proof.
  destruct a as [u p se|r se|tk x se|u se|creds se|creds se|se|se|t' se extra]; intros [= <-] Hwf.
  - read_data de_Password (Password u p se) se.
    by rewrite de_identifier_value, (proj2 (de_ser_identifier u)).
  - by read_data de_ReCaptcha (ReCaptcha r se) se.
  - by read_data de_Token (Token tk x se) se.
  - by read_data de_OAuth2 (OAuth2 u se) se.
  - read_data de_EmailIdentity (EmailIdentity creds se) se.
    by rewrite de_creds_value.
  - read_data de_Msisdn (Msisdn creds se) se.
    by rewrite de_creds_value.
  - by destruct se.
  - destruct Hwf as (Ht & _). unfold AuthData_new. cbn [as_ref custom_inner AuthType.AuthType_enum].
    assert (∀ x, x ∈ known_types → t' ≠ x) as Hne by (intros x ? ->; done).
    by repeat (rewrite decide_False by (apply Hne; decide_it)).
Qed.

(** C28: The data of a stage is read back exactly when it is well formed; [new] rebuilds it from its
    type, its session and its data. Contrary to its documentation, the data of the known
    types holds the type, and a session that is null. *)
Theorem auth_data_spec a :
  (de_AuthData (ser_AuthData a) = Ok a ↔ wf_auth a) ∧
  (∀ t, auth_type a = Some t → wf_auth a → AuthData_new (as_ref t) (session a) (data a) = Ok a) ∧
  (has_struct a → ∃ t, auth_type a = Some t ∧ data a !! "type" = Some (JString (as_ref t)) ∧
     data a !! "session" = Some JNull).
Proof.
  split_and!; [apply de_ser_auth|by apply new_data|]. intros Ha.
  rewrite !data_lookup by done. destruct a; try done; eexists; split_and!; reflexivity.
Qed.

End spec.

(** ** The response *)

Definition info_fields : list string := ["flows"; "completed"; "params"; "session"].

Definition wf_info (i : UiaaInfo) : Prop :=
  Forall (λ f, Forall canonical (stages f)) (flows i) ∧ Forall canonical (completed i) ∧
  match auth_error i with
  | None => True
  | Some e =>
      wf_kind (kind e) ∧
      match kind e with
      | Custom _ extra => ∀ k, k ∈ info_fields → extra !! k = None
      | _ => True
      end
  end.

Lemma de_stages l : Forall canonical l → de_list (de_string_enum (A:=AuthType.AuthType)) (ser_stages l) = Ok l.
Proof.
  intros Hl. apply (de_list_round_trip de_string_enum (λ t, JString (as_ref t))).
  eapply list.Forall_impl; [exact Hl|]. intros t Ht. unfold de_string_enum. simpl. by rewrite Ht.
Qed.

Lemma de_ser_flow f : Forall canonical (stages f) → de_AuthFlow (ser_AuthFlow f) = Ok f.
Proof.
  destruct f as [[|t l]]; [done|]. intros Hl. cbn [stages] in Hl.
  transitivity (st ← de_list de_string_enum (ser_stages (t :: l)); Ok {| stages := st |}); [done|].
  by rewrite de_stages.
Qed.

(** Fields that come before the flattened ones. *)
Lemma lookup_field_own fields name own (rest : list (string * json)) :
  name ∉ rest.*1 → lookup_field fields name (FromMap (own ++ rest)) = assoc name own.
Proof.
  intros Hn. unfold lookup_field. rewrite !assoc_list_to_map, list_to_map_app.
  rewrite <- (right_id_L ∅ (∪) (list_to_map own : gmap string json)) at 2.
  rewrite !lookup_union. f_equal. rewrite lookup_empty. by apply not_elem_of_list_to_map.
Qed.

(** The part of the error. *)
Lemma auth_error_written i :
  wf_info i →
  ∃ rest, match auth_error i with Some e => ErrorBody_serialize e | None => Ok [] end = Ok rest ∧
    (∀ k, k ∈ rest.*1 → k ∉ info_fields) ∧
    try_ok (E':=()) (de_ErrorBody (JObject rest)) = Ok (auth_error i).
Proof.
  intros (_ & _ & Hwf). destruct (auth_error i) as [e|].
  - destruct Hwf as [Hwf Hex]. pose proof (proj2 (ErrorBody_round_trip e) Hwf) as (rest & Hs & Hd).
    exists rest. split; [done|]. split; [|by rewrite Hd].
    intros k Hk. destruct (ErrorBody_keys e rest k Hs Hk) as [Hr|(s & extra & Heq & Hin)].
    + clear Hk. revert k Hr. apply list.Forall_forall. decide_it.
    + rewrite Heq in Hex. intros Hf. rewrite (Hex k Hf) in Hin. by destruct Hin.
  - exists []. split; [done|]. split; [by intros k ?%elem_of_nil|reflexivity].
Qed.

Lemma info_round_trip i : wf_info i → ∃ j, UiaaInfo_serialize i = Ok j ∧ de_UiaaInfo j = Ok i.
Proof.
  intros Hwf. destruct (auth_error_written i Hwf) as (rest & Hrest & Hkeys & Herr).
  destruct Hwf as (Hflows & Hcompleted & _). unfold UiaaInfo_serialize. rewrite Hrest.
  eexists. split; [reflexivity|]. rewrite !(assoc_L (++)).
  match goal with |- context [JObject (?o ++ rest)] => set (own := o) end. unfold de_UiaaInfo. fold info_fields.
  assert (NoDup own.*1 ∧ Forall (λ k, k ∈ info_fields) own.*1) as [Hnd Hown].
  { destruct i as [fl [|t co] pa [s|] e]; split; decide_it. }
  rewrite flat_src_app; [|done|by apply list.Forall_forall|done].
  cbn [mbind outcome_bind]. unfold field_req, field_default, field_opt.
  rewrite !lookup_field_own by (intros Hin; apply (Hkeys _ Hin); decide_it).
  assert (assoc "flows" own = Some (JArray (ser_AuthFlow <$> flows i))) as ->.
  { by destruct i as [fl [|t co] pa [s|] e]. }
  rewrite (proj2 (de_list_round_trip _ _ _)); [|by eapply list.Forall_impl; [exact Hflows|apply de_ser_flow]].
  assert (match assoc "completed" own with Some j => de_list de_string_enum j | None => Ok [] end =
    Ok (E:=()) (completed i)) as Hco.
  { destruct i as [fl [|t co] pa [s|] e]; try done; by apply (de_stages (t :: co)). }
  rewrite Hco. assert (assoc "params" own = Some (params i)) as ->.
  { by destruct i as [fl [|t co] pa [s|] e]. }
  assert (match assoc "session" own with Some j => de_option de_string j | None => Ok None end =
    Ok (E:=()) (info_session i)) as Hse.
  { by destruct i as [fl [|t co] pa [s|] e]. }
  cbn [mbind outcome_bind de_raw].
  rewrite Hse. cbn [mbind outcome_bind]. rewrite Herr. by destruct i.
Qed.

(** C29: Responses: the state of an authentication is read back when it is well formed; an error is
    read back exactly when it is well formed and its status is not the one that stands for an
    unfinished authentication. With that status, an error without a field [flows] is lost: the
    response it writes is not read at all. *)
Theorem uiaa_response_round_trip :
  (∀ i, wf_info i → ∃ h, UiaaResponse_try_into_http_response (AuthResponse i) = Ok h ∧
     status h = UNAUTHORIZED ∧ UiaaResponse_try_from_http_response h = Ok (AuthResponse i)) ∧
  (∀ e, (∃ h, UiaaResponse_try_into_http_response (MatrixError e) = Ok h ∧
           UiaaResponse_try_from_http_response h = Ok (MatrixError e)) ↔
     wf_kind (err_kind e) ∧ status_code e ≠ UNAUTHORIZED) ∧
  (∀ e h, status_code e = UNAUTHORIZED →
     (∀ s extra, err_kind e = Custom s extra → extra !! "flows" = None) →
     UiaaResponse_try_into_http_response (MatrixError e) = Ok h →
     UiaaResponse_try_from_http_response h = Err ()).
Proof.
  assert (∀ e h, ApiError_try_into_http_response e = Ok h → status h = status_code e ∧
    ∃ entries, ErrorBody_serialize (ErrorBody_from e) = Ok entries ∧ body h = Some (JObject entries)) as Hinto.
  { intros e h (entries & Hs & [= <-])%bind_Ok. eauto. }
  split_and!.
  - intros i Hwf. destruct (info_round_trip i Hwf) as (j & Hj & Hd).
    cbn [UiaaResponse_try_into_http_response]. rewrite Hj. eexists. split_and!; [done..|].
    unfold UiaaResponse_try_from_http_response, from_body. simpl. by rewrite Hd.
  - intros e. rewrite <- (ErrorBody_round_trip (ErrorBody_from e)). split.
    + intros (h & (Hst & entries & Hs & Hb)%Hinto & Hfrom).
      unfold UiaaResponse_try_from_http_response in Hfrom. rewrite Hst in Hfrom.
      case_decide as Hd; [by apply bind_Ok in Hfrom as (? & _ & [=])|]. split; [|done].
      exists entries. split; [done|]. apply fmap_Ok in Hfrom as (e' & Hfrom & [= <-]).
      unfold ApiError_try_from_http_response, from_body in Hfrom. rewrite Hb in Hfrom. simpl in Hfrom.
      apply bind_Ok in Hfrom as (b & Hb' & Heq). rewrite Hb'. injection Heq as <-. by destruct b.
    + intros [(entries & Hs & Hd) Hst]. cbn [UiaaResponse_try_into_http_response].
      unfold ApiError_try_into_http_response. rewrite Hs. eexists. split; [done|].
      unfold UiaaResponse_try_from_http_response. simpl. rewrite decide_False by done.
      unfold ApiError_try_from_http_response, from_body. simpl. rewrite Hd. by destruct e.
  - intros e h Hst Hno (Hst' & entries & Hs & Hb)%Hinto.
    unfold UiaaResponse_try_from_http_response, from_body. rewrite Hst', Hst, decide_True, Hb by done. simpl.
    assert ("flows" ∉ entries.*1) as Hfl.
    { intros Hin. destruct (ErrorBody_keys _ _ _ Hs Hin) as [Hr|(s & extra & Heq & [v Hv])].
      - revert Hr. decide_it.
      - by rewrite (Hno s extra Heq) in Hv. }
    unfold de_UiaaInfo, flat_src. case_decide; [|done]. simpl.
    unfold field_req, lookup_field. assert (assoc "flows" entries = None) as ->; [|done].
    rewrite assoc_list_to_map. by apply not_elem_of_list_to_map.
Qed.

(** The source's tests. *)
Example uiaa_tests :
  de_AuthData (H := ascii_unicode) (JObject [("session", JString "opaque_session_id")]) =
    Ok (FallbackAcknowledgement "opaque_session_id") ∧
  ser_AuthData (Token "mytoken" "txn123" (Some "session")) =
    JObject [("type", JString "m.login.token"); ("token", JString "mytoken");
             ("txn_id", JString "txn123"); ("session", JString "session")] ∧
  de_UiaaInfo (JObject [("errcode", JString "M_FORBIDDEN"); ("error", JString "Invalid password");
      ("completed", JArray [JString "m.login.recaptcha"]);
      ("flows", JArray [JObject [("stages", JArray [JString "m.login.password"])]]);
      ("params", JObject []); ("session", JString "xxxxxx")]) =
    Ok {| flows := [{| stages := [AuthType.Password] |}]; completed := [AuthType.ReCaptcha];
          params := JObject []; info_session := Some "xxxxxx";
          auth_error := Some {| kind := Forbidden; message := "Invalid password" |} |}.
Proof. split_and!; reflexivity. Qed.

(** An access token that is no longer known, as the server reports it. *)
Example lost_error :
  let e := {| err_kind := UnknownToken false; err_message := "token"; status_code := 401 |} in
  ∃ h, UiaaResponse_try_into_http_response (MatrixError e) = Ok h ∧
    UiaaResponse_try_from_http_response h = Err ().
Proof. eexists. split; reflexivity. Qed.
