(* ===== verification/Events.v ===== *)
(** * Events

    The event structs of [ruma-events/src/event_kinds.rs] and [room/redaction.rs], and the code
    that [derive(Event)] and [derive(EventContent)] of [ruma-events-macros] generate for them:
    serialization, deserialization, redaction, and the conversions between full and sync events.

    The macros go over the fields of a struct; so do the definitions here. A struct is a value
    of [EventStruct] with its list of fields, and [Event] has each field under the condition
    that the struct has it. Of the structs only [DecryptedOlmV1Event], which has fields of its
    own, is left out. Default features. *)

From S2P Require Import Prelude RustStr RustNet IdValidation StringEnum Identifiers Json.
From S2P Require Import CanonicalJson Serde.
From Stdlib Require Import Ascii NArith.
Open Scope string_scope.
Open Scope nat_scope.
Open Scope list_scope.

(** ** event_parse.rs *)

Inductive EventKind :=
  | GlobalAccountData | RoomAccountData | Ephemeral | MessageKind | StateKind | ToDevice
  | RoomRedactionKind | Presence | Decrypted.

Inductive EventKindVariation := Full | Sync | Stripped | Initial | Redacted | RedactedSync.

#[export] Instance EventKind_eq_dec : EqDecision EventKind.
Proof. solve_decision. Defined.
#[export] Instance EventKindVariation_eq_dec : EqDecision EventKindVariation.
Proof. solve_decision. Defined.

Definition is_redacted (v : EventKindVariation) : bool :=
  match v with Redacted | RedactedSync => true | _ => false end.
Definition is_sync (v : EventKindVariation) : bool :=
  match v with Sync | RedactedSync => true | _ => false end.

Inductive EventStruct :=
  | GlobalAccountDataEvent | RoomAccountDataEvent
  | EphemeralRoomEvent | SyncEphemeralRoomEvent
  | MessageEvent | SyncMessageEvent | RedactedMessageEvent | RedactedSyncMessageEvent
  | StateEvent | SyncStateEvent | StrippedStateEvent | InitialStateEvent
  | RedactedStateEvent | RedactedSyncStateEvent
  | ToDeviceEvent | PresenceEvent | DecryptedMegolmV1Event
  | RoomRedactionEvent | SyncRoomRedactionEvent
  | RedactedRoomRedactionEvent | RedactedSyncRoomRedactionEvent.

Definition to_kind_variation (s : EventStruct) : EventKind * EventKindVariation :=
  match s with
  | GlobalAccountDataEvent => (GlobalAccountData, Full)
  | RoomAccountDataEvent => (RoomAccountData, Full)
  | EphemeralRoomEvent => (Ephemeral, Full)
  | SyncEphemeralRoomEvent => (Ephemeral, Sync)
  | MessageEvent => (MessageKind, Full)
  | SyncMessageEvent => (MessageKind, Sync)
  | RedactedMessageEvent => (MessageKind, Redacted)
  | RedactedSyncMessageEvent => (MessageKind, RedactedSync)
  | StateEvent => (StateKind, Full)
  | SyncStateEvent => (StateKind, Sync)
  | StrippedStateEvent => (StateKind, Stripped)
  | InitialStateEvent => (StateKind, Initial)
  | RedactedStateEvent => (StateKind, Redacted)
  | RedactedSyncStateEvent => (StateKind, RedactedSync)
  | ToDeviceEvent => (ToDevice, Full)
  | PresenceEvent => (Presence, Full)
  | DecryptedMegolmV1Event => (Decrypted, Full)
  | RoomRedactionEvent => (RoomRedactionKind, Full)
  | SyncRoomRedactionEvent => (RoomRedactionKind, Sync)
  | RedactedRoomRedactionEvent => (RoomRedactionKind, Redacted)
  | RedactedSyncRoomRedactionEvent => (RoomRedactionKind, RedactedSync)
  end.

Definition struct_redacted (s : EventStruct) : bool := is_redacted (to_kind_variation s).2.

(** [kind.to_event_ident(var.to_redacted())] and [to_full]; other structs have no such form. *)
Definition redacted_of (s : EventStruct) : EventStruct :=
  match s with
  | MessageEvent => RedactedMessageEvent
  | SyncMessageEvent => RedactedSyncMessageEvent
  | StateEvent => RedactedStateEvent
  | SyncStateEvent => RedactedSyncStateEvent
  | RoomRedactionEvent => RedactedRoomRedactionEvent
  | SyncRoomRedactionEvent => RedactedSyncRoomRedactionEvent
  | s => s
  end.

Definition full_of (s : EventStruct) : EventStruct :=
  match s with
  | SyncEphemeralRoomEvent => EphemeralRoomEvent
  | SyncMessageEvent => MessageEvent
  | RedactedSyncMessageEvent => RedactedMessageEvent
  | SyncStateEvent => StateEvent
  | RedactedSyncStateEvent => RedactedStateEvent
  | SyncRoomRedactionEvent => RoomRedactionEvent
  | RedactedSyncRoomRedactionEvent => RedactedRoomRedactionEvent
  | s => s
  end.

(** ** Fields *)

Inductive EventField :=
  | F_content | F_redacts | F_event_id | F_sender | F_origin_server_ts | F_room_id
  | F_state_key | F_prev_content | F_unsigned.

#[export] Instance EventField_eq_dec : EqDecision EventField.
Proof. solve_decision. Defined.

Definition field_name (f : EventField) : string :=
  match f with
  | F_content => "content"
  | F_redacts => "redacts"
  | F_event_id => "event_id"
  | F_sender => "sender"
  | F_origin_server_ts => "origin_server_ts"
  | F_room_id => "room_id"
  | F_state_key => "state_key"
  | F_prev_content => "prev_content"
  | F_unsigned => "unsigned"
  end.

(** The declarations, in their order. *)
Definition event_fields (s : EventStruct) : list EventField :=
  match s with
  | GlobalAccountDataEvent | RoomAccountDataEvent | SyncEphemeralRoomEvent => [F_content]
  | EphemeralRoomEvent | DecryptedMegolmV1Event => [F_content; F_room_id]
  | MessageEvent | RedactedMessageEvent =>
      [F_content; F_event_id; F_sender; F_origin_server_ts; F_room_id; F_unsigned]
  | SyncMessageEvent | RedactedSyncMessageEvent =>
      [F_content; F_event_id; F_sender; F_origin_server_ts; F_unsigned]
  | StateEvent =>
      [F_content; F_event_id; F_sender; F_origin_server_ts; F_room_id; F_state_key;
       F_prev_content; F_unsigned]
  | SyncStateEvent =>
      [F_content; F_event_id; F_sender; F_origin_server_ts; F_state_key; F_prev_content;
       F_unsigned]
  | StrippedStateEvent => [F_content; F_sender; F_state_key]
  | InitialStateEvent => [F_content; F_state_key]
  | RedactedStateEvent =>
      [F_content; F_event_id; F_sender; F_origin_server_ts; F_room_id; F_state_key; F_unsigned]
  | RedactedSyncStateEvent =>
      [F_content; F_event_id; F_sender; F_origin_server_ts; F_state_key; F_unsigned]
  | ToDeviceEvent | PresenceEvent => [F_content; F_sender]
  | RoomRedactionEvent | RedactedRoomRedactionEvent =>
      [F_content; F_redacts; F_event_id; F_sender; F_origin_server_ts; F_room_id; F_unsigned]
  | SyncRoomRedactionEvent | RedactedSyncRoomRedactionEvent =>
      [F_content; F_redacts; F_event_id; F_sender; F_origin_server_ts; F_unsigned]
  end.

Definition has (s : EventStruct) (f : EventField) : bool := bool_decide (f ∈ event_fields s).

(** util.rs: the fields that get an accessor in the enums, by kind and variation *)
Definition is_non_stripped_room_event (k : EventKind) (v : EventKindVariation) : bool :=
  bool_decide (k ∈ [MessageKind; StateKind]) &&
  bool_decide (v ∈ [Full; Sync; Redacted; RedactedSync]).

Definition has_prev_content_field (k : EventKind) (v : EventKindVariation) : bool :=
  bool_decide (k = StateKind) && bool_decide (v ∈ [Full; Sync]).

Definition EVENT_FIELDS : list (EventField * (EventKind → EventKindVariation → bool)) :=
  [(F_origin_server_ts, is_non_stripped_room_event);
   (F_room_id, λ k v, bool_decide (k ∈ [MessageKind; StateKind; Ephemeral]) &&
                      bool_decide (v ∈ [Full; Redacted]));
   (F_event_id, is_non_stripped_room_event);
   (F_sender, λ k v, bool_decide (k ∈ [MessageKind; StateKind; ToDevice]) &&
                     bool_decide (v ≠ Initial));
   (F_state_key, λ k _, bool_decide (k = StateKind));
   (F_unsigned, is_non_stripped_room_event)].

(** [ruma_event(default)] *)
Definition has_default_attr (s : EventStruct) (f : EventField) : bool :=
  match s, f with InitialStateEvent, F_state_key => true | _, _ => false end.

(** A field that is there under a condition. *)
Definition cond (b : bool) (A : Type) : Type := if b then A else ().

Definition cond_make (b : bool) {A} (a : A) : cond b A :=
  match b return cond b A with true => a | false => tt end.
Definition cond_entries (b : bool) {A} (f : A → list (string * json)) :
    cond b A → list (string * json) :=
  match b return cond b A → _ with true => f | false => λ _, [] end.
Definition cond_read (b : bool) {A} (m : outcome () A) : outcome () (cond b A) :=
  match b return outcome () (cond b A) with true => m | false => Ok tt end.
Definition cond_cast {b b' : bool} {A} (H : b = b') : cond b A → cond b' A :=
  match H in _ = b' return cond b A → cond b' A with eq_refl => λ a, a end.

(** [Box<EventId>], but [Option<Box<EventId>>] in the redacted forms *)
Definition opt_if (b : bool) (A : Type) : Type := if b then option A else A.
Definition redacts_ty (s : EventStruct) : Type := opt_if (struct_redacted s) string.

Record Event (s : EventStruct) (C U : Type) := {
  content : C;
  redacts : cond (has s F_redacts) (redacts_ty s);
  event_id : cond (has s F_event_id) string;
  sender : cond (has s F_sender) string;
  origin_server_ts : cond (has s F_origin_server_ts) Z;
  room_id : cond (has s F_room_id) string;
  state_key : cond (has s F_state_key) string;
  prev_content : cond (has s F_prev_content) (option C);
  unsigned : cond (has s F_unsigned) U
}.
Arguments content {s C U} e.
Arguments redacts {s C U} e.
Arguments event_id {s C U} e.
Arguments sender {s C U} e.
Arguments origin_server_ts {s C U} e.
Arguments room_id {s C U} e.
Arguments state_key {s C U} e.
Arguments prev_content {s C U} e.
Arguments unsigned {s C U} e.

(** [syn::Type::Path] ending in [Option]: written when it is there. *)
Definition redacts_entries (s : EventStruct) : redacts_ty s → list (string * json) :=
  match struct_redacted s as b
    return opt_if b string → list (string * json) with
  | true => skip_none "redacts" JString
  | false => λ id, [("redacts", JString id)]
  end.

(** ** Contents: the traits of lib.rs *)

Class EventContent (C : Type) := {
  event_type : C → string;
  ser_content : C → json;
  from_parts : string → json → outcome () C
}.

Inductive HasDeserializeFields := HDF_True | HDF_False | HDF_Optional.

Class RedactedEventContent (C : Type) `{EventContent C} := {
  empty : string → outcome () C;
  has_serialize_fields : C → bool;
  has_deserialize_fields : HasDeserializeFields
}.

Class RedactContent (C R : Type) := redact_content : C → RoomVersionId → R.

(** What an event has under [unsigned]. *)
Class UnsignedData (U : Type) := {
  ser_unsigned : U → json;
  de_unsigned : decoder U;
  unsigned_is_empty : U → bool;
  unsigned_default : U
}.

(** ** Serialization *)

Section serialize.
Context {s : EventStruct} {C U : Type} `{UnsignedData U}.

(** How a struct writes its content: always, or as [RedactedEventContent] says. *)
Variable content_type : C → string.
Variable content_entries : C → list (string * json).
Variable prev_content_json : C → json.

Definition field_entries (e : Event s C U) (f : EventField) : list (string * json) :=
  match f with
  | F_content => content_entries (content e)
  | F_redacts => cond_entries _ (redacts_entries s) (redacts e)
  | F_event_id => cond_entries _ (λ id, [("event_id", JString id)]) (event_id e)
  | F_sender => cond_entries _ (λ id, [("sender", JString id)]) (sender e)
  | F_origin_server_ts =>
      cond_entries _ (λ ts, [("origin_server_ts", JNumber (NInt ts))]) (origin_server_ts e)
  | F_room_id => cond_entries _ (λ id, [("room_id", JString id)]) (room_id e)
  | F_state_key => cond_entries _ (λ key, [("state_key", JString key)]) (state_key e)
  | F_prev_content =>
      cond_entries _ (skip_none "prev_content" prev_content_json) (prev_content e)
  | F_unsigned =>
      cond_entries _ (λ u, if unsigned_is_empty u then [] else [("unsigned", ser_unsigned u)])
        (unsigned e)
  end.

Definition serialize_event (e : Event s C U) : json :=
  JObject (("type", JString (content_type (content e))) ::
           mjoin (field_entries e <$> event_fields s)).
End serialize.

(** ** Deserialization *)

Section deserialize.
Context {C U : Type} `{UnsignedData U}.

(** What the visitor makes of the [content] value once the type is known. *)
Variable read_content : string → option json → outcome () C.
Variable read_prev_content : string → json → outcome () C.

(** [let x = x.ok_or_else(missing_field)?], after the value was read in the loop *)
Definition read_field {A} (d : decoder A) (entries : list (string * json)) (f : EventField) :
    outcome () A :=
  match assoc (field_name f) entries with Some j => d j | None => Err () end.

Definition read_field_default {A} (dflt : A) (d : decoder A) (entries : list (string * json))
    (f : EventField) : outcome () A :=
  match assoc (field_name f) entries with Some j => d j | None => Ok dflt end.

(** The type of [redacts] may be an [Option]; the field has to be there all the same. *)
Definition de_redacts (s : EventStruct) : decoder (redacts_ty s) :=
  match struct_redacted s as b return decoder (opt_if b string) with
  | true => de_option (de_parse EventId_parse)
  | false => de_parse EventId_parse
  end.

Definition de_event (s : EventStruct) : decoder (Event s C U) := λ j,
  match j with
  | JObject entries =>
      if decide (NoDup (filter (λ k, k ∈ "type" :: (field_name <$> event_fields s)) entries.*1))
      then
        event_type ← match assoc "type" entries with Some t => de_string t | None => Err () end;
        content ← read_content event_type (assoc "content" entries);
        redacts ← cond_read (has s F_redacts) (read_field (de_redacts s) entries F_redacts);
        event_id ← cond_read (has s F_event_id)
          (read_field (de_parse EventId_parse) entries F_event_id);
        sender ← cond_read (has s F_sender) (read_field (de_parse UserId_parse) entries F_sender);
        origin_server_ts ← cond_read (has s F_origin_server_ts)
          (read_field de_uint entries F_origin_server_ts);
        room_id ← cond_read (has s F_room_id)
          (read_field (de_parse RoomId_parse) entries F_room_id);
        state_key ← cond_read (has s F_state_key)
          (if has_default_attr s F_state_key
           then read_field_default "" de_string entries F_state_key
           else read_field de_string entries F_state_key);
        prev_content ← cond_read (has s F_prev_content)
          (match assoc "prev_content" entries with
           | Some j => Some <$> read_prev_content event_type j
           | None => Ok None
           end);
        unsigned ← cond_read (has s F_unsigned)
          (read_field_default unsigned_default de_unsigned entries F_unsigned);
        Ok (Build_Event s C U content redacts event_id sender origin_server_ts room_id state_key
              prev_content unsigned)
      else Err ()
  | _ => Err ()
  end.
End deserialize.

(** The generic structs, by the traits of the content. *)
Section generic.
Context {U : Type} `{UnsignedData U}.

Definition ser_Event {C} `{EventContent C} {s} (e : Event s C U) : json :=
  serialize_event event_type (λ c, [("content", ser_content c)]) ser_content e.

Definition read_regular {C} `{EventContent C} (ty : string) (content : option json) :
    outcome () C :=
  json ← ok_or () content; from_parts ty json.

Definition de_Event {C} `{EventContent C} (s : EventStruct) : decoder (Event s C U) :=
  de_event read_regular from_parts s.

Definition ser_RedactedEvent {C} `{RedactedEventContent C} {s} (e : Event s C U) : json :=
  serialize_event event_type
    (λ c, if has_serialize_fields c then [("content", ser_content c)] else []) ser_content e.

Definition read_redacted {C} `{RedactedEventContent C} (ty : string) (content : option json) :
    outcome () C :=
  match has_deserialize_fields (C:=C) with
  | HDF_False => empty ty
  | HDF_True => json ← ok_or () content; from_parts ty json
  | HDF_Optional => from_parts ty (default (JObject []) content)
  end.

Definition de_RedactedEvent {C} `{RedactedEventContent C} (s : EventStruct) :
    decoder (Event s C U) :=
  de_event read_redacted from_parts s.
End generic.

(** ** unsigned.rs *)

Record Unsigned := { age : option Z; transaction_id : option string }.

Definition Unsigned_is_empty (u : Unsigned) : bool :=
  bool_decide (age u = None) && bool_decide (transaction_id u = None).

Definition ser_Unsigned (u : Unsigned) : json :=
  JObject (skip_none "age" (λ z, JNumber (NInt z)) (age u) ++
           skip_none "transaction_id" JString (transaction_id u)).

Definition de_Unsigned : decoder Unsigned := λ j,
  let fields := ["age"; "transaction_id"] in
  src ← struct_src fields j;
  age ← field_opt fields "age" de_int src;
  transaction_id ← field_opt fields "transaction_id" de_string src;
  Ok {| age := age; transaction_id := transaction_id |}.

#[export] Instance Unsigned_data : UnsignedData Unsigned := {|
  ser_unsigned := ser_Unsigned;
  de_unsigned := de_Unsigned;
  unsigned_is_empty := Unsigned_is_empty;
  unsigned_default := {| age := None; transaction_id := None |}
|}.

(** ** Redaction events *)

(** [derive(EventContent)]: the type is checked before the content is read. *)
Definition from_parts_as {A} (ty : string) (d : decoder A) (ev_type : string) (content : json) :
    outcome () A :=
  if decide (ev_type ≠ ty) then Err () else d content.

Record RoomRedactionEventContent := { reason : option string }.

Definition de_RoomRedactionEventContent : decoder RoomRedactionEventContent := λ j,
  src ← struct_src ["reason"] j;
  reason ← field_opt ["reason"] "reason" de_string src;
  Ok {| reason := reason |}.

#[export] Instance RoomRedaction_content : EventContent RoomRedactionEventContent := {|
  event_type _ := "m.room.redaction";
  ser_content c := JObject (skip_none "reason" JString (reason c));
  from_parts := from_parts_as "m.room.redaction" de_RoomRedactionEventContent
|}.

(** A generated struct without fields: a unit struct, whose JSON is [null]. *)
Inductive RedactedRoomRedactionEventContent := RedactedRoomRedactionContent.

Definition de_unit_struct {A} (a : A) : decoder A := λ j,
  match j with JNull => Ok a | _ => Err () end.

#[export] Instance RedactedRoomRedaction_content : EventContent RedactedRoomRedactionEventContent := {|
  event_type _ := "m.room.redaction";
  ser_content _ := JNull;
  from_parts := from_parts_as "m.room.redaction" (de_unit_struct RedactedRoomRedactionContent)
|}.

(** The [empty] of a content without fields. *)
Definition empty_as {A} (ty : string) (a : A) (ev_type : string) : outcome () A :=
  if decide (ev_type ≠ ty) then Err () else Ok a.

#[export] Instance RedactedRoomRedaction_redacted :
    RedactedEventContent RedactedRoomRedactionEventContent := {|
  empty := empty_as "m.room.redaction" RedactedRoomRedactionContent;
  has_serialize_fields _ := false;
  has_deserialize_fields := HDF_False
|}.

#[export] Instance RoomRedaction_redact :
    RedactContent RoomRedactionEventContent RedactedRoomRedactionEventContent :=
  λ _ _, RedactedRoomRedactionContent.

(** The structs of redaction.rs are not generic: their content is read as it is, and its type
    is not looked at. *)
Definition read_concrete {C} (d : decoder C) (ty : string) (content : option json) :
    outcome () C :=
  json ← ok_or () content; d json.

Definition de_redaction (s : EventStruct) {U} `{UnsignedData U} :
    decoder (Event s RoomRedactionEventContent U) :=
  de_event (read_concrete de_RoomRedactionEventContent) (λ _, de_RoomRedactionEventContent) s.

Definition de_redacted_redaction (s : EventStruct) {U} `{UnsignedData U} :
    decoder (Event s RedactedRoomRedactionEventContent U) :=
  de_event (read_concrete (de_unit_struct RedactedRoomRedactionContent))
    (λ _, de_unit_struct RedactedRoomRedactionContent) s.

Definition SyncRedaction : Type := Event SyncRoomRedactionEvent RoomRedactionEventContent Unsigned.

Record RedactedUnsigned := { redacted_because : option SyncRedaction }.

Definition RedactedUnsigned_new_because (because : SyncRedaction) : RedactedUnsigned :=
  {| redacted_because := Some because |}.

Definition de_RedactedUnsigned : decoder RedactedUnsigned := λ j,
  src ← struct_src ["redacted_because"] j;
  because ← field_opt ["redacted_because"] "redacted_because" (de_redaction SyncRoomRedactionEvent) src;
  Ok {| redacted_because := because |}.

#[export] Instance RedactedUnsigned_data : UnsignedData RedactedUnsigned := {|
  ser_unsigned u := JObject (skip_none "redacted_because" ser_Event (redacted_because u));
  de_unsigned := de_RedactedUnsigned;
  unsigned_is_empty u := match redacted_because u with Some _ => false | None => true end;
  unsigned_default := {| redacted_because := None |}
|}.

(** ** Redaction: [expand_redact_event] *)

(** A redacted form has the fields of the event but for [prev_content]. *)
Lemma has_redacted_of (s : EventStruct) (f : EventField) :
  f ≠ F_prev_content → has s f = has (redacted_of s) f.
Proof. destruct s, f; first [reflexivity | intros []; reflexivity]. Defined.

(** The fields that the derive macro takes over, in the struct [redacted_of]. A struct that is
    redacted has no [prev_content], and [redacts] is what redaction.rs writes by hand. *)
Definition redact_event {s C R} `{RedactContent C R} (e : Event s C Unsigned)
    (redaction : SyncRedaction) (version : RoomVersionId) :
    Event (redacted_of s) R RedactedUnsigned :=
  {| content := redact_content (content e) version;
     redacts := cond_make _
       (match struct_redacted (redacted_of s) as b return opt_if b string with
        | true => None
        | false => ""
        end);
     event_id := cond_cast (has_redacted_of s F_event_id ltac:(discriminate)) (event_id e);
     sender := cond_cast (has_redacted_of s F_sender ltac:(discriminate)) (sender e);
     origin_server_ts :=
       cond_cast (has_redacted_of s F_origin_server_ts ltac:(discriminate)) (origin_server_ts e);
     room_id := cond_cast (has_redacted_of s F_room_id ltac:(discriminate)) (room_id e);
     state_key := cond_cast (has_redacted_of s F_state_key ltac:(discriminate)) (state_key e);
     prev_content := cond_make _ None;
     unsigned := cond_make _ (RedactedUnsigned_new_because redaction) |}.

(** ** Full and sync events: [expand_sync_from_into_full] *)

Lemma has_full_of (s : EventStruct) (f : EventField) :
  f ≠ F_room_id → has s f = has (full_of s) f.
Proof. destruct s, f; first [reflexivity | intros []; reflexivity]. Defined.

Lemma redacts_ty_full_of (s : EventStruct) : redacts_ty s = redacts_ty (full_of s).
Proof. by destruct s. Defined.

Definition redacts_cast {s s'} (H : redacts_ty s = redacts_ty s') {b} :
    cond b (redacts_ty s) → cond b (redacts_ty s') :=
  match H in _ = T return cond b (redacts_ty s) → cond b T with eq_refl => λ x, x end.

Section full_sync.
Context {C U : Type}.

Definition into_full_event {s} (e : Event s C U) (id : string) : Event (full_of s) C U :=
  {| content := content e;
     redacts := redacts_cast (redacts_ty_full_of s)
       (cond_cast (has_full_of s F_redacts ltac:(discriminate)) (redacts e));
     event_id := cond_cast (has_full_of s F_event_id ltac:(discriminate)) (event_id e);
     sender := cond_cast (has_full_of s F_sender ltac:(discriminate)) (sender e);
     origin_server_ts :=
       cond_cast (has_full_of s F_origin_server_ts ltac:(discriminate)) (origin_server_ts e);
     room_id := cond_make _ id;
     state_key := cond_cast (has_full_of s F_state_key ltac:(discriminate)) (state_key e);
     prev_content := cond_cast (has_full_of s F_prev_content ltac:(discriminate)) (prev_content e);
     unsigned := cond_cast (has_full_of s F_unsigned ltac:(discriminate)) (unsigned e) |}.

(** The [From] of a sync struct: its own fields of the full event, which has a [room_id] more. *)
Definition from_full_event {s} (Hs : has s F_room_id = false) (e : Event (full_of s) C U) :
    Event s C U :=
  {| content := content e;
     redacts := cond_cast (eq_sym (has_full_of s F_redacts ltac:(discriminate)))
       (redacts_cast (eq_sym (redacts_ty_full_of s)) (redacts e));
     event_id := cond_cast (eq_sym (has_full_of s F_event_id ltac:(discriminate))) (event_id e);
     sender := cond_cast (eq_sym (has_full_of s F_sender ltac:(discriminate))) (sender e);
     origin_server_ts :=
       cond_cast (eq_sym (has_full_of s F_origin_server_ts ltac:(discriminate)))
         (origin_server_ts e);
     room_id := cond_cast (eq_sym Hs) tt;
     state_key := cond_cast (eq_sym (has_full_of s F_state_key ltac:(discriminate))) (state_key e);
     prev_content :=
       cond_cast (eq_sym (has_full_of s F_prev_content ltac:(discriminate))) (prev_content e);
     unsigned := cond_cast (eq_sym (has_full_of s F_unsigned ltac:(discriminate))) (unsigned e) |}.
End full_sync.

(** ** Comparison: [expand_eq_ord_event] *)

(** Message and state events are equal when their [event_id]s are; the other structs have no
    comparison. *)
Definition event_eq {s C U} (e e' : Event s C U) : bool :=
  match has s F_event_id as b return cond b string → cond b string → bool with
  | true => λ i i', bool_decide (i = i')
  | false => λ _ _, true
  end (event_id e) (event_id e').

(** ** custom.rs *)

Record CustomEventContent := { custom_type : string; data : gmap string json }.

#[export] Instance Custom_content : EventContent CustomEventContent := {|
  event_type := custom_type;
  ser_content c := ser_JsonObject (data c);
  from_parts ty content :=
    data ← de_JsonObject content; Ok {| custom_type := ty; data := data |}
|}.

Record RedactedCustomEventContent := { redacted_custom_type : string }.

#[export] Instance RedactedCustom_content : EventContent RedactedCustomEventContent := {|
  event_type := redacted_custom_type;
  ser_content _ := JObject [];
  from_parts ty _ := Ok {| redacted_custom_type := ty |}
|}.

#[export] Instance RedactedCustom_redacted : RedactedEventContent RedactedCustomEventContent := {|
  empty ty := Ok {| redacted_custom_type := ty |};
  has_serialize_fields _ := false;
  has_deserialize_fields := HDF_False
|}.

#[export] Instance Custom_redact : RedactContent CustomEventContent RedactedCustomEventContent :=
  λ c _, {| redacted_custom_type := custom_type c |}.

(** ** room/aliases.rs *)

Record RoomAliasesEventContent := { aliases : list string }.

Definition de_RoomAliasesEventContent : decoder RoomAliasesEventContent := λ j,
  src ← struct_src ["aliases"] j;
  aliases ← field_req ["aliases"] "aliases" (de_list (de_parse RoomAliasId_parse)) src;
  Ok {| aliases := aliases |}.

#[export] Instance RoomAliases_content : EventContent RoomAliasesEventContent := {|
  event_type _ := "m.room.aliases";
  ser_content c := JObject [("aliases", JArray (JString <$> aliases c))];
  from_parts := from_parts_as "m.room.aliases" de_RoomAliasesEventContent
|}.

Record RedactedRoomAliasesEventContent := { redacted_aliases : option (list string) }.

Definition de_RedactedRoomAliasesEventContent : decoder RedactedRoomAliasesEventContent := λ j,
  src ← struct_src ["aliases"] j;
  aliases ← field_opt ["aliases"] "aliases" (de_list (de_parse RoomAliasId_parse)) src;
  Ok {| redacted_aliases := aliases |}.

#[export] Instance RedactedRoomAliases_content : EventContent RedactedRoomAliasesEventContent := {|
  event_type _ := "m.room.aliases";
  ser_content c :=
    JObject [("aliases", match redacted_aliases c with
                         | Some l => JArray (JString <$> l)
                         | None => JNull
                         end)];
  from_parts := from_parts_as "m.room.aliases" de_RedactedRoomAliasesEventContent
|}.

(** [empty] is the default method. *)
#[export] Instance RedactedRoomAliases_redacted :
    RedactedEventContent RedactedRoomAliasesEventContent := {|
  empty _ := Err ();
  has_serialize_fields c := bool_decide (redacted_aliases c ≠ None);
  has_deserialize_fields := HDF_Optional
|}.

#[export] Instance RoomAliases_redact :
    RedactContent RoomAliasesEventContent RedactedRoomAliasesEventContent := λ c version,
  {| redacted_aliases :=
       match version with
       | V1 | V2 | V3 | V4 | V5 => Some (aliases c)
       | _ => None
       end |}.
