(* ===== verification/EventEnums.v ===== *)
(** * Enums of events

    [event_enum!] of [ruma-events-macros/src/event_enum.rs] and [ruma-events/src/enums.rs]: the
    enums over the message and the state event types, and those over all room events, in their
    full and sync, regular and redacted forms. Which form a JSON object has is read off its
    [type], its [state_key] and [unsigned.redacted_because].

    The contents of the types are a parameter of the enums: a family [V → EnumContent] with the
    traits that [derive(EventContent)] gives them. Redaction events have their own structs. *)

From S2P Require Import Prelude RustStr RustNet IdValidation StringEnum Identifiers Json.
From S2P Require Import CanonicalJson Serde Events.
From Stdlib Require Import Ascii NArith.
Open Scope string_scope.
Open Scope nat_scope.
Open Scope list_scope.

(** ** The variants: [EventEnumEntry::to_variant] *)

Inductive MessageVariant :=
  | CallAnswer | CallInvite | CallHangup | CallCandidates
  | RoomEncrypted | RoomMessage | RoomMessageFeedback | Sticker.

Inductive StateVariant :=
  | PolicyRuleRoom | PolicyRuleServer | PolicyRuleUser | RoomAliases | RoomAvatar
  | RoomCanonicalAlias | RoomCreate | RoomEncryption | RoomGuestAccess | RoomHistoryVisibility
  | RoomJoinRules | RoomMember | RoomName | RoomPinnedEvents | RoomPowerLevels | RoomServerAcl
  | RoomThirdPartyInvite | RoomTombstone | RoomTopic.

(** The listed types but for [m.room.redaction]. *)
Class EventEnumDecl (V : Type) := { event_types : list (string * V) }.

#[export] Instance MessageVariant_decl : EventEnumDecl MessageVariant := {|
  event_types :=
    [("m.call.answer", CallAnswer); ("m.call.invite", CallInvite);
     ("m.call.hangup", CallHangup); ("m.call.candidates", CallCandidates);
     ("m.room.encrypted", RoomEncrypted); ("m.room.message", RoomMessage);
     ("m.room.message.feedback", RoomMessageFeedback); ("m.sticker", Sticker)]
|}.

#[export] Instance StateVariant_decl : EventEnumDecl StateVariant := {|
  event_types :=
    [("m.policy.rule.room", PolicyRuleRoom); ("m.policy.rule.server", PolicyRuleServer);
     ("m.policy.rule.user", PolicyRuleUser); ("m.room.aliases", RoomAliases);
     ("m.room.avatar", RoomAvatar); ("m.room.canonical_alias", RoomCanonicalAlias);
     ("m.room.create", RoomCreate); ("m.room.encryption", RoomEncryption);
     ("m.room.guest_access", RoomGuestAccess);
     ("m.room.history_visibility", RoomHistoryVisibility);
     ("m.room.join_rules", RoomJoinRules); ("m.room.member", RoomMember);
     ("m.room.name", RoomName); ("m.room.pinned_events", RoomPinnedEvents);
     ("m.room.power_levels", RoomPowerLevels); ("m.room.server_acl", RoomServerAcl);
     ("m.room.third_party_invite", RoomThirdPartyInvite); ("m.room.tombstone", RoomTombstone);
     ("m.room.topic", RoomTopic)]
|}.

(** ** Structs of an enum: [to_event_ident] *)

Inductive RoomKind := KMessage | KState | KRedaction.

#[export] Instance RoomKind_eq_dec : EqDecision RoomKind.
Proof. solve_decision. Defined.

Definition sync_struct (k : RoomKind) : EventStruct :=
  match k with
  | KMessage => SyncMessageEvent
  | KState => SyncStateEvent
  | KRedaction => SyncRoomRedactionEvent
  end.

Definition room_struct (k : RoomKind) (sync redacted : bool) : EventStruct :=
  let s := if sync then sync_struct k else full_of (sync_struct k) in
  if redacted then redacted_of s else s.

Definition to_variation (sync redacted : bool) : EventKindVariation :=
  match sync, redacted with
  | false, false => Full
  | true, false => Sync
  | false, true => Redacted
  | true, true => RedactedSync
  end.

(** ** Contents *)

(** A content struct with its redacted form. *)
Record EnumContent := {
  regular : Type;
  redacted : Type;
  regular_content : EventContent regular;
  redacted_content : EventContent redacted;
  redacted_traits : RedactedEventContent redacted;
  redact_traits : RedactContent regular redacted
}.
#[export] Existing Instances regular_content redacted_content redacted_traits redact_traits.

Definition custom_content : EnumContent :=
  {| regular := CustomEventContent; redacted := RedactedCustomEventContent;
     redacted_traits := _; redact_traits := _ |}.

Definition redaction_content : EnumContent :=
  {| regular := RoomRedactionEventContent; redacted := RedactedRoomRedactionEventContent;
     redacted_traits := _; redact_traits := _ |}.

Definition aliases_content : EnumContent :=
  {| regular := RoomAliasesEventContent; redacted := RedactedRoomAliasesEventContent;
     redacted_traits := _; redact_traits := _ |}.

(** [expand_event_content] for a content struct with its derived JSON form: the type is checked
    when it is read, and the redacted form is generated. Without fields that are kept it is a
    unit struct that is never written. *)
Definition derived_content {C} (ty : string) (ser : C → json) (d : decoder C) : EnumContent :=
  {| regular := C; redacted := ();
     regular_content :=
       {| event_type _ := ty; ser_content := ser; from_parts := from_parts_as ty d |};
     redacted_content :=
       {| event_type _ := ty; ser_content _ := JNull;
          from_parts := from_parts_as ty (de_unit_struct ()) |};
     redacted_traits :=
       {| empty := empty_as ty ();
          has_serialize_fields _ := false; has_deserialize_fields := HDF_False |};
     redact_traits := λ _ _, () |}.

(** With [skip_redaction] fields, which [kept] takes over, it is written like any content. *)
Definition derived_content_keeping {C K} (ty : string) (ser : C → json) (d : decoder C)
    (kept : C → K) (ser_kept : K → json) (d_kept : decoder K) : EnumContent :=
  {| regular := C; redacted := K;
     regular_content :=
       {| event_type _ := ty; ser_content := ser; from_parts := from_parts_as ty d |};
     redacted_content :=
       {| event_type _ := ty; ser_content := ser_kept; from_parts := from_parts_as ty d_kept |};
     redacted_traits :=
       {| empty ev_type := if decide (ev_type ≠ ty) then Err () else Err ();
          has_serialize_fields _ := true; has_deserialize_fields := HDF_True |};
     redact_traits := λ c _, kept c |}.

Definition unsigned_of (red : bool) : Type := if red then RedactedUnsigned else Unsigned.
Definition content_of (red : bool) (c : EnumContent) : Type :=
  if red then redacted c else regular c.

(** [EventContent::event_type] of either form *)
Definition type_of {c} (red : bool) : content_of red c → string :=
  match red return content_of red c → string with true => event_type | false => event_type end.

(** The struct of a variant. *)
Definition RoomEvent (k : RoomKind) (sync red : bool) (c : EnumContent) : Type :=
  Event (room_struct k sync red) (content_of red c) (unsigned_of red).

Definition ser_RoomEvent {k sync red c} : RoomEvent k sync red c → json :=
  match red return RoomEvent k sync red c → json with
  | true => λ e, ser_RedactedEvent e
  | false => λ e, ser_Event e
  end.

Definition de_RoomEvent (k : RoomKind) (sync red : bool) (c : EnumContent) :
    decoder (RoomEvent k sync red c) :=
  match red return decoder (RoomEvent k sync red c) with
  | true => de_RedactedEvent (C:=redacted c) (room_struct k sync true)
  | false => de_Event (C:=regular c) (room_struct k sync false)
  end.

(** The structs of redaction.rs, which are not generic. *)
Definition de_RedactionEvent (sync red : bool) :
    decoder (RoomEvent KRedaction sync red redaction_content) :=
  match red return decoder (RoomEvent KRedaction sync red redaction_content) with
  | true => de_redacted_redaction (room_struct KRedaction sync true)
  | false => de_redaction (room_struct KRedaction sync false)
  end.

Definition redact_RoomEvent {k sync c} (e : RoomEvent k sync false c) :
    SyncRedaction → RoomVersionId → RoomEvent k sync true c :=
  redact_event (C:=regular c) (R:=redacted c) e.

Definition into_full_RoomEvent {k red c} :
    RoomEvent k true red c → string → RoomEvent k false red c :=
  match k, red return RoomEvent k true red c → string → RoomEvent k false red c with
  | KMessage, true => λ e id, into_full_event e id
  | KMessage, false => λ e id, into_full_event e id
  | KState, true => λ e id, into_full_event e id
  | KState, false => λ e id, into_full_event e id
  | KRedaction, true => λ e id, into_full_event e id
  | KRedaction, false => λ e id, into_full_event e id
  end.

(** ** [expand_event_enum] *)

(** [EventTypeDeHelper] *)
Definition de_event_type : decoder string := λ j,
  src ← struct_src ["type"] j; field_req ["type"] "type" de_string src.

Section any_event.
Context {V : Type} `{EventEnumDecl V} (contents : V → EnumContent).

Inductive AnyEvent (k : RoomKind) (sync red : bool) :=
  | Known (v : V) (e : RoomEvent k sync red (contents v))
  | Custom (e : RoomEvent k sync red custom_content).
Arguments Known {k sync red} v e.
Arguments Custom {k sync red} e.

Definition ser_AnyEvent {k sync red} (e : AnyEvent k sync red) : json :=
  match e with Known _ e => ser_RoomEvent e | Custom e => ser_RoomEvent e end.

(** The event is read a second time once its type is known. *)
Definition de_AnyEvent_as (k : RoomKind) (sync red : bool) (ty : string) :
    decoder (AnyEvent k sync red) := λ j,
  match assoc ty event_types with
  | Some v => Known v <$> de_RoomEvent k sync red (contents v) j
  | None => Custom <$> de_RoomEvent k sync red custom_content j
  end.

Definition de_AnyEvent (k : RoomKind) (sync red : bool) : decoder (AnyEvent k sync red) := λ j,
  ty ← de_event_type j; de_AnyEvent_as k sync red ty j.

(** [expand_redact], [expand_into_full_event] and, of [expand_accessor_methods], [event_type] *)
Definition redact_AnyEvent {k sync} (e : AnyEvent k sync false) (redaction : SyncRedaction)
    (version : RoomVersionId) : AnyEvent k sync true :=
  match e with
  | Known v e => Known v (redact_RoomEvent e redaction version)
  | Custom e => Custom (redact_RoomEvent e redaction version)
  end.

Definition into_full_AnyEvent {k red} (e : AnyEvent k true red) (id : string) :
    AnyEvent k false red :=
  match e with
  | Known v e => Known v (into_full_RoomEvent e id)
  | Custom e => Custom (into_full_RoomEvent e id)
  end.

Definition AnyEvent_event_type {k sync red} (e : AnyEvent k sync red) : string :=
  match e with Known _ e => type_of red (content e) | Custom e => type_of red (content e) end.
End any_event.
Arguments Known {V contents k sync red} v e.
Arguments Custom {V contents k sync red} e.

(** ** [AnyMessageEvent], [AnyStateEvent] and their other forms *)

Section room_events.
Variable message_contents : MessageVariant → EnumContent.
Variable state_contents : StateVariant → EnumContent.

Inductive AnyMessageEvent (sync red : bool) :=
  | AnyMessage (e : AnyEvent message_contents KMessage sync red)
  | RoomRedaction (e : RoomEvent KRedaction sync red redaction_content).
Arguments AnyMessage {sync red} e.
Arguments RoomRedaction {sync red} e.

Definition AnyStateEvent : bool → bool → Type := AnyEvent state_contents KState.

Definition ser_AnyMessageEvent {sync red} (e : AnyMessageEvent sync red) : json :=
  match e with AnyMessage e => ser_AnyEvent _ e | RoomRedaction e => ser_RoomEvent e end.

Definition de_AnyMessageEvent (sync red : bool) : decoder (AnyMessageEvent sync red) := λ j,
  ty ← de_event_type j;
  if decide (ty = "m.room.redaction") then RoomRedaction <$> de_RedactionEvent sync red j
  else AnyMessage <$> de_AnyEvent_as message_contents KMessage sync red ty j.

Definition de_AnyStateEvent (sync red : bool) : decoder (AnyStateEvent sync red) :=
  de_AnyEvent state_contents KState sync red.

Definition redact_AnyMessageEvent {sync} (e : AnyMessageEvent sync false)
    (redaction : SyncRedaction) (version : RoomVersionId) : AnyMessageEvent sync true :=
  match e with
  | AnyMessage e => AnyMessage (redact_AnyEvent _ e redaction version)
  | RoomRedaction e => RoomRedaction (redact_RoomEvent e redaction version)
  end.

Definition into_full_AnyMessageEvent {red} (e : AnyMessageEvent true red) (id : string) :
    AnyMessageEvent false red :=
  match e with
  | AnyMessage e => AnyMessage (into_full_AnyEvent _ e id)
  | RoomRedaction e => RoomRedaction (into_full_RoomEvent e id)
  end.

(** ** enums.rs *)

Inductive AnyRoomEvent (sync : bool) :=
  | Message (e : AnyMessageEvent sync false)
  | State (e : AnyStateEvent sync false)
  | RedactedMessage (e : AnyMessageEvent sync true)
  | RedactedState (e : AnyStateEvent sync true).
Arguments Message {sync} e.
Arguments State {sync} e.
Arguments RedactedMessage {sync} e.
Arguments RedactedState {sync} e.

Definition ser_AnyRoomEvent {sync} (e : AnyRoomEvent sync) : json :=
  match e with
  | Message e => ser_AnyMessageEvent e
  | State e => ser_AnyEvent _ e
  | RedactedMessage e => ser_AnyMessageEvent e
  | RedactedState e => ser_AnyEvent _ e
  end.

(** [UnsignedDeHelper]: whether there is a [redacted_because]. *)
Definition de_unsigned_helper : decoder bool := λ j,
  src ← struct_src ["redacted_because"] j;
  because ← field_opt ["redacted_because"] "redacted_because" de_ignored src;
  Ok (bool_decide (because ≠ None)).

(** [EventDeHelper]: whether there is a [state_key], and whether the event is redacted. *)
Definition de_event_helper : decoder (bool * bool) := λ j,
  let fields := ["state_key"; "unsigned"] in
  src ← struct_src fields j;
  key ← field_opt fields "state_key" de_ignored src;
  redacted ← field_opt fields "unsigned" de_unsigned_helper src;
  Ok (bool_decide (key ≠ None), default false redacted).

Definition de_AnyRoomEvent (sync : bool) : decoder (AnyRoomEvent sync) := λ j,
  '(state, redacted) ← de_event_helper j;
  match (state, redacted) : bool * bool with
  | (true, true) => RedactedState <$> de_AnyStateEvent sync true j
  | (true, false) => State <$> de_AnyStateEvent sync false j
  | (false, true) => RedactedMessage <$> de_AnyMessageEvent sync true j
  | (false, false) => Message <$> de_AnyMessageEvent sync false j
  end.

Definition AnySyncRoomEvent_into_full_event (e : AnyRoomEvent true) (id : string) :
    AnyRoomEvent false :=
  match e with
  | Message e => Message (into_full_AnyMessageEvent e id)
  | State e => State (into_full_AnyEvent _ e id)
  | RedactedMessage e => RedactedMessage (into_full_AnyMessageEvent e id)
  | RedactedState e => RedactedState (into_full_AnyEvent _ e id)
  end.

(** [AnyRedactedRoomEvent], the redaction of any event, and the [From] that goes back. *)
Inductive AnyRedactedRoomEvent (sync : bool) :=
  | ARMessage (e : AnyMessageEvent sync true)
  | ARState (e : AnyStateEvent sync true).
Arguments ARMessage {sync} e.
Arguments ARState {sync} e.

Definition redact_AnyRoomEvent {sync} (e : AnyRoomEvent sync) (redaction : SyncRedaction)
    (version : RoomVersionId) : AnyRedactedRoomEvent sync :=
  match e with
  | Message e => ARMessage (redact_AnyMessageEvent e redaction version)
  | State e => ARState (redact_AnyEvent _ e redaction version)
  | RedactedMessage e => ARMessage e
  | RedactedState e => ARState e
  end.

Definition AnyRoomEvent_from {sync} (e : AnyRedactedRoomEvent sync) : AnyRoomEvent sync :=
  match e with ARMessage e => RedactedMessage e | ARState e => RedactedState e end.

(** ** [expand_possibly_redacted_enum]: a regular event or a redacted one *)

(** [RedactionDeHelper] *)
Definition de_redaction_helper : decoder bool := λ j,
  src ← struct_src ["unsigned"] j;
  redacted ← field_opt ["unsigned"] "unsigned" de_unsigned_helper src;
  Ok (default false redacted).

Definition de_AnyPossiblyRedacted {A B} (regular : decoder A) (redacted : decoder B) :
    decoder (A + B) := λ j,
  is_red ← de_redaction_helper j;
  if is_red : bool then inr <$> redacted j else inl <$> regular j.

Definition de_AnyPossiblyRedactedMessageEvent (sync : bool) :
    decoder (AnyMessageEvent sync false + AnyMessageEvent sync true) :=
  de_AnyPossiblyRedacted (de_AnyMessageEvent sync false) (de_AnyMessageEvent sync true).

Definition de_AnyPossiblyRedactedStateEvent (sync : bool) :
    decoder (AnyStateEvent sync false + AnyStateEvent sync true) :=
  de_AnyPossiblyRedacted (de_AnyStateEvent sync false) (de_AnyStateEvent sync true).
End room_events.
Arguments AnyMessage {message_contents sync red} e.
Arguments RoomRedaction {message_contents sync red} e.
Arguments Message {message_contents state_contents sync} e.
Arguments State {message_contents state_contents sync} e.
Arguments RedactedMessage {message_contents state_contents sync} e.
Arguments RedactedState {message_contents state_contents sync} e.
