(* ===== verification/EventsSpec.v ===== *)
(** * Events: theorems

    Every event struct reads back what it writes, whatever its content type, and the type of the
    content decides how; a redacted event keeps exactly the identifying fields and names its
    redaction; a full event is a sync event with a room ID. Redacted redaction events are the
    one struct that is not read back. *)

From S2P Require Import Prelude RustStr RustNet IdValidation StringEnum Identifiers Json.
From S2P Require Import CanonicalJson Serde Events.
From Stdlib Require Import Ascii NArith.
Open Scope string_scope.
Open Scope nat_scope.
Open Scope list_scope.

(** ** Fields under a condition *)

Definition cond_get {b : bool} {A} : cond b A → option A :=
  match b return cond b A → option A with true => Some | false => λ _, None end.

Lemma cond_entries_get b A (f : A → list (string * json)) (x : cond b A) :
  cond_entries b f x = match cond_get x with Some a => f a | None => [] end.
Proof. by destruct b. Qed.

Lemma cond_read_get b A (m : outcome () A) (x : cond b A) :
  (∀ a, b = true → cond_get x = Some a → m = Ok a) → cond_read b m = Ok x.
Proof. destruct b; simpl; [auto | by destruct x]. Qed.

Lemma cond_get_cast b b' A (H : b = b') (x : cond b A) : cond_get (cond_cast H x) = cond_get x.
Proof. by destruct H. Qed.

Lemma cond_get_make b A (a : A) : cond_get (cond_make b a) = if b then Some a else None.
Proof. by destruct b. Qed.

Lemma cond_get_inj b A (x y : cond b A) : cond_get x = cond_get y → x = y.
Proof. destruct b; simpl; [congruence | by destruct x, y]. Qed.

Lemma cond_get_false b A (x : cond b A) : b = false → cond_get x = None.
Proof. by intros ->. Qed.

(** Events are equal field by field. *)
Lemma Event_ext {s C U} (e e' : Event s C U) :
  content e = content e' → cond_get (redacts e) = cond_get (redacts e') →
  cond_get (event_id e) = cond_get (event_id e') → cond_get (sender e) = cond_get (sender e') →
  cond_get (origin_server_ts e) = cond_get (origin_server_ts e') →
  cond_get (room_id e) = cond_get (room_id e') →
  cond_get (state_key e) = cond_get (state_key e') →
  cond_get (prev_content e) = cond_get (prev_content e') →
  cond_get (unsigned e) = cond_get (unsigned e') → e = e'.
Proof.
  destruct e, e'. simpl. intros -> ?%cond_get_inj ?%cond_get_inj ?%cond_get_inj ?%cond_get_inj
    ?%cond_get_inj ?%cond_get_inj ?%cond_get_inj ?%cond_get_inj. by subst.
Qed.

(** ** Entries of an object, field by field *)

Lemma event_fields_NoDup s : NoDup (event_fields s).
Proof. destruct s; apply (bool_decide_unpack _); vm_compute; exact I. Qed.

Lemma field_name_inj f f' : field_name f = field_name f' → f = f'.
Proof. by destruct f, f'. Qed.

Lemma field_name_type f : field_name f ≠ "type".
Proof. by destruct f. Qed.

Lemma has_content s : has s F_content = true.
Proof. by destruct s. Qed.

(** The accessors of the enums are those of fields that the structs have, and the other way
    round, for the kinds that have enums. *)
Lemma EVENT_FIELDS_agree s :
  (to_kind_variation s).1 ∉ [Presence; RoomRedactionKind; Decrypted] →
  Forall (λ '(f, has_field), has_field (to_kind_variation s).1 (to_kind_variation s).2 = has s f)
    ((F_prev_content, has_prev_content_field) :: EVENT_FIELDS).
Proof.
  intros Hs. destruct s; first [decide_it | destruct Hs; decide_it].
Qed.

(** The entries of a field: none, or one under its name. *)
Definition own_entry (f : EventField) (l : list (string * json)) : Prop :=
  l = [] ∨ ∃ j, l = [(field_name f, j)].

Section own.
Variable g : EventField → list (string * json).
Hypothesis Hg : ∀ f, own_entry f (g f).

Lemma own_keys fs : (mjoin (g <$> fs)).*1 `sublist_of` (field_name <$> fs).
Proof.
  induction fs as [|f fs IH]; [done|]. csimpl. rewrite fmap_app.
  destruct (Hg f) as [->|[j ->]]; csimpl; [by apply sublist_cons|by apply sublist_skip].
Qed.

Lemma own_assoc fs f :
  NoDup fs → f ∈ fs → assoc (field_name f) (mjoin (g <$> fs)) = snd <$> head (g f).
Proof.
  induction fs as [|f' fs IH]; intros Hnd Hin; [by apply not_elem_of_nil in Hin|].
  apply list.NoDup_cons in Hnd as [Hno Hnd]. csimpl. apply elem_of_cons in Hin as [<-|Hin].
  - destruct (Hg f) as [->|[j ->]]; csimpl.
    + apply assoc_None. intros Hk. eapply elem_of_sublist in Hk; [|apply own_keys].
      by apply list_elem_of_fmap in Hk as (f' & <-%field_name_inj & ?).
    + by rewrite assoc_cons, decide_True.
  - rewrite assoc_app_r; [by apply IH|]. destruct (Hg f') as [->|[j ->]]; csimpl.
    + apply not_elem_of_nil.
    + intros Hk%list_elem_of_singleton%field_name_inj. by subst.
Qed.
End own.

(** ** Round trips *)

(** A value of [redacts] that is written and valid. *)
Definition redacts_wf (s : EventStruct) : redacts_ty s → Prop :=
  match struct_redacted s as b return opt_if b string → Prop with
  | true => λ r, ∃ id, r = Some id ∧ EventId_parse id = Ok id
  | false => λ id, EventId_parse id = Ok id
  end.

Definition unsigned_wf {U} `{UnsignedData U} (u : U) : Prop :=
  if unsigned_is_empty u then u = unsigned_default else de_unsigned (ser_unsigned u) = Ok u.

(** An event whose fields are values of their types: valid identifiers, a safe integer. *)
Record wf_event {s C U} `{UnsignedData U} (e : Event s C U) : Prop := {
  wf_redacts r : cond_get (redacts e) = Some r → redacts_wf s r;
  wf_event_id id : cond_get (event_id e) = Some id → EventId_parse id = Ok id;
  wf_sender id : cond_get (sender e) = Some id → UserId_parse id = Ok id;
  wf_ts ts : cond_get (origin_server_ts e) = Some ts → uint_in_range ts = true;
  wf_room_id id : cond_get (room_id e) = Some id → RoomId_parse id = Ok id;
  wf_unsigned u : cond_get (unsigned e) = Some u → unsigned_wf u
}.

Lemma de_redacts_entries s (r : redacts_ty s) :
  redacts_wf s r → ∃ j, redacts_entries s r = [("redacts", j)] ∧ de_redacts s j = Ok r.
Proof.
  unfold redacts_wf, redacts_entries, de_redacts, redacts_ty in *. intros Hr. revert r Hr.
  destruct (struct_redacted s); simpl.
  - intros r (id & -> & Hid). exists (JString id). split; [done|]. simpl.
    unfold de_option. by rewrite (de_parse_Ok _ _ _ Hid).
  - intros id Hid. exists (JString id). split; [done|]. by apply de_parse_Ok.
Qed.

Lemma redacts_own s (r : redacts_ty s) : own_entry F_redacts (redacts_entries s r).
Proof.
  revert r. unfold redacts_entries, redacts_ty. destruct (struct_redacted s); simpl.
  - intros [id|]; [right; by eexists|by left].
  - intros id. right. by eexists.
Qed.

Lemma read_field_Ok {A} (d : decoder A) entries f j a :
  assoc (field_name f) entries = Some j → d j = Ok a → read_field d entries f = Ok a.
Proof. intros Hj Ha. unfold read_field. by rewrite Hj. Qed.

Section round_trip.
Context {s : EventStruct} {C U : Type} `{UnsignedData U}.
Variable content_type : C → string.
Variable content_entries : C → list (string * json).
Variable prev_content_json : C → json.
Variable read_content : string → option json → outcome () C.
Variable read_prev_content : string → json → outcome () C.
Hypothesis content_own : ∀ c, own_entry F_content (content_entries c).

Lemma field_entries_own (e : Event s C U) f :
  own_entry f (field_entries content_entries prev_content_json e f).
Proof.
  destruct f; simpl; try apply content_own; rewrite cond_entries_get; case_match;
    try (by left); try (by right; eexists).
  - apply redacts_own.
  - unfold skip_none. case_match; [right; by eexists|by left].
  - case_match; [by left|right; by eexists].
Qed.

Lemma event_entries_assoc (e : Event s C U) f t :
  has s f = true →
  assoc (field_name f) (("type", t) ::
    mjoin (field_entries content_entries prev_content_json e <$> event_fields s)) =
  snd <$> head (field_entries content_entries prev_content_json e f).
Proof.
  intros Hf%bool_decide_eq_true. rewrite assoc_cons, decide_False.
  - apply own_assoc; [apply field_entries_own|apply event_fields_NoDup|done].
  - by intros ?%eq_sym%field_name_type.
Qed.

Lemma event_entries_no_field (e : Event s C U) f t :
  has s f = false →
  assoc (field_name f) (("type", t) ::
    mjoin (field_entries content_entries prev_content_json e <$> event_fields s)) = None.
Proof.
  intros Hf%bool_decide_eq_false. apply assoc_None. csimpl. rewrite not_elem_of_cons. split.
  - apply field_name_type.
  - intros Hk. eapply elem_of_sublist in Hk; [|apply own_keys, field_entries_own].
    by apply list_elem_of_fmap in Hk as (f' & <-%field_name_inj & ?).
Qed.

Lemma event_keys_NoDup (e : Event s C U) t :
  NoDup (("type", t) ::
    mjoin (field_entries content_entries prev_content_json e <$> event_fields s)).*1.
Proof.
  eapply sublist_NoDup; [|apply sublist_skip, own_keys, field_entries_own].
  apply list.NoDup_cons. split.
  - intros (f & ?%eq_sym%field_name_type & _)%list_elem_of_fmap. done.
  - apply NoDup_fmap_2_strong; [intros; by apply field_name_inj|apply event_fields_NoDup].
Qed.

(** What is written for each name *)
Lemma event_entry {A} (e : Event s C U) f (g : A → list (string * json)) x t :
  field_entries content_entries prev_content_json e f = cond_entries (has s f) g x →
  assoc (field_name f) (("type", t) ::
    mjoin (field_entries content_entries prev_content_json e <$> event_fields s)) =
  a ← cond_get x; snd <$> head (g a).
Proof.
  intros Hf. destruct (decide (has s f = true)) as [Hs|Hs%not_true_is_false].
  - rewrite (event_entries_assoc e f _ Hs), Hf, cond_entries_get. by destruct (cond_get x).
  - rewrite (event_entries_no_field e f _ Hs). by rewrite (cond_get_false _ _ x Hs).
Qed.

Lemma serialize_event_get (e : Event s C U) :
  let get key := json_get key (serialize_event content_type content_entries prev_content_json e) in
  get "type" = Some (JString (content_type (content e))) ∧
  get "content" = snd <$> head (content_entries (content e)) ∧
  get "redacts" = (r ← cond_get (redacts e); snd <$> head (redacts_entries s r)) ∧
  get "event_id" = JString <$> cond_get (event_id e) ∧
  get "sender" = JString <$> cond_get (sender e) ∧
  get "origin_server_ts" = (JNumber ∘ NInt) <$> cond_get (origin_server_ts e) ∧
  get "room_id" = JString <$> cond_get (room_id e) ∧
  get "state_key" = JString <$> cond_get (state_key e) ∧
  get "prev_content" = (p ← cond_get (prev_content e); prev_content_json <$> p) ∧
  get "unsigned" =
    (u ← cond_get (unsigned e); if unsigned_is_empty u then None else Some (ser_unsigned u)) ∧
  ∀ key, key ≠ "type" → (∀ f, key ≠ field_name f) → get key = None.
Proof.
  cbn zeta. unfold json_get, serialize_event. split_and!.
  - done.
  - apply (event_entries_assoc e F_content), has_content.
  - exact (event_entry e F_redacts _ _ _ eq_refl).
  - etrans; [exact (event_entry e F_event_id _ _ _ eq_refl)|by destruct (cond_get _)].
  - etrans; [exact (event_entry e F_sender _ _ _ eq_refl)|by destruct (cond_get _)].
  - etrans; [exact (event_entry e F_origin_server_ts _ _ _ eq_refl)|by destruct (cond_get _)].
  - etrans; [exact (event_entry e F_room_id _ _ _ eq_refl)|by destruct (cond_get _)].
  - etrans; [exact (event_entry e F_state_key _ _ _ eq_refl)|by destruct (cond_get _)].
  - etrans; [exact (event_entry e F_prev_content _ _ _ eq_refl)|by destruct (cond_get _) as [[]|]].
  - etrans; [exact (event_entry e F_unsigned _ _ _ eq_refl)|destruct (cond_get _); [|done]].
    cbn. by destruct (unsigned_is_empty _).
  - intros key Hty Hf. apply assoc_None. csimpl. rewrite not_elem_of_cons. split; [done|].
    intros Hk. eapply elem_of_sublist in Hk; [|apply own_keys, field_entries_own].
    by apply list_elem_of_fmap in Hk as (f & ?%Hf & _).
Qed.

(** What the helper structs of the enums see of a written event. *)
Lemma serialize_event_entries (e : Event s C U) :
  ∃ entries, serialize_event content_type content_entries prev_content_json e = JObject entries ∧
    NoDup entries.*1 ∧ assoc "type" entries = Some (JString (content_type (content e))) ∧
    assoc "state_key" entries = JString <$> cond_get (state_key e) ∧
    assoc "unsigned" entries =
      u ← cond_get (unsigned e); if unsigned_is_empty u then None else Some (ser_unsigned u).
Proof.
  destruct (serialize_event_get e) as (Hty & _ & _ & _ & _ & _ & _ & Hkey & _ & Hu & _).
  eexists. split; [done|]. split; [apply event_keys_NoDup|]. split; [exact Hty|]. by split.
Qed.

Lemma de_serialize_event (e : Event s C U) :
  wf_event e →
  read_content (content_type (content e)) (snd <$> head (content_entries (content e))) =
    Ok (content e) →
  (∀ c, cond_get (prev_content e) = Some (Some c) →
    read_prev_content (content_type (content e)) (prev_content_json c) = Ok c) →
  de_event read_content read_prev_content s
    (serialize_event content_type content_entries prev_content_json e) = Ok e.
Proof.
  intros [] Hc Hp. unfold serialize_event, de_event.
  rewrite decide_True by apply list.NoDup_filter, event_keys_NoDup.
  set (entries := _ :: _).
  assert (∀ f, has s f = true → assoc (field_name f) entries = _) as Hassoc
    by (intros f; exact (event_entries_assoc e f _)).
  replace (assoc "type" entries) with (Some (JString (content_type (content e)))) by done.
  assert (assoc "content" entries = _) as -> by apply (Hassoc F_content), has_content.
  clearbody entries. cbn [de_string field_entries mbind outcome_bind]. rewrite Hc.
  assert (∀ (A : Type) f (x : cond (has s f) A) g a,
    field_entries content_entries prev_content_json e f = cond_entries _ g x →
    cond_get x = Some a → has s f = true →
    assoc (field_name f) entries = snd <$> head (g a)) as Hread.
  { intros A f x g a Hf Ha Hb. rewrite (Hassoc _ Hb), Hf, cond_entries_get. by rewrite Ha. }
  erewrite (cond_read_get _ _ _ (redacts e)).
  2:{ intros r Hb Hr. destruct (de_redacts_entries s r) as (j & Hj & ?); [auto|].
      apply (read_field_Ok _ _ _ j); [|done]. by rewrite (Hread _ F_redacts _ _ r eq_refl), Hj. }
  erewrite (cond_read_get _ _ _ (event_id e)).
  2:{ intros id Hb Hid. eapply read_field_Ok; [by rewrite (Hread _ F_event_id _ _ id eq_refl)|].
      apply de_parse_Ok; auto. }
  erewrite (cond_read_get _ _ _ (sender e)).
  2:{ intros id Hb Hid. eapply read_field_Ok; [by rewrite (Hread _ F_sender _ _ id eq_refl)|].
      apply de_parse_Ok; auto. }
  erewrite (cond_read_get _ _ _ (origin_server_ts e)).
  2:{ intros ts Hb Hts.
      eapply read_field_Ok; [by rewrite (Hread _ F_origin_server_ts _ _ ts eq_refl)|].
      apply de_uint_Ok; auto. }
  erewrite (cond_read_get _ _ _ (room_id e)).
  2:{ intros id Hb Hid. eapply read_field_Ok; [by rewrite (Hread _ F_room_id _ _ id eq_refl)|].
      apply de_parse_Ok; auto. }
  erewrite (cond_read_get _ _ _ (state_key e)).
  2:{ intros key Hb Hkey. pose proof (Hread _ F_state_key _ _ key eq_refl Hkey Hb) as Ha.
      unfold read_field_default, read_field. rewrite Ha. by case_match. }
  erewrite (cond_read_get _ _ _ (prev_content e)).
  2:{ intros prev Hb Hprev. pose proof (Hread _ F_prev_content _ _ prev eq_refl Hprev Hb) as Ha.
      change (field_name F_prev_content) with "prev_content" in Ha. rewrite Ha.
      destruct prev as [c|]; simpl; [by rewrite Hp|done]. }
  erewrite (cond_read_get _ _ _ (unsigned e)).
  2:{ intros u Hb Hu. pose proof (Hread _ F_unsigned _ _ u eq_refl Hu Hb) as Ha.
      unfold read_field_default. rewrite Ha. specialize (wf_unsigned0 u Hu). unfold unsigned_wf in *.
      destruct (unsigned_is_empty u); simpl; [by subst|done]. }
  by destruct e.
Qed.
End round_trip.

(** ** Contents of a struct *)

(** A content that [from_parts] reads back from what was written. *)
Definition content_reads {C} `{EventContent C} (c : C) : Prop :=
  from_parts (event_type c) (ser_content c) = Ok c.

(** The same for a redacted content, whose struct may leave it out. *)
Definition redacted_content_reads {C} `{RedactedEventContent C} (c : C) : Prop :=
  read_redacted (event_type c) (if has_serialize_fields c then Some (ser_content c) else None) =
  Ok c.

Lemma Event_round_trip_lemma {s C U} `{EventContent C} `{UnsignedData U} (e : Event s C U) :
  wf_event e → content_reads (content e) →
  (∀ c, cond_get (prev_content e) = Some (Some c) →
    event_type c = event_type (content e) ∧ content_reads c) →
  de_Event s (ser_Event e) = Ok e.
Proof.
  intros Hwf Hc Hp. apply de_serialize_event; [|done|exact Hc|].
  - intros c. right. by eexists.
  - intros c Hget. destruct (Hp c Hget) as [<- ?]. done.
Qed.

Lemma RedactedEvent_round_trip_lemma {s C U} `{RedactedEventContent C} `{UnsignedData U}
    (e : Event s C U) :
  has s F_prev_content = false → wf_event e → redacted_content_reads (content e) →
  de_RedactedEvent s (ser_RedactedEvent e) = Ok e.
Proof.
  intros Hs Hwf Hc. apply de_serialize_event; [|done| |].
  - intros c. case_match; [right; by eexists|by left].
  - unfold redacted_content_reads in Hc. by case_match.
  - intros c. by rewrite (cond_get_false _ _ (prev_content e) Hs).
Qed.

(** ** Redaction events *)

Lemma RoomRedactionEventContent_reads (c : RoomRedactionEventContent) :
  de_RoomRedactionEventContent (ser_content c) = Ok c.
Proof. by destruct c as [[reason|]]. Qed.

Lemma redaction_round_trip {s U} `{UnsignedData U}
    (e : Event s RoomRedactionEventContent U) :
  has s F_prev_content = false → wf_event e → de_redaction s (ser_Event e) = Ok e.
Proof.
  intros Hs Hwf. apply de_serialize_event; [|done| |].
  - intros c. right. by eexists.
  - apply RoomRedactionEventContent_reads.
  - intros c. by rewrite (cond_get_false _ _ (prev_content e) Hs).
Qed.

(** What goes under [unsigned]. *)
Lemma Unsigned_wf (u : Unsigned) :
  (∀ z, age u = Some z → int_in_range z = true) → unsigned_wf u.
Proof.
  destruct u as [[a|] [t|]]; intros Ha; try done.
  all: assert (de_int (JNumber (NInt a)) = Ok a) as Hd by (unfold de_int; by rewrite Ha).
  all: lazy -[de_int]; by rewrite Hd.
Qed.

Lemma RedactedUnsigned_wf (u : RedactedUnsigned) :
  (∀ r, redacted_because u = Some r → wf_event r) → unsigned_wf u.
Proof.
  destruct u as [[r|]]; intros Hr; [|done]. unfold unsigned_wf. cbn [unsigned_is_empty
    RedactedUnsigned_data redacted_because ser_unsigned de_unsigned skip_none].
  unfold de_RedactedUnsigned, field_opt, lookup_field. rewrite struct_src_one. cbn [mbind outcome_bind]. rewrite assoc_cons, decide_True by done.
  unfold de_option. pose proof (redaction_round_trip r eq_refl (Hr r eq_refl)) as Hd.
  destruct (ser_Event r) eqn:Hj; try (by rewrite Hd). done.
Qed.

(** ** Redaction *)

Section redact.
Context {s : EventStruct} {C R : Type} `{RedactContent C R}.

(** A redacted event has the fields of the event that identify it, with their values; its
    content is the redacted content of the room version, its previous content is gone, and its
    [unsigned] names the redaction and nothing else. *)
Theorem redact_event_spec (e : Event s C Unsigned) redaction version :
  let e' := redact_event (R:=R) e redaction version in
  content e' = redact_content (content e) version ∧
  cond_get (event_id e') = cond_get (event_id e) ∧
  cond_get (sender e') = cond_get (sender e) ∧
  cond_get (origin_server_ts e') = cond_get (origin_server_ts e) ∧
  cond_get (room_id e') = cond_get (room_id e) ∧
  cond_get (state_key e') = cond_get (state_key e) ∧
  cond_get (prev_content e') = None ∧
  cond_get (unsigned e') =
    (if has s F_unsigned then Some {| redacted_because := Some redaction |} else None).
Proof.
  simpl. rewrite !cond_get_cast, !cond_get_make, <- (has_redacted_of s F_unsigned) by done.
  by destruct s.
Qed.

Lemma redact_event_wf (e : Event s C Unsigned) (redaction : SyncRedaction) version :
  has s F_redacts = false → wf_event e → wf_event redaction →
  wf_event (redact_event (R:=R) e redaction version).
Proof.
  intros Hs [] Hr. split; simpl; intros x; rewrite ?cond_get_cast, ?cond_get_make; auto.
  - rewrite <- has_redacted_of, Hs by done. done.
  - case_match; [|done]. intros [= <-]. apply RedactedUnsigned_wf. by intros ? [= <-].
Qed.
End redact.

(** ** Full and sync events *)

Lemma redacts_cast_cancel {s s'} (H : redacts_ty s = redacts_ty s') b
    (x : cond b (redacts_ty s)) : redacts_cast (eq_sym H) (redacts_cast H x) = x.
Proof.
  unfold redacts_cast. revert x. generalize dependent (redacts_ty s'). by intros T <-.
Qed.

Lemma cond_cast_cancel b b' A (H : b = b') (x : cond b A) :
  cond_cast (eq_sym H) (cond_cast H x) = x.
Proof. by destruct H. Qed.

(** A sync event made into a full event of some room, and taken back, is the sync event;
    and the full event has that room ID. *)
Theorem full_sync_inverse {s C U} (Hs : has s F_room_id = false) (e : Event s C U) id :
  from_full_event Hs (into_full_event e id) = e ∧
  cond_get (room_id (into_full_event e id)) =
    (if has (full_of s) F_room_id then Some id else None).
Proof.
  split; [|apply cond_get_make].
  apply Event_ext; simpl; rewrite ?redacts_cast_cancel, ?cond_cast_cancel; try done.
  rewrite cond_get_cast. symmetry. by apply cond_get_false.
Qed.

Definition a_redaction : SyncRedaction :=
  Build_Event SyncRoomRedactionEvent RoomRedactionEventContent Unsigned
    {| reason := Some "spam" |} "$aliases:example.org" "$redaction:example.org"
    "@mod:example.org" 2%Z () () () {| age := Some (-5)%Z; transaction_id := None |}.

Lemma full_sync_inverse_witness :
  from_full_event (s:=SyncRoomRedactionEvent) eq_refl
    (into_full_event a_redaction "!room:example.org") = a_redaction.
Proof. apply (full_sync_inverse (s:=SyncRoomRedactionEvent) eq_refl a_redaction). Defined.

(** ** The struct that is not read back *)

Lemma redacted_redaction_no_content {s U} `{UnsignedData U}
    (e : Event s RedactedRoomRedactionEventContent U) :
  de_redacted_redaction s (ser_RedactedEvent e) = Err ().
Proof.
  unfold de_redacted_redaction, ser_RedactedEvent, serialize_event, de_event.
  case_decide; [|done].
  assert (assoc "content" (("type", JString (event_type (content e))) ::
    mjoin (field_entries (λ c, if has_serialize_fields c then [("content", ser_content c)] else [])
             ser_content e <$> event_fields s)) = None) as ->; [|done].
  refine (event_entries_assoc _ _ _ e F_content _ (has_content s)). intros c. by left.
Qed.

(** No JSON that this code, or a server by the specification, writes for a redacted redaction
    event is read by its struct: reading needs a [content] that is [null] and a [redacts], and
    writing leaves out the content of every such event. *)
Theorem redacted_redaction_unreadable {s U} `{UnsignedData U} :
  (∀ e : Event s RedactedRoomRedactionEventContent U,
     de_redacted_redaction s (ser_RedactedEvent e) = Err ()) ∧
  (∀ entries e, de_redacted_redaction (U:=U) s (JObject entries) = Ok e →
     assoc "content" entries = Some JNull ∧
     (has s F_redacts = true → assoc "redacts" entries ≠ None)).
Proof.
  split; [apply redacted_redaction_no_content|]. intros entries e.
  unfold de_redacted_redaction, de_event. case_decide; [|done].
  destruct (assoc "type" entries) as [t|]; [|done]. destruct (de_string t); try done.
  cbn [mbind outcome_bind]. destruct (assoc "content" entries) as [c|]; [|done].
  destruct c; try done. cbn. intros Hd. split; [done|]. intros Hs Hr.
  assert (cond_read (has s F_redacts) (read_field (de_redacts s) entries F_redacts) = Err ())
    as He; [|by rewrite He in Hd].
  unfold read_field. cbn [field_name]. rewrite Hr. by rewrite Hs.
Qed.
