(* ===== verification/EventEnumsSpec.v ===== *)
(** * Enums of events: theorems

    Which variant of which enum an event is read as is decided by what the event is: reading
    what any room event writes gives that event, and redacting an event, writing and reading it
    gives the redacted event. Which entries the JSON of a redacted event has. *)

From S2P Require Import Prelude RustStr RustNet IdValidation StringEnum Identifiers Json.
From S2P Require Import CanonicalJson Serde Events EventEnums EventsSpec.
From Stdlib Require Import Ascii NArith.
Open Scope string_scope.
Open Scope nat_scope.
Open Scope list_scope.

(** ** The structs of the enums *)

Lemma room_struct_variation k sync red :
  to_kind_variation (room_struct k sync red) =
  (match k with KMessage => MessageKind | KState => StateKind | KRedaction => RoomRedactionKind end,
   to_variation sync red).
Proof. by destruct k, sync, red. Qed.

Lemma has_state_key k sync red :
  has (room_struct k sync red) F_state_key = bool_decide (k = KState).
Proof. by destruct k, sync, red. Qed.

Lemma has_unsigned k sync red : has (room_struct k sync red) F_unsigned = true.
Proof. by destruct k, sync, red. Qed.

(** ** Contents of a family *)

(** What the traits of a content struct promise: its type. *)
Record content_laws (ty : string) (c : EnumContent) : Prop := {
  law_type (x : regular c) : event_type x = ty;
  law_redacted_type (x : redacted c) : event_type x = ty
}.

(** The redacted form of a content is read back from what its struct writes; not every struct
    does this. *)
Definition redacts_readably {c} (x : regular c) : Prop :=
  ∀ version, redacted_content_reads (redact_content x version : redacted c).

Lemma derived_content_laws {C} ty (ser : C → json) d : content_laws ty (derived_content ty ser d).
Proof. by split. Qed.

Lemma derived_content_redacts {C} ty (ser : C → json) d (x : C) :
  redacts_readably (c:=derived_content ty ser d) x.
Proof.
  intros version. unfold redacted_content_reads, read_redacted. simpl.
  unfold empty_as. by rewrite decide_False by (intros Hty; by apply Hty).
Qed.

Lemma derived_content_keeping_laws {C K} ty (ser : C → json) d (kept : C → K) ser_kept d_kept :
  content_laws ty (derived_content_keeping ty ser d kept ser_kept d_kept).
Proof. by split. Qed.

Lemma derived_content_keeping_reads {C K} ty (ser : C → json) d (kept : C → K) ser_kept d_kept :
  let c := derived_content_keeping ty ser d kept ser_kept d_kept in
  (∀ x : regular c, content_reads x ↔ d (ser x) = Ok x) ∧
  (∀ x : redacted c, redacted_content_reads x ↔ d_kept (ser_kept x) = Ok x).
Proof.
  split; intros x; unfold content_reads, redacted_content_reads, read_redacted; simpl;
    unfold from_parts_as; by rewrite decide_False by (intros Hty; by apply Hty).
Qed.

Lemma redacted_aliases_read (o : option (list string)) :
  (∀ l, o = Some l →
    de_list (de_parse RoomAliasId_parse) (JArray (JString <$> l)) = Ok l) →
  redacted_content_reads {| redacted_aliases := o |}.
Proof.
  intros Hl. unfold redacted_content_reads, read_redacted. cbn [has_deserialize_fields
    has_serialize_fields RedactedRoomAliases_redacted redacted_aliases event_type from_parts
    RedactedRoomAliases_content ser_content].
  unfold from_parts_as. rewrite decide_False by (intros Hty; by apply Hty).
  destruct o as [l|]; [|done]. rewrite bool_decide_eq_true_2 by done. cbn [default id].
  unfold de_RedactedRoomAliasesEventContent.
  rewrite struct_src_one. cbn [mbind outcome_bind]. unfold field_opt, lookup_field. rewrite assoc_cons, decide_True by done.
  unfold de_option. by rewrite Hl.
Qed.

Lemma aliases_content_laws : content_laws "m.room.aliases" aliases_content.
Proof. by split. Qed.

Lemma aliases_content_redacts (x : regular aliases_content) :
  content_reads x → redacts_readably x.
Proof.
  destruct x as [l]. unfold content_reads. simpl.
  unfold from_parts_as. rewrite decide_False by (intros Hty; by apply Hty).
  unfold de_RoomAliasesEventContent.
  rewrite struct_src_one. cbn [mbind outcome_bind]. unfold field_req, lookup_field.
  rewrite assoc_cons, decide_True by done.
  destruct (de_list _ _) as [l'| |] eqn:Hl; try done. cbn. intros [= ->] version.
  apply redacted_aliases_read. intros l'. by destruct version; intros [= <-].
Qed.

Definition content_ok {c} (red : bool) : content_of red c → Prop :=
  match red return content_of red c → Prop with
  | true => redacted_content_reads
  | false => content_reads
  end.

#[export] Instance unsigned_of_data red : UnsignedData (unsigned_of red) :=
  match red with true => RedactedUnsigned_data | false => Unsigned_data end.

(** An event of valid fields, content and previous content. *)
Definition RoomEvent_ok {k sync red c} (e : RoomEvent k sync red c) : Prop :=
  wf_event e ∧ content_ok red (content e) ∧
  ∀ p, cond_get (prev_content e) = Some (Some p) →
    type_of red p = type_of red (content e) ∧ content_ok red p.

Lemma RoomEvent_round_trip k sync red c (e : RoomEvent k sync red c) :
  RoomEvent_ok e → de_RoomEvent k sync red c (ser_RoomEvent e) = Ok e.
Proof.
  destruct red; intros (Hwf & Hc & Hp).
  - apply RedactedEvent_round_trip_lemma; try done. by destruct k, sync.
  - by apply Event_round_trip_lemma.
Qed.

Lemma RoomEvent_entries {k sync red c} (e : RoomEvent k sync red c) :
  ∃ entries, ser_RoomEvent e = JObject entries ∧ NoDup entries.*1 ∧
    assoc "type" entries = Some (JString (type_of red (content e))) ∧
    assoc "state_key" entries = JString <$> cond_get (state_key e) ∧
    assoc "unsigned" entries =
      u ← cond_get (unsigned e); if unsigned_is_empty u then None else Some (ser_unsigned u).
Proof.
  destruct red; apply serialize_event_entries; intros x; [|right; by eexists].
  case_match; [right; by eexists|by left].
Qed.

Lemma de_event_type_ser {k sync red c} (e : RoomEvent k sync red c) :
  de_event_type (ser_RoomEvent e) = Ok (type_of red (content e)).
Proof.
  destruct (RoomEvent_entries e) as (entries & -> & Hnd & Hty & _). unfold de_event_type.
  rewrite struct_src_obj by done. cbn [mbind outcome_bind]. by rewrite (field_req_Some _ _ _ _ _ Hty).
Qed.

(** ** Which enum an event belongs to *)

(** A redacted event that names its redaction. *)
Definition has_because {red} : option (unsigned_of red) → bool :=
  match red return option (unsigned_of red) → bool with
  | true => λ u, match u with Some {| redacted_because := Some _ |} => true | _ => false end
  | false => λ _, false
  end.

Definition names_redaction {k sync red c} (e : RoomEvent k sync red c) : bool :=
  has_because (cond_get (unsigned e)).

Lemma de_unsigned_helper_ser {red} (u : option (unsigned_of red)) entries fields :
  assoc "unsigned" entries =
    (u ← u; if unsigned_is_empty u then None else Some (ser_unsigned u)) →
  default false <$> field_opt fields "unsigned" de_unsigned_helper (FromMap entries) =
    Ok (has_because u).
Proof.
  intros Hu. unfold field_opt, lookup_field. rewrite Hu. clear Hu.
  destruct red, u as [u|]; try done.
  - by destruct u as [[r|]].
  - by destruct u as [[a|] [t|]].
Qed.

Lemma de_state_key_ser (key : option string) entries fields :
  assoc "state_key" entries = JString <$> key →
  field_opt fields "state_key" de_ignored (FromMap entries) = Ok ((λ _, ()) <$> key).
Proof. intros Hk. unfold field_opt, lookup_field. rewrite Hk. by destruct key. Qed.

Lemma cond_get_there b A (x : cond b A) :
  bool_decide (((λ _, ()) <$> cond_get x) ≠ None) = b.
Proof. by destruct b. Qed.

Lemma de_event_helper_ser {k sync red c} (e : RoomEvent k sync red c) :
  de_event_helper (ser_RoomEvent e) = Ok (bool_decide (k = KState), names_redaction e) ∧
  de_redaction_helper (ser_RoomEvent e) = Ok (names_redaction e).
Proof.
  destruct (RoomEvent_entries e) as (entries & -> & Hnd & _ & Hkey & Hu).
  unfold de_event_helper, de_redaction_helper. rewrite !struct_src_obj by done.
  cbn [mbind outcome_bind]. rewrite (de_state_key_ser _ _ _ Hkey). cbn [mbind outcome_bind].
  pose proof (λ fs, de_unsigned_helper_ser (cond_get (unsigned e)) entries fs Hu) as Hred.
  rewrite cond_get_there, has_state_key. unfold names_redaction. split.
  - specialize (Hred ["state_key"; "unsigned"]). destruct (field_opt _ _ _ _); simplify_eq/=; congruence.
  - specialize (Hred ["unsigned"]). destruct (field_opt _ _ _ _); simplify_eq/=; congruence.
Qed.

(** What a form of an event writes of its content *)
Definition written_content {c} (red : bool) : content_of red c → option json :=
  match red return content_of red c → option json with
  | true => λ x : redacted c, if has_serialize_fields x then Some (ser_content x) else None
  | false => λ x : regular c, Some (ser_content x)
  end.

Lemma written_redacted_content {c} (r : redacted c) :
  snd <$> head (if has_serialize_fields r then [("content", ser_content r)] else []) =
  written_content (c:=c) true r.
Proof. unfold written_content. by destruct (has_serialize_fields r). Qed.

(** The JSON of a redacted event, name by name: type and content are those of the redacted
    content, the fields that identify the event stay, nothing else is there but the redaction,
    as the one entry of the unsigned data. *)
Lemma redact_RoomEvent_get {k sync c} (e : RoomEvent k sync false c) redaction version :
  let get key := json_get key (ser_RoomEvent e) in
  let get' key := json_get key (ser_RoomEvent (redact_RoomEvent e redaction version)) in
  get "type" = Some (JString (event_type (content e))) ∧
  get' "type" = Some (JString (event_type (redact_content (content e) version : redacted c))) ∧
  get "content" = Some (ser_content (content e)) ∧
  get' "content" = written_content true (redact_content (content e) version) ∧
  (∀ key, key ∈ ["event_id"; "sender"; "origin_server_ts"; "room_id"; "state_key"] →
     get' key = get key) ∧
  get' "unsigned" = Some (JObject [("redacted_because", ser_Event redaction)]) ∧
  ∀ key, key ∉ "type" :: "content" :: ["event_id"; "sender"; "origin_server_ts"; "room_id"; "state_key"] →
    key ≠ "unsigned" →
    get' key = None ∧ (key ∉ ["redacts"; "prev_content"] → get key = None).
Proof.
  assert (∀ x : regular c, own_entry F_content [("content", ser_content x)]) as Hown
    by by intros x; right; eexists.
  assert (∀ x : redacted c, own_entry F_content
    (if has_serialize_fields x then [("content", ser_content x)] else [])) as Hown'
    by (intros x; destruct (has_serialize_fields x); [right; by eexists|by left]).
  destruct (serialize_event_get event_type _ ser_content Hown e)
    as (Hty & Hc & Hr & Hid & Hs & Hts & Hroom & Hkey & _ & _ & Hno).
  destruct (serialize_event_get event_type _ ser_content Hown' (redact_RoomEvent e redaction version))
    as (Hty' & Hc' & Hr' & Hid' & Hs' & Hts' & Hroom' & Hkey' & Hp' & Hu' & Hno').
  destruct (redact_event_spec (C:=regular c) (R:=redacted c) e redaction version)
    as (Hct & Fid & Fs & Fts & Froom & Fkey & Fp & Fu).
  fold (redact_RoomEvent e redaction version) in *. cbv zeta.
  split; [exact Hty|]. split; [exact Hty'|]. split; [exact Hc|]. split.
  { exact (eq_trans Hc' (written_redacted_content _)). }
  split; [|split].
  - intros key Hin. repeat (apply elem_of_cons in Hin as [->|Hin]); [..|by apply elem_of_nil in Hin].
    + exact (eq_trans Hid' (eq_trans (f_equal _ Fid) (eq_sym Hid))).
    + exact (eq_trans Hs' (eq_trans (f_equal _ Fs) (eq_sym Hs))).
    + exact (eq_trans Hts' (eq_trans (f_equal _ Fts) (eq_sym Hts))).
    + exact (eq_trans Hroom' (eq_trans (f_equal _ Froom) (eq_sym Hroom))).
    + exact (eq_trans Hkey' (eq_trans (f_equal _ Fkey) (eq_sym Hkey))).
  - rewrite has_unsigned in Fu. exact (eq_trans Hu' (f_equal (λ u, u ≫= _) Fu)).
  - intros key Hin Hu. split.
    2:{ intros Hout. apply Hno; [set_solver|]. intros []; simpl; set_solver. }
    destruct (decide (key = "redacts")) as [->|Hred].
    { refine (eq_trans Hr' _). by destruct k, sync. }
    destruct (decide (key = "prev_content")) as [->|Hprev].
    { exact (eq_trans Hp' (f_equal (λ p, p ≫= _) Fp)). }
    apply Hno'; [set_solver|]. intros []; simpl; set_solver.
Qed.

(** ** The enums over the types of a kind *)

(** Every variant is declared with its type, once. *)
Class LawfulDecl (V : Type) `{EventEnumDecl V} :=
  declared v : ∃ ty, assoc ty event_types = Some v ∧ ty ≠ "m.room.redaction".

Lemma declared_elem {V} `{EventEnumDecl V} v :
  NoDup (event_types (V:=V)).*1 → (∃ ty, (ty, v) ∈ event_types ∧ ty ≠ "m.room.redaction") →
  ∃ ty, assoc ty event_types = Some v ∧ ty ≠ "m.room.redaction".
Proof. intros Hnd (ty & Hin & ?). exists ty. split; [by apply assoc_elem|done]. Qed.

Ltac find_variant :=
  eexists; split; [repeat first [apply list_elem_of_here|apply list_elem_of_further]|done].

#[export] Instance MessageVariant_lawful : LawfulDecl MessageVariant.
Proof. intros v. apply declared_elem; [decide_it|destruct v; find_variant]. Qed.
#[export] Instance StateVariant_lawful : LawfulDecl StateVariant.
Proof. intros v. apply declared_elem; [decide_it|destruct v; find_variant]. Qed.

Section any_event.
Context {V : Type} `{LawfulDecl V} (contents : V → EnumContent).
Hypothesis laws : ∀ ty v, assoc ty event_types = Some v → content_laws ty (contents v).

Definition AnyEvent_ok {k sync red} (e : AnyEvent contents k sync red) : Prop :=
  match e with
  | Known _ e => RoomEvent_ok e
  | Custom e =>
      RoomEvent_ok e ∧ assoc (type_of red (content e)) event_types = None ∧
      (k = KMessage → type_of red (content e) ≠ "m.room.redaction")
  end.

Definition AnyEvent_names_redaction {k sync red} (e : AnyEvent contents k sync red) : bool :=
  match e with Known _ e => names_redaction e | Custom e => names_redaction e end.

Lemma type_of_law ty c red (x : content_of red c) : content_laws ty c → type_of red x = ty.
Proof. intros []. destruct red; simpl; auto. Qed.

(** Everything reading needs to know of a written event. *)
Lemma ser_AnyEvent_spec {k sync red} (e : AnyEvent contents k sync red) :
  AnyEvent_ok e →
  de_event_type (ser_AnyEvent contents e) = Ok (AnyEvent_event_type contents e) ∧
  (k = KMessage → AnyEvent_event_type contents e ≠ "m.room.redaction") ∧
  de_redaction_helper (ser_AnyEvent contents e) = Ok (AnyEvent_names_redaction e) ∧
  de_event_helper (ser_AnyEvent contents e) =
    Ok (bool_decide (k = KState), AnyEvent_names_redaction e) ∧
  de_AnyEvent_as contents k sync red (AnyEvent_event_type contents e) (ser_AnyEvent contents e) =
    Ok e.
Proof.
  unfold de_AnyEvent_as. destruct e as [v e|e]; cbn [ser_AnyEvent AnyEvent_event_type].
  - intros He. destruct (declared v) as (ty & Hty & Hne).
    assert (type_of red (content e) = ty) as Ht by by apply type_of_law, laws.
    rewrite Ht, Hty. split; [by rewrite de_event_type_ser, Ht|]. split; [done|].
    do 2 (split; [apply de_event_helper_ser|]). by rewrite RoomEvent_round_trip.
  - intros (He & Hty & Hne). rewrite Hty. split; [apply de_event_type_ser|]. split; [done|].
    do 2 (split; [apply de_event_helper_ser|]). by rewrite RoomEvent_round_trip.
Qed.

Lemma AnyEvent_round_trip {k sync red} (e : AnyEvent contents k sync red) :
  AnyEvent_ok e → de_AnyEvent contents k sync red (ser_AnyEvent contents e) = Ok e.
Proof.
  intros (Hty & _ & _ & _ & Hd)%ser_AnyEvent_spec. unfold de_AnyEvent. rewrite Hty. exact Hd.
Qed.

Lemma redacted_names_redaction {k sync c} (e : RoomEvent k sync false c) redaction version :
  names_redaction (redact_RoomEvent e redaction version) = true.
Proof.
  unfold names_redaction. simpl. rewrite cond_get_make.
  assert (has (redacted_of (if sync then sync_struct k else full_of (sync_struct k))) F_unsigned =
          true) as -> by by destruct k, sync. done.
Qed.

(** Redaction keeps the variant and gives a valid event that names the redaction. *)
Lemma redact_RoomEvent_ok {k sync c} (e : RoomEvent k sync false c) (redaction : SyncRedaction)
    version :
  redacts_readably (content e) →
  k ≠ KRedaction → RoomEvent_ok e → wf_event redaction →
  RoomEvent_ok (redact_RoomEvent e redaction version) ∧
  names_redaction (redact_RoomEvent e redaction version) = true.
Proof.
  intros Hlaw Hk (Hwf & Hc & _) Hr. split; [split|].
  - apply (redact_event_wf (C:=regular c)); [by destruct k, sync|done|done].
  - split; [by apply Hlaw|]. intros p Hp.
    assert (has (room_struct k sync true) F_prev_content = false) as Hno by by destruct k, sync.
    by rewrite (cond_get_false _ _ _ Hno) in Hp.
  - apply redacted_names_redaction.
Qed.

Definition AnyEvent_redacts_readably {k sync red} (e : AnyEvent contents k sync red) : Prop :=
  match red return AnyEvent contents k sync red → Prop with
  | true => λ _, True
  | false => λ e, match e with Known _ e => redacts_readably (content e) | Custom _ => True end
  end e.

Lemma redact_AnyEvent_ok {k sync} (e : AnyEvent contents k sync false) (redaction : SyncRedaction)
    version :
  k ≠ KRedaction → AnyEvent_ok e → AnyEvent_redacts_readably e → wf_event redaction →
  AnyEvent_ok (redact_AnyEvent contents e redaction version) ∧
  AnyEvent_names_redaction (redact_AnyEvent contents e redaction version) = true.
Proof.
  intros Hk He Hv Hr. destruct e as [v e|e]; simpl in *.
  - by apply redact_RoomEvent_ok.
  - destruct He as (He & Hty & Hne).
    destruct (redact_RoomEvent_ok e redaction version) as [? ?]; try done.
Qed.
End any_event.

(** ** All room events *)

Section room_events.
Variable message_contents : MessageVariant → EnumContent.
Variable state_contents : StateVariant → EnumContent.
Hypothesis message_laws :
  ∀ ty v, assoc ty event_types = Some v → content_laws ty (message_contents v).
Hypothesis state_laws :
  ∀ ty v, assoc ty event_types = Some v → content_laws ty (state_contents v).

(** Valid events. A redacted event names its redaction, and is not a redaction event: these are
    not read back. *)
Definition AnyMessageEvent_ok {sync red} (e : AnyMessageEvent message_contents sync red) : Prop :=
  match e with
  | AnyMessage e => AnyEvent_ok _ e ∧ (red = true → AnyEvent_names_redaction _ e = true)
  | RoomRedaction e => RoomEvent_ok e ∧ red = false
  end.

Definition AnyStateEvent_ok {sync red} (e : AnyStateEvent state_contents sync red) : Prop :=
  AnyEvent_ok _ e ∧ (red = true → AnyEvent_names_redaction _ e = true).

Definition AnyRoomEvent_ok {sync} (e : AnyRoomEvent message_contents state_contents sync) : Prop :=
  match e with
  | Message e | RedactedMessage e => AnyMessageEvent_ok e
  | State e | RedactedState e => AnyStateEvent_ok e
  end.

Lemma AnyEvent_no_redaction {V} `{EventEnumDecl V} (contents : V → EnumContent) {k sync}
    (e : AnyEvent contents k sync false) : AnyEvent_names_redaction contents e = false.
Proof. by destruct e. Qed.

Lemma de_RedactionEvent_ser {sync} (e : RoomEvent KRedaction sync false redaction_content) :
  RoomEvent_ok e → de_RedactionEvent sync false (ser_RoomEvent e) = Ok e.
Proof.
  intros (Hwf & _). apply (redaction_round_trip e); [by destruct sync|done].
Qed.

Lemma ser_AnyMessageEvent_spec {sync red} (e : AnyMessageEvent message_contents sync red) :
  AnyMessageEvent_ok e →
  de_event_helper (ser_AnyMessageEvent _ e) = Ok (false, red) ∧
  de_redaction_helper (ser_AnyMessageEvent _ e) = Ok red ∧
  de_AnyMessageEvent _ sync red (ser_AnyMessageEvent _ e) = Ok e.
Proof.
  unfold de_AnyMessageEvent. destruct e as [e|e]; cbn [ser_AnyMessageEvent].
  - intros [He Hred]. destruct (ser_AnyEvent_spec _ message_laws e He) as (Hty & Hne & Hr & Hh & Hd).
    rewrite Hh, Hr, Hty. cbn [mbind outcome_bind]. rewrite decide_False by auto. rewrite Hd.
    destruct red; [by rewrite Hred|by rewrite AnyEvent_no_redaction].
  - intros [He ->]. rewrite de_event_type_ser. destruct (de_event_helper_ser e) as [-> ->].
    cbn [mbind outcome_bind]. rewrite decide_True by done. by rewrite de_RedactionEvent_ser.
Qed.

Lemma ser_AnyStateEvent_spec {sync red} (e : AnyStateEvent state_contents sync red) :
  AnyStateEvent_ok e →
  de_event_helper (ser_AnyEvent _ e) = Ok (true, red) ∧
  de_redaction_helper (ser_AnyEvent _ e) = Ok red ∧
  de_AnyStateEvent _ sync red (ser_AnyEvent _ e) = Ok e.
Proof.
  intros [He Hred]. split; [|split; [|by apply AnyEvent_round_trip]].
  all: destruct (ser_AnyEvent_spec _ state_laws e He) as (Hty & Hne & Hr & Hh & Hd).
  all: rewrite ?Hh, ?Hr; destruct red; [by rewrite Hred|by rewrite AnyEvent_no_redaction].
Qed.

Lemma AnyRoomEvent_round_trip_lemma {sync} (e : AnyRoomEvent message_contents state_contents sync) :
  AnyRoomEvent_ok e → de_AnyRoomEvent _ _ sync (ser_AnyRoomEvent _ _ e) = Ok e.
Proof.
  unfold de_AnyRoomEvent. destruct e as [e|e|e|e]; cbn [ser_AnyRoomEvent AnyRoomEvent_ok]; intros He.
  1, 3: destruct (ser_AnyMessageEvent_spec e He) as (-> & _ & Hd).
  3, 4: destruct (ser_AnyStateEvent_spec e He) as (-> & _ & Hd).
  all: cbn [mbind outcome_bind]; by rewrite Hd.
Qed.
End room_events.

(** ** The theorems *)

Section theorems.
Variable message_contents : MessageVariant → EnumContent.
Variable state_contents : StateVariant → EnumContent.

(** The family has, for each type, a content struct of that type. *)
Definition lawful_contents : Prop :=
  (∀ ty v, assoc ty event_types = Some v → content_laws ty (message_contents v)) ∧
  (∀ ty v, assoc ty event_types = Some v → content_laws ty (state_contents v)).

Definition redaction_message {sync} (e : AnyRoomEvent message_contents state_contents sync) : bool :=
  match e with Message (RoomRedaction _) => true | _ => false end.

(** Any valid room event, full or sync, message or state, regular or redacted, of a declared
    or of a custom type, is read from its JSON as the very event, in the enum it is of; the enums
    of possibly redacted events find the same form. *)
Theorem AnyRoomEvent_round_trip {sync} (e : AnyRoomEvent message_contents state_contents sync) :
  lawful_contents → AnyRoomEvent_ok message_contents state_contents e →
  de_AnyRoomEvent message_contents state_contents sync (ser_AnyRoomEvent _ _ e) = Ok e ∧
  match e with
  | Message m =>
      de_AnyPossiblyRedactedMessageEvent message_contents sync (ser_AnyRoomEvent _ _ e) = Ok (inl m)
  | RedactedMessage m =>
      de_AnyPossiblyRedactedMessageEvent message_contents sync (ser_AnyRoomEvent _ _ e) = Ok (inr m)
  | State m =>
      de_AnyPossiblyRedactedStateEvent state_contents sync (ser_AnyRoomEvent _ _ e) = Ok (inl m)
  | RedactedState m =>
      de_AnyPossiblyRedactedStateEvent state_contents sync (ser_AnyRoomEvent _ _ e) = Ok (inr m)
  end.
Proof.
  intros [Hm Hs] He. split; [by apply AnyRoomEvent_round_trip_lemma|].
  unfold de_AnyPossiblyRedactedMessageEvent, de_AnyPossiblyRedactedStateEvent,
    de_AnyPossiblyRedacted.
  destruct e as [e|e|e|e]; cbn [ser_AnyRoomEvent AnyRoomEvent_ok] in *.
  1, 3: destruct (ser_AnyMessageEvent_spec _ Hm e He) as (_ & -> & Hd).
  3, 4: destruct (ser_AnyStateEvent_spec _ Hs e He) as (_ & -> & Hd).
  all: cbn [mbind outcome_bind]; by rewrite Hd.
Qed.

(** The content of an event that is not redacted yet has a readable redacted form. *)
Definition AnyRoomEvent_redacts_readably {sync}
    (e : AnyRoomEvent message_contents state_contents sync) : Prop :=
  match e with
  | Message (AnyMessage e) => AnyEvent_redacts_readably _ e
  | State e => AnyEvent_redacts_readably _ e
  | _ => True
  end.

Lemma redact_AnyRoomEvent_reads {sync} (e : AnyRoomEvent message_contents state_contents sync)
    redaction version :
  lawful_contents → AnyRoomEvent_ok message_contents state_contents e → wf_event redaction →
  redaction_message e = false → AnyRoomEvent_redacts_readably e →
  let e' := AnyRoomEvent_from _ _ (redact_AnyRoomEvent _ _ e redaction version) in
  de_AnyRoomEvent message_contents state_contents sync (ser_AnyRoomEvent _ _ e') = Ok e'.
Proof.
  intros [Hm Hs] He Hr Hn Hv. apply AnyRoomEvent_round_trip_lemma; [done..|].
  destruct e as [[e|e]|e|e|e]; try done; destruct He as [He Hred].
  - by destruct (redact_AnyEvent_ok _ e redaction version).
  - by destruct (redact_AnyEvent_ok _ e redaction version).
Qed.
End theorems.

(** ** An instance *)

#[export] Instance MessageVariant_eq_dec : EqDecision MessageVariant.
Proof. solve_decision. Defined.
#[export] Instance StateVariant_eq_dec : EqDecision StateVariant.
Proof. solve_decision. Defined.

(** Contents that are any object. *)
Definition object_contents {V} `{EventEnumDecl V, EqDecision V} (v : V) : EnumContent :=
  derived_content (default "" (fst ∘ snd <$> list_find (λ kv, kv.2 = v) event_types))
    ser_JsonObject de_JsonObject.

Definition object_states (v : StateVariant) : EnumContent :=
  match v with RoomAliases => aliases_content | v => object_contents v end.

Lemma object_contents_lawful : lawful_contents object_contents object_states.
Proof.
  split; intros ty v Hin%assoc_Some_elem%list_elem_of_In; simpl in Hin;
    repeat destruct Hin as [[= <- <-]|Hin]; try done;
    first [apply derived_content_laws | apply aliases_content_laws].
Qed.

Definition an_aliases_event : RoomEvent KState false false aliases_content :=
  Build_Event StateEvent RoomAliasesEventContent Unsigned
    {| aliases := ["#room:example.org"] |} () "$aliases:example.org" "@alice:example.org"
    1%Z "!room:example.org" "example.org" (Some {| aliases := [] |})
    {| age := None; transaction_id := Some "txn" |}.

Definition a_state_event : AnyRoomEvent object_contents object_states false :=
  State (Known (contents:=object_states) RoomAliases an_aliases_event).

Ltac wf_fields :=
  split; let x := fresh "x" in intros x; cbn; try done; intros [= <-]; vm_compute; reflexivity.

Lemma a_redaction_wf : wf_event a_redaction.
Proof. wf_fields. Qed.

Lemma a_state_event_ok : AnyRoomEvent_ok object_contents object_states a_state_event.
Proof.
  split; [|done]. split; [wf_fields|]. split; [vm_compute; reflexivity|].
  intros p. cbn. intros [= <-]. by split; vm_compute.
Qed.

Lemma AnyRoomEvent_round_trip_witness :
  de_AnyRoomEvent object_contents object_states false (ser_AnyRoomEvent _ _ a_state_event) =
    Ok a_state_event.
Proof.
  apply (AnyRoomEvent_round_trip object_contents object_states a_state_event).
  - apply object_contents_lawful.
  - apply a_state_event_ok.
Defined.

(** What the redaction of aliases keeps depends on the room version. *)
Example aliases_kept_until_v5 :
  (λ v, redacted_aliases (content (redact_RoomEvent an_aliases_event a_redaction v))) <$> [V5; V6] =
  [Some ["#room:example.org"]; None].
Proof. reflexivity. Qed.
