(* ===== verification/Messages.v ===== *)
(** * Room messages

    [ruma-events/src/room/message.rs] with [content_serde.rs] and [relation_serde.rs], and the
    shared structs of [room.rs]: the types of message with their JSON, the relation to another
    message, and the constructors. Default features; [Option<Box<T>>] is [option T]. *)

From S2P Require Import Prelude RustStr RustNet IdValidation StringEnum Identifiers Json.
From S2P Require Import CanonicalJson Serde.
From Stdlib Require Import Ascii NArith.
Open Scope string_scope.
Open Scope nat_scope.
Open Scope list_scope.

Definition ser_uint (z : Z) : json := JNumber (NInt z).

(** ** room.rs *)

Record JsonWebKey := {
  kty : string;
  key_ops : list string;
  alg : string;
  k : string;
  ext : bool
}.

Definition JsonWebKey_fields (x : JsonWebKey) : list (string * option json) :=
  [("kty", Some (JString (kty x))); ("key_ops", Some (JArray (JString <$> key_ops x)));
   ("alg", Some (JString (alg x))); ("k", Some (JString (k x))); ("ext", Some (JBool (ext x)))].

Definition de_JsonWebKey : decoder JsonWebKey := λ j,
  let fields := ["kty"; "key_ops"; "alg"; "k"; "ext"] in
  src ← struct_src fields j;
  kty ← field_req fields "kty" de_string src;
  key_ops ← field_req fields "key_ops" (de_list de_string) src;
  alg ← field_req fields "alg" de_string src;
  k ← field_req fields "k" de_string src;
  ext ← field_req fields "ext" de_bool src;
  Ok {| kty := kty; key_ops := key_ops; alg := alg; k := k; ext := ext |}.

#[export] Instance JsonWebKey_serde : Serde JsonWebKey :=
  { ser x := JObject (written (JsonWebKey_fields x)); de := de_JsonWebKey }.

Record EncryptedFile := {
  ef_url : string;
  ef_key : JsonWebKey;
  iv : string;
  hashes : gmap string string;
  version : string
}.

Definition EncryptedFile_fields (x : EncryptedFile) : list (string * option json) :=
  [("url", Some (JString (ef_url x))); ("key", Some (ser (ef_key x)));
   ("iv", Some (JString (iv x))); ("hashes", Some (JObject (btree_iter (JString <$> hashes x))));
   ("v", Some (JString (version x)))].

Definition de_EncryptedFile : decoder EncryptedFile := λ j,
  let fields := ["url"; "key"; "iv"; "hashes"; "v"] in
  src ← struct_src fields j;
  url ← field_req fields "url" de_string src;
  key ← field_req fields "key" de src;
  iv ← field_req fields "iv" de_string src;
  hashes ← field_req fields "hashes" (de_map (λ k, Ok k) de_string) src;
  v ← field_req fields "v" de_string src;
  Ok {| ef_url := url; ef_key := key; iv := iv; hashes := hashes; version := v |}.

#[export] Instance EncryptedFile_serde : Serde EncryptedFile :=
  { ser x := JObject (written (EncryptedFile_fields x)); de := de_EncryptedFile }.

Record ThumbnailInfo := {
  th_height : option Z;
  th_width : option Z;
  th_mimetype : option string;
  th_size : option Z
}.

Definition ThumbnailInfo_fields (x : ThumbnailInfo) : list (string * option json) :=
  [("h", ser_uint <$> th_height x); ("w", ser_uint <$> th_width x);
   ("mimetype", JString <$> th_mimetype x); ("size", ser_uint <$> th_size x)].

Definition de_ThumbnailInfo : decoder ThumbnailInfo := λ j,
  let fields := ["h"; "w"; "mimetype"; "size"] in
  src ← struct_src fields j;
  height ← field_opt fields "h" de_uint src;
  width ← field_opt fields "w" de_uint src;
  mimetype ← field_opt fields "mimetype" de_string src;
  size ← field_opt fields "size" de_uint src;
  Ok {| th_height := height; th_width := width; th_mimetype := mimetype; th_size := size |}.

#[export] Instance ThumbnailInfo_serde : Serde ThumbnailInfo :=
  { ser x := JObject (written (ThumbnailInfo_fields x)); de := de_ThumbnailInfo }.

Record ImageInfo := {
  im_height : option Z;
  im_width : option Z;
  im_mimetype : option string;
  im_size : option Z;
  im_thumbnail_info : option ThumbnailInfo;
  im_thumbnail_url : option string;
  im_thumbnail_file : option EncryptedFile
}.

Definition ImageInfo_fields (x : ImageInfo) : list (string * option json) :=
  [("h", ser_uint <$> im_height x); ("w", ser_uint <$> im_width x);
   ("mimetype", JString <$> im_mimetype x); ("size", ser_uint <$> im_size x);
   ("thumbnail_info", ser <$> im_thumbnail_info x);
   ("thumbnail_url", JString <$> im_thumbnail_url x);
   ("thumbnail_file", ser <$> im_thumbnail_file x)].

Definition de_ImageInfo : decoder ImageInfo := λ j,
  let fields :=
    ["h"; "w"; "mimetype";
     "size"; "thumbnail_info"; "thumbnail_url"; "thumbnail_file"] in
  src ← struct_src fields j;
  height ← field_opt fields "h" de_uint src;
  width ← field_opt fields "w" de_uint src;
  mimetype ← field_opt fields "mimetype" de_string src;
  size ← field_opt fields "size" de_uint src;
  thumbnail_info ← field_opt fields "thumbnail_info" de src;
  thumbnail_url ← field_opt fields "thumbnail_url" de_string src;
  thumbnail_file ← field_opt fields "thumbnail_file" de src;
  Ok {| im_height := height; im_width := width; im_mimetype := mimetype; im_size := size;
        im_thumbnail_info := thumbnail_info; im_thumbnail_url := thumbnail_url;
        im_thumbnail_file := thumbnail_file |}.

#[export] Instance ImageInfo_serde : Serde ImageInfo :=
  { ser x := JObject (written (ImageInfo_fields x)); de := de_ImageInfo }.

(** ** message.rs: what the variants hold *)

Record AudioInfo := {
  au_duration : option Z;
  au_mimetype : option string;
  au_size : option Z
}.

Definition AudioInfo_fields (x : AudioInfo) : list (string * option json) :=
  [("duration", ser_uint <$> au_duration x); ("mimetype", JString <$> au_mimetype x);
   ("size", ser_uint <$> au_size x)].

Definition de_AudioInfo : decoder AudioInfo := λ j,
  let fields := ["duration"; "mimetype"; "size"] in
  src ← struct_src fields j;
  duration ← field_opt fields "duration" de_uint src;
  mimetype ← field_opt fields "mimetype" de_string src;
  size ← field_opt fields "size" de_uint src;
  Ok {| au_duration := duration; au_mimetype := mimetype; au_size := size |}.

#[export] Instance AudioInfo_serde : Serde AudioInfo :=
  { ser x := JObject (written (AudioInfo_fields x)); de := de_AudioInfo }.

Record FileInfo := {
  fi_mimetype : option string;
  fi_size : option Z;
  fi_thumbnail_info : option ThumbnailInfo;
  fi_thumbnail_url : option string;
  fi_thumbnail_file : option EncryptedFile
}.

Definition FileInfo_fields (x : FileInfo) : list (string * option json) :=
  [("mimetype", JString <$> fi_mimetype x); ("size", ser_uint <$> fi_size x);
   ("thumbnail_info", ser <$> fi_thumbnail_info x);
   ("thumbnail_url", JString <$> fi_thumbnail_url x);
   ("thumbnail_file", ser <$> fi_thumbnail_file x)].

Definition de_FileInfo : decoder FileInfo := λ j,
  let fields := ["mimetype"; "size"; "thumbnail_info"; "thumbnail_url"; "thumbnail_file"] in
  src ← struct_src fields j;
  mimetype ← field_opt fields "mimetype" de_string src;
  size ← field_opt fields "size" de_uint src;
  thumbnail_info ← field_opt fields "thumbnail_info" de src;
  thumbnail_url ← field_opt fields "thumbnail_url" de_string src;
  thumbnail_file ← field_opt fields "thumbnail_file" de src;
  Ok {| fi_mimetype := mimetype; fi_size := size; fi_thumbnail_info := thumbnail_info;
        fi_thumbnail_url := thumbnail_url; fi_thumbnail_file := thumbnail_file |}.

#[export] Instance FileInfo_serde : Serde FileInfo :=
  { ser x := JObject (written (FileInfo_fields x)); de := de_FileInfo }.

Record LocationInfo := {
  lo_thumbnail_url : option string;
  lo_thumbnail_file : option EncryptedFile;
  lo_thumbnail_info : option ThumbnailInfo
}.

Definition LocationInfo_fields (x : LocationInfo) : list (string * option json) :=
  [("thumbnail_url", JString <$> lo_thumbnail_url x);
   ("thumbnail_file", ser <$> lo_thumbnail_file x);
   ("thumbnail_info", ser <$> lo_thumbnail_info x)].

Definition de_LocationInfo : decoder LocationInfo := λ j,
  let fields := ["thumbnail_url"; "thumbnail_file"; "thumbnail_info"] in
  src ← struct_src fields j;
  thumbnail_url ← field_opt fields "thumbnail_url" de_string src;
  thumbnail_file ← field_opt fields "thumbnail_file" de src;
  thumbnail_info ← field_opt fields "thumbnail_info" de src;
  Ok {| lo_thumbnail_url := thumbnail_url; lo_thumbnail_file := thumbnail_file;
        lo_thumbnail_info := thumbnail_info |}.

#[export] Instance LocationInfo_serde : Serde LocationInfo :=
  { ser x := JObject (written (LocationInfo_fields x)); de := de_LocationInfo }.

Record VideoInfo := {
  vi_duration : option Z;
  vi_height : option Z;
  vi_width : option Z;
  vi_mimetype : option string;
  vi_size : option Z;
  vi_thumbnail_info : option ThumbnailInfo;
  vi_thumbnail_url : option string;
  vi_thumbnail_file : option EncryptedFile
}.

Definition VideoInfo_fields (x : VideoInfo) : list (string * option json) :=
  [("duration", ser_uint <$> vi_duration x); ("h", ser_uint <$> vi_height x);
   ("w", ser_uint <$> vi_width x); ("mimetype", JString <$> vi_mimetype x);
   ("size", ser_uint <$> vi_size x); ("thumbnail_info", ser <$> vi_thumbnail_info x);
   ("thumbnail_url", JString <$> vi_thumbnail_url x);
   ("thumbnail_file", ser <$> vi_thumbnail_file x)].

Definition de_VideoInfo : decoder VideoInfo := λ j,
  let fields :=
    ["duration"; "h"; "w"; "mimetype";
     "size"; "thumbnail_info"; "thumbnail_url"; "thumbnail_file"] in
  src ← struct_src fields j;
  duration ← field_opt fields "duration" de_uint src;
  height ← field_opt fields "h" de_uint src;
  width ← field_opt fields "w" de_uint src;
  mimetype ← field_opt fields "mimetype" de_string src;
  size ← field_opt fields "size" de_uint src;
  thumbnail_info ← field_opt fields "thumbnail_info" de src;
  thumbnail_url ← field_opt fields "thumbnail_url" de_string src;
  thumbnail_file ← field_opt fields "thumbnail_file" de src;
  Ok {| vi_duration := duration; vi_height := height; vi_width := width; vi_mimetype := mimetype;
        vi_size := size; vi_thumbnail_info := thumbnail_info; vi_thumbnail_url := thumbnail_url;
        vi_thumbnail_file := thumbnail_file |}.

#[export] Instance VideoInfo_serde : Serde VideoInfo :=
  { ser x := JObject (written (VideoInfo_fields x)); de := de_VideoInfo }.

(** [AudioMessageEventContent], [ImageMessageEventContent] and [VideoMessageEventContent] differ
    in their [info] and their tag. *)
Record MediaMessageEventContent (I : Type) := {
  media_body : string;
  media_url : option string;
  media_file : option EncryptedFile;
  media_info : option I
}.
Arguments media_body {I} m.
Arguments media_url {I} m.
Arguments media_file {I} m.
Arguments media_info {I} m.

Definition AudioMessageEventContent : Type := MediaMessageEventContent AudioInfo.
Definition ImageMessageEventContent : Type := MediaMessageEventContent ImageInfo.
Definition VideoMessageEventContent : Type := MediaMessageEventContent VideoInfo.

Definition media_plain {I} (body url : string) (info : option I) : MediaMessageEventContent I :=
  {| media_body := body; media_url := Some url; media_file := None; media_info := info |}.
Definition media_encrypted {I} (body : string) (file : EncryptedFile) :
    MediaMessageEventContent I :=
  {| media_body := body; media_url := None; media_file := Some file; media_info := None |}.

Definition media_fields {I} `{Serde I} (x : MediaMessageEventContent I) :
    list (string * option json) :=
  [("body", Some (JString (media_body x))); ("url", JString <$> media_url x);
   ("file", ser <$> media_file x); ("info", ser <$> media_info x)].

Definition de_media {I} `{Serde I} : decoder (MediaMessageEventContent I) := λ j,
  let fields := ["body"; "url"; "file"; "info"] in
  src ← struct_src fields j;
  body ← field_req fields "body" de_string src;
  url ← field_opt fields "url" de_string src;
  file ← field_opt fields "file" de src;
  info ← field_opt fields "info" de src;
  Ok {| media_body := body; media_url := url; media_file := file; media_info := info |}.

Record FileMessageEventContent := {
  file_body : string;
  filename : option string;
  file_url : option string;
  file_file : option EncryptedFile;
  file_info : option FileInfo
}.

Definition file_plain (body url : string) (info : option FileInfo) : FileMessageEventContent :=
  {| file_body := body; filename := None; file_url := Some url; file_file := None;
     file_info := info |}.
Definition file_encrypted (body : string) (file : EncryptedFile) : FileMessageEventContent :=
  {| file_body := body; filename := None; file_url := None; file_file := Some file;
     file_info := None |}.

Definition FileMessage_fields (x : FileMessageEventContent) : list (string * option json) :=
  [("body", Some (JString (file_body x))); ("filename", JString <$> filename x);
   ("url", JString <$> file_url x); ("file", ser <$> file_file x);
   ("info", ser <$> file_info x)].

Definition de_FileMessageEventContent : decoder FileMessageEventContent := λ j,
  let fields := ["body"; "filename"; "url"; "file"; "info"] in
  src ← struct_src fields j;
  body ← field_req fields "body" de_string src;
  filename ← field_opt fields "filename" de_string src;
  url ← field_opt fields "url" de_string src;
  file ← field_opt fields "file" de src;
  info ← field_opt fields "info" de src;
  Ok {| file_body := body; filename := filename; file_url := url; file_file := file;
        file_info := info |}.

Record LocationMessageEventContent := {
  loc_body : string;
  geo_uri : string;
  loc_info : option LocationInfo
}.

Definition LocationMessageEventContent_new (body geo_uri : string) : LocationMessageEventContent :=
  {| loc_body := body; geo_uri := geo_uri; loc_info := None |}.

Definition LocationMessage_fields (x : LocationMessageEventContent) :
    list (string * option json) :=
  [("body", Some (JString (loc_body x))); ("geo_uri", Some (JString (geo_uri x)));
   ("info", ser <$> loc_info x)].

Definition de_LocationMessageEventContent : decoder LocationMessageEventContent := λ j,
  let fields := ["body"; "geo_uri"; "info"] in
  src ← struct_src fields j;
  body ← field_req fields "body" de_string src;
  geo_uri ← field_req fields "geo_uri" de_string src;
  info ← field_opt fields "info" de src;
  Ok {| loc_body := body; geo_uri := geo_uri; loc_info := info |}.

Module ServerNoticeType.
Inductive ServerNoticeType := UsageLimitReached | Custom (s : string).

#[export] Instance ServerNoticeType_eq_dec : EqDecision ServerNoticeType.
Proof. solve_decision. Defined.

#[export, refine] Instance ServerNoticeType_enum : StringEnum ServerNoticeType := {|
  rename_all := RenameNone;
  unit_variants :=
    [("UsageLimitReached", Some "m.server_notice.usage_limit_reached", UsageLimitReached)];
  custom := Custom;
  custom_inner c := match c with Custom s => Some s | _ => None end
|}.
Proof. all: string_enum_laws. Defined.
End ServerNoticeType.
Export (hints) ServerNoticeType.

Module LimitType.
Inductive LimitType := MonthlyActiveUser | Custom (s : string).

#[export] Instance LimitType_eq_dec : EqDecision LimitType.
Proof. solve_decision. Defined.

#[export, refine] Instance LimitType_enum : StringEnum LimitType := {|
  rename_all := SnakeCase;
  unit_variants := [("MonthlyActiveUser", None, MonthlyActiveUser)];
  custom := Custom;
  custom_inner c := match c with Custom s => Some s | _ => None end
|}.
Proof. all: string_enum_laws. Defined.
End LimitType.
Export (hints) LimitType.

Module MessageFormat.
Inductive MessageFormat := Html | Custom (s : string).

#[export] Instance MessageFormat_eq_dec : EqDecision MessageFormat.
Proof. solve_decision. Defined.

#[export, refine] Instance MessageFormat_enum : StringEnum MessageFormat := {|
  rename_all := RenameNone;
  unit_variants := [("Html", Some "org.matrix.custom.html", Html)];
  custom := Custom;
  custom_inner c := match c with Custom s => Some s | _ => None end
|}.
Proof. all: string_enum_laws. Defined.
End MessageFormat.
Export (hints) MessageFormat.

Record ServerNoticeMessageEventContent := {
  notice_body : string;
  server_notice_type : ServerNoticeType.ServerNoticeType;
  admin_contact : option string;
  limit_type : option LimitType.LimitType
}.

Definition ser_enum {A} `{StringEnum A} (a : A) : json := JString (as_ref a).

Definition ServerNotice_fields (x : ServerNoticeMessageEventContent) :
    list (string * option json) :=
  [("body", Some (JString (notice_body x)));
   ("server_notice_type", Some (ser_enum (server_notice_type x)));
   ("admin_contact", JString <$> admin_contact x); ("limit_type", ser_enum <$> limit_type x)].

Definition de_ServerNoticeMessageEventContent : decoder ServerNoticeMessageEventContent := λ j,
  let fields := ["body"; "server_notice_type"; "admin_contact"; "limit_type"] in
  src ← struct_src fields j;
  body ← field_req fields "body" de_string src;
  server_notice_type ← field_req fields "server_notice_type" de_string_enum src;
  admin_contact ← field_opt fields "admin_contact" de_string src;
  limit_type ← field_opt fields "limit_type" de_string_enum src;
  Ok {| notice_body := body; server_notice_type := server_notice_type;
        admin_contact := admin_contact; limit_type := limit_type |}.

Record FormattedBody := { format : MessageFormat.MessageFormat; formatted_body : string }.

Definition FormattedBody_html (body : string) : FormattedBody :=
  {| format := MessageFormat.Html; formatted_body := body |}.

Definition de_FormattedBody : decoder FormattedBody := λ j,
  let fields := ["format"; "formatted_body"] in
  src ← struct_src fields j;
  format ← field_req fields "format" de_string_enum src;
  body ← field_req fields "formatted_body" de_string src;
  Ok {| format := format; formatted_body := body |}.

(** [EmoteMessageEventContent], [NoticeMessageEventContent] and [TextMessageEventContent] differ
    in their tag. *)
Record TextMessageEventContent := {
  text_body : string;
  formatted : option FormattedBody
}.

Definition text_plain (body : string) : TextMessageEventContent :=
  {| text_body := body; formatted := None |}.
Definition text_html (body html_body : string) : TextMessageEventContent :=
  {| text_body := body; formatted := Some (FormattedBody_html html_body) |}.

(** [flatten] of an [Option]: its fields when it is there. *)
Definition TextMessage_fields (x : TextMessageEventContent) : list (string * option json) :=
  [("body", Some (JString (text_body x)));
   ("format", (λ f, ser_enum (format f)) <$> formatted x);
   ("formatted_body", (λ f, JString (formatted_body f)) <$> formatted x)].

(** An error in the flattened fields is [None]. *)
Definition de_TextMessageEventContent : decoder TextMessageEventContent := λ j,
  '(src, rest) ← flat_src ["body"] j;
  body ← field_req ["body"] "body" de_string src;
  formatted ← try_ok (de_FormattedBody (JObject rest));
  Ok {| text_body := body; formatted := formatted |}.

Record CustomMessage := {
  custom_msgtype : string;
  custom_body : string;
  custom_data : gmap string json
}.

Definition de_CustomMessage : decoder CustomMessage := λ j,
  let fields := ["msgtype"; "body"] in
  '(src, rest) ← flat_src fields j;
  msgtype ← field_req fields "msgtype" de_string src;
  body ← field_req fields "body" de_string src;
  data ← de_JsonObject (JObject rest);
  Ok {| custom_msgtype := msgtype; custom_body := body; custom_data := data |}.

(** ** Types of message *)

Inductive MessageType :=
  | Audio (c : AudioMessageEventContent)
  | Emote (c : TextMessageEventContent)
  | File (c : FileMessageEventContent)
  | Image (c : ImageMessageEventContent)
  | Location (c : LocationMessageEventContent)
  | Notice (c : TextMessageEventContent)
  | ServerNotice (c : ServerNoticeMessageEventContent)
  | Text (c : TextMessageEventContent)
  | Video (c : VideoMessageEventContent)
  | CustomType (c : CustomMessage).

Definition MessageType_msgtype (m : MessageType) : string :=
  match m with
  | Audio _ => "m.audio"
  | Emote _ => "m.emote"
  | File _ => "m.file"
  | Image _ => "m.image"
  | Location _ => "m.location"
  | Notice _ => "m.notice"
  | ServerNotice _ => "m.server_notice"
  | Text _ => "m.text"
  | Video _ => "m.video"
  | CustomType c => custom_msgtype c
  end.

Definition MessageType_body (m : MessageType) : string :=
  match m with
  | Audio c => media_body c
  | Emote c | Notice c | Text c => text_body c
  | File c => file_body c
  | Image c => media_body c
  | Location c => loc_body c
  | ServerNotice c => notice_body c
  | Video c => media_body c
  | CustomType c => custom_body c
  end.

(** The fields of a variant's struct without its tag; the entries that are written. *)
Definition MessageType_fields (m : MessageType) : list (string * option json) :=
  match m with
  | Audio c => media_fields c
  | Emote c | Notice c | Text c => TextMessage_fields c
  | File c => FileMessage_fields c
  | Image c => media_fields c
  | Location c => LocationMessage_fields c
  | ServerNotice c => ServerNotice_fields c
  | Video c => media_fields c
  | CustomType c =>
      ("body", Some (JString (custom_body c))) :: (prod_map id Some <$> btree_iter (custom_data c))
  end.

Definition ser_MessageType (m : MessageType) : list (string * json) :=
  written (("msgtype", Some (JString (MessageType_msgtype m))) :: MessageType_fields m).

(** Reading a variant once its type is known *)
Definition de_variant (msgtype : string) (j : json) : option (outcome () MessageType) :=
  if decide (msgtype = "m.audio") then Some (Audio <$> de_media j)
  else if decide (msgtype = "m.emote") then Some (Emote <$> de_TextMessageEventContent j)
  else if decide (msgtype = "m.file") then Some (File <$> de_FileMessageEventContent j)
  else if decide (msgtype = "m.image") then Some (Image <$> de_media j)
  else if decide (msgtype = "m.location") then Some (Location <$> de_LocationMessageEventContent j)
  else if decide (msgtype = "m.notice") then Some (Notice <$> de_TextMessageEventContent j)
  else if decide (msgtype = "m.server_notice")
  then Some (ServerNotice <$> de_ServerNoticeMessageEventContent j)
  else if decide (msgtype = "m.text") then Some (Text <$> de_TextMessageEventContent j)
  else if decide (msgtype = "m.video") then Some (Video <$> de_media j)
  else None.

(** content_serde.rs, with [MessageTypeDeHelper] *)
Definition de_MessageType : decoder MessageType := λ j,
  src ← struct_src ["msgtype"] j;
  msgtype ← field_req ["msgtype"] "msgtype" de_string src;
  match de_variant msgtype j with
  | Some r => r
  | None => CustomType <$> de_CustomMessage j
  end.

(** [MessageType::new]: the data with the body, as the object of the variant *)
Definition MessageType_new (msgtype body : string) (data : gmap string json) :
    outcome () MessageType :=
  match de_variant msgtype (ser_JsonObject (<["body" := JString body]> data)) with
  | Some r => r
  | None =>
      Ok (CustomType {| custom_msgtype := msgtype; custom_body := body; custom_data := data |})
  end.

(** [serde_json::to_value] of the variant, less its body *)
Definition MessageType_data (m : MessageType) : gmap string json :=
  match m with
  | CustomType c => custom_data c
  | m => delete "body"
           (last_entries ((λ '(k, v), (k, to_value v)) <$> ser_MessageType m))
  end.

(** ** Relations: relation_serde.rs *)

Inductive Relation :=
  | Reply (in_reply_to : string)
  | CustomRelation.

Definition de_InReplyTo : decoder string := λ j,
  src ← struct_src ["event_id"] j;
  field_req ["event_id"] "event_id" (de_parse EventId_parse) src.

(** [RelatesToJsonRepr] *)
Definition de_RelatesTo : decoder (option string) := λ j,
  src ← struct_src ["m.in_reply_to"] j;
  field_opt ["m.in_reply_to"] "m.in_reply_to" de_InReplyTo src.

Definition de_Relation : decoder Relation := λ j,
  src ← struct_src ["m.relates_to"] j;
  in_reply_to ← field_default ["m.relates_to"] "m.relates_to" None de_RelatesTo src;
  match in_reply_to with
  | Some event_id => Ok (Reply event_id)
  | None => Ok CustomRelation
  end.

(** [EventWithRelatesToJsonRepr], whose one field is skipped when it is empty *)
Definition Relation_fields (r : Relation) : list (string * option json) :=
  [("m.relates_to",
    match r with
    | Reply event_id =>
        Some (JObject [("m.in_reply_to", JObject [("event_id", JString event_id)])])
    | CustomRelation => None
    end)].

(** ** The content of a message *)

Record RoomMessageEventContent := {
  msgtype : MessageType;
  relates_to : option Relation
}.

Definition ser_RoomMessageEventContent (c : RoomMessageEventContent) : json :=
  JObject (ser_MessageType (msgtype c) ++
           match relates_to c with Some r => written (Relation_fields r) | None => [] end).

(** [Option::<Relation>::deserialize] of the whole content, which is [None] for [null] only *)
Definition de_RoomMessageEventContent : decoder RoomMessageEventContent := λ j,
  relates_to ← de_option de_Relation j;
  msgtype ← de_MessageType j;
  Ok {| msgtype := msgtype; relates_to := relates_to |}.

Definition RoomMessageEventContent_new (m : MessageType) : RoomMessageEventContent :=
  {| msgtype := m; relates_to := None |}.
