(* ===== verification/MessageReply.v ===== *)
(** * Replies

    [ruma-events/src/room/message/reply.rs] and the constructors of replies of
    [room/message.rs]: the quote of the message that is replied to, in plain text and in HTML,
    and what a client that removes the quote is left with.

    [formatdoc!] of the crate indoc takes the indentation of the literal away. *)

From S2P Require Import Prelude RustStr RustNet IdValidation StringEnum Identifiers Json.
From S2P Require Import CanonicalJson Serde Events Messages.
From Stdlib Require Import Ascii NArith.
Open Scope string_scope.
Open Scope nat_scope.
Open Scope list_scope.

Definition newline : ascii := "010"%char.
Definition nl : string := String newline "".
Definition dq : string := String "034"%char "".

(** [s.replace(c, t)] for a character [c] *)
Fixpoint replace_char (c : ascii) (t s : string) : string :=
  match s with
  | "" => ""
  | String b s => if byte_is c b then (t ++ replace_char c t s)%string
                  else String b (replace_char c t s)
  end.

Definition RoomMessageEvent : Type := Event MessageEvent RoomMessageEventContent Unsigned.
Definition SyncRoomMessageEvent : Type := Event SyncMessageEvent RoomMessageEventContent Unsigned.

(** What a reply needs to know of a message. *)
Class ReplyBaseEvent (E : Type) := {
  reply_event_id : E → string;
  reply_sender : E → string;
  reply_content : E → RoomMessageEventContent
}.

#[export] Instance RoomMessageEvent_reply : ReplyBaseEvent RoomMessageEvent := {|
  reply_event_id (e : RoomMessageEvent) := event_id (s:=MessageEvent) e;
  reply_sender e := sender (s:=MessageEvent) e;
  reply_content e := content e
|}.

#[export] Instance SyncRoomMessageEvent_reply : ReplyBaseEvent SyncRoomMessageEvent := {|
  reply_event_id (e : SyncRoomMessageEvent) := event_id (s:=SyncMessageEvent) e;
  reply_sender e := sender (s:=SyncMessageEvent) e;
  reply_content e := content e
|}.

Definition get_plain_quote_fallback {E} `{ReplyBaseEvent E} (original_message : E) : string :=
  let sender := reply_sender original_message in
  let said (text : string) := ("> <" ++ sender ++ "> " ++ text)%string in
  replace_char newline (nl ++ "> ")
    (match msgtype (reply_content original_message) with
     | Audio _ => "> <" ++ sender ++ "> sent an audio file."
     | Emote content => "> * <" ++ sender ++ "> " ++ text_body content
     | File _ => "> <" ++ sender ++ "> sent a file."
     | Image _ => "> <" ++ sender ++ "> sent an image."
     | Location content => said (loc_body content)
     | Notice content => said (text_body content)
     | ServerNotice content => said (notice_body content)
     | Text content => said (text_body content)
     | Video _ => "> <" ++ sender ++ "> sent a video."
     | CustomType content => said (custom_body content)
     end)%string.

Definition formatted_or_plain_body (formatted : option FormattedBody) (body : string) : string :=
  match formatted with Some f => formatted_body f | None => body end.

(** The one shape of all the literals: what comes before the sender, and the last line. *)
Definition mx_reply (before : string) (e : RoomMessageEvent) (text : string) : string :=
  let link (target shown : string) :=
    ("<a href=" ++ dq ++ "https://matrix.to/#/" ++ target ++ dq ++ ">" ++ shown ++ "</a>")%string in
  ("<mx-reply>" ++ nl ++
   "    <blockquote>" ++ nl ++
   "        " ++ link (room_id (s:=MessageEvent) e ++ "/" ++ event_id (s:=MessageEvent) e) "In reply to" ++ nl ++
   "        " ++ before ++ link (sender (s:=MessageEvent) e) (sender (s:=MessageEvent) e) ++ nl ++
   "        <br />" ++ nl ++
   "        " ++ text ++ nl ++
   "    </blockquote>" ++ nl ++
   "</mx-reply>" ++ nl)%string.

Definition get_html_quote_fallback (original_message : RoomMessageEvent) : string :=
  match msgtype (content original_message) with
  | Audio _ => mx_reply "" original_message "sent an audio file."
  | Emote content =>
      mx_reply "* " original_message (formatted_or_plain_body (formatted content) (text_body content))
  | File _ => mx_reply "" original_message "sent a file."
  | Image _ => mx_reply "" original_message "sent an image."
  | Location _ => mx_reply "" original_message "sent a location."
  | Notice content | Text content =>
      mx_reply "" original_message (formatted_or_plain_body (formatted content) (text_body content))
  | ServerNotice content => mx_reply "" original_message (notice_body content)
  | Video _ => mx_reply "" original_message "sent a video."
  | CustomType content => mx_reply "" original_message (custom_body content)
  end.

(** ** The constructors *)

Definition RoomMessage_text_plain (body : string) : RoomMessageEventContent :=
  RoomMessageEventContent_new (Text (text_plain body)).
Definition RoomMessage_text_html (body html_body : string) : RoomMessageEventContent :=
  RoomMessageEventContent_new (Text (text_html body html_body)).
Definition RoomMessage_notice_plain (body : string) : RoomMessageEventContent :=
  RoomMessageEventContent_new (Notice (text_plain body)).
Definition RoomMessage_notice_html (body html_body : string) : RoomMessageEventContent :=
  RoomMessageEventContent_new (Notice (text_html body html_body)).

(** [Self { relates_to, ..content }] *)
Definition with_reply (event_id : string) (content : RoomMessageEventContent) :
    RoomMessageEventContent :=
  {| msgtype := msgtype content; relates_to := Some (Reply event_id) |}.

Section replies.
Context {E : Type} `{ReplyBaseEvent E}.

Definition quoted_body (reply : string) (original_message : E) : string :=
  (get_plain_quote_fallback original_message ++ nl ++ nl ++ reply)%string.

Definition text_reply_plain (reply : string) (original_message : E) : RoomMessageEventContent :=
  with_reply (reply_event_id original_message)
    (RoomMessage_text_plain (quoted_body reply original_message)).

Definition notice_reply_plain (reply : string) (original_message : E) : RoomMessageEventContent :=
  with_reply (reply_event_id original_message)
    (RoomMessage_notice_plain (quoted_body reply original_message)).
End replies.

Definition quoted_html (html_reply : string) (original_message : RoomMessageEvent) : string :=
  (get_html_quote_fallback original_message ++ nl ++ nl ++ html_reply)%string.

Definition text_reply_html (reply html_reply : string) (original_message : RoomMessageEvent) :
    RoomMessageEventContent :=
  with_reply (event_id (s:=MessageEvent) original_message)
    (RoomMessage_text_html (quoted_body reply original_message)
       (quoted_html html_reply original_message)).

Definition notice_reply_html (reply html_reply : string) (original_message : RoomMessageEvent) :
    RoomMessageEventContent :=
  with_reply (event_id (s:=MessageEvent) original_message)
    (RoomMessage_notice_html (quoted_body reply original_message)
       (quoted_html html_reply original_message)).

(** ** Theorems *)

(** The lines that a client shows of a message, before the quoting. *)
Definition quoted_text {E} `{ReplyBaseEvent E} (original_message : E) : string :=
  (let said text := "<" ++ reply_sender original_message ++ "> " ++ text in
   let m := msgtype (reply_content original_message) in
   match m with
   | Audio _ => said "sent an audio file."
   | File _ => said "sent a file."
   | Image _ => said "sent an image."
   | Video _ => said "sent a video."
   | Emote _ => "* " ++ said (MessageType_body m)
   | _ => said (MessageType_body m)
   end)%string.

(** What a client does to show a reply without its quote: it leaves out the lines at the start
    that are quoted, and the empty line after them. *)
Fixpoint drop_quoted (lines : list string) : list string :=
  match lines with
  | String ">" _ :: lines => drop_quoted lines
  | lines => lines
  end.

Definition strip_reply_fallback (body : string) : string :=
  match drop_quoted (str_split newline body) with
  | "" :: lines => str_join newline lines
  | lines => str_join newline lines
  end.

Lemma str_split_app_sep c s t :
  str_split c (s +:+ String c t) = str_split c s ++ str_split c t.
Proof.
  induction s as [|b s IH]; simpl; [by rewrite (proj2 (byte_is_true c c))|].
  destruct (byte_is c b); [by rewrite IH|]. rewrite IH.
  pose proof (str_split_not_nil c s). by destruct (str_split c s).
Qed.

Lemma str_split_prefix c p s w ws :
  bytes_all (λ b, negb (byte_is c b)) p = true → str_split c s = w :: ws →
  str_split c (p +:+ s) = (p +:+ w) :: ws.
Proof.
  intros Hp Hs. induction p as [|b p IH]; simpl in *; [done|].
  apply andb_true_iff in Hp as [Hb Hp]. apply negb_true_iff in Hb. by rewrite Hb, IH.
Qed.

(** Quoting is line by line. *)
Lemma str_split_replace c p s w ws :
  bytes_all (λ b, negb (byte_is c b)) p = true → str_split c s = w :: ws →
  str_split c (replace_char c (String c p) s) = w :: (String.append p <$> ws).
Proof.
  intros Hp. revert w ws. induction s as [|b s IH]; intros w ws; [by intros [= <- <-]|].
  pose proof (str_split_not_nil c s) as Hne. cbn [str_split replace_char].
  destruct (byte_is c b) eqn:Hb.
  - intros [= <- <-]. destruct (str_split c s) as [|w ws] eqn:Hs; [done|].
    simpl. rewrite (proj2 (byte_is_true c c)) by done.
    rewrite (str_split_prefix c p _ _ _ Hp (IH _ _ eq_refl)). done.
  - destruct (str_split c s) as [|w' ws'] eqn:Hs; [done|]. intros [= <- <-].
    cbn [str_split]. by rewrite Hb, (IH _ _ eq_refl).
Qed.

Lemma quote_lines {E} `{ReplyBaseEvent E} (e : E) :
  str_split newline (get_plain_quote_fallback e) =
  String.append "> " <$> str_split newline (quoted_text e).
Proof.
  assert (get_plain_quote_fallback e = replace_char newline (nl ++ "> ")%string
    ("> " +:+ quoted_text e)) as ->.
  { unfold get_plain_quote_fallback, quoted_text. by destruct (msgtype _). }
  destruct (str_split newline (quoted_text e)) as [|w ws] eqn:Hs;
    [by apply str_split_not_nil in Hs|].
  by rewrite (str_split_replace newline "> " _ ("> " +:+ w) ws)
    by (done || by apply (str_split_prefix newline "> ")).
Qed.

Lemma drop_quoted_app ls rest : drop_quoted ((String.append "> " <$> ls) ++ rest) = drop_quoted rest.
Proof. induction ls as [|l ls IH]; [done|]. by csimpl. Qed.

(** The body of a reply: the quoted lines, an empty line, the reply. *)
Lemma quoted_body_lines {E} `{ReplyBaseEvent E} (e : E) reply :
  str_split newline (quoted_body reply e) =
  (String.append "> " <$> str_split newline (quoted_text e)) ++ "" :: str_split newline reply.
Proof.
  unfold quoted_body. change (?a ++ nl ++ nl ++ ?b)%string with (a +:+ String newline (nl +:+ b)).
  rewrite str_split_app_sep, quote_lines. done.
Qed.

Lemma strip_quoted_body {E} `{ReplyBaseEvent E} (e : E) reply :
  strip_reply_fallback (quoted_body reply e) = reply.
Proof.
  unfold strip_reply_fallback. rewrite quoted_body_lines, drop_quoted_app. simpl.
  apply str_join_split.
Qed.

(** C26: every constructor of replies refers to the event that is replied to, and gives a body of
    the quoted lines of that message, an empty line and the lines of the reply: a client that
    removes the quote is left with the reply, whatever the two texts are. *)
Theorem reply_spec (e : RoomMessageEvent) reply html_reply :
  Forall (λ c : RoomMessageEventContent,
    relates_to c = Some (Reply (event_id (s:=MessageEvent) e)) ∧
    str_split newline (MessageType_body (msgtype c)) =
      (String.append "> " <$> str_split newline (quoted_text e)) ++ "" :: str_split newline reply ∧
    strip_reply_fallback (MessageType_body (msgtype c)) = reply)
  [text_reply_plain reply e; notice_reply_plain reply e;
   text_reply_html reply html_reply e; notice_reply_html reply html_reply e].
Proof.
  repeat constructor; try apply quoted_body_lines; apply strip_quoted_body.
Qed.
