(* ===== verification/MessagesSpec.v ===== *)
(** * Messages: theorems

    A message content is read back as it was written, with one change: a content without
    relation comes back with a relation that says nothing. Contents of custom types that are
    replies can be read, but not what is written for them. The parts of a message type can be put
    together again. *)

From S2P Require Import Prelude RustStr RustNet IdValidation StringEnum Identifiers Json.
From S2P Require Import CanonicalJson Serde Messages.
From Stdlib Require Import Ascii NArith.
Open Scope string_scope.
Open Scope nat_scope.
Open Scope list_scope.

(** ** Well-formed values *)

Definition opt_wf {A} (P : A → Prop) (o : option A) : Prop := ∀ a, o = Some a → P a.
Definition uint_ok (z : Z) : Prop := uint_in_range z = true.

Lemma opt_wf_None {A} (P : A → Prop) : opt_wf P None.
Proof. done. Qed.
Lemma opt_wf_Some {A} (P : A → Prop) a : P a → opt_wf P (Some a).
Proof. by intros ? ? [= <-]. Qed.

Definition ThumbnailInfo_wf (x : ThumbnailInfo) : Prop :=
  opt_wf uint_ok (th_height x) ∧ opt_wf uint_ok (th_width x) ∧ opt_wf uint_ok (th_size x).
Definition ImageInfo_wf (x : ImageInfo) : Prop :=
  opt_wf uint_ok (im_height x) ∧ opt_wf uint_ok (im_width x) ∧ opt_wf uint_ok (im_size x) ∧
  opt_wf ThumbnailInfo_wf (im_thumbnail_info x).
Definition AudioInfo_wf (x : AudioInfo) : Prop :=
  opt_wf uint_ok (au_duration x) ∧ opt_wf uint_ok (au_size x).
Definition FileInfo_wf (x : FileInfo) : Prop :=
  opt_wf uint_ok (fi_size x) ∧ opt_wf ThumbnailInfo_wf (fi_thumbnail_info x).
Definition LocationInfo_wf (x : LocationInfo) : Prop :=
  opt_wf ThumbnailInfo_wf (lo_thumbnail_info x).
Definition VideoInfo_wf (x : VideoInfo) : Prop :=
  opt_wf uint_ok (vi_duration x) ∧ opt_wf uint_ok (vi_height x) ∧ opt_wf uint_ok (vi_width x) ∧
  opt_wf uint_ok (vi_size x) ∧ opt_wf ThumbnailInfo_wf (vi_thumbnail_info x).

(** ** Reading the shared structs *)

Lemma decodes_string s : decodes de_string (JString s) s.
Proof. by split. Qed.
Lemma decodes_bool b : decodes de_bool (JBool b) b.
Proof. by split. Qed.
Lemma decodes_uint z : uint_ok z → decodes de_uint (ser_uint z) z.
Proof. intros Hz. change (to_value ?j) with j. by split; apply de_uint_Ok. Qed.
Lemma decodes_strings l : decodes (de_list de_string) (JArray (JString <$> l)) l.
Proof.
  assert (to_value (JArray (JString <$> l)) = JArray (JString <$> l)) as Hv.
  { simpl. f_equal. rewrite <- list_fmap_compose. done. }
  split; rewrite ?Hv; apply de_list_round_trip, Forall_true; done.
Qed.

Lemma decodes_enum {A} `{StringEnum A} (a : A) : canonical a → decodes de_string_enum (ser_enum a) a.
Proof. intros Ha. unfold decodes, de_string_enum. simpl. by rewrite Ha. Qed.

Lemma decodes_string_map (m : gmap string string) :
  decodes (de_map (λ k, Ok k) de_string) (JObject (btree_iter (JString <$> m))) m.
Proof.
  assert (to_value (JObject (btree_iter (JString <$> m))) = JObject (btree_iter (JString <$> m)))
    as Hv.
  { simpl. rewrite last_entries_map, last_entries_btree_iter, map_value_id; [done|].
    by apply map_Forall_fmap; intros ???. }
  assert (de_map (λ k, Ok k) de_string (JObject (btree_iter (JString <$> m))) = Ok m) as Hd;
    [|by split; rewrite ?Hv].
  unfold de_map. erewrite for_each_ext; [apply (for_each_insert de_string)|by intros ? []].
  - intros k v Hin%elem_of_btree_iter. rewrite lookup_fmap in Hin.
    destruct (m !! k) as [x|] eqn:Hk; simplify_eq/=. eauto.
  - intros k Hk. apply list_elem_of_fmap. destruct Hk as [x Hk]. exists (k, JString x). split; [done|].
    apply elem_of_btree_iter. by rewrite lookup_fmap, Hk.
Qed.

(** ** Structs *)

(** The fields of a struct, one after another. *)
Ltac in_fields := repeat first [apply list_elem_of_here | apply list_elem_of_further].
Ltac read_struct Hv Hl :=
  rewrite (struct_src_holds Hl); cbn [mbind outcome_bind];
  repeat first
    [ erewrite (field_req_holds Hv Hl);
      [cbn [mbind outcome_bind] | in_fields | solve [eauto with decodes]]
    | erewrite (field_opt_holds Hv Hl);
      [cbn [mbind outcome_bind] | in_fields | solve [intros; split; [eauto with decodes|first [done|eauto]]]] ].

Create HintDb decodes.
#[export] Hint Resolve decodes_string decodes_bool decodes_uint decodes_strings decodes_enum
  decodes_string_map : decodes.
#[export] Hint Unfold opt_wf : decodes.

Lemma JsonWebKey_decodes (x : JsonWebKey) : decodes de (ser x) x.
Proof.
  apply decodes_struct; [decide_it|]. intros v entries Hv Hl. cbn [de JsonWebKey_serde].
  unfold de_JsonWebKey. read_struct Hv Hl. by destruct x.
Qed.
#[export] Hint Resolve JsonWebKey_decodes : decodes.

Lemma EncryptedFile_decodes (x : EncryptedFile) : decodes de (ser x) x.
Proof.
  apply decodes_struct; [decide_it|]. intros v entries Hv Hl. cbn [de EncryptedFile_serde].
  unfold de_EncryptedFile. read_struct Hv Hl. by destruct x.
Qed.
#[export] Hint Resolve EncryptedFile_decodes : decodes.

Lemma ThumbnailInfo_decodes (x : ThumbnailInfo) : ThumbnailInfo_wf x → decodes de (ser x) x.
Proof.
  intros (? & ? & ?). apply decodes_struct; [decide_it|]. intros v entries Hv Hl.
  cbn [de ThumbnailInfo_serde]. unfold de_ThumbnailInfo. read_struct Hv Hl. by destruct x.
Qed.
#[export] Hint Resolve ThumbnailInfo_decodes : decodes.

Lemma ImageInfo_decodes (x : ImageInfo) : ImageInfo_wf x → decodes de (ser x) x.
Proof.
  intros (? & ? & ? & ?). apply decodes_struct; [decide_it|]. intros v entries Hv Hl.
  cbn [de ImageInfo_serde]. unfold de_ImageInfo. read_struct Hv Hl. by destruct x.
Qed.

Lemma AudioInfo_decodes (x : AudioInfo) : AudioInfo_wf x → decodes de (ser x) x.
Proof.
  intros (? & ?). apply decodes_struct; [decide_it|]. intros v entries Hv Hl.
  cbn [de AudioInfo_serde]. unfold de_AudioInfo. read_struct Hv Hl. by destruct x.
Qed.

Lemma FileInfo_decodes (x : FileInfo) : FileInfo_wf x → decodes de (ser x) x.
Proof.
  intros (? & ?). apply decodes_struct; [decide_it|]. intros v entries Hv Hl.
  cbn [de FileInfo_serde]. unfold de_FileInfo. read_struct Hv Hl. by destruct x.
Qed.

Lemma LocationInfo_decodes (x : LocationInfo) : LocationInfo_wf x → decodes de (ser x) x.
Proof.
  unfold LocationInfo_wf. intros ?. apply decodes_struct; [decide_it|]. intros v entries Hv Hl.
  cbn [de LocationInfo_serde]. unfold de_LocationInfo. read_struct Hv Hl. by destruct x.
Qed.

Lemma VideoInfo_decodes (x : VideoInfo) : VideoInfo_wf x → decodes de (ser x) x.
Proof.
  intros (? & ? & ? & ? & ?). apply decodes_struct; [decide_it|]. intros v entries Hv Hl.
  cbn [de VideoInfo_serde]. unfold de_VideoInfo. read_struct Hv Hl. by destruct x.
Qed.
#[export] Hint Resolve ImageInfo_decodes AudioInfo_decodes FileInfo_decodes LocationInfo_decodes
  VideoInfo_decodes : decodes.

(** ** The variants *)

(** The integers are in range, the strings of enums are canonical, and custom data leave alone
    the keys that the struct and the relation use. *)
Definition MessageType_wf (m : MessageType) : Prop :=
  match m with
  | Audio c => opt_wf AudioInfo_wf (media_info c)
  | Emote c | Notice c | Text c => opt_wf (λ f, canonical (format f)) (formatted c)
  | File c => opt_wf FileInfo_wf (file_info c)
  | Image c => opt_wf ImageInfo_wf (media_info c)
  | Location c => opt_wf LocationInfo_wf (loc_info c)
  | ServerNotice c => canonical (server_notice_type c) ∧ opt_wf canonical (limit_type c)
  | Video c => opt_wf VideoInfo_wf (media_info c)
  | CustomType c =>
      (∀ j, de_variant (custom_msgtype c) j = None) ∧
      custom_data c !! "msgtype" = None ∧ custom_data c !! "body" = None ∧
      map_Forall (λ _, is_value) (custom_data c)
  end.

Section variants.
Context {v : json → json} {entries : list (string * json)} (Hv : id_or_value v).

Lemma media_reads {I} `{Serde I} (P : I → Prop) (c : MediaMessageEventContent I) :
  (∀ i, P i → decodes de (ser i) i) → (∀ i : I, ser i ≠ JNull) → opt_wf P (media_info c) →
  holds_fields v (media_fields c) entries → de_media (JObject entries) = Ok c.
Proof.
  intros HP Hnull Hwf Hl. unfold de_media. read_struct Hv Hl. by destruct c.
Qed.

Lemma file_reads c :
  opt_wf FileInfo_wf (file_info c) → holds_fields v (FileMessage_fields c) entries →
  de_FileMessageEventContent (JObject entries) = Ok c.
Proof. intros ? Hl. unfold de_FileMessageEventContent. read_struct Hv Hl. by destruct c. Qed.

Lemma location_reads c :
  opt_wf LocationInfo_wf (loc_info c) → holds_fields v (LocationMessage_fields c) entries →
  de_LocationMessageEventContent (JObject entries) = Ok c.
Proof. intros ? Hl. unfold de_LocationMessageEventContent. read_struct Hv Hl. by destruct c. Qed.

Lemma server_notice_reads c :
  canonical (server_notice_type c) → opt_wf canonical (limit_type c) →
  holds_fields v (ServerNotice_fields c) entries →
  de_ServerNoticeMessageEventContent (JObject entries) = Ok c.
Proof.
  intros ? ? Hl. unfold de_ServerNoticeMessageEventContent. read_struct Hv Hl. by destruct c.
Qed.
End variants.

(** Formatted bodies are flattened into their struct. *)
Lemma holds_filter v l (fields : list string) entries :
  holds_fields v l entries → Forall (λ name, name ∉ fields) l.*1 →
  holds_fields v l (filter (λ kv, kv.1 ∉ fields) entries).
Proof.
  intros [Hnd Hl] Hf. split.
  - eapply sublist_NoDup; [exact Hnd|]. apply fmap_sublist, sublist_filter.
  - rewrite list.Forall_forall in Hl. rewrite list.Forall_forall in Hf.
    apply list.Forall_forall. intros [name o] Hin. rewrite assoc_filter; [exact (Hl _ Hin)|].
    apply Hf. by apply (list_elem_of_fmap_2 fst _ (name, o)).
Qed.

Lemma text_reads v entries c :
  id_or_value v → opt_wf (λ f, canonical (format f)) (formatted c) →
  holds_fields v (TextMessage_fields c) entries →
  de_TextMessageEventContent (JObject entries) = Ok c.
Proof.
  intros Hv Hwf Hl. unfold de_TextMessageEventContent. rewrite flat_src_NoDup by apply Hl.
  cbn [mbind outcome_bind]. rewrite (field_req_holds Hv Hl _ _ de_string (JString (text_body c)) (text_body c));
    [|in_fields|apply decodes_string]. cbn [mbind outcome_bind].
  assert (try_ok (E':=()) (de_FormattedBody
    (JObject (filter (λ kv, kv.1 ∉ ["body"]) entries))) = Ok (formatted c)) as ->;
    [|by destruct c].
  assert (holds_fields v
    [("format", (λ f, ser_enum (format f)) <$> formatted c);
     ("formatted_body", (λ f, JString (formatted_body f)) <$> formatted c)]
    (filter (λ kv, kv.1 ∉ ["body"]) entries)) as Hf.
  { apply holds_filter; [|repeat constructor; decide_it].
    destruct Hl as [Hnd Hl]. split; [done|]. by apply list.Forall_cons in Hl as [_ Hl]. }
  unfold de_FormattedBody. destruct (formatted c) as [f|] eqn:Hc; cbn [fmap option_fmap option_map] in Hf.
  - specialize (Hwf f eq_refl). cbn beta in Hwf. read_struct Hv Hf. by destruct f.
  - rewrite (struct_src_holds Hf). cbn [mbind outcome_bind].
    rewrite (field_req_None _ "format"); [done|]. by apply (holds_field _ _ _ "format" None Hf); in_fields.
Qed.

(** Custom data: everything but the type and the body. *)
Lemma de_CustomMessage_entries t b rest :
  (∀ k, k ∈ rest.*1 → k ∉ ["msgtype"; "body"]) →
  de_CustomMessage (JObject (("msgtype", JString t) :: ("body", JString b) :: rest)) =
  Ok {| custom_msgtype := t; custom_body := b;
        custom_data := last_entries ((λ '(k, j), (k, to_value j)) <$> rest) |}.
Proof.
  intros Hrest. unfold de_CustomMessage.
  change (("msgtype", JString t) :: ("body", JString b) :: rest) with
    ([("msgtype", JString t); ("body", JString b)] ++ rest).
  rewrite flat_src_app; [|decide_it| |done].
  - cbn [mbind outcome_bind app]. rewrite (field_req_Some _ "msgtype" _ _ (JString t)) by done.
    by rewrite (field_req_Some _ "body" _ _ (JString b)).
  - intros k. csimpl. done.
Qed.

(** ** Message types *)

Definition is_custom (m : MessageType) : Prop := match m with CustomType _ => True | _ => False end.

Lemma info_not_null {A} `{Serde A} (i : A) l : ser i = JObject l → ser i ≠ JNull.
Proof. by intros ->. Qed.

Lemma de_variant_reads m v entries :
  ¬ is_custom m → MessageType_wf m → id_or_value v → holds_fields v (MessageType_fields m) entries →
  de_variant (MessageType_msgtype m) (JObject entries) = Some (Ok m).
Proof.
  intros Hnc Hwf Hv Hl. unfold de_variant.
  destruct m; simpl in Hnc, Hwf, Hl; cbn [MessageType_msgtype]; try done;
    repeat (rewrite decide_False by done); rewrite decide_True by done.
  1: rewrite (media_reads Hv AudioInfo_wf c AudioInfo_decodes) by done.
  2: rewrite (text_reads v entries c) by done.
  3: rewrite (file_reads Hv c) by done.
  4: rewrite (media_reads Hv ImageInfo_wf c ImageInfo_decodes) by done.
  5: rewrite (location_reads Hv c) by done.
  6: rewrite (text_reads v entries c) by done.
  7: destruct Hwf; rewrite (server_notice_reads Hv c) by done.
  8: rewrite (text_reads v entries c) by done.
  9: rewrite (media_reads Hv VideoInfo_wf c VideoInfo_decodes) by done.
  all: done.
Qed.

(** The tag and the fields of a variant have names of their own. *)
Lemma MessageType_fields_NoDup m :
  ¬ is_custom m → NoDup ("msgtype" :: (MessageType_fields m).*1 ++ ["m.relates_to"]).
Proof. destruct m; simpl; intros ?; try done; decide_it. Qed.

Lemma MessageType_NoDup m : ¬ is_custom m → NoDup ("msgtype" :: (MessageType_fields m).*1).
Proof.
  intros Hm. pose proof (MessageType_fields_NoDup m Hm) as Hnd. rewrite app_comm_cons in Hnd.
  by apply list.NoDup_app in Hnd as [? _].
Qed.

(** ** The theorems *)

Definition relation_wf (r : option Relation) : Prop :=
  match r with Some (Reply id) => EventId_parse id = Ok id | _ => True end.

(** Custom data say nothing of a relation, and the message is no reply. *)
Definition custom_apart (c : RoomMessageEventContent) : Prop :=
  match msgtype c with
  | CustomType m =>
      custom_data m !! "m.relates_to" = None ∧ ∀ id, relates_to c ≠ Some (Reply id)
  | _ => True
  end.

(** The JSON of a relation *)
Definition relates_json (r : option Relation) : option json :=
  match r with
  | Some (Reply id) => Some (JObject [("m.in_reply_to", JObject [("event_id", JString id)])])
  | _ => None
  end.

Lemma ser_content_eq c :
  ser_RoomMessageEventContent c =
  JObject (ser_MessageType (msgtype c) ++ written [("m.relates_to", relates_json (relates_to c))]).
Proof. unfold ser_RoomMessageEventContent. by destruct (relates_to c) as [[]|]. Qed.

Lemma de_relation_entries r entries :
  relation_wf r → NoDup entries.*1 → assoc "m.relates_to" entries = relates_json r →
  de_option de_Relation (JObject entries) = Ok (Some (default CustomRelation r)).
Proof.
  intros Hr Hnd Ha. unfold de_option, de_Relation. rewrite struct_src_obj by done.
  cbn [mbind outcome_bind]. unfold field_default, lookup_field. rewrite Ha.
  destruct r as [[id|]|]; [|done..]. cbn [relates_json]. unfold de_RelatesTo, de_InReplyTo.
  rewrite struct_src_one. cbn [mbind outcome_bind]. unfold field_opt, lookup_field.
  rewrite assoc_cons, decide_True by done. unfold de_option. rewrite struct_src_one.
  cbn [mbind outcome_bind]. rewrite (field_req_Some _ _ _ _ (JString id)) by done.
  by rewrite (de_parse_Ok _ _ _ Hr).
Qed.

Lemma written_app l l' : written (l ++ l') = written l ++ written l'.
Proof. apply omap_app. Qed.

Lemma written_Some (l : list (string * json)) : written (prod_map id Some <$> l) = l.
Proof. induction l as [|[k j] l IH]; [done|]. csimpl. by rewrite IH. Qed.

(** A content whose type is known. *)
Lemma known_round_trip c :
  ¬ is_custom (msgtype c) → MessageType_wf (msgtype c) → relation_wf (relates_to c) →
  de_RoomMessageEventContent (ser_RoomMessageEventContent c) =
  Ok {| msgtype := msgtype c; relates_to := Some (default CustomRelation (relates_to c)) |}.
Proof.
  intros Hnc Hwf Hr. rewrite ser_content_eq. unfold ser_MessageType. rewrite <- written_app.
  set (l := _ ++ _).
  assert (NoDup l.*1) as Hnd by (unfold l; rewrite fmap_app; by apply MessageType_fields_NoDup).
  pose proof (holds_written l Hnd) as Hl.
  unfold de_RoomMessageEventContent.
  rewrite (de_relation_entries (relates_to c)); [|done|apply Hl|].
  2:{ rewrite (holds_field _ _ _ _ (relates_json (relates_to c)) Hl); [by rewrite option_fmap_id|].
      apply elem_of_app. right. by apply list_elem_of_singleton. }
  cbn [mbind outcome_bind]. unfold de_MessageType. rewrite (struct_src_holds Hl).
  cbn [mbind outcome_bind].
  rewrite (field_req_holds (or_introl eq_refl) Hl _ _ _ (JString (MessageType_msgtype (msgtype c)))
    (MessageType_msgtype (msgtype c))); [|by left|apply decodes_string].
  cbn [mbind outcome_bind].
  rewrite (de_variant_reads (msgtype c) id (written l)); [done..|by left|].
  destruct Hl as [Hnd' Hl]. split; [done|]. apply list.Forall_cons in Hl as [_ Hl].
  by apply Forall_app in Hl as [Hl _].
Qed.

(** ** Custom types *)

Lemma last_entries_lookup_Some {A} (l : list (string * A)) k :
  k ∈ l.*1 → is_Some (last_entries l !! k).
Proof.
  unfold last_entries. intros Hk.
  assert (∀ m : gmap string A, (k ∈ l.*1 ∨ is_Some (m !! k)) →
    is_Some (fold_left (λ m '(k, v), <[k:=v]> m) l m !! k)) as Hall; [|by auto].
  clear Hk. induction l as [|[k' v] l IH]; intros m Hk; [by destruct Hk as [?%elem_of_nil|]|].
  simpl. apply IH. csimpl in Hk. destruct (decide (k' = k)) as [->|Hne].
  - right. rewrite lookup_insert_eq. eauto.
  - rewrite lookup_insert_ne by done. rewrite elem_of_cons in Hk. naive_solver.
Qed.

Lemma ser_custom_type m :
  ser_MessageType (CustomType m) =
  ("msgtype", JString (custom_msgtype m)) :: ("body", JString (custom_body m)) ::
  btree_iter (custom_data m).
Proof.
  unfold ser_MessageType. cbn [MessageType_fields MessageType_msgtype].
  rewrite <- (written_Some (btree_iter (custom_data m))) at 2. done.
Qed.

(** A relation in the data and one beside it are two entries with one key. *)
Lemma custom_twice c m id :
  msgtype c = CustomType m → is_Some (custom_data m !! "m.relates_to") →
  relates_to c = Some (Reply id) →
  de_RoomMessageEventContent (ser_RoomMessageEventContent c) = Err ().
Proof.
  intros Hm [j Hj] Hr. rewrite ser_content_eq, Hm, Hr, ser_custom_type.
  unfold de_RoomMessageEventContent, de_option, de_Relation, struct_src.
  rewrite decide_False; [done|]. rewrite fmap_app, list.filter_app. intros Hnd.
  apply list.NoDup_app in Hnd as (_ & Hnd & _). apply (Hnd "m.relates_to").
  - apply list_elem_of_filter. split; [by left|]. csimpl. do 2 right.
    apply (list_elem_of_fmap_2 fst _ ("m.relates_to", j)). by apply elem_of_btree_iter.
  - apply list_elem_of_filter. split; by left.
Qed.

(** Reading a custom type keeps the relation among the data. *)
Lemma de_custom_object j m : de_MessageType j = Ok (CustomType m) → de_CustomMessage j = Ok m.
Proof.
  unfold de_MessageType. intros (src & _ & (t & _ & H)%bind_Ok)%bind_Ok. revert H. unfold de_variant.
  repeat case_decide; intros (x & Hx & Heq)%fmap_Ok; try discriminate Heq. by injection Heq as ->.
Qed.

Lemma de_Relation_key entries id :
  de_option de_Relation (JObject entries) = Ok (Some (Reply id)) →
  "m.relates_to" ∈ entries.*1.
Proof.
  unfold de_option, de_Relation. intros (r & (src & Hs & Hr)%bind_Ok & [= ->])%bind_Ok.
  unfold struct_src in Hs. case_decide; [|done]. injection Hs as <-.
  destruct (decide ("m.relates_to" ∈ entries.*1)) as [|Hno]; [done|].
  unfold field_default, lookup_field in Hr. by rewrite assoc_None in Hr.
Qed.

Lemma custom_keeps_relation j c m id :
  de_RoomMessageEventContent j = Ok c → msgtype c = CustomType m →
  relates_to c = Some (Reply id) → is_Some (custom_data m !! "m.relates_to").
Proof.
  unfold de_RoomMessageEventContent. intros (r & Hr & (t & Ht & [= <-])%bind_Ok)%bind_Ok. simpl.
  intros -> ->. apply de_custom_object in Ht. unfold de_CustomMessage, flat_src in Ht.
  destruct j as [| | | | |entries]; try done. case_decide; [|done]. cbn [mbind outcome_bind] in Ht.
  apply bind_Ok in Ht as (t & _ & (b & _ & (d & [= <-] & [= <-])%bind_Ok)%bind_Ok). simpl.
  apply last_entries_lookup_Some. apply de_Relation_key in Hr.
  apply list_elem_of_fmap in Hr as ([k j] & Heq & Hin). simpl in Heq. subst k.
  apply (list_elem_of_fmap_2 fst _ ("m.relates_to", to_value j)).
  apply (list_elem_of_fmap_2 (λ '(k, j), (k, to_value j)) _ ("m.relates_to", j)).
  apply list_elem_of_filter. split; [|done]. decide_it.
Qed.

Lemma decide_custom m : {x | m = CustomType x} + {¬ is_custom m}.
Proof. destruct m; eauto; by right. Qed.

Lemma custom_round_trip c m :
  MessageType_wf (CustomType m) → msgtype c = CustomType m →
  custom_data m !! "m.relates_to" = None → (∀ id, relates_to c ≠ Some (Reply id)) →
  de_RoomMessageEventContent (ser_RoomMessageEventContent c) =
    Ok {| msgtype := msgtype c; relates_to := Some (default CustomRelation (relates_to c)) |}.
Proof.
  intros (Hv & Ht & Hb & Hval) Hm Hrel Hno.
  assert (relates_json (relates_to c) = None) as Hj.
  { destruct (relates_to c) as [[id|]|]; [|done..]. by destruct (Hno id). }
  rewrite ser_content_eq, Hj, Hm, ser_custom_type. cbn [written omap list_omap option_fmap]. simpl.
  rewrite app_nil_r.
  assert (∀ k, custom_data m !! k = None → k ∉ (btree_iter (custom_data m)).*1) as Hk.
  { intros k Hk. intros ([k' j] & -> & Hin%elem_of_btree_iter)%list_elem_of_fmap.
    simpl in Hk. by rewrite Hk in Hin. }
  assert (NoDup ("msgtype" :: "body" :: (btree_iter (custom_data m)).*1)) as Hnd.
  { apply list.NoDup_cons; split; [|apply list.NoDup_cons; split; [|apply NoDup_btree_iter_fst]].
    - intros [?|?]%elem_of_cons; [done|]. by apply (Hk "msgtype").
    - by apply Hk. }
  unfold de_RoomMessageEventContent. rewrite (de_relation_entries (relates_to c)); [|by destruct (relates_to c) as [[id|]|]; [destruct (Hno id)|..]|done|].
  2:{ rewrite Hj. apply assoc_None. csimpl. rewrite !not_elem_of_cons. auto. }
  cbn [mbind outcome_bind]. unfold de_MessageType. rewrite struct_src_obj by done.
  cbn [mbind outcome_bind]. rewrite (field_req_Some _ _ _ _ (JString (custom_msgtype m))) by done.
  cbn [de_string mbind outcome_bind]. rewrite Hv, de_CustomMessage_entries.
  - simpl. rewrite last_entries_map, last_entries_btree_iter, map_value_id by done. by destruct m.
  - intros k Hin. rewrite !not_elem_of_cons.
    split_and!; [intros ->; by apply (Hk "msgtype")|intros ->; by apply (Hk "body")|].
    apply not_elem_of_nil.
Qed.

(** The data with the body are what the variant is written as. *)
Lemma MessageType_body_field m :
  ¬ is_custom m → ("body", Some (JString (MessageType_body m))) ∈ MessageType_fields m.
Proof. destruct m; simpl; intros ?; try done; in_fields. Qed.

Lemma MessageType_data_body m :
  ¬ is_custom m →
  <["body" := JString (MessageType_body m)]> (MessageType_data m) =
    last_entries ((λ '(k, v), (k, to_value v)) <$> ser_MessageType m).
Proof.
  intros Hm. assert (MessageType_data m = delete "body"
    (last_entries ((λ '(k, v), (k, to_value v)) <$> ser_MessageType m))) as -> by (by destruct m).
  rewrite insert_delete_id; [done|].
  rewrite last_entries_assoc; unfold ser_MessageType.
  - rewrite (written_assoc _ _ (Some (JString (MessageType_body m)))); [done| |].
    + by apply MessageType_NoDup.
    + right. by apply MessageType_body_field.
  - apply written_NoDup. by apply MessageType_NoDup.
Qed.

Lemma message_round_trip_lemma c :
  MessageType_wf (msgtype c) → relation_wf (relates_to c) → custom_apart c →
  de_RoomMessageEventContent (ser_RoomMessageEventContent c) =
    Ok {| msgtype := msgtype c; relates_to := Some (default CustomRelation (relates_to c)) |}.
Proof.
  intros Hwf Hr Hc. destruct (decide_custom (msgtype c)) as [[m Hm]|Hm]; [|by apply known_round_trip].
  rewrite Hm in Hwf. unfold custom_apart in Hc. rewrite Hm in Hc. destruct Hc as [Hrel Hno].
  by apply (custom_round_trip c m).
Qed.

(** A reply whose message type is custom can be read, but what is written for it cannot: the
    relation is among the data as well, and is written twice. *)
Theorem custom_reply_unreadable j c m id :
  de_RoomMessageEventContent j = Ok c → msgtype c = CustomType m →
  relates_to c = Some (Reply id) →
  de_RoomMessageEventContent (ser_RoomMessageEventContent c) = Err ().
Proof. intros Hj Hm Hr. apply (custom_twice c m id); [done| |done].
  exact (custom_keeps_relation j c m id Hj Hm Hr).
Qed.

(** C25: what a message content with valid fields writes is read back with the same message type,
    all its fields included, and with the same reply, if it is no reply of a custom type and a
    custom type has no relation among its data; a content without relation does not come back
    as it was, but with the relation that says nothing. A reply of a custom type that was read
    cannot be read again from what it writes. *)
Theorem message_round_trip c :
  (MessageType_wf (msgtype c) → relation_wf (relates_to c) → custom_apart c →
   de_RoomMessageEventContent (ser_RoomMessageEventContent c) =
     Ok {| msgtype := msgtype c; relates_to := Some (default CustomRelation (relates_to c)) |}) ∧
  ∀ j m id, de_RoomMessageEventContent j = Ok c → msgtype c = CustomType m →
    relates_to c = Some (Reply id) →
    de_RoomMessageEventContent (ser_RoomMessageEventContent c) = Err ().
Proof. split; [apply message_round_trip_lemma|]. intros j m id. apply custom_reply_unreadable. Qed.

(** A message type is put together again from its type, its body and its data. *)
Theorem MessageType_new_data m :
  MessageType_wf m → MessageType_new (MessageType_msgtype m) (MessageType_body m)
    (MessageType_data m) = Ok m.
Proof.
  intros Hwf. unfold MessageType_new. destruct (decide_custom m) as [[x ->]|Hm].
  - destruct Hwf as [Hv _]. cbn [MessageType_msgtype]. rewrite Hv. by destruct x.
  - rewrite MessageType_data_body by done.
    unfold ser_JsonObject. rewrite (de_variant_reads m to_value); [done..|by right|].
    assert (holds_fields id (("msgtype", Some (JString (MessageType_msgtype m))) ::
      MessageType_fields m) (ser_MessageType m)) as Hl.
    { by apply holds_written, MessageType_NoDup. }
    apply holds_value in Hl as [Hnd' Hl]. split; [done|]. by apply list.Forall_cons in Hl as [_ Hl].
Qed.

(** ** Witnesses *)

Definition html_reply : RoomMessageEventContent := {|
  msgtype := Text (text_html "hello" "<b>hello</b>");
  relates_to := Some (Reply "$event")
|}.

Lemma html_reply_wf : MessageType_wf (msgtype html_reply).
Proof. intros f [= <-]. reflexivity. Qed.

Lemma message_round_trip_witness :
  de_RoomMessageEventContent (ser_RoomMessageEventContent html_reply) = Ok html_reply.
Proof.
  apply (message_round_trip html_reply); [exact html_reply_wf|by vm_compute|exact I].
Defined.

Definition custom_reply_json : json :=
  JObject [("msgtype", JString "org.example.dice"); ("body", JString "6");
           ("m.relates_to",
            JObject [("m.in_reply_to", JObject [("event_id", JString "$event")])])].

Lemma custom_reply_unreadable_witness :
  ∃ c m, de_RoomMessageEventContent custom_reply_json = Ok c ∧ msgtype c = CustomType m ∧
    de_RoomMessageEventContent (ser_RoomMessageEventContent c) = Err ().
Proof.
  do 2 eexists. split; [reflexivity|]. split; [reflexivity|].
  eapply (custom_reply_unreadable custom_reply_json); reflexivity.
Defined.

Lemma MessageType_new_data_witness :
  MessageType_new "m.text" "hello" (MessageType_data (msgtype html_reply)) = Ok (msgtype html_reply).
Proof. apply (MessageType_new_data (msgtype html_reply)). exact html_reply_wf. Defined.
