(* ===== verification/Codecs.v ===== *)
(** * Codecs: declared types and their JSON

    The types that the API crates declare have derived serde implementations. A [codec] is such
    a type with its encoder and its decoder; the combinators below build the codecs of lists,
    maps and structs from those of their parts, and a struct is the list of its fields with
    their attributes: [skip_serializing_if], [default] and [flatten].

    A codec is [Lawful] when what it writes for a well-formed value is read back; each
    combinator preserves this, so that it is found by type class resolution for every declared
    type. *)

From S2P Require Import Prelude RustStr RustNet IdValidation StringEnum Identifiers Json.
From S2P Require Import CanonicalJson Serde.
From Stdlib Require Import Ascii NArith.
Open Scope string_scope.
Open Scope nat_scope.
Open Scope list_scope.

(** A tuple with one component for each item of a list *)
Fixpoint hlist {F : Type} (T : F → Type) (l : list F) : Type :=
  match l with
  | [] => unit
  | f :: l => T f * hlist T l
  end%type.

Fixpoint hforall {F : Type} {T : F → Type} (P : ∀ f, T f → Prop) (l : list F) : hlist T l → Prop :=
  match l return hlist T l → Prop with
  | [] => λ _, True
  | f :: l => λ '(a, v), P f a ∧ hforall P l v
  end.

Record codec := {
  ctype : Type;
  enc : ctype → json;
  dec : decoder ctype;
  cwf : ctype → Prop          (* the values the Rust type has *)
}.

Class Lawful (c : codec) : Prop := dec_enc a : cwf c a → dec c (enc c a) = Ok a.
Class NeverNull (c : codec) : Prop := enc_not_null a : cwf c a → enc c a ≠ JNull.

(** ** Scalars *)

Definition c_string : codec :=
  {| ctype := string; enc := JString; dec := de_string; cwf _ := True |}.
Definition c_bool : codec :=
  {| ctype := bool; enc := JBool; dec := de_bool; cwf _ := True |}.
(** js_int's [UInt] and [Int] *)
Definition c_uint : codec :=
  {| ctype := Z; enc z := JNumber (NInt z); dec := de_uint; cwf z := uint_in_range z = true |}.
Definition c_int : codec :=
  {| ctype := Z; enc z := JNumber (NInt z); dec := de_int; cwf z := int_in_range z = true |}.

(** [u8] to [u64]: below [max]. *)
Definition de_unsigned (max : Z) : decoder Z := λ j,
  match j with
  | JNumber (NInt z) => if (0 <=? z)%Z && (z <=? max)%Z then Ok z else Err ()
  | _ => Err ()
  end.
Definition c_unsigned (max : Z) : codec :=
  {| ctype := Z; enc z := JNumber (NInt z); dec := de_unsigned max; cwf z := (0 ≤ z ≤ max)%Z |}.

(** [Raw<T>] keeps the text of anything; [JsonValue] and [JsonObject] do not keep duplicate
    keys. *)
Definition c_raw : codec := {| ctype := json; enc := id; dec := de_raw; cwf j := j ≠ JNull |}.
Definition c_value : codec :=
  {| ctype := json; enc := id; dec j := Ok (to_value j); cwf j := is_value j ∧ j ≠ JNull |}.
Definition c_json_object : codec :=
  {| ctype := gmap string json; enc := ser_JsonObject; dec := de_JsonObject;
     cwf := map_Forall (λ _, is_value) |}.

(** Identifiers and other strings that are checked when they are read *)
Definition c_parsed {E} (p : string → outcome E string) : codec :=
  {| ctype := string; enc := JString; dec := de_parse p; cwf s := p s = Ok s |}.

Definition c_enum (A : Type) `{StringEnum A} : codec :=
  {| ctype := A; enc a := JString (as_ref a); dec := de_string_enum; cwf := canonical |}.

(** An [enum] of unit variants with derived serde: a string, or an object of that string and
    [null]. *)
Definition unit_name {A} `{EqDecision A} (variants : list (string * A)) (a : A) : string :=
  default "" (fst ∘ snd <$> list_find (λ v, v.2 = a) variants).
Definition unit_variant {A} (variants : list (string * A)) (s : string) : outcome () A :=
  ok_or () (assoc s variants).
Definition c_units {A : Type} `{EqDecision A} (variants : list (string * A)) : codec := {|
  ctype := A;
  enc a := JString (unit_name variants a);
  dec j := match j with
           | JString s | JObject [(s, JNull)] => unit_variant variants s
           | _ => Err ()
           end;
  cwf a := a ∈ variants.*2
|}.

(** ruma-serde/src/duration/secs.rs: a [Duration] of whole seconds *)
Definition c_secs : codec := c_uint.

(** An [f64], known by the number it is written as *)
Definition c_number : codec := {|
  ctype := number;
  enc := JNumber;
  dec j := match j with JNumber n => Ok n | _ => Err () end;
  cwf _ := True
|}.

(** [untagged]: the first variant that can be read *)
Definition c_untagged (c1 c2 : codec) : codec := {|
  ctype := ctype c1 + ctype c2;
  enc a := match a with inl a => enc c1 a | inr a => enc c2 a end;
  dec := or_else (λ j, inl <$> dec c1 j) (λ j, inr <$> dec c2 j);
  cwf a := match a with inl a => cwf c1 a | inr a => cwf c2 a end
|}.

(** A type that has its implementations elsewhere *)
Definition c_of (A : Type) `{Serde A} (wf : A → Prop) : codec :=
  {| ctype := A; enc := ser; dec := de; cwf := wf |}.

(** ** Lists, options, maps *)

Definition c_list (c : codec) : codec :=
  {| ctype := list (ctype c); enc l := JArray (enc c <$> l); dec := de_list (dec c);
     cwf := Forall (cwf c) |}.

Definition c_option (c : codec) : codec :=
  {| ctype := option (ctype c);
     enc o := match o with Some a => enc c a | None => JNull end;
     dec := de_option (dec c);
     cwf o := match o with Some a => cwf c a | None => True end |}.

(** [BTreeMap<K, V>] for strings that are checked by [p]; with [Ok], for all strings. *)
Definition c_id_map {E} (p : string → outcome E string) (c : codec) : codec :=
  {| ctype := gmap string (ctype c);
     enc m := JObject (btree_iter (enc c <$> m));
     dec := de_map (λ k, map_err (λ _, ()) (p k)) (dec c);
     cwf := map_Forall (λ k a, p k = Ok k ∧ cwf c a) |}.
Definition c_map (c : codec) : codec := c_id_map (E:=()) Ok c.

(** Keys of a type that is written as a string *)
(** The entries are written in the order of their strings. (The order of a [BTreeMap] is that of
    [Ord] for its keys, which is the same for strings; the order of an object's entries has no
    meaning.) *)
Definition c_key_map (K : Type) `{Countable K} (show : K → string) (read : string → outcome () K)
    (c : codec) : codec :=
  {| ctype := gmap K (ctype c);
     enc m := JObject (prod_map show (enc c) <$>
                       merge_sort (λ x y, String.leb (show x.1) (show y.1) = true) (map_to_list m));
     dec := de_map read (dec c);
     cwf m := ∀ k a, m !! k = Some a → read (show k) = Ok k ∧ cwf c a |}.

(** Keys that are string enums *)
Section enum_keys.
Context {A : Type} `{StringEnum A}.

Definition enum_code (a : A) : string + nat :=
  match custom_inner a with
  | Some s => inl s
  | None => inr (default 0 (fst <$> list_find (λ v, v = a) unit_variants.*2))
  end.
Definition enum_decode (c : string + nat) : option A :=
  match c with inl s => Some (custom s) | inr i => unit_variants.*2 !! i end.

Lemma enum_decode_code a : enum_decode (enum_code a) = Some a.
Proof.
  unfold enum_code, enum_decode. destruct (custom_inner a) as [s|] eqn:Ha.
  - f_equal. symmetry. by apply custom_inner_inv.
  - destruct (list_find_elem_of (λ v, v = a) unit_variants.*2 a) as [[i v] Hi];
      [by apply unit_variants_complete|done|].
    rewrite Hi. apply list_find_Some in Hi as (Hi & -> & _). exact Hi.
Qed.

#[export] Instance enum_countable : Countable A := inj_countable enum_code enum_decode enum_decode_code.
End enum_keys.

Definition c_enum_map (A : Type) `{StringEnum A} (c : codec) : codec :=
  c_key_map A as_ref (λ s, Ok (from s)) c.

(** [ruma_serde::single_element_seq]: [[T; 1]] *)
Definition c_single (c : codec) : codec := {|
  ctype := ctype c;
  enc a := JArray [enc c a];
  dec j := match j with JArray [j] => dec c j | _ => Err () end;
  cwf := cwf c
|}.

(** ** Structs *)

(** A field: the keys of its own, the keys of the struct it flattens, what it writes, and how
    it is read, given the struct's own keys, the entries, and those of keys that are not the
    struct's own. *)
Record sfield := {
  f_own : list string;
  f_inner : list string;
  f_type : Type;
  f_write : f_type → list (string * json);
  f_read : list string → struct_source → list (string * json) → outcome () f_type;
  f_wf : f_type → Prop
}.

Definition f_keys (f : sfield) : list string := f_own f ++ f_inner f.

Definition req (name : string) (c : codec) : sfield := {|
  f_own := [name];
  f_inner := [];
  f_type := ctype c;
  f_write a := [(name, enc c a)];
  f_read own src _ := field_req own name (dec c) src;
  f_wf := cwf c
|}.

(** An [Option], with [skip_serializing_if = "Option::is_none"] and without *)
Definition opt (name : string) (c : codec) : sfield := {|
  f_own := [name];
  f_inner := [];
  f_type := option (ctype c);
  f_write o := skip_none name (enc c) o;
  f_read own src _ := field_opt own name (dec c) src;
  f_wf o := ∀ a, o = Some a → cwf c a
|}.

Definition nullable (name : string) (c : codec) : sfield := {|
  f_own := [name];
  f_inner := [];
  f_type := option (ctype c);
  f_write o := [(name, match o with Some a => enc c a | None => JNull end)];
  f_read own src _ := field_opt own name (dec c) src;
  f_wf o := ∀ a, o = Some a → cwf c a
|}.

(** [default], [skip_serializing_if = "skip"] *)
Definition dflt (name : string) (c : codec) (d : ctype c) (skip : ctype c → bool) : sfield := {|
  f_own := [name];
  f_inner := [];
  f_type := ctype c;
  f_write a := if skip a then [] else [(name, enc c a)];
  f_read own src _ := field_default own name d (dec c) src;
  f_wf a := skip a = false → cwf c a
|}.

(** The same where the values that are skipped are not only the default: those others are lost. *)
Definition dflt_lossy (name : string) (c : codec) (d : ctype c) (skip : ctype c → bool) : sfield := {|
  f_own := [name];
  f_inner := [];
  f_type := ctype c;
  f_write a := if skip a then [] else [(name, enc c a)];
  f_read own src _ := field_default own name d (dec c) src;
  f_wf a := cwf c a ∧ (skip a = true → a = d)
|}.

(** [skip_serializing_if = "skip"] without [default]: what is skipped cannot be read. *)
Definition skipped (name : string) (c : codec) (skip : ctype c → bool) : sfield := {|
  f_own := [name];
  f_inner := [];
  f_type := ctype c;
  f_write a := if skip a then [] else [(name, enc c a)];
  f_read own src _ := field_req own name (dec c) src;
  f_wf a := cwf c a ∧ skip a = false
|}.

(** [default] alone *)
Definition dflt_written (name : string) (c : codec) (d : ctype c) : sfield :=
  dflt name c d (λ _, false).

Definition is_none {A} (o : option A) : bool := match o with None => true | Some _ => false end.
Definition list_is_empty {A} (l : list A) : bool := match l with [] => true | _ => false end.
Definition map_is_empty {K A} `{Countable K} (m : gmap K A) : bool :=
  list_is_empty (map_to_list m).

(** An [is_empty] of a struct: one test for each field *)
Definition skip_fields {A B} (f : A → bool) (g : B → bool) (v : A * B) : bool := f v.1 && g v.2.
Definition skip_end (v : unit) : bool := true.

(** [default, skip_serializing_if = "Vec::is_empty"], and the same for maps *)
Definition vec (name : string) (c : codec) : sfield := dflt name (c_list c) [] list_is_empty.
Definition id_map {E} (name : string) (p : string → outcome E string) (c : codec) : sfield :=
  dflt name (c_id_map p c) ∅ map_is_empty.
Definition str_map (name : string) (c : codec) : sfield := dflt name (c_map c) ∅ map_is_empty.

(** [default, skip_serializing_if = "ruma_serde::is_default"] of a [bool] *)
Definition flag (name : string) : sfield := dflt name c_bool false negb.

(** The values of the fields *)
Definition fields_type : list sfield → Type := hlist f_type.

Fixpoint write_fields (fs : list sfield) : fields_type fs → list (string * json) :=
  match fs return fields_type fs → list (string * json) with
  | [] => λ _, []
  | f :: fs => λ '(a, v), f_write f a ++ write_fields fs v
  end.

Fixpoint read_fields (own : list string) (src : struct_source) (rest : list (string * json))
    (fs : list sfield) : outcome () (fields_type fs) :=
  match fs return outcome () (fields_type fs) with
  | [] => Ok tt
  | f :: fs => a ← f_read f own src rest; v ← read_fields own src rest fs; Ok (a, v)
  end.

Definition fields_wf : ∀ fs, fields_type fs → Prop := hforall f_wf.

Definition own_keys (fs : list sfield) : list string := concat (f_own <$> fs).
Definition all_keys (fs : list sfield) : list string := concat (f_keys <$> fs).
Definition has_flatten (fs : list sfield) : bool :=
  existsb (λ f, negb (list_is_empty (f_inner f))) fs.

(** The derived [Deserialize]: a struct with a flattened field is read from objects only. *)
Definition de_struct (fs : list sfield) : decoder (fields_type fs) := λ j,
  let own := own_keys fs in
  if has_flatten fs then '(src, rest) ← flat_src own j; read_fields own src rest fs
  else src ← struct_src own j; read_fields own src [] fs.

Definition c_struct (fs : list sfield) : codec := {|
  ctype := fields_type fs;
  enc v := JObject (write_fields fs v);
  dec := de_struct fs;
  cwf := fields_wf fs
|}.

(** [flatten] of a struct *)
Definition flat (fs : list sfield) : sfield := {|
  f_own := [];
  f_inner := all_keys fs;
  f_type := fields_type fs;
  f_write := write_fields fs;
  f_read _ _ rest := de_struct fs (JObject rest);
  f_wf := fields_wf fs
|}.

(** [flatten] of an [Option] of a struct: an error means [None]. *)
Definition flat_opt (fs : list sfield) : sfield := {|
  f_own := [];
  f_inner := all_keys fs;
  f_type := option (fields_type fs);
  f_write o := match o with Some v => write_fields fs v | None => [] end;
  f_read _ _ rest := try_ok (de_struct fs (JObject rest));
  f_wf o := ∀ v, o = Some v → fields_wf fs v
|}.

(** [flatten] of an untagged enum of two structs: the first that can be read *)
Definition flat_or (fs1 fs2 : list sfield) : sfield := {|
  f_own := [];
  f_inner := all_keys fs1 ++ all_keys fs2;
  f_type := fields_type fs1 + fields_type fs2;
  f_write v := match v with inl v => write_fields fs1 v | inr v => write_fields fs2 v end;
  f_read _ _ rest :=
    match de_struct fs1 (JObject rest) with
    | Ok v => Ok (inl v)
    | Panic => Panic
    | Err _ => inr <$> de_struct fs2 (JObject rest)
    end;
  f_wf v := match v with inl v => fields_wf fs1 v | inr v => fields_wf fs2 v end
|}.

(** [flatten] of a type with its own implementations, which looks at the keys [keys] *)
Definition flat_with (keys : list string) (T : Type) (write : T → list (string * json))
    (read : list (string * json) → outcome () T) (wf : T → Prop) : sfield := {|
  f_own := [];
  f_inner := keys;
  f_type := T;
  f_write := write;
  f_read _ _ := read;
  f_wf := wf
|}.

(** [serde(tag = "...", rename = "...")] on a struct: the tag is written, and not looked at. *)
Definition tagged (tag name : string) (fs : list sfield) : codec := {|
  ctype := fields_type fs;
  enc v := JObject ((tag, JString name) :: write_fields fs v);
  dec := de_struct fs;
  cwf := fields_wf fs
|}.

(** ** Laws *)

Class LawfulField (f : sfield) : Prop := {
  write_keys a : f_wf f a → (f_write f a).*1 ⊆ f_keys f;
  write_once a : f_wf f a → NoDup (f_write f a).*1;
  read_write own entries rest a :
    f_wf f a → NoDup entries.*1 → NoDup rest.*1 →
    (∀ k, k ∈ f_own f → assoc k entries = assoc k (f_write f a)) →
    (∀ k, k ∈ f_inner f → assoc k rest = assoc k (f_write f a)) →
    f_read f own (FromMap entries) rest = Ok a
}.

(** All fields of a struct are lawful, and no two use the same key. *)
Class LawfulFields (fs : list sfield) : Prop := lawful_fields : Forall LawfulField fs.
Class DistinctKeys (fs : list sfield) : Prop := distinct_keys : NoDup (all_keys fs).

#[export] Instance lawful_fields_nil : LawfulFields [].
Proof. constructor. Qed.
#[export] Instance lawful_fields_cons f fs :
  LawfulField f → LawfulFields fs → LawfulFields (f :: fs).
Proof. by constructor. Qed.
#[export] Hint Extern 1 (DistinctKeys _) => (red; decide_it) : typeclass_instances.

#[export] Instance lawful_string : Lawful c_string.
Proof. done. Qed.
#[export] Instance lawful_bool : Lawful c_bool.
Proof. done. Qed.
#[export] Instance lawful_uint : Lawful c_uint.
Proof. intros z Hz. simpl. by rewrite Hz. Qed.
#[export] Instance lawful_int : Lawful c_int.
Proof. intros z Hz. simpl. by rewrite Hz. Qed.
#[export] Instance lawful_unsigned max : Lawful (c_unsigned max).
Proof.
  intros z Hz. simpl in *. by rewrite (proj2 (Z.leb_le 0 z)), (proj2 (Z.leb_le z max)) by lia.
Qed.
#[export] Instance lawful_raw : Lawful c_raw.
Proof. done. Qed.
#[export] Instance lawful_value : Lawful c_value.
Proof. intros j [Hj _]. simpl. by rewrite Hj. Qed.
#[export] Instance lawful_json_object : Lawful c_json_object.
Proof. intros m Hm. by apply de_ser_JsonObject. Qed.
#[export] Instance lawful_parsed {E} (p : string → outcome E string) : Lawful (c_parsed p).
Proof. intros s Hs. by apply de_parse_Ok. Qed.
#[export] Instance lawful_enum A `{StringEnum A} : Lawful (c_enum A).
Proof. intros a Ha. simpl. unfold de_string_enum. simpl. by rewrite Ha. Qed.
#[export] Instance lawful_number : Lawful c_number.
Proof. done. Qed.
#[export] Instance lawful_secs : Lawful c_secs.
Proof. apply lawful_uint. Qed.

(** The variants of an enum have distinct names. *)
Class DistinctNames {A} (variants : list (string * A)) : Prop := distinct_names : NoDup variants.*1.
#[export] Hint Extern 1 (DistinctNames _) => (red; decide_it) : typeclass_instances.

Lemma unit_variant_name {A} `{EqDecision A} (variants : list (string * A)) a :
  NoDup variants.*1 → a ∈ variants.*2 → unit_variant variants (unit_name variants a) = Ok a.
Proof.
  intros Hnd ([s b] & -> & Hin)%list_elem_of_fmap. unfold unit_variant, unit_name.
  destruct (list_find_elem_of (λ v, v.2 = b) variants (s, b) Hin eq_refl) as [[i [s' b']] Hi].
  simpl. rewrite Hi. apply list_find_Some in Hi as (Hi & Hb & _). simpl in *. subst b'.
  rewrite (assoc_elem s' b variants); [done..|]. by eapply list_elem_of_lookup_2.
Qed.

#[export] Instance lawful_units {A} `{EqDecision A} (variants : list (string * A)) :
  DistinctNames variants → Lawful (c_units variants).
Proof. intros Hnd a Ha. by apply unit_variant_name. Qed.

(** What one codec writes the other does not read. *)
Class Rejects (c1 c2 : codec) : Prop := rejects a : cwf c2 a → ∃ e, dec c1 (enc c2 a) = Err e.

#[export] Instance lawful_untagged c1 c2 :
  Lawful c1 → Lawful c2 → Rejects c1 c2 → Lawful (c_untagged c1 c2).
Proof.
  intros H1 H2 Hr [a|a] Ha; simpl in *; unfold or_else; [by rewrite (H1 a Ha)|].
  destruct (Hr a Ha) as [e He]. rewrite He. simpl. by rewrite (H2 a Ha).
Qed.

#[export] Instance lawful_list c : Lawful c → Lawful (c_list c).
Proof.
  intros Hc l Hl. apply de_list_round_trip. eapply list.Forall_impl; [exact Hl|exact Hc].
Qed.
#[export] Instance lawful_option c : Lawful c → NeverNull c → Lawful (c_option c).
Proof.
  intros Hc Hn [a|] Ha; [|done]. simpl. unfold de_option.
  pose proof (Hc a Ha) as He. specialize (Hn a Ha). destruct (enc c a); [done|..]; by rewrite He.
Qed.

(** Entries with distinct keys, each read back, give the map. *)
Lemma de_map_entries {K A} `{Countable K} (dk : string → outcome () K) (d : decoder A)
    (entries : list (string * json)) (m : gmap K A) :
  (∀ s j, (s, j) ∈ entries → ∃ k a, dk s = Ok k ∧ d j = Ok a ∧ m !! k = Some a) →
  (∀ k, is_Some (m !! k) → ∃ s j, (s, j) ∈ entries ∧ dk s = Ok k) →
  de_map dk d (JObject entries) = Ok m.
Proof.
  intros Hin Hdom. unfold de_map.
  destruct (for_each_total (E:=()) (λ (done : list (string * json)) (acc : gmap K A),
      acc ⊆ m ∧ ∀ s j k, (s, j) ∈ done → dk s = Ok k → is_Some (acc !! k))
    (λ acc kv, k ← dk kv.1; v ← d kv.2; Ok (<[k := v]> acc)) entries ∅) as (acc & -> & Hsub & Hall).
  - intros pre acc [s j] Hsj [Hsub Hall]. destruct (Hin s j Hsj) as (k & a & Hk & Ha & Hm).
    simpl. rewrite Hk. simpl. rewrite Ha. simpl. eexists. split; [done|]. split.
    + by apply insert_subseteq_l.
    + intros s' j' k' [Hs|Hs%list_elem_of_singleton]%elem_of_app Hk'.
      * destruct (decide (k' = k)) as [->|Hne]; [rewrite lookup_insert_eq; eauto|].
        rewrite lookup_insert_ne by done. eauto.
      * simplify_eq. rewrite Hk in Hk'. simplify_eq. rewrite lookup_insert_eq. eauto.
  - split; [apply map_empty_subseteq|]. intros ? ? ? []%elem_of_nil.
  - f_equal. apply (map_subseteq_po (A:=A)); [done|]. apply map_subseteq_spec. intros k a Hk.
    destruct (Hdom k) as (s & j & Hsj & Hdk); [eauto|]. destruct (Hall s j k Hsj Hdk) as [a' Ha'].
    rewrite map_subseteq_spec in Hsub. specialize (Hsub k a' Ha'). congruence.
Qed.

#[export] Instance lawful_single c : Lawful c → Lawful (c_single c).
Proof. intros Hc a Ha. simpl. by apply Hc. Qed.
#[export] Instance never_null_single c : NeverNull (c_single c).
Proof. done. Qed.
#[export] Instance lawful_id_map {E} (p : string → outcome E string) c :
  Lawful c → Lawful (c_id_map p c).
Proof.
  intros Hc m Hm. cbn [enc dec c_id_map]. apply de_map_entries.
  - intros s j Hin%elem_of_btree_iter. rewrite lookup_fmap in Hin.
    apply fmap_Some in Hin as (a & Ha & ->). destruct (Hm s a Ha) as [Hs Hw].
    exists s, a. by rewrite Hs, (Hc a Hw).
  - intros k [a Ha]. exists k, (enc c a). split; [|by rewrite (proj1 (Hm k a Ha))].
    apply elem_of_btree_iter. by rewrite lookup_fmap, Ha.
Qed.

#[export] Instance lawful_map c : Lawful c → Lawful (c_map c).
Proof. intros ?. by apply lawful_id_map. Qed.

#[export] Instance lawful_key_map K `{Countable K} (show : K → string) read c :
  Lawful c → Lawful (c_key_map K show read c).
Proof.
  refine (λ Hc (m : gmap K (ctype c)) Hm, _). cbn [enc dec c_key_map].
  assert (∀ k a, (k, a) ∈ merge_sort (λ x y, String.leb (show x.1) (show y.1) = true)
    (map_to_list m) ↔ m !! k = Some a) as Hl.
  { intros k a. rewrite merge_sort_Permutation. apply elem_of_map_to_list. }
  apply de_map_entries.
  - intros s j ([k a] & [= -> ->] & Hin%Hl)%list_elem_of_fmap. destruct (Hm k a Hin) as [Hk Hw].
    exists k, a. by rewrite (Hc a Hw).
  - intros k [a Ha]. exists (show k), (enc c a). split; [|by apply (Hm k a)].
    apply (list_elem_of_fmap_2 (prod_map show (enc c)) _ (k, a)). by apply Hl.
Qed.

(** ** What is never [null] *)

#[export] Instance never_null_string : NeverNull c_string.
Proof. done. Qed.
#[export] Instance never_null_bool : NeverNull c_bool.
Proof. done. Qed.
#[export] Instance never_null_uint : NeverNull c_uint.
Proof. done. Qed.
#[export] Instance never_null_int : NeverNull c_int.
Proof. done. Qed.
#[export] Instance never_null_unsigned max : NeverNull (c_unsigned max).
Proof. done. Qed.
#[export] Instance never_null_raw : NeverNull c_raw.
Proof. by intros j Hj. Qed.
#[export] Instance never_null_value : NeverNull c_value.
Proof. by intros j [_ ?]. Qed.
#[export] Instance never_null_json_object : NeverNull c_json_object.
Proof. done. Qed.
#[export] Instance never_null_parsed {E} (p : string → outcome E string) : NeverNull (c_parsed p).
Proof. done. Qed.
#[export] Instance never_null_enum A `{StringEnum A} : NeverNull (c_enum A).
Proof. done. Qed.
#[export] Instance never_null_untagged c1 c2 :
  NeverNull c1 → NeverNull c2 → NeverNull (c_untagged c1 c2).
Proof. intros H1 H2 [a|a] Ha; simpl; auto. Qed.
#[export] Instance never_null_units {A} `{EqDecision A} (variants : list (string * A)) :
  NeverNull (c_units variants).
Proof. done. Qed.
#[export] Instance never_null_number : NeverNull c_number.
Proof. done. Qed.
#[export] Instance never_null_list c : NeverNull (c_list c).
Proof. done. Qed.
#[export] Instance never_null_id_map {E} (p : string → outcome E string) c : NeverNull (c_id_map p c).
Proof. done. Qed.
#[export] Instance never_null_map c : NeverNull (c_map c).
Proof. done. Qed.
#[export] Instance never_null_key_map K `{Countable K} show read c : NeverNull (c_key_map K show read c).
Proof. done. Qed.
#[export] Instance never_null_struct fs : NeverNull (c_struct fs).
Proof. done. Qed.
#[export] Instance never_null_tagged tag name fs : NeverNull (tagged tag name fs).
Proof. done. Qed.

(** ** Fields *)

(** A field that writes its own key or nothing *)
Lemma lawful_one_key name T write read wf :
  (∀ a, wf a → write a = [] ∨ ∃ j, write a = [(name, j)]) →
  (∀ own entries rest a, wf a → assoc name entries = assoc name (write a) →
     read own (FromMap entries) rest = Ok a) →
  LawfulField {| f_own := [name]; f_inner := []; f_type := T; f_write := write;
                 f_read := read; f_wf := wf |}.
Proof.
  intros Hw Hr. split; simpl.
  - intros a Ha. unfold f_keys. simpl.
    destruct (Hw a Ha) as [->|[j ->]]; [apply list_subseteq_nil|done].
  - intros a Ha. destruct (Hw a Ha) as [->|[j ->]]; [constructor|apply list.NoDup_singleton].
  - intros own entries rest a Ha _ _ He _. apply Hr; [done|]. apply He. by left.
Qed.

Lemma assoc_here {A} name (j : A) : assoc name [(name, j)] = Some j.
Proof. by rewrite assoc_cons, decide_True. Qed.

#[export] Instance lawful_req name c : Lawful c → LawfulField (req name c).
Proof.
  intros Hc. apply lawful_one_key; [eauto|]. intros own entries rest a Ha He.
  rewrite assoc_here in He. rewrite (field_req_Some _ _ _ _ _ He). by apply Hc.
Qed.

#[export] Instance lawful_opt name c : Lawful c → NeverNull c → LawfulField (opt name c).
Proof.
  intros Hc Hn. apply lawful_one_key; [intros [a|]; simpl; eauto|].
  intros own entries rest [a|] Ha He; unfold field_opt, lookup_field; rewrite He; [|done].
  simpl. rewrite assoc_here. simpl.
  exact (lawful_option c Hc Hn (Some a) (Ha a eq_refl)).
Qed.

#[export] Instance lawful_nullable name c : Lawful c → NeverNull c → LawfulField (nullable name c).
Proof.
  intros Hc Hn. apply lawful_one_key; [eauto|].
  intros own entries rest o Ha He; unfold field_opt, lookup_field; rewrite He, assoc_here.
  apply (lawful_option c Hc Hn o). destruct o; simpl; auto.
Qed.

(** Only the default is skipped. *)
Class SkipsDefault {A} (d : A) (skip : A → bool) : Prop := skips_default a : skip a = true → a = d.

#[export] Instance skips_nothing {A} (d : A) : SkipsDefault d (λ _, false).
Proof. done. Qed.
#[export] Instance skips_none {A} : SkipsDefault (@None A) is_none.
Proof. by intros []. Qed.
#[export] Instance skips_empty_list {A} : SkipsDefault (@nil A) list_is_empty.
Proof. by intros []. Qed.
#[export] Instance skips_empty_map {K A} `{Countable K} : SkipsDefault (∅ : gmap K A) map_is_empty.
Proof.
  intros m Hm. apply map_to_list_empty_iff. unfold map_is_empty in Hm. by destruct (map_to_list m).
Qed.
#[export] Instance skips_false : SkipsDefault false negb.
Proof. by intros []. Qed.
#[export] Instance skips_true : SkipsDefault true (λ b, b).
Proof. by intros []. Qed.
#[export] Instance skips_eq {A} `{EqDecision A} (d : A) : SkipsDefault d (λ a, bool_decide (a = d)).
Proof. intros a. apply bool_decide_eq_true. Qed.
#[export] Instance skips_end : SkipsDefault tt skip_end.
Proof. by intros []. Qed.
#[export] Instance skips_fields {A B} (d : A) (e : B) f g :
  SkipsDefault d f → SkipsDefault e g → SkipsDefault (d, e) (skip_fields f g).
Proof. intros Hd He [a b] [?%Hd ?%He]%andb_true_iff. simpl in *. by subst. Qed.

#[export] Instance lawful_dflt name c d skip :
  Lawful c → SkipsDefault d skip → LawfulField (dflt name c d skip).
Proof.
  intros Hc Hskip. apply lawful_one_key; [intros a; destruct (skip a); eauto|].
  intros own entries rest a Ha He. unfold field_default, lookup_field. rewrite He.
  destruct (skip a) eqn:Hs; [by rewrite (Hskip a Hs)|]. rewrite assoc_here. by apply Hc, Ha.
Qed.

#[export] Instance lawful_dflt_written name c d : Lawful c → LawfulField (dflt_written name c d).
Proof. intros ?. by apply lawful_dflt, skips_nothing. Qed.
#[export] Instance lawful_dflt_lossy name c d skip : Lawful c → LawfulField (dflt_lossy name c d skip).
Proof.
  intros Hc. apply lawful_one_key.
  - intros a _. destruct (skip a); [by left|]. right. by eexists.
  - intros own entries rest a [Ha Hd] He. unfold field_default, lookup_field. rewrite He.
    destruct (skip a); [by rewrite Hd|]. rewrite assoc_here. by apply dec_enc.
Qed.
#[export] Instance lawful_skipped name c skip : Lawful c → LawfulField (skipped name c skip).
Proof.
  intros Hc. apply lawful_one_key.
  - intros a _. destruct (skip a); [by left|]. right. by eexists.
  - intros own entries rest a [Ha Hs] He. unfold field_req, lookup_field. rewrite He, Hs, assoc_here.
    by apply dec_enc.
Qed.
#[export] Instance lawful_vec name c : Lawful c → LawfulField (vec name c).
Proof. intros ?. apply lawful_dflt; apply _. Qed.
#[export] Instance lawful_id_map_field {E} name (p : string → outcome E string) c :
  Lawful c → LawfulField (id_map name p c).
Proof. intros ?. apply lawful_dflt; apply _. Qed.
#[export] Instance lawful_str_map name c : Lawful c → LawfulField (str_map name c).
Proof. intros ?. apply lawful_dflt; apply _. Qed.
#[export] Instance lawful_flag name : LawfulField (flag name).
Proof. apply lawful_dflt; apply _. Qed.

(** ** Structs *)

Lemma write_fields_keys fs v :
  LawfulFields fs → fields_wf fs v → (write_fields fs v).*1 ⊆ all_keys fs.
Proof.
  intros Hfs. induction Hfs as [|f fs Hf Hfs IH]; [done|]. destruct v as [a v]. intros [Ha Hv].
  simpl. rewrite fmap_app. unfold all_keys. simpl. apply list_subseteq_app_iff_l. split.
  - etrans; [by apply write_keys|]. apply list_subseteq_app_l. done.
  - etrans; [by apply IH|]. apply list_subseteq_app_r. done.
Qed.

Lemma write_fields_once fs v :
  LawfulFields fs → NoDup (all_keys fs) → fields_wf fs v → NoDup (write_fields fs v).*1.
Proof.
  intros Hfs. induction Hfs as [|f fs Hf Hfs IH]; [intros; constructor|].
  destruct v as [a v]. intros (Hnd & Hdis & Hnds)%list.NoDup_app [Ha Hv]. simpl.
  rewrite fmap_app. apply list.NoDup_app. split; [by apply write_once|]. split; [|by apply IH].
  intros k Hk Hk'. apply (Hdis k); [by apply (write_keys a)|].
  by apply (write_fields_keys fs v Hfs Hv).
Qed.

(** What is written for the fields, each of which looks only at its own keys *)
Lemma read_fields_write fs own entries rest v :
  LawfulFields fs → NoDup (all_keys fs) → fields_wf fs v →
  NoDup entries.*1 → NoDup rest.*1 →
  (∀ k, k ∈ own_keys fs → assoc k entries = assoc k (write_fields fs v)) →
  (∀ k, k ∈ concat (f_inner <$> fs) → assoc k rest = assoc k (write_fields fs v)) →
  read_fields own (FromMap entries) rest fs = Ok v.
Proof.
  intros Hfs. revert v. induction Hfs as [|f fs Hf Hfs IH]; intros v Hnd Hv He Hr Hown Hin;
    [by destruct v|].
  destruct v as [a v], Hv as [Ha Hv]. apply list.NoDup_app in Hnd as (_ & Hdis & Hnd).
  assert (∀ k, k ∈ f_keys f → assoc k (write_fields (f :: fs) (a, v)) = assoc k (f_write f a)) as Hf1.
  { intros k Hk. simpl. rewrite assoc_app. rewrite (assoc_None k (write_fields fs v)).
    - by destruct (assoc k (f_write f a)).
    - intros Hk'%(write_fields_keys fs v Hfs Hv). by apply (Hdis k). }
  assert (∀ k, k ∈ all_keys fs → assoc k (write_fields (f :: fs) (a, v)) = assoc k (write_fields fs v))
    as Hf2.
  { intros k Hk. simpl. apply assoc_app_r. intros Hk'%(write_keys a Ha). by apply (Hdis k). }
  assert (∀ g, g ∈ fs → ∀ k, k ∈ f_keys g → k ∈ all_keys fs) as Hsub.
  { intros g Hg k Hk. apply list_elem_of_In, in_concat. exists (f_keys g).
    split; apply list_elem_of_In; [by apply list_elem_of_fmap_2|done]. }
  simpl. rewrite (read_write own entries rest a); [|done..| |].
  - simpl. rewrite (IH v); [done..| |].
    + intros k Hk. rewrite <- Hf2; [apply Hown; simpl; apply elem_of_app; by right|].
      apply list_elem_of_In, in_concat in Hk as (x & Hx & Hk).
      apply list_elem_of_In, list_elem_of_fmap in Hx as (g & -> & Hg). apply list_elem_of_In in Hk.
      apply (Hsub g Hg). apply elem_of_app. by left.
    + intros k Hk. rewrite <- Hf2; [apply Hin; simpl; apply elem_of_app; by right|].
      apply list_elem_of_In, in_concat in Hk as (x & Hx & Hk).
      apply list_elem_of_In, list_elem_of_fmap in Hx as (g & -> & Hg). apply list_elem_of_In in Hk.
      apply (Hsub g Hg). apply elem_of_app. by right.
  - intros k Hk. rewrite <- Hf1 by (apply elem_of_app; by left). apply Hown. apply elem_of_app. by left.
  - intros k Hk. rewrite <- Hf1 by (apply elem_of_app; by right). apply Hin. apply elem_of_app. by left.
Qed.

Lemma all_keys_split fs : all_keys fs ≡ₚ own_keys fs ++ concat (f_inner <$> fs).
Proof.
  unfold all_keys, own_keys, f_keys. induction fs as [|f fs IH]; [done|]. csimpl. rewrite IH.
  solve_Permutation.
Qed.

Lemma no_flatten_inner fs : has_flatten fs = false → concat (f_inner <$> fs) = [].
Proof.
  unfold has_flatten. induction fs as [|f fs IH]; [done|]. csimpl.
  intros [Hf Hfs]%orb_false_iff. by destruct (f_inner f); [apply IH|].
Qed.

(** An object that has the entries of a struct is read as the struct, whatever else it has. *)
Lemma de_struct_reads fs v entries :
  LawfulFields fs → DistinctKeys fs → fields_wf fs v → NoDup entries.*1 →
  (∀ k, k ∈ all_keys fs → assoc k entries = assoc k (write_fields fs v)) →
  de_struct fs (JObject entries) = Ok v.
Proof.
  intros Hfs Hnd Hv He Hk. red in Hnd. unfold de_struct.
  assert (∀ k, k ∈ own_keys fs → assoc k entries = assoc k (write_fields fs v)) as Hown.
  { intros k Hin. apply Hk. rewrite all_keys_split. apply elem_of_app. by left. }
  destruct (has_flatten fs) eqn:Hflat.
  - rewrite flat_src_NoDup by done. cbn [mbind outcome_bind].
    apply read_fields_write; [done..| |done|].
    + eapply sublist_NoDup; [exact He|]. apply fmap_sublist, sublist_filter.
    + intros k Hin. pose proof Hnd as Hnd'. rewrite all_keys_split in Hnd'.
      apply list.NoDup_app in Hnd' as (_ & Hdis & _).
      rewrite assoc_filter by (intros Ho; by apply (Hdis k)).
      apply Hk. rewrite all_keys_split. apply elem_of_app. by right.
  - rewrite struct_src_obj by done. cbn [mbind outcome_bind].
    apply read_fields_write; [done..|constructor|done|]. rewrite no_flatten_inner by done.
    by intros k []%elem_of_nil.
Qed.

#[export] Instance lawful_struct fs : LawfulFields fs → DistinctKeys fs → Lawful (c_struct fs).
Proof. intros Hfs Hnd v Hv. apply de_struct_reads; [done..|by apply write_fields_once|done]. Qed.

#[export] Instance lawful_flat fs : LawfulFields fs → DistinctKeys fs → LawfulField (flat fs).
Proof.
  intros Hfs Hnd. split; simpl.
  - intros v. by apply write_fields_keys.
  - intros v Hv. by apply write_fields_once.
  - intros own entries rest v Hv _ Hr _ Hin. by apply de_struct_reads.
Qed.

Lemma req_absent name c fs entries :
  assoc name entries = None → NoDup entries.*1 → de_struct (req name c :: fs) (JObject entries) = Err ().
Proof.
  intros Hno Hnd.
  assert (∀ own rest', read_fields own (FromMap entries) rest' (req name c :: fs) = Err ()) as He.
  { intros own' rest'. simpl. by rewrite field_req_None. }
  unfold de_struct. destruct (has_flatten _).
  - rewrite flat_src_NoDup by done. cbn [mbind outcome_bind]. by rewrite He.
  - rewrite struct_src_obj by done. cbn [mbind outcome_bind]. by rewrite He.
Qed.

(** An optional struct that is flattened needs a field that tells whether it is there: here its
    first one. *)
#[export] Instance lawful_flat_opt name c fs :
  LawfulFields (req name c :: fs) → DistinctKeys (req name c :: fs) →
  LawfulField (flat_opt (req name c :: fs)).
Proof.
  intros Hfs Hnd. split.
  - intros [v|] Hv; [apply write_fields_keys; [done|by apply Hv]|]. apply list_subseteq_nil.
  - intros [v|] Hv; [|constructor]. apply write_fields_once; [done..|]. by apply Hv.
  - intros own entries rest [v|] Hv _ Hr _ Hin; cbn [f_read flat_opt].
    + rewrite (de_struct_reads _ v) by (done || by apply Hv). done.
    + by rewrite req_absent by (done || by rewrite Hin by by left).
Qed.

(** Of two structs, the first is told from the second by its first field. *)
Class FirstIsNew (fs1 fs2 : list sfield) : Prop :=
  first_is_new : ∃ name c fs, fs1 = req name c :: fs ∧ name ∉ all_keys fs2.
#[export] Hint Extern 1 (FirstIsNew _ _) =>
  (eexists _, _, _; split; [reflexivity|decide_it]) : typeclass_instances.

#[export] Instance lawful_flat_or fs1 fs2 :
  LawfulFields fs1 → DistinctKeys fs1 → LawfulFields fs2 → DistinctKeys fs2 → FirstIsNew fs1 fs2 →
  LawfulField (flat_or fs1 fs2).
Proof.
  intros H1 Hd1 H2 Hd2 (name & c & fs & -> & Hnew). split; unfold f_keys; cbn [f_own f_inner flat_or f_write app].
  - intros [v|v] Hv.
    + apply list_subseteq_app_l. by apply write_fields_keys.
    + apply list_subseteq_app_r. by apply write_fields_keys.
  - intros [v|v] Hv; by apply write_fields_once.
  - intros own entries rest [v|v] Hv _ Hr _ Hin; cbn [f_read flat_or].
    + rewrite (de_struct_reads _ v); [done..|]. intros k Hk. apply Hin, elem_of_app. by left.
    + rewrite req_absent; [|rewrite Hin by (apply elem_of_app; left; by left)|done].
      * rewrite (de_struct_reads _ v); [done..|]. intros k Hk. apply Hin, elem_of_app. by right.
      * apply assoc_None. by intros ?%(write_fields_keys fs2 v H2 Hv).
Qed.

(** The tag of a struct must not be one of its fields. *)
Class FreshKey (key : string) (fs : list sfield) : Prop := fresh_key : key ∉ all_keys fs.
#[export] Hint Extern 1 (FreshKey _ _) => (red; decide_it) : typeclass_instances.

#[export] Instance lawful_tagged tag name fs :
  LawfulFields fs → DistinctKeys fs → FreshKey tag fs → Lawful (tagged tag name fs).
Proof.
  intros Hfs Hnd Htag v Hv. red in Htag. apply de_struct_reads; [done..| |].
  - csimpl. apply list.NoDup_cons. split; [|by apply write_fields_once].
    by intros ?%(write_fields_keys fs v Hfs Hv).
  - intros k Hk. rewrite assoc_cons, decide_False; [done|]. by intros ->.
Qed.

(** ** Types with a representation of another type *)

(** [serde(from = "R")] or an implementation that goes by way of [R] *)
Definition c_via (A : Type) (c : codec) (to : A → ctype c) (from : ctype c → A) : codec :=
  {| ctype := A; enc a := enc c (to a); dec j := from <$> dec c j; cwf a := cwf c (to a) |}.

Class Inverse {A B} (to : A → B) (from : B → A) : Prop := inverse a : from (to a) = a.
#[export] Hint Extern 1 (Inverse _ _) => (intros []; reflexivity) : typeclass_instances.

#[export] Instance lawful_via A c (to : A → ctype c) (from : ctype c → A) :
  Lawful c → Inverse to from → Lawful (c_via A c to from).
Proof. intros Hc Hi a Ha. simpl. rewrite (dec_enc (to a) Ha). simpl. by rewrite (inverse a). Qed.
#[export] Instance never_null_via A c (to : A → ctype c) (from : ctype c → A) :
  NeverNull c → NeverNull (c_via A c to from).
Proof. intros Hc a Ha. by apply (enc_not_null (c:=c)). Qed.

(** [flatten] of a type that goes by way of a struct *)
Definition flat_via (A : Type) (fs : list sfield) (to : A → fields_type fs)
    (from : fields_type fs → outcome () A) : sfield := {|
  f_own := [];
  f_inner := all_keys fs;
  f_type := A;
  f_write a := write_fields fs (to a);
  f_read _ _ rest := v ← de_struct fs (JObject rest); from v;
  f_wf a := fields_wf fs (to a)
|}.

Class PartialInverse {A B} (to : A → B) (from : B → outcome () A) : Prop :=
  partial_inverse a : from (to a) = Ok a.
#[export] Hint Extern 1 (PartialInverse _ _) => (intros []; reflexivity) : typeclass_instances.

#[export] Instance lawful_flat_via A fs (to : A → fields_type fs) from :
  LawfulFields fs → DistinctKeys fs → PartialInverse to from → LawfulField (flat_via A fs to from).
Proof.
  intros Hfs Hnd Hi. split; cbn [f_wf f_write f_read flat_via].
  - intros a Ha. by apply write_fields_keys.
  - intros a Ha. by apply write_fields_once.
  - intros own entries rest a Ha _ Hr _ Hin. rewrite (de_struct_reads fs (to a)); [|done..].
    apply Hi.
Qed.

(** ** A flattened type that takes all other keys *)

(** A last field that is flattened: it reads the entries of all keys that are not the struct's
    own, and must not write one of these. *)
Definition c_flat_last (fs : list sfield) (c : codec) : codec := {|
  ctype := fields_type fs * ctype c;
  enc '(v, a) :=
    JObject (write_fields fs v ++ match enc c a with JObject entries => entries | _ => [] end);
  dec j :=
    let own := own_keys fs in
    '(src, rest) ← flat_src own j;
    v ← read_fields own src [] fs;
    a ← dec c (JObject rest);
    Ok (v, a);
  cwf '(v, a) :=
    fields_wf fs v ∧ cwf c a ∧
    ∃ entries, enc c a = JObject entries ∧ NoDup entries.*1 ∧ ∀ k, k ∈ entries.*1 → k ∉ own_keys fs
|}.

(** No field of the struct is flattened itself. *)
Class PlainFields (fs : list sfield) : Prop := plain_fields : has_flatten fs = false.
#[export] Hint Extern 1 (PlainFields _) => reflexivity : typeclass_instances.

Lemma own_keys_plain fs : has_flatten fs = false → all_keys fs ≡ₚ own_keys fs.
Proof. intros Hf. by rewrite all_keys_split, no_flatten_inner, app_nil_r. Qed.

#[export] Instance lawful_flat_last fs c :
  LawfulFields fs → DistinctKeys fs → PlainFields fs → Lawful c → Lawful (c_flat_last fs c).
Proof.
  intros Hfs Hd Hp Hc. red in Hp. refine (λ '(v, a), _). intros (Hv & Ha & entries & He & Hnd & Hout).
  cbn [enc dec c_flat_last]. rewrite He.
  assert (∀ k, k ∈ (write_fields fs v).*1 → k ∈ own_keys fs) as Hown.
  { intros k Hk%(write_fields_keys fs v Hfs Hv). by rewrite own_keys_plain in Hk. }
  pose proof (write_fields_once fs v Hfs Hd Hv) as Honce.
  rewrite (flat_src_app _ (write_fields fs v) entries Honce Hown Hout). cbn [mbind outcome_bind].
  rewrite (read_fields_write fs (own_keys fs) (write_fields fs v ++ entries) [] v Hfs Hd Hv).
  - cbn [mbind outcome_bind]. rewrite <- He, (Hc a Ha). done.
  - rewrite fmap_app. apply list.NoDup_app. split; [done|]. split; [|done].
    intros k Hk Hk'. by apply (Hout k), Hown.
  - constructor.
  - intros k Hk. rewrite assoc_app. destruct (assoc k (write_fields fs v)); [done|].
    by apply assoc_None; intros ?%Hout.
  - rewrite no_flatten_inner by done. by intros k []%elem_of_nil.
Qed.
#[export] Instance never_null_flat_last fs c : NeverNull (c_flat_last fs c).
Proof. by intros [v a]. Qed.

(** [untagged], where values of the second variant that look like the first are lost *)
Definition c_untagged_apart (c1 c2 : codec) : codec := {|
  ctype := ctype c1 + ctype c2;
  enc := enc (c_untagged c1 c2);
  dec := dec (c_untagged c1 c2);
  cwf a := cwf (c_untagged c1 c2) a ∧
           match a with inl _ => True | inr a => ∃ e, dec c1 (enc c2 a) = Err e end
|}.
#[export] Instance lawful_untagged_apart c1 c2 :
  Lawful c1 → Lawful c2 → Lawful (c_untagged_apart c1 c2).
Proof.
  intros H1 H2 [a|a] [Ha Hr]; simpl in *; unfold or_else; [by rewrite (H1 a Ha)|].
  destruct Hr as [e He]. rewrite He. simpl. by rewrite (H2 a Ha).
Qed.

(** ruma-serde/src/strings.rs: [empty_string_as_none], with [default]; whether [None] is written
    depends on [skip_serializing_if] *)
Definition empty_string_as_none {A} (d : decoder A) : decoder (option A) := λ j,
  opt ← de_option de_string j;
  match opt with
  | None | Some "" => Ok None
  | Some s => Some <$> d (JString s)
  end.

Definition opt_nonempty {E} (name : string) (skip : bool) (p : string → outcome E string) : sfield := {|
  f_own := [name];
  f_inner := [];
  f_type := option string;
  f_write o :=
    match o with
    | Some s => [(name, JString s)]
    | None => if skip then [] else [(name, JNull)]
    end;
  f_read own src _ := field_default own name None (empty_string_as_none (de_parse p)) src;
  f_wf o := ∀ s, o = Some s → s ≠ "" ∧ p s = Ok s
|}.
#[export] Instance lawful_opt_nonempty {E} name skip (p : string → outcome E string) :
  LawfulField (opt_nonempty name skip p).
Proof.
  apply lawful_one_key; [intros [s|]; simpl; destruct skip; eauto|].
  intros own entries rest [s|] Ha He; unfold field_default, lookup_field; rewrite He.
  - destruct (Ha s eq_refl) as [Hs Hp]. rewrite assoc_here. unfold empty_string_as_none.
    cbn [de_option de_string mbind outcome_bind fmap outcome_fmap]. destruct s; [done|].
    by rewrite (de_parse_Ok p _ _ Hp).
  - destruct skip; [done|]. by rewrite assoc_here.
Qed.

(** Resolution at work *)
Example resolution :
  Lawful (c_struct [req "a" (c_list c_string); opt "b" c_uint; flat [vec "c" c_bool; flag "d"];
                    req "e" (c_struct [id_map "f" UserId_parse c_raw])]).
Proof. apply _. Qed.
