(* ===== verification/Http.v ===== *)
(** * HTTP messages

    What the API framework uses of third-party crates. The crates http (URIs and header
    values), percent-encoding and serde_json (as text) are parameters with the behaviour their
    documentation states; messages are records of what they hold. *)

From S2P Require Import Prelude RustStr RustNet IdValidation StringEnum Identifiers Json.
From S2P Require Import CanonicalJson Serde UrlEncoded.
From Stdlib Require Import Ascii NArith.
Open Scope string_scope.
Open Scope nat_scope.
Open Scope list_scope.

(** ** Characters *)

Definition one_of (l : list ascii) (b : ascii) : bool := bool_decide (b ∈ l).

(** The output of percent encoding with [NON_ALPHANUMERIC] *)
Definition percent_byte (b : ascii) : bool := is_ascii_alphanumeric b || byte_is "%" b.

(** What the paths of this code consist of, and what form encoding puts out *)
Definition path_byte (b : ascii) : bool :=
  percent_byte b || one_of ["/"; "_"; "."; "-"; "~"; "+"; ":"; "@"]%char b.
Definition query_byte (b : ascii) : bool :=
  percent_byte b || one_of ["&"; "="; "*"; "-"; "."; "_"; "+"]%char b.
(** Header values that are text: printable ASCII *)
Definition visible_byte (b : ascii) : bool := (32 <=? byte b)%N && (byte b <? 127)%N.

(** ** percent-encoding *)

Class PercentEncoding := {
  utf8_percent_encode : string → string;      (* with [NON_ALPHANUMERIC] *)
  percent_decode : string → string;           (* to bytes *)
  percent_decode_encode s : percent_decode (utf8_percent_encode s) = s;
  percent_encode_bytes s : bytes_all percent_byte (utf8_percent_encode s) = true
}.

(** ** serde_json as text

    What is written is read again. The crate's limits are left out: it reads no more than 128
    levels of nesting and no numbers out of the range of its types. *)

Class JsonText := {
  json_to_vec : json → string;
  json_from_slice : string → outcome () json;
  json_from_to_vec j : json_from_slice (json_to_vec j) = Ok j;
  json_from_braces : json_from_slice "{}" = Ok (JObject []);
  json_to_vec_not_empty j : json_to_vec j ≠ ""
}.

(** Form encoding puts out no other bytes. *)
Class FormBytes `{FormUrlencoded} :=
  finish_bytes l : bytes_all query_byte (finish l) = true.

(** ** http *)

(** A URI: what comes before the path; the path and the query, where there are any *)
Record Uri := { uri_origin : string; uri_path_and_query : option (string * option string) }.

(** [Uri::path] and [Uri::query] *)
Definition uri_path (u : Uri) : string :=
  match uri_path_and_query u with Some (path, _) => path | None => "" end.
Definition uri_query (u : Uri) : option string :=
  match uri_path_and_query u with Some (_, query) => query | None => None end.

(** [Display] *)
Definition path_and_query_to_string (pq : string * option string) : string :=
  match pq with
  | (path, Some query) => path +:+ "?" +:+ query
  | (path, None) => path
  end.

(** The crate's limit of 65534 bytes for a URI is left out. *)
Class HttpCrate := {
  (* [HeaderValue::from_str] and [parse], [TryFrom<String>], and [to_str] *)
  header_from_str : string → option string;
  header_from_string : string → option string;
  header_to_str : string → option string;
  header_visible s :
    bytes_all visible_byte s = true →
    header_from_str s = Some s ∧ header_from_string s = Some s ∧ header_to_str s = Some s;
  (* [str::parse] to a [Uri] and to a [PathAndQuery], and [Uri::from_parts] *)
  uri_parse : string → option Uri;
  path_and_query_parse : string → option (string * option string);
  uri_from_parts : Uri → option Uri;
  (* scheme and authority, as in "https://matrix.org" *)
  is_origin : string → Prop;
  path_and_query_parse_to_string path query :
    starts_with_char "/" path = true → bytes_all path_byte path = true →
    from_option (bytes_all query_byte) true query = true →
    path_and_query_parse (path_and_query_to_string (path, query)) = Some (path, query);
  uri_parse_origin origin pq :
    is_origin origin → path_and_query_parse (path_and_query_to_string pq) = Some pq →
    uri_parse (origin +:+ path_and_query_to_string pq) =
      Some {| uri_origin := origin; uri_path_and_query := Some pq |};
  uri_from_parts_origin origin pq :
    is_origin origin →
    uri_from_parts {| uri_origin := origin; uri_path_and_query := Some pq |} =
      Some {| uri_origin := origin; uri_path_and_query := Some pq |};
  origin_no_slash origin : is_origin origin → ∀ s, origin ≠ s +:+ "/"
}.

(** ** Headers *)

Notation headers := (list (string * string)).

(** [HeaderMap::insert], [get] and [remove] *)
Definition header_insert (name value : string) (m : headers) : headers :=
  (name, value) :: filter (λ kv, kv.1 ≠ name) m.
Definition header_get (name : string) (m : headers) : option string := assoc name m.
Definition header_remove (name : string) (m : headers) : option string * headers :=
  (assoc name m, filter (λ kv, kv.1 ≠ name) m).

Lemma header_get_insert name value m : header_get name (header_insert name value m) = Some value.
Proof. unfold header_get, header_insert. by rewrite assoc_cons, decide_True. Qed.

Lemma header_get_filter name name' (m : headers) :
  name ≠ name' → header_get name (filter (λ kv, kv.1 ≠ name') m) = header_get name m.
Proof.
  intros Hne. unfold header_get. induction m as [|[k v] m IH]; [done|]. rewrite filter_cons.
  simpl. case_decide as Hk; rewrite !assoc_cons; [by rewrite IH|].
  rewrite (decide_False (P := k = name)); [done|congruence].
Qed.

Lemma header_get_insert_ne name name' value m :
  name ≠ name' → header_get name (header_insert name' value m) = header_get name m.
Proof.
  intros Hne. unfold header_insert. rewrite <- (header_get_filter name name' m Hne).
  unfold header_get. rewrite assoc_cons, decide_False by done. done.
Qed.

(** ** Messages *)

Record HttpRequest := {
  rq_method : string;
  rq_uri : Uri;
  rq_headers : headers;
  rq_body : string
}.

Record HttpResponse := {
  rs_status : N;
  rs_headers : headers;
  rs_body : string
}.
