(* ===== verification/Api.v ===== *)
(** * The API framework

    [ruma-api] and [ruma-api-macros]. An endpoint is what an invocation of the [ruma_api!] macro
    declares: its metadata, the fields of its request and of its response with their
    attributes, its error type. The functions of this file are what the macro generates from
    such a declaration, [try_into_http_request], [try_from_http_request],
    [try_into_http_response] and [try_from_http_response], and the checks it makes.

    A request value consists of the values of its fields, grouped by kind; path fields come in
    the order of their placeholders. *)

From S2P Require Import Prelude RustStr RustNet IdValidation StringEnum Identifiers Json.
From S2P Require Import CanonicalJson Serde Codecs UrlEncoded ClientErrors Uiaa Http.
From Stdlib Require Import Ascii NArith.
Open Scope string_scope.
Open Scope nat_scope.
Open Scope list_scope.

(** ** Metadata *)

Inductive AuthScheme := AuthNone | AccessToken | ServerSignatures | QueryOnlyAccessToken.

#[export] Instance AuthScheme_eq_dec : EqDecision AuthScheme.
Proof. solve_decision. Defined.

Record Metadata := {
  description : string;
  method : string;
  name : string;
  path : string;
  rate_limited : bool;
  authentication : AuthScheme
}.

(** util.rs: [(0x21..=0x7E).contains(b)] *)
Definition is_valid_endpoint_path (s : string) : bool :=
  bytes_all (λ b, (33 <=? byte b)%N && (byte b <=? 126)%N) s.

Inductive SendAccessToken :=
  | IfRequired (tok : string)
  | Always (tok : string)
  | NoToken.

Definition get_required_for_endpoint (self : SendAccessToken) : option string :=
  match self with IfRequired tok | Always tok => Some tok | NoToken => None end.

Definition get_not_required_for_endpoint (self : SendAccessToken) : option string :=
  match self with Always tok => Some tok | IfRequired _ | NoToken => None end.

(** ** Errors: ruma-api/src/error.rs *)

Inductive IntoHttpError :=
  | NeedsAuthentication
  | IntoJson
  | IntoQuery (e : SerError)
  | IntoHeader
  | IntoHttp.

Inductive HeaderDeserializationError :=
  | ToStrError
  | MissingHeader (name : string).

Inductive DeserializationError :=
  | DeUtf8
  | DeJson
  | DeQuery
  | DeIdent (e : IdValidation.Error)
  | DeHeader (e : HeaderDeserializationError).

Inductive FromHttpRequestError :=
  | ReqDeserialization (e : DeserializationError)
  | MethodMismatch (expected received : string).

Inductive ServerError (E : Type) :=
  | Known (e : E)
  | Unknown (e : DeserializationError).
Arguments Known {E} e.
Arguments Unknown {E} e.

Inductive FromHttpResponseError (E : Type) :=
  | RespDeserialization (e : DeserializationError)
  | ServerErr (e : ServerError E).
Arguments RespDeserialization {E} e.
Arguments ServerErr {E} e.

(** ** Fields *)

(** A path field: a type with [Display] and [TryFrom<&str>] *)
Record path_field := {
  p_name : string;
  p_type : Type;
  p_show : p_type → string;
  p_read : string → outcome DeserializationError p_type;
  p_wf : p_type → Prop
}.

Definition p_string (name : string) : path_field :=
  {| p_name := name; p_type := string; p_show := id; p_read := Ok; p_wf s := valid_utf8 s = true |}.
Definition p_id (name : string) (parse : string → outcome IdValidation.Error string) : path_field :=
  {| p_name := name; p_type := string; p_show := id; p_read s := map_err DeIdent (parse s);
     p_wf s := parse s = Ok s ∧ valid_utf8 s = true |}.
(** A string enum: [TryFrom] by way of [From<&str>] *)
Definition p_enum (name : string) (A : Type) `{StringEnum A} : path_field :=
  {| p_name := name; p_type := A; p_show := as_ref; p_read s := Ok (from s);
     p_wf a := canonical a ∧ valid_utf8 (as_ref a) = true |}.

(** The types of query fields: what serde makes of a value, and back *)
Record qcodec := {
  q_type : Type;
  q_shape : shape;
  q_ser : q_type → sval;
  q_de : sval → outcome () q_type;
  q_wf : q_type → Prop
}.

(** A field of the query struct. [None] is a field that is skipped. *)
Record query_field := {
  qf_name : string;
  qf_type : Type;
  qf_shape : shape;
  qf_default : option sval;
  qf_write : qf_type → option sval;
  qf_read : sval → outcome () qf_type;
  qf_wf : qf_type → Prop
}.

Definition q_req (name : string) (c : qcodec) : query_field := {|
  qf_name := name; qf_type := q_type c; qf_shape := q_shape c; qf_default := None;
  qf_write a := Some (q_ser c a); qf_read := q_de c; qf_wf := q_wf c
|}.

Definition de_sval_option {A} (d : sval → outcome () A) (v : sval) : outcome () (option A) :=
  match v with SNone => Ok None | SSome v => Some <$> d v | _ => Err () end.

(** [skip_serializing_if = "Option::is_none"] *)
Definition q_opt (name : string) (c : qcodec) : query_field := {|
  qf_name := name; qf_type := option (q_type c); qf_shape := TOption (q_shape c);
  qf_default := None;
  qf_write o := (λ a, SSome (q_ser c a)) <$> o;
  qf_read := de_sval_option (q_de c);
  qf_wf o := ∀ a, o = Some a → q_wf c a
|}.

(** [default, skip_serializing_if = "skip"] *)
Definition q_dflt (name : string) (c : qcodec) (d : q_type c) (skip : q_type c → bool) :
    query_field := {|
  qf_name := name; qf_type := q_type c; qf_shape := q_shape c; qf_default := Some (q_ser c d);
  qf_write a := if skip a then None else Some (q_ser c a);
  qf_read := q_de c;
  qf_wf a := q_wf c a ∧ q_wf c d
|}.

Definition qc_string : qcodec := {|
  q_type := string; q_shape := TString; q_ser := SStr;
  q_de v := match v with SStr s => Ok s | _ => Err () end;
  q_wf s := valid_utf8 s = true
|}.
Definition qc_bool : qcodec := {|
  q_type := bool; q_shape := TBool; q_ser := SBool;
  q_de v := match v with SBool b => Ok b | _ => Err () end;
  q_wf _ := True
|}.
(** js_int's [UInt]: a [u64] in range *)
Definition qc_uint : qcodec := {|
  q_type := Z; q_shape := TUnsigned (2 ^ 64 - 1); q_ser := SInt;
  q_de v := match v with SInt z => if uint_in_range z then Ok z else Err () | _ => Err () end;
  q_wf z := uint_in_range z = true
|}.
Definition qc_parsed {E} (p : string → outcome E string) : qcodec := {|
  q_type := string; q_shape := TString; q_ser := SStr;
  q_de v := match v with SStr s => map_err (λ _, ()) (p s) | _ => Err () end;
  q_wf s := p s = Ok s ∧ valid_utf8 s = true
|}.
Definition qc_enum (A : Type) `{StringEnum A} : qcodec := {|
  q_type := A; q_shape := TString; q_ser a := SStr (as_ref a);
  q_de v := match v with SStr s => Ok (from s) | _ => Err () end;
  q_wf a := canonical a ∧ valid_utf8 (as_ref a) = true
|}.
(** An [enum] of unit variants *)
Definition qc_units {A : Type} `{EqDecision A} (variants : list (string * A)) : qcodec := {|
  q_type := A; q_shape := TUnitEnum variants.*1; q_ser a := SUnitVariant (unit_name variants a);
  q_de v := match v with SUnitVariant s => unit_variant variants s | _ => Err () end;
  q_wf a := a ∈ variants.*2
|}.
(** [Vec<T>]: one pair for each item *)
Fixpoint de_sval_list {A} (d : sval → outcome () A) (l : list sval) : outcome () (list A) :=
  match l with
  | [] => Ok []
  | v :: l => a ← d v; l ← de_sval_list d l; Ok (a :: l)
  end.
Definition qc_list (c : qcodec) : qcodec := {|
  q_type := list (q_type c); q_shape := TSeq (q_shape c); q_ser l := SSeq (q_ser c <$> l);
  q_de v := match v with SSeq l => de_sval_list (q_de c) l | _ => Err () end;
  q_wf l := Forall (q_wf c) l
|}.

(** A header: [String] or [Option<String>] *)
Record header_field := { h_name : string; h_optional : bool }.

Definition header_type (optional : bool) : Type := if optional then option string else string.
Definition h_type (h : header_field) : Type := header_type (h_optional h).
Definition h_value (h : header_field) : h_type h → option string :=
  match h_optional h as b return header_type b → option string with
  | true => id
  | false => Some
  end.
Definition h_make (h : header_field) (value : option string) : option (h_type h) :=
  match h_optional h as b return option (header_type b) with
  | true => Some value
  | false => value
  end.

(** The types of a [query_map] field: a map from strings, or a list of pairs *)
Inductive RequestField :=
  | Body (f : sfield)
  | Header (f : header_field)
  | NewtypeBody (c : codec)
  | RawBody
  | Path (f : path_field)
  | Query (f : query_field)
  | QueryMap.

Section fields.
Variable fields : list RequestField.

Definition body_fields : list sfield :=
  omap (λ f, match f with Body f => Some f | _ => None end) fields.
Definition newtype_bodies : list codec :=
  omap (λ f, match f with NewtypeBody c => Some c | _ => None end) fields.
Definition header_fields : list header_field :=
  omap (λ f, match f with Header h => Some h | _ => None end) fields.
Definition path_fields : list path_field :=
  omap (λ f, match f with Path p => Some p | _ => None end) fields.
Definition query_fields : list query_field :=
  omap (λ f, match f with Query q => Some q | _ => None end) fields.
Definition has_raw_body : bool := existsb (λ f, match f with RawBody => true | _ => false end) fields.
Definition has_query_map : bool := existsb (λ f, match f with QueryMap => true | _ => false end) fields.

Definition has_body_fields : bool :=
  existsb (λ f, match f with Body _ | NewtypeBody _ => true | _ => false end) fields.
Definition has_path_fields : bool :=
  existsb (λ f, match f with Path _ => true | _ => false end) fields.
Definition has_query_fields : bool :=
  existsb (λ f, match f with Query _ => true | _ => false end) fields.

(** [RequestBody]: with a newtype field it is [serde(transparent)]. *)
Definition body_codec : codec :=
  match newtype_bodies with
  | c :: _ => c
  | [] => c_struct body_fields
  end.


Definition count_fields (p : RequestField → bool) : nat := length (List.filter p fields).

(** [Request::check] *)
Definition check (method : string) : bool :=
  let newtype_body_fields :=
    count_fields (λ f, match f with NewtypeBody _ | RawBody => true | _ => false end) in
  let query_map_fields := count_fields (λ f, match f with QueryMap => true | _ => false end) in
  let has_newtype_body_field := 1 <=? newtype_body_fields in
  let has_query_map_field := 1 <=? query_map_fields in
  let has_body_fields :=
    existsb (λ f, match f with Body _ => true | _ => false end) fields in
  (newtype_body_fields <=? 1) && (query_map_fields <=? 1)
  && negb (has_newtype_body_field && has_body_fields)
  && negb (has_query_map_field && has_query_fields)
  && negb (bool_decide (method = "GET") && (has_body_fields || has_newtype_body_field)).
End fields.

Inductive ResponseField :=
  | RespBody (f : sfield)
  | RespHeader (f : header_field)
  | RespNewtypeBody (c : codec)
  | RespRawBody.

Section response_fields.
Variable fields : list ResponseField.

Definition resp_body_fields : list sfield :=
  omap (λ f, match f with RespBody f => Some f | _ => None end) fields.
Definition resp_newtype_bodies : list codec :=
  omap (λ f, match f with RespNewtypeBody c => Some c | _ => None end) fields.
Definition resp_header_fields : list header_field :=
  omap (λ f, match f with RespHeader h => Some h | _ => None end) fields.
Definition resp_has_raw_body : bool :=
  existsb (λ f, match f with RespRawBody => true | _ => false end) fields.
Definition resp_has_body_fields : bool :=
  existsb (λ f, match f with RespBody _ | RespNewtypeBody _ => true | _ => false end) fields.

(** [ResponseBody] *)
Definition resp_body_codec : codec :=
  match resp_newtype_bodies with
  | c :: _ => c
  | [] => c_struct resp_body_fields
  end.

(** [Response::check] *)
Definition resp_check : bool :=
  let newtype_body_fields := length (List.filter
    (λ f, match f with RespNewtypeBody _ | RespRawBody => true | _ => false end) fields) in
  let has_body_fields := existsb (λ f, match f with RespBody _ => true | _ => false end) fields in
  (newtype_body_fields <=? 1) && negb ((1 <=? newtype_body_fields) && has_body_fields).
End response_fields.

(** ** Endpoints *)

(** The error types: the default one of the macro, and those of the client API *)
Inductive error_ty := DefaultError | ClientError | UiaaError.

Record endpoint := {
  ep_metadata : Metadata;
  ep_request : list RequestField;
  ep_response : list ResponseField;
  ep_error : error_ty
}.

(** The segments of a path that are placeholders, with their index *)
Definition path_segments (path : string) : list string :=
  str_split "/" (match path with String _ rest => rest | "" => "" end).
Definition placeholders (path : string) : list (nat * string) :=
  omap (λ '(i, seg), match seg with String ":" var => Some (i, var) | _ => None end)
    (imap pair (path_segments path)).

Definition find_path_field (fields : list RequestField) (var : string) : option path_field :=
  snd <$> list_find (λ p, p_name p = var) (path_fields fields).

(** The path fields, in the order of their placeholders *)
Definition path_vars (path : string) (fields : list RequestField) : list (nat * path_field) :=
  omap (λ '(i, var), pair i <$> find_path_field fields var) (placeholders path).

(** [format_string.find(':')] and the end of that segment, until there is none: with one
    argument for each placeholder, as [format_args!] fills them in. *)
Fixpoint fill_path (format_string : string) (in_var : bool) (args : list string) : string :=
  match format_string with
  | "" => ""
  | String b rest =>
      if in_var then
        if byte_is "/" b then String b (fill_path rest false args) else fill_path rest true args
      else if byte_is ":" b then
        match args with
        | arg :: args => arg +:+ fill_path rest true args
        | [] => fill_path rest true []
        end
      else String b (fill_path rest false args)
  end.

(** What the macro asserts of a path with placeholders: it starts with a slash, every colon is
    at the start of a segment, and there are as many as path fields. That the names are those
    of the fields is checked by the compiler when it sees the generated code. *)
Definition colons (s : string) : nat := length (List.filter (byte_is ":") (String.list_ascii_of_string s)).
Fixpoint colons_start_segments (previous : ascii) (s : string) : bool :=
  match s with
  | "" => true
  | String b rest =>
      (negb (byte_is ":" b) || byte_is "/" previous) && colons_start_segments b rest
  end.
Definition path_expands (path : string) (fields : list RequestField) : bool :=
  negb (has_path_fields fields)
  || starts_with_char "/" path && (colons path =? length (path_fields fields))
     && colons_start_segments " " path
     && bool_decide ((placeholders path).*2 ≡ₚ p_name <$> path_fields fields).

(** What the macro and the compiler accept *)
Definition expands (e : endpoint) : bool :=
  is_valid_endpoint_path (path (ep_metadata e))
  && check (ep_request e) (method (ep_metadata e))
  && resp_check (ep_response e)
  && path_expands (path (ep_metadata e)) (ep_request e).

(** ** Values *)

Inductive query_kind := QueryMapKind | QueryStructKind (qs : list query_field) | NoQueryKind.
Definition query_kind_of (fields : list RequestField) : query_kind :=
  if has_query_map fields then QueryMapKind
  else if has_query_fields fields then QueryStructKind (query_fields fields)
  else NoQueryKind.
Definition query_type (k : query_kind) : Type :=
  match k with
  | QueryMapKind => gmap string string
  | QueryStructKind qs => hlist qf_type qs
  | NoQueryKind => unit
  end.

Inductive body_kind := RawKind | JsonKind (c : codec) | NoBodyKind.
Definition body_kind_of (fields : list RequestField) : body_kind :=
  if has_raw_body fields then RawKind
  else if has_body_fields fields then JsonKind (body_codec fields)
  else NoBodyKind.
Definition resp_body_kind_of (fields : list ResponseField) : body_kind :=
  if resp_has_raw_body fields then RawKind
  else if resp_has_body_fields fields then JsonKind (resp_body_codec fields)
  else NoBodyKind.
Definition body_type (k : body_kind) : Type :=
  match k with
  | RawKind => string
  | JsonKind c => ctype c
  | NoBodyKind => unit
  end.

(** The struct [Request] of an endpoint, and its [Response] *)
Record Request (e : endpoint) := {
  v_path : hlist (λ ip : nat * path_field, p_type ip.2)
             (path_vars (path (ep_metadata e)) (ep_request e));
  v_query : query_type (query_kind_of (ep_request e));
  v_headers : hlist h_type (header_fields (ep_request e));
  v_body : body_type (body_kind_of (ep_request e))
}.
Arguments v_path {e} _.
Arguments v_query {e} _.
Arguments v_headers {e} _.
Arguments v_body {e} _.

Record Response (e : endpoint) := {
  r_headers : hlist h_type (resp_header_fields (ep_response e));
  r_body : body_type (resp_body_kind_of (ep_response e))
}.
Arguments r_headers {e} _.
Arguments r_body {e} _.

(** ** [try_into_http_request] and [try_from_http_request] *)

Section conversions.
Context `{FormUrlencoded} `{PercentEncoding} `{JsonText} `{HttpCrate}.

(** request/outgoing.rs *)
Fixpoint path_args {l : list (nat * path_field)} : hlist (λ ip, p_type ip.2) l → list string :=
  match l return hlist (λ ip, p_type ip.2) l → list string with
  | [] => λ _, []
  | (_, p) :: l => λ '(a, v), utf8_percent_encode (p_show p a) :: path_args v
  end.

Definition request_path_string {e} (r : Request e) : string :=
  let path := path (ep_metadata e) in
  if has_path_fields (ep_request e) then fill_path path false (path_args (v_path r)) else path.

Fixpoint query_entries {qs : list query_field} : hlist qf_type qs → list (string * sval) :=
  match qs return hlist qf_type qs → list (string * sval) with
  | [] => λ _, []
  | q :: qs => λ '(a, v),
      match qf_write q a with Some s => [(qf_name q, s)] | None => [] end ++ query_entries v
  end.

Definition request_query_string (k : query_kind) : query_type k → outcome IntoHttpError string :=
  match k return query_type k → outcome IntoHttpError string with
  | QueryMapKind => λ m,
      s ← map_err IntoQuery
            (to_string (SNewtypeStruct (SMap (prod_map SStr SStr <$> btree_iter m))));
      Ok ("?" +:+ s)
  | QueryStructKind qs => λ v,
      s ← map_err IntoQuery (to_string (SStruct (query_entries v)));
      Ok ("?" +:+ s)
  | NoQueryKind => λ _, Ok ""
  end.

Definition insert_header (name : string) (value : option string) (m : headers) :
    outcome IntoHttpError headers :=
  v ← ok_or IntoHeader value; Ok (header_insert name v m).

Fixpoint insert_headers {hs : list header_field} :
    hlist h_type hs → headers → outcome IntoHttpError headers :=
  match hs return hlist h_type hs → headers → outcome IntoHttpError headers with
  | [] => λ _ m, Ok m
  | h :: hs => λ '(a, v) m,
      m ← match h_value h a with
          | Some s => insert_header (h_name h) (header_from_str s) m
          | None => Ok m
          end;
      insert_headers v m
  end.

Definition bearer (token : string) : option string := header_from_string ("Bearer " +:+ token).

Definition insert_authorization (scheme : AuthScheme) (access_token : SendAccessToken)
    (m : headers) : outcome IntoHttpError headers :=
  match scheme with
  | AccessToken =>
      token ← ok_or NeedsAuthentication (get_required_for_endpoint access_token);
      insert_header "AUTHORIZATION" (bearer token) m
  | AuthNone =>
      match get_not_required_for_endpoint access_token with
      | Some token => insert_header "AUTHORIZATION" (bearer token) m
      | None => Ok m
      end
  | QueryOnlyAccessToken | ServerSignatures => Ok m
  end.

Definition request_headers {e} (r : Request e) (access_token : SendAccessToken) :
    outcome IntoHttpError headers :=
  let req_headers :=
    if has_raw_body (ep_request e) || has_body_fields (ep_request e)
    then header_insert "CONTENT_TYPE" "application/json" [] else [] in
  req_headers ← insert_headers (v_headers r) req_headers;
  insert_authorization (authentication (ep_metadata e)) access_token req_headers.

Definition body_bytes (k : body_kind) : body_type k → string :=
  match k return body_type k → string with
  | RawKind => id
  | JsonKind c => λ a, json_to_vec (enc c a)
  | NoBodyKind => λ _, ""
  end.

(** [base_url.strip_suffix('/').unwrap_or(base_url)] *)
Fixpoint strip_slash (base_url : string) : string :=
  match base_url with
  | "" => ""
  | String b "" => if byte_is "/" b then "" else base_url
  | String b rest => String b (strip_slash rest)
  end.

(** When the URI is not valid, the builder has no headers to put anything into, and [body]
    gives the error. *)
Definition try_into_http_request {e} (r : Request e) (base_url : string)
    (access_token : SendAccessToken) : outcome IntoHttpError HttpRequest :=
  query ← request_query_string _ (v_query r);
  let uri := uri_parse (strip_slash base_url +:+ request_path_string r +:+ query) in
  headers ← match uri with Some _ => request_headers r access_token | None => Ok [] end;
  uri ← ok_or IntoHttp uri;
  Ok {| rq_method := method (ep_metadata e);
        rq_uri := uri;
        rq_headers := headers;
        rq_body := body_bytes _ (v_body r) |}.

(** request/incoming.rs *)
Fixpoint read_path (segments : list string) (l : list (nat * path_field)) :
    outcome DeserializationError (hlist (λ ip, p_type ip.2) l) :=
  match l return outcome DeserializationError (hlist (λ ip, p_type ip.2) l) with
  | [] => Ok tt
  | (i, p) :: l =>
      segment ← unwrap (segments !! i);
      let decoded := percent_decode segment in
      if valid_utf8 decoded then
        a ← p_read p decoded;
        v ← read_path segments l;
        Ok (a, v)
      else Err DeUtf8
  end.

Definition parse_request_path (fields : list RequestField) (request_path path : string) :
    outcome DeserializationError (hlist (λ ip, p_type ip.2) (path_vars path fields)) :=
  match request_path with
  | "" => Panic                  (* request.uri().path()[1..] *)
  | _ => read_path (path_segments request_path) (path_vars path fields)
  end.

Fixpoint read_query (qs : list query_field) (entries : list (string * sval)) :
    outcome () (hlist qf_type qs) :=
  match qs, entries return outcome () (hlist qf_type qs) with
  | q :: qs, (_, s) :: entries => a ← qf_read q s; v ← read_query qs entries; Ok (a, v)
  | [], _ => Ok tt
  | _ :: _, [] => Err ()
  end.

Definition query_shape (q : query_field) : field :=
  {| UrlEncoded.f_name := qf_name q; UrlEncoded.f_shape := qf_shape q;
     UrlEncoded.f_default := qf_default q |}.

(** A [BTreeMap<String, String>] *)
Fixpoint sval_string_map (l : list (sval * sval)) : outcome () (gmap string string) :=
  match l with
  | [] => Ok ∅
  | (SStr k, SStr v) :: l => m ← sval_string_map l; Ok (<[k := v]> m)
  | _ => Err ()
  end.

Definition parse_query (k : query_kind) (query : string) : outcome () (query_type k) :=
  match k return outcome () (query_type k) with
  | QueryMapKind =>
      v ← from_str (TopMap TString) query;
      match v with SMap l => sval_string_map l | _ => Err () end
  | QueryStructKind qs =>
      v ← from_str (TopStruct (query_shape <$> qs)) query;
      match v with SStruct entries => read_query qs entries | _ => Err () end
  | NoQueryKind => Ok tt
  end.

Definition read_header (h : header_field) (value : option string) :
    outcome DeserializationError (h_type h) :=
  value ← match value with
          | Some v => s ← ok_or (DeHeader ToStrError) (header_to_str v); Ok (Some s)
          | None => Ok None
          end;
  ok_or (DeHeader (MissingHeader (h_name h))) (h_make h value).

Fixpoint parse_headers (hs : list header_field) (m : headers) :
    outcome DeserializationError (hlist h_type hs) :=
  match hs return outcome DeserializationError (hlist h_type hs) with
  | [] => Ok tt
  | h :: hs =>
      a ← read_header h (header_get (h_name h) m);
      v ← parse_headers hs m;
      Ok (a, v)
  end.

(** An empty body is read as an empty object. *)
Definition parse_body (k : body_kind) (body : string) : outcome DeserializationError (body_type k) :=
  match k return outcome DeserializationError (body_type k) with
  | RawKind => Ok body
  | JsonKind c =>
      j ← map_err (λ _, DeJson) (json_from_slice (if decide (body = "") then "{}" else body));
      map_err (λ _, DeJson) (dec c j)
  | NoBodyKind => Ok tt
  end.

Definition try_from_http_request (e : endpoint) (request : HttpRequest) :
    outcome FromHttpRequestError (Request e) :=
  if decide (rq_method request = method (ep_metadata e)) then
    map_err ReqDeserialization (
      path ← (if has_path_fields (ep_request e)
              then parse_request_path (ep_request e) (uri_path (rq_uri request))
                     (path (ep_metadata e))
              else read_path [] _  (* no fields to read *));
      query ← map_err (λ _, DeQuery)
                (parse_query _ (default "" (uri_query (rq_uri request))));
      headers ← parse_headers _ (rq_headers request);
      body ← parse_body _ (rq_body request);
      Ok {| v_path := path; v_query := query; v_headers := headers; v_body := body |})
  else Err (MethodMismatch (method (ep_metadata e)) (rq_method request)).

(** lib.rs: [try_into_http_request_with_user_id] *)
Definition try_into_http_request_with_user_id {e} (r : Request e) (base_url : string)
    (access_token : SendAccessToken) (user_id : string) : outcome IntoHttpError HttpRequest :=
  http_request ← try_into_http_request r base_url access_token;
  user_id_query ← map_err IntoQuery
    (to_string (STuple [STuple [SStr "user_id"; SStr user_id]]));
  let path_and_query_with_user_id :=
    match uri_path_and_query (rq_uri http_request) with
    | Some pq =>
        match pq.2 with
        | Some _ => path_and_query_to_string pq +:+ "&" +:+ user_id_query
        | None => path_and_query_to_string pq +:+ "?" +:+ user_id_query
        end
    | None => "/?" +:+ user_id_query
    end in
  pq ← ok_or IntoHttp (path_and_query_parse path_and_query_with_user_id);
  uri ← ok_or IntoHttp
    (uri_from_parts {| uri_origin := uri_origin (rq_uri http_request);
                       uri_path_and_query := Some pq |});
  Ok {| rq_method := rq_method http_request;
        rq_uri := uri;
        rq_headers := rq_headers http_request;
        rq_body := rq_body http_request |}.

(** ** [try_into_http_response] and [try_from_http_response] *)

(** response/outgoing.rs: there is always a body, of an empty struct if need be. *)
Definition try_into_http_response {e} (r : Response e) : outcome IntoHttpError HttpResponse :=
  headers ← insert_headers (r_headers r) [("CONTENT_TYPE", "application/json")];
  Ok {| rs_status := 200;
        rs_headers := headers;
        rs_body := match resp_body_kind_of (ep_response e) as k return body_type k → string with
                   | NoBodyKind => λ _, json_to_vec (JObject [])
                   | k => body_bytes k
                   end (r_body r) |}.

(** response/incoming.rs: a required header that is missing is a panic. *)
Definition take_header (h : header_field) (m : headers) :
    outcome DeserializationError (h_type h * headers) :=
  let '(value, m) := header_remove (h_name h) m in
  value ← match value with
          | Some v => s ← ok_or (DeHeader ToStrError) (header_to_str v); Ok (Some s)
          | None => Ok None
          end;
  a ← unwrap (h_make h value);
  Ok (a, m).

Fixpoint take_headers (hs : list header_field) (m : headers) :
    outcome DeserializationError (hlist h_type hs) :=
  match hs return outcome DeserializationError (hlist h_type hs) with
  | [] => Ok tt
  | h :: hs => '(a, m) ← take_header h m; v ← take_headers hs m; Ok (a, v)
  end.

(** error.rs: [MatrixError], the default error type *)
Record MatrixError := { me_status_code : N; me_body : json }.

Definition MatrixError_try_into_http_response (self : MatrixError) :
    outcome IntoHttpError HttpResponse :=
  Ok {| rs_status := me_status_code self;
        rs_headers := [("CONTENT_TYPE", "application/json")];
        rs_body := json_to_vec (me_body self) |}.

Definition MatrixError_try_from_http_response (response : HttpResponse) :
    outcome DeserializationError MatrixError :=
  j ← map_err (λ _, DeJson) (json_from_slice (rs_body response));
  Ok {| me_status_code := rs_status response; me_body := to_value j |}.

(** The trait [EndpointError] *)
Definition error_type (t : error_ty) : Type :=
  match t with
  | DefaultError => MatrixError
  | ClientError => ApiError
  | UiaaError => UiaaResponse
  end.

(** What the client API's errors look at of a response *)
Definition parsed_response (response : HttpResponse) : ClientErrors.Response :=
  {| status := rs_status response; ClientErrors.body := ok (json_from_slice (rs_body response)) |}.

Definition error_from_http_response (t : error_ty) (response : HttpResponse) :
    outcome DeserializationError (error_type t) :=
  match t return outcome DeserializationError (error_type t) with
  | DefaultError => MatrixError_try_from_http_response response
  | ClientError =>
      map_err (λ _, DeJson) (ApiError_try_from_http_response (parsed_response response))
  | UiaaError =>
      map_err (λ _, DeJson) (UiaaResponse_try_from_http_response (parsed_response response))
  end.

Definition try_from_http_response (e : endpoint) (response : HttpResponse) :
    outcome (FromHttpResponseError (error_type (ep_error e))) (Response e) :=
  if (rs_status response <? 400)%N then
    map_err RespDeserialization (
      body ← parse_body _ (rs_body response);
      headers ← take_headers _ (rs_headers response);
      Ok {| r_headers := headers; r_body := body |})
  else
    match error_from_http_response (ep_error e) response with
    | Ok err => Err (ServerErr (Known err))
    | Err response_err => Err (ServerErr (Unknown response_err))
    | Panic => Panic
    end.
End conversions.
