(* ===== verification/ApiPaths.v ===== *)
(** * Paths of endpoints

    The two directions of the macro treat paths in different ways: one replaces the
    placeholders from left to right, the other takes the segments at their indices. Both are
    the same for the paths that the macro accepts. *)

From S2P Require Import Prelude RustStr RustNet IdValidation StringEnum Identifiers Json.
From S2P Require Import CanonicalJson Serde Codecs UrlEncoded UrlEncodedSpec ClientErrors Uiaa Http Api.
From Stdlib Require Import Ascii NArith.
Open Scope string_scope.
Open Scope nat_scope.
Open Scope list_scope.

(** ** Filling in, segment by segment *)

Fixpoint fill_segments (segments args : list string) : list string :=
  match segments with
  | [] => []
  | seg :: segments =>
      if starts_with_char ":" seg then
        match args with
        | arg :: args => arg :: fill_segments segments args
        | [] => "" :: fill_segments segments []
        end
      else seg :: fill_segments segments args
  end.

Lemma fill_segments_cons seg segments args :
  ∃ x l, fill_segments (seg :: segments) args = x :: l.
Proof. simpl. destruct (starts_with_char ":" seg); [destruct args|]; eauto. Qed.

Lemma str_join_prepend c x l : x +:+ str_join c ("" :: l) = str_join c (x :: l).
Proof. destruct l; [apply str_app_nil_r|done]. Qed.

Lemma str_join_cons_byte c b w l : str_join c (String b w :: l) = String b (str_join c (w :: l)).
Proof. by destruct l. Qed.

Lemma str_join_empty c l : l ≠ [] → str_join c ("" :: l) = String c (str_join c l).
Proof. by destruct l. Qed.

(** What is left of a path is filled in alike: at the start of a segment, within one, and
    within a placeholder. *)
Lemma fill_path_segments s :
  (colons_start_segments "/" s = true → ∀ args,
     fill_path s false args = str_join "/" (fill_segments (str_split "/" s) args)) ∧
  (∀ previous, byte_is "/" previous = false → colons_start_segments previous s = true → ∀ args,
     ∃ w ws, str_split "/" s = w :: ws ∧
       fill_path s false args = str_join "/" (w :: fill_segments ws args) ∧
       fill_path s true args = str_join "/" ("" :: fill_segments ws args)).
Proof.
  induction s as [|b s [IHstart IHmid]].
  { split; [done|]. intros. exists "", []. done. }
  cbn [colons_start_segments fill_path str_split].
  destruct (byte_is "/" b) eqn:Hslash.
  { apply byte_is_true in Hslash as ->.
    assert (∀ args, fill_segments (str_split "/" s) args ≠ []) as Hne.
    { intros args. pose proof (str_split_not_nil "/" s) as Hne. destruct (str_split "/" s) as [|w ws]; [done|].
      destruct (fill_segments_cons w ws args) as (x & l & ->). done. }
    split.
    - intros [_ Hs]%andb_true_iff args. rewrite IHstart by done.
      change (fill_segments ("" :: ?l) args) with ("" :: fill_segments l args).
      by rewrite (str_join_empty "/" _ (Hne args)).
    - intros previous _ [_ Hs]%andb_true_iff args. exists "", (str_split "/" s).
      rewrite IHstart by done. by rewrite (str_join_empty "/" _ (Hne args)). }
  split.
  - intros [_ Hs]%andb_true_iff args. destruct (byte_is ":" b) eqn:Hcolon.
    + apply byte_is_true in Hcolon as ->. destruct args as [|arg args].
      * destruct (IHmid ":"%char eq_refl Hs []) as (w & ws & -> & _ & ->). done.
      * destruct (IHmid ":"%char eq_refl Hs args) as (w & ws & -> & _ & ->).
        rewrite str_join_prepend. done.
    + destruct (IHmid b Hslash Hs args) as (w & ws & -> & -> & _). cbn [fill_segments].
      assert (starts_with_char ":" (String b w) = false) as ->; [|by rewrite <- str_join_cons_byte].
      done.
  - intros previous Hprev [Hb Hs]%andb_true_iff args. rewrite Hprev, orb_false_r in Hb.
    apply negb_true_iff in Hb. rewrite Hb.
    destruct (IHmid b Hslash Hs args) as (w & ws & -> & Hfalse & Htrue).
    exists (String b w), ws. rewrite Hfalse, Htrue. split; [done|]. split; [|done].
    by rewrite <- str_join_cons_byte.
Qed.

(** The segments of a filled in path are those of the path, filled in. *)
Lemma path_segments_fill path args :
  starts_with_char "/" path = true → colons_start_segments " " path = true →
  Forall (λ arg, bytes_all (λ b, negb (byte_is "/" b)) arg = true) args →
  path_segments (fill_path path false args) = fill_segments (path_segments path) args.
Proof.
  intros Hstart Hcolons Hargs. apply starts_with_char_app in Hstart as (rest & ->).
  cbn [fill_path colons_start_segments path_segments] in *.
  change (byte_is "/" "/") with true in *. cbn [orb andb negb] in Hcolons.
  change (byte_is ":" "/") with false in *. cbn [path_segments negb orb andb] in *.
  rewrite (proj1 (fill_path_segments rest)) by done.
  change (path_segments (String "/" rest)) with (str_split "/" rest).
  change (path_segments (String "/" ?s)) with (str_split "/" s). apply str_split_join_all.
  - pose proof (str_split_not_nil "/" rest) as Hne. destruct (str_split "/" rest) as [|w ws]; [done|].
    destruct (fill_segments_cons w ws args) as (x & l & ->). done.
  - assert (Forall (λ w, bytes_all (λ b, negb (byte_is "/" b)) w = true) (str_split "/" rest)) as Hsegs.
    { clear. induction rest as [|b rest IH]; [by repeat constructor|]. simpl.
      destruct (byte_is "/" b) eqn:Hb; [by constructor|].
      destruct (str_split "/" rest) as [|w ws]; [repeat constructor; simpl; by rewrite Hb|].
      apply list.Forall_cons in IH as [Hw Hws]. constructor; [|done]. simpl. by rewrite Hb. }
    clear Hcolons. revert args Hargs. induction Hsegs as [|w ws Hw _ IH]; intros args Hargs; [constructor|].
    simpl. destruct (starts_with_char ":" w); [|constructor; auto].
    destruct Hargs; constructor; auto.
Qed.

(** ** The segment of a placeholder is its argument *)

Lemma fill_segments_lookup segments args j k i var arg :
  omap (λ '(i, seg), match seg with String ":" var => Some (i, var) | _ => None end)
    (imap (λ n seg, (j + n, seg)) segments) !! k = Some (i, var) →
  args !! k = Some arg → ∃ n, i = j + n ∧ fill_segments segments args !! n = Some arg.
Proof.
  revert args j k. induction segments as [|seg segments IH]; intros args j k Hk Harg; [done|].
  rewrite imap_cons in Hk.
  assert (∀ k, omap (λ '(i, seg), match seg with String ":" var => Some (i, var) | _ => None end)
      (imap ((λ n seg, (j + n, seg)) ∘ S) segments) !! k =
    omap (λ '(i, seg), match seg with String ":" var => Some (i, var) | _ => None end)
      (imap (λ n seg, (S j + n, seg)) segments) !! k) as Hshift.
  { intros k'. f_equal. f_equal. apply imap_ext. intros n x _. simpl. f_equal. lia. }
  csimpl in Hk. destruct (starts_with_char ":" seg) eqn:Hseg.
  - apply starts_with_char_app in Hseg as (v & ->). simpl in *. destruct k as [|k].
    + simplify_eq/=. destruct args as [|a args]; [done|]. simplify_eq/=. exists 0.
      split; [lia|done].
    + destruct args as [|a args]; [done|]. simpl in *. rewrite Hshift in Hk.
      destruct (IH args (S j) k Hk Harg) as (n & -> & Hn). exists (S n). split; [lia|done].
  - assert (∀ (x : option (nat * string)), match seg with String ":" var => x | _ => None end = None) as Hno.
    { intros x. destruct seg as [|b seg]; [done|]. simpl in Hseg.
      destruct b as [[] [] [] [] [] [] [] []]; try done. }
    assert (match seg with String ":" var => Some (j + 0, var) | _ => None end = None) as Hno'.
    { destruct seg as [|b seg]; [done|]. simpl in Hseg.
      destruct b as [[] [] [] [] [] [] [] []]; try done. }
    rewrite Hno' in Hk. rewrite Hshift in Hk.
    destruct (IH args (S j) k Hk Harg) as (n & -> & Hn). exists (S n). split; [lia|].
    simpl. by rewrite Hseg.
Qed.

(** ** Reading back *)

Class LawfulPath (p : path_field) : Prop :=
  path_read_show a :
    p_wf p a → p_read p (p_show p a) = Ok a ∧ valid_utf8 (p_show p a) = true.

#[export] Instance lawful_p_string name : LawfulPath (p_string name).
Proof. done. Qed.
#[export] Instance lawful_p_id name parse : LawfulPath (p_id name parse).
Proof. intros s [Hs Hu]. simpl. by rewrite Hs. Qed.
#[export] Instance lawful_p_enum name A `{StringEnum A} : LawfulPath (p_enum name A).
Proof. intros a [Ha Hu]. simpl. by rewrite Ha. Qed.

Class LawfulPaths (fields : list RequestField) : Prop :=
  lawful_paths : Forall LawfulPath (path_fields fields).

Definition path_wf {l : list (nat * path_field)} : hlist (λ ip, p_type ip.2) l → Prop :=
  hforall (λ ip, p_wf ip.2) l.

Lemma find_path_field_elem fields var p : find_path_field fields var = Some p → p ∈ path_fields fields.
Proof.
  unfold find_path_field. intros ([i q] & Hq & ->)%fmap_Some.
  apply list_find_Some in Hq as (Hi & _). by eapply list_elem_of_lookup_2.
Qed.

Lemma path_vars_elem path fields ip : ip ∈ path_vars path fields → ip.2 ∈ path_fields fields.
Proof.
  unfold path_vars. intros ([i var] & _ & (p & Hp & ->)%fmap_Some)%list_elem_of_omap.
  by eapply find_path_field_elem.
Qed.

(** All placeholders are path fields: the two lists go side by side. *)
Lemma path_vars_placeholders path fields :
  (∀ var, var ∈ (placeholders path).*2 → is_Some (find_path_field fields var)) →
  (path_vars path fields).*1 = (placeholders path).*1.
Proof.
  unfold path_vars. induction (placeholders path) as [|[i var] l IH]; intros Hall; [done|]. csimpl.
  destruct (Hall var) as [p Hp]; [csimpl; by left|]. rewrite Hp. csimpl. f_equal.
  apply IH. intros var' Hin. apply Hall. csimpl. by right.
Qed.

Lemma path_expands_found path fields var :
  path_expands path fields = true → has_path_fields fields = true →
  var ∈ (placeholders path).*2 → is_Some (find_path_field fields var).
Proof.
  unfold path_expands. intros He Hp. rewrite Hp in He. simpl in He.
  apply andb_true_iff in He as [_ Hperm%bool_decide_eq_true]. rewrite Hperm.
  intros (p & -> & Hin)%list_elem_of_fmap. unfold find_path_field. apply fmap_is_Some.
  eapply list_find_elem_of; [exact Hin|done].
Qed.

Lemma no_path_fields path fields : has_path_fields fields = false → path_vars path fields = [].
Proof.
  intros Hno. assert (path_fields fields = []) as Hnil.
  { unfold has_path_fields, path_fields in *. induction fields as [|f fields IH]; [done|].
    simpl in Hno. apply orb_false_iff in Hno as [Hf Hno]. csimpl. by destruct f; try done; apply IH. }
  unfold path_vars, find_path_field. rewrite Hnil. simpl. by induction (placeholders path) as [|[]].
Qed.

Section paths.
Context `{PercentEncoding}.

Lemma path_args_length {l : list (nat * path_field)} (v : hlist (λ ip, p_type ip.2) l) :
  length (path_args v) = length l.
Proof. induction l as [|[i p] l IH]; [done|]. destruct v as [a v]. simpl. by rewrite IH. Qed.

Lemma path_args_bytes {l : list (nat * path_field)} (v : hlist (λ ip, p_type ip.2) l) :
  Forall (λ arg, bytes_all percent_byte arg = true) (path_args v).
Proof.
  induction l as [|[i p] l IH]; [constructor|]. destruct v as [a v]. simpl.
  constructor; [apply percent_encode_bytes|apply IH].
Qed.

Lemma read_path_args segments (l : list (nat * path_field)) v :
  Forall (λ ip, LawfulPath ip.2) l → path_wf v →
  (∀ k i p arg, l !! k = Some (i, p) → path_args v !! k = Some arg → segments !! i = Some arg) →
  read_path segments l = Ok v.
Proof.
  intros Hl. induction Hl as [|[i p] l Hp _ IH]; intros Hv Hseg; [by destruct v|].
  destruct v as [a v], Hv as [Ha Hv]. simpl.
  rewrite (Hseg 0 i p (utf8_percent_encode (p_show p a))) by done. simpl.
  rewrite percent_decode_encode. destruct (Hp a Ha) as [Hr Hu]. simpl in *. rewrite Hu, Hr. simpl.
  rewrite (IH v Hv); [done|]. intros k j q arg Hk Harg. by apply (Hseg (S k) j q).
Qed.

Lemma percent_byte_no_slash s :
  bytes_all percent_byte s = true → bytes_all (λ b, negb (byte_is "/" b)) s = true.
Proof.
  apply bytes_all_impl. intros b Hb. apply negb_true_iff, not_true_iff_false.
  intros ->%byte_is_true. done.
Qed.

Lemma parse_filled_path path fields v :
  path_expands path fields = true → has_path_fields fields = true → LawfulPaths fields →
  path_wf v →
  parse_request_path fields (fill_path path false (path_args v)) path = Ok v.
Proof.
  intros He Hhas Hp Hv. pose proof He as Hfound. unfold path_expands in He. rewrite Hhas in He.
  simpl in He. apply andb_true_iff in He as [[[Hstart _]%andb_true_iff Hcolons]%andb_true_iff _].
  unfold parse_request_path.
  assert (∃ s, fill_path path false (path_args v) = String "/" s) as [s Hs].
  { apply starts_with_char_app in Hstart as (rest & ->). simpl. eauto. }
  rewrite Hs, <- Hs. rewrite path_segments_fill; [|done..|].
  2:{ eapply list.Forall_impl; [apply path_args_bytes|]. apply percent_byte_no_slash. }
  apply read_path_args; [|done|].
  - apply list.Forall_forall. intros ip Hin%path_vars_elem. red in Hp.
    rewrite list.Forall_forall in Hp. by apply Hp.
  - intros k i p arg Hk Harg.
    assert ((placeholders path).*1 !! k = Some i) as Hi.
    { rewrite <- (path_vars_placeholders path fields) by eauto using path_expands_found.
      by rewrite list_lookup_fmap, Hk. }
    apply list_lookup_fmap_Some in Hi as ([j var] & -> & Hj). simpl.
    destruct (fill_segments_lookup (path_segments path) (path_args v) 0 k j var arg) as (n & -> & Hn);
      [exact Hj|exact Harg|exact Hn].
Qed.

(** What is sent consists of the bytes of the path and of encoded ones. *)
Lemma fill_path_bytes (ok : ascii → bool) path in_var args :
  (∀ b, percent_byte b = true → ok b = true) →
  bytes_all ok path = true → Forall (λ arg, bytes_all percent_byte arg = true) args →
  bytes_all ok (fill_path path in_var args) = true.
Proof.
  intros Hok. revert in_var args. induction path as [|b path IH]; intros in_var args Hb Hargs; [done|].
  simpl in Hb. apply andb_true_iff in Hb as [Hb Hpath]. simpl. destruct in_var.
  - destruct (byte_is "/" b); simpl; [by rewrite Hb, IH|by apply IH].
  - destruct (byte_is ":" b); simpl; [|by rewrite Hb, IH].
    destruct Hargs as [|arg args Harg Hargs]; [by apply IH|]. rewrite bytes_all_app, IH by done.
    rewrite andb_true_r. by eapply bytes_all_impl; [|exact Harg].
Qed.

Lemma percent_byte_path b : percent_byte b = true → path_byte b = true.
Proof. intros Hb. unfold path_byte. by rewrite Hb. Qed.

Lemma percent_byte_valid b :
  percent_byte b = true → (33 <=? byte b)%N && (byte b <=? 126)%N = true.
Proof. destruct b as [[] [] [] [] [] [] [] []]; vm_compute; done. Qed.

(** The values of the path fields as they are shown, with the segment each belongs to *)
Fixpoint path_shown {l : list (nat * path_field)} :
    hlist (λ ip, p_type ip.2) l → list (nat * string * string) :=
  match l return hlist (λ ip, p_type ip.2) l → list (nat * string * string) with
  | [] => λ _, []
  | (i, p) :: l => λ '(a, v), (i, p_name p, p_show p a) :: path_shown v
  end.

Lemma path_args_shown {l : list (nat * path_field)} (v : hlist (λ ip, p_type ip.2) l) :
  path_args v = (λ x, utf8_percent_encode x.2) <$> path_shown v.
Proof. induction l as [|[i p] l IH]; [done|]. destruct v as [a v]. csimpl. by rewrite IH. Qed.

Lemma path_shown_vars {l : list (nat * path_field)} (v : hlist (λ ip, p_type ip.2) l) :
  (path_shown v).*1 = (λ ip, (ip.1, p_name ip.2)) <$> l.
Proof. induction l as [|[i p] l IH]; [done|]. destruct v as [a v]. csimpl. by rewrite IH. Qed.

Lemma path_vars_names path fields :
  (∀ var, var ∈ (placeholders path).*2 → is_Some (find_path_field fields var)) →
  (λ ip, (ip.1, p_name ip.2)) <$> path_vars path fields = placeholders path.
Proof.
  unfold path_vars. induction (placeholders path) as [|[i var] l IH]; intros Hall; [done|]. csimpl.
  destruct (Hall var) as [p Hp]; [csimpl; by left|]. rewrite Hp. csimpl.
  unfold find_path_field in Hp. apply fmap_Some in Hp as ([j q] & Hq & ->).
  apply list_find_Some in Hq as (_ & <- & _). f_equal.
  apply IH. intros var' Hin. apply Hall. csimpl. by right.
Qed.

Lemma fill_segments_length segments args :
  length (fill_segments segments args) = length segments.
Proof.
  revert args. induction segments as [|seg segments IH]; intros args; [done|]. simpl.
  destruct (starts_with_char ":" seg); [destruct args|]; simpl; by rewrite IH.
Qed.

Lemma fill_segments_static segments args i seg :
  segments !! i = Some seg → starts_with_char ":" seg = false →
  fill_segments segments args !! i = Some seg.
Proof.
  revert args i. induction segments as [|s segments IH]; intros args i Hi Hseg; [done|].
  destruct i as [|i]; simplify_eq/=; [by rewrite Hseg|].
  destruct (starts_with_char ":" s); [destruct args|]; by apply IH.
Qed.

(** What is sent, segment by segment, for a path that the macro accepts *)
Lemma filled_path_segments path fields (v : hlist (λ ip, p_type ip.2) (path_vars path fields)) :
  path_expands path fields = true → has_path_fields fields = true →
  let sent := path_segments (fill_path path false (path_args v)) in
  length sent = length (path_segments path) ∧
  (∀ i seg, path_segments path !! i = Some seg → starts_with_char ":" seg = false →
     sent !! i = Some seg) ∧
  (path_shown v).*1 = placeholders path ∧
  (∀ i var s, (i, var, s) ∈ path_shown v → sent !! i = Some (utf8_percent_encode s)) ∧
  (placeholders path).*2 ≡ₚ p_name <$> path_fields fields.
Proof.
  intros He Hhas sent. pose proof He as Hfound. unfold path_expands in He. rewrite Hhas in He.
  simpl in He. apply andb_true_iff in He as [[[Hstart _]%andb_true_iff Hcolons]%andb_true_iff Hnames].
  assert (sent = fill_segments (path_segments path) (path_args v)) as ->.
  { apply path_segments_fill; [done..|].
    eapply list.Forall_impl; [apply path_args_bytes|]. apply percent_byte_no_slash. }
  assert ((path_shown v).*1 = placeholders path) as Hshown.
  { rewrite path_shown_vars. apply path_vars_names. eauto using path_expands_found. }
  split; [apply fill_segments_length|]. split; [apply fill_segments_static|]. split; [done|].
  split; [|by apply bool_decide_eq_true in Hnames].
  intros i var s [k Hk]%list_elem_of_lookup.
  assert (placeholders path !! k = Some (i, var)) as Hp.
  { rewrite <- Hshown, list_lookup_fmap, Hk. done. }
  assert (path_args v !! k = Some (utf8_percent_encode s)) as Ha.
  { rewrite path_args_shown, list_lookup_fmap, Hk. done. }
  destruct (fill_segments_lookup (path_segments path) (path_args v) 0 k i var _ Hp Ha)
    as (n & -> & Hn). exact Hn.
Qed.

Lemma fill_path_start path args :
  starts_with_char "/" path = true → starts_with_char "/" (fill_path path false args) = true.
Proof. intros (rest & ->)%starts_with_char_app. done. Qed.
End paths.
