(* ===== verification/ApiQuery.v ===== *)
(** * Query strings of endpoints

    The query struct of a request and a [query_map] field are written by the form serializer
    and read back. *)

From S2P Require Import Prelude RustStr RustNet IdValidation StringEnum Identifiers Json.
From S2P Require Import CanonicalJson Serde Codecs UrlEncoded UrlEncodedSpec ClientErrors Uiaa Http Api.
From Stdlib Require Import Ascii NArith.
Open Scope string_scope.
Open Scope nat_scope.
Open Scope list_scope.

(** ** Laws *)

(** A scalar type *)
Class LawfulScalar (c : qcodec) : Prop := {
  q_de_ser a : q_wf c a → q_de c (q_ser c a) = Ok a;
  q_scalar : scalar (q_shape c) = true;
  q_has a : q_wf c a → has_scalar (q_shape c) (q_ser c a)
}.

#[export] Instance lawful_qc_string : LawfulScalar qc_string.
Proof. by split. Qed.
#[export] Instance lawful_qc_bool : LawfulScalar qc_bool.
Proof. by split. Qed.
#[export] Instance lawful_qc_uint : LawfulScalar qc_uint.
Proof.
  split; simpl; [by intros a ->|done|]. intros a Ha.
  unfold uint_in_range, MAX_SAFE_INT in Ha. lia.
Qed.
#[export] Instance lawful_qc_parsed {E} (p : string → outcome E string) : LawfulScalar (qc_parsed p).
Proof. split; simpl; [by intros a [-> _]|done|by intros a [_ ?]]. Qed.
#[export] Instance lawful_qc_enum A `{StringEnum A} : LawfulScalar (qc_enum A).
Proof. split; simpl; [by intros a [-> _]|done|by intros a [_ ?]]. Qed.

(** The names of variants are text. *)
Class TextNames {A} (variants : list (string * A)) : Prop :=
  text_names : forallb valid_utf8 variants.*1 = true.
#[export] Hint Extern 1 (TextNames _) => reflexivity : typeclass_instances.

#[export] Instance lawful_qc_units {A} `{EqDecision A} (variants : list (string * A)) :
  DistinctNames variants → TextNames variants → LawfulScalar (qc_units variants).
Proof.
  intros Hnd Hu. split; [|done|].
  - intros a Ha. by apply unit_variant_name.
  - intros a Ha. cbn [q_shape q_ser qc_units has_scalar].
    assert (unit_name variants a ∈ variants.*1) as Hin.
    { pose proof (unit_variant_name variants a Hnd Ha) as Hv. unfold unit_variant in Hv.
      apply ok_or_Ok, assoc_Some_elem in Hv. by apply (list_elem_of_fmap_2 fst _ _ Hv). }
    split; [done|]. red in Hu. rewrite forallb_forall in Hu. apply Hu. by apply list_elem_of_In.
Qed.

(** A field: what it writes is a value of its shape, or it is skipped; both are read back. *)
Class LawfulQuery (q : query_field) : Prop := {
  query_written a s : qf_wf q a → qf_write q a = Some s →
    has_field (query_shape q) s ∧ qf_read q s = Ok a;
  query_skipped a : qf_wf q a → qf_write q a = None →
    ∃ s, qf_read q s = Ok a ∧ (qf_default q = Some s ∨
      qf_default q = None ∧ s = SNone ∧ ∃ t, qf_shape q = TOption t)
}.

Lemma has_field_scalar q s :
  scalar (qf_shape q) = true → has_scalar (qf_shape q) s → has_field (query_shape q) s.
Proof. unfold has_field. simpl. by destruct (qf_shape q). Qed.

#[export] Instance lawful_q_req name c : LawfulScalar c → LawfulQuery (q_req name c).
Proof.
  intros Hc. split; [|done]. intros a s Ha [= <-]. split; [|by apply q_de_ser].
  apply has_field_scalar; [apply q_scalar|by apply q_has].
Qed.

#[export] Instance lawful_q_opt name c : LawfulScalar c → LawfulQuery (q_opt name c).
Proof.
  intros Hc. split; simpl.
  - intros [a|] s Ha [= <-]. specialize (Ha a eq_refl). split.
    + split; [apply q_scalar|]. right. eexists. split; [done|]. by apply q_has.
    + simpl. by rewrite q_de_ser.
  - intros [a|] Ha [=]. exists SNone. eauto 10.
Qed.

#[export] Instance lawful_q_dflt name c d skip :
  LawfulScalar c → SkipsDefault d skip → LawfulQuery (q_dflt name c d skip).
Proof.
  intros Hc Hs. split; simpl.
  - intros a s (Ha & Hd) Hw. destruct (skip a); [done|]. injection Hw as <-.
    split; [|by apply q_de_ser]. apply has_field_scalar; [apply q_scalar|by apply q_has].
  - intros a (Ha & Hd) Hw. destruct (skip a) eqn:Hk; [|done]. rewrite (Hs a Hk).
    eexists. split; [by apply q_de_ser|by left].
Qed.

(** A list with a default, skipped when it is empty *)
#[export] Instance lawful_q_list name c :
  LawfulScalar c → LawfulQuery (q_dflt name (qc_list c) [] list_is_empty).
Proof.
  intros Hc. assert (∀ l, Forall (q_wf c) l → de_sval_list (q_de c) (q_ser c <$> l) = Ok l) as Hl.
  { induction 1 as [|a l Ha _ IH]; [done|]. csimpl. rewrite q_de_ser by done. simpl. by rewrite IH. }
  split; simpl.
  - intros l s (Ha & _) Hw. destruct (list_is_empty l) eqn:He; [done|]. injection Hw as <-.
    split; [|by apply Hl]. split; [apply q_scalar|]. eexists. split; [done|]. split.
    + apply list.Forall_fmap. eapply list.Forall_impl; [exact Ha|]. apply q_has.
    + by destruct l.
  - intros l (_ & _) Hw. destruct l; [|done].
    exists (SSeq []). split; [done|by left].
Qed.

(** A list that is written whatever it is: there are no pairs for an empty one, so that it is
    read as missing, or as the default. *)
Definition q_vec (name : string) (c : qcodec) : query_field := {|
  qf_name := name; qf_type := list (q_type c); qf_shape := TSeq (q_shape c); qf_default := None;
  qf_write l := Some (q_ser (qc_list c) l);
  qf_read := q_de (qc_list c);
  qf_wf l := l ≠ [] ∧ Forall (q_wf c) l
|}.
Definition q_vec_dflt (name : string) (c : qcodec) (d : list (q_type c))
    (skip : list (q_type c) → bool) : query_field := {|
  qf_name := name; qf_type := list (q_type c); qf_shape := TSeq (q_shape c);
  qf_default := Some (q_ser (qc_list c) d);
  qf_write l := if skip l then None else Some (q_ser (qc_list c) l);
  qf_read := q_de (qc_list c);
  qf_wf l := l ≠ [] ∧ Forall (q_wf c) l ∧ Forall (q_wf c) d
|}.

Lemma q_list_read c l : LawfulScalar c → Forall (q_wf c) l → q_de (qc_list c) (q_ser (qc_list c) l) = Ok l.
Proof.
  intros Hc. simpl. induction 1 as [|a l Ha _ IH]; [done|]. csimpl. rewrite q_de_ser by done. simpl.
  by rewrite IH.
Qed.

Lemma q_list_has q c l :
  LawfulScalar c → qf_shape q = TSeq (q_shape c) → l ≠ [] → Forall (q_wf c) l →
  has_field (query_shape q) (q_ser (qc_list c) l).
Proof.
  intros Hc Hq Hne Hl. unfold has_field. simpl. rewrite Hq. split; [apply q_scalar|].
  eexists. split; [done|]. split; [|by destruct l].
  apply list.Forall_fmap. eapply list.Forall_impl; [exact Hl|]. apply q_has.
Qed.

#[export] Instance lawful_q_vec name c : LawfulScalar c → LawfulQuery (q_vec name c).
Proof.
  intros Hc. split; [|done]. intros l s [Hne Hl] [= <-]. split; [by apply (q_list_has (q_vec name c) c)|].
  by apply q_list_read.
Qed.
#[export] Instance lawful_q_vec_dflt name c d skip :
  LawfulScalar c → SkipsDefault d skip → LawfulQuery (q_vec_dflt name c d skip).
Proof.
  intros Hc Hs. split; cbn [qf_wf qf_write q_vec_dflt]; intros l.
  - intros s (Hne & Hl & Hd) Hw. destruct (skip l); [done|]. injection Hw as <-.
    split; [by apply (q_list_has (q_vec_dflt name c d skip) c)|by apply q_list_read].
  - intros (Hne & Hl & Hd) Hw. destruct (skip l) eqn:Hk; [|done]. rewrite (Hs l Hk).
    eexists. split; [by apply q_list_read|by left].
Qed.

Class LawfulQueries (qs : list query_field) : Prop := lawful_queries : Forall LawfulQuery qs.

#[export] Instance lawful_queries_nil : LawfulQueries [].
Proof. constructor. Qed.
#[export] Instance lawful_queries_cons q qs :
  LawfulQuery q → LawfulQueries qs → LawfulQueries (q :: qs).
Proof. by constructor. Qed.

Definition query_names_ok (qs : list query_field) : Prop :=
  NoDup (qf_name <$> qs) ∧ Forall (λ n, valid_utf8 n = true) (qf_name <$> qs).

(** ** The query struct *)

(** What one field writes and that it is read from just that. *)
Lemma query_field_written q a :
  LawfulQuery q → qf_wf q a → ∃ texts s,
    Forall (λ s, valid_utf8 s = true) texts ∧
    (∀ out, each serialize_field (match qf_write q a with Some s => [(qf_name q, s)] | None => [] end) out
       = (Ok (), out ++ (pair (qf_name q) <$> texts))) ∧
    (∀ entries, entries !! qf_name q = of_texts texts →
       deserialize_field entries (query_shape q) = Ok (qf_name q, s)) ∧
    qf_read q s = Ok a.
Proof.
  intros Hq Ha. destruct (qf_write q a) as [s|] eqn:Hw.
  - destruct (query_written a s Ha Hw) as [Hf Hr].
    destruct (field_written _ _ Hf) as (texts & Hu & Hs & Hd). exists texts, s.
    split_and!; [done| |exact Hd|done]. intros out. cbn [each].
    by rewrite (Hs out : serialize_field (qf_name q, s) out = _).
  - destruct (query_skipped a Ha Hw) as (s & Hr & Hs). exists [], s.
    split_and!; [constructor|intros; simpl; by rewrite app_nil_r| |done].
    intros entries He. unfold deserialize_field. cbn [f_name query_shape]. rewrite He. simpl.
    destruct Hs as [->|(-> & -> & t & ->)]; done.
Qed.

Lemma each_app_Ok {A} (f : A → pairs → UrlEncoded.written) l1 l2 out out' :
  each f l1 out = (Ok (), out') → each f (l1 ++ l2) out = each f l2 out'.
Proof.
  revert out. induction l1 as [|x l1 IH]; intros out; [by intros [= ->]|]. simpl.
  destruct (f x out) as [[[]|e|] out1]; [apply IH|done|done].
Qed.

Lemma query_entries_written qs (v : hlist qf_type qs) :
  LawfulQueries qs → hforall qf_wf qs v → ∃ texts ss,
    length texts = length qs ∧ Forall (λ l, Forall (λ s, valid_utf8 s = true) l) texts ∧
    (∀ out, each serialize_field (query_entries v) out =
       (Ok (), out ++ entries_of (qf_name <$> qs) texts)) ∧
    (∀ entries,
      (∀ i n l, (qf_name <$> qs) !! i = Some n → texts !! i = Some l →
         entries !! n = of_texts l) →
      deserialize_fields entries (query_shape <$> qs) = Ok ss) ∧
    read_query qs ss = Ok v.
Proof.
  intros Hqs. induction Hqs as [|q qs Hq _ IH]; intros Hv.
  { exists [], []. destruct v. split_and!; try done. intros. simpl. by rewrite app_nil_r. }
  destruct v as [a v], Hv as [Ha Hv].
  destruct (query_field_written q a Hq Ha) as (texts & s & Hu & Hw & Hd & Hr).
  destruct (IH v Hv) as (textss & ss & Hlen & Hus & Hws & Hds & Hrs).
  exists (texts :: textss), ((qf_name q, s) :: ss). split_and!.
  - simpl. by rewrite Hlen.
  - by constructor.
  - intros out. cbn [query_entries]. rewrite (each_app_Ok _ _ _ _ _ (Hw out)), Hws. unfold entries_of. simpl.
    by rewrite <- (assoc_L (++)).
  - intros entries He. csimpl. rewrite Hd by by apply (He 0). simpl. rewrite Hds; [done|].
    intros i n l Hi Hl. by apply (He (S i)).
  - simpl. rewrite Hr. simpl. by rewrite Hrs.
Qed.

Section query.
Context `{FormUrlencoded}.

Lemma query_struct_round_trip qs (v : hlist qf_type qs) :
  LawfulQueries qs → query_names_ok qs → hforall qf_wf qs v →
  ∃ pairs, to_string (SStruct (query_entries v)) = Ok (finish pairs) ∧
    parse_query (QueryStructKind qs) (finish pairs) = Ok v.
Proof.
  intros Hqs [Hnd Hnames] Hv.
  destruct (query_entries_written qs v Hqs Hv) as (texts & ss & Hlen & Hu & Hw & Hd & Hr).
  eexists. unfold to_string. cbn [serialize]. rewrite Hw. split; [done|].
  simpl. unfold from_str. cbn [deserialize]. rewrite Hd; [done|].
  apply parsed_entries; [done..|by rewrite length_fmap|done].
Qed.

(** ** Query maps *)

Lemma values_of_unique (l : pairs) k :
  NoDup l.*1 → values_of k l = match assoc k l with Some v => [v] | None => [] end.
Proof.
  induction l as [|[k' v] l IH]; [done|]. csimpl. intros [Hk Hnd]%list.NoDup_cons.
  change (values_of k ((k', v) :: l)) with (values_of k ([(k', v)] ++ l)).
  rewrite values_of_app, assoc_cons, IH by done. case_decide as Heq.
  - subst k'. rewrite assoc_None by done. by rewrite app_nil_r, (values_of_same k [v] : values_of k [(k, v)] = [v]).
  - by rewrite (values_of_other k k' [v] (not_eq_sym Heq) : values_of k [(k', v)] = []).
Qed.

Lemma group_entries_map (m : gmap string string) : group_entries (btree_iter m) = Val <$> m.
Proof.
  apply map_eq. intros k. rewrite group_entries_lookup, lookup_fmap.
  rewrite values_of_unique, assoc_btree_iter by apply NoDup_btree_iter_fst.
  by destruct (m !! k).
Qed.

Lemma map_entries_strings (l : pairs) out :
  map_entries {| map_out := out; map_key := None |} (prod_map SStr SStr <$> l) = (Ok (), out ++ l).
Proof.
  revert out. induction l as [|[k v] l IH]; intros out; [simpl; by rewrite app_nil_r|].
  csimpl. rewrite IH. unfold append_pair. by rewrite <- (assoc_L (++)).
Qed.

Lemma deserialize_entries_strings (l : list (string * ValOrVec)) (m : pairs) :
  Forall2 (λ kv kw, kv.1 = kw.1 ∧ kv.2 = Val kw.2) l m →
  deserialize_entries TString l = Ok (prod_map id SStr <$> m).
Proof.
  induction 1 as [|[k vv] [k' v] l m [Hk Hv] _ IH]; [done|]. simpl in *. subst.
  by rewrite IH.
Qed.

Lemma sval_string_map_pairs (l : pairs) :
  sval_string_map (prod_map SStr SStr <$> l) = Ok (list_to_map l).
Proof. induction l as [|[k v] l IH]; [done|]. csimpl. rewrite IH. done. Qed.

(** The entries of a map of values, each of one string *)
Lemma btree_iter_values (m : gmap string string) :
  ∃ l : pairs, btree_iter (Val <$> m) = prod_map id Val <$> l ∧ list_to_map l = m.
Proof.
  set (unval := λ vv, match vv with Val v => v | Vec _ => "" end).
  exists (prod_map id unval <$> btree_iter (Val <$> m)).
  assert (prod_map id unval <$> btree_iter (Val <$> m) ≡ₚ map_to_list m) as Hperm.
  { rewrite btree_iter_perm, map_to_list_fmap, <- list_fmap_compose.
    rewrite (list_fmap_ext _ id) by (by intros ? []). by rewrite list_fmap_id. }
  split.
  - rewrite <- list_fmap_compose. rewrite <- (list_fmap_id (btree_iter _)) at 1.
    apply list_fmap_ext. intros i [k vv] Hi. simpl. f_equal.
    apply list_elem_of_lookup_2, elem_of_btree_iter in Hi. rewrite lookup_fmap in Hi.
    by apply fmap_Some in Hi as (v & _ & ->).
  - transitivity (list_to_map (M:=gmap string string) (map_to_list m)); [|apply list_to_map_to_list].
    apply list_to_map_proper; [|done].
    rewrite Hperm. apply NoDup_fst_map_to_list.
Qed.

Lemma query_map_round_trip (m : gmap string string) :
  map_Forall (λ k v, valid_utf8 k = true ∧ valid_utf8 v = true) m →
  to_string (SNewtypeStruct (SMap (prod_map SStr SStr <$> btree_iter m))) =
    Ok (finish (btree_iter m)) ∧
  parse_query QueryMapKind (finish (btree_iter m)) = Ok m.
Proof.
  intros Hm. unfold to_string. cbn [serialize]. rewrite map_entries_strings. split; [done|].
  unfold parse_query, from_str. rewrite parse_finish.
  2:{ apply list.Forall_forall. intros [k v] Hin%elem_of_btree_iter. exact (Hm k v Hin). }
  rewrite group_entries_map. cbn [deserialize].
  assert (∃ l : pairs, btree_iter (Val <$> m) = prod_map id Val <$> l ∧ list_to_map l = m)
    as (l & -> & Hl).
  { apply btree_iter_values. }
  rewrite (deserialize_entries_strings _ l).
  - simpl. rewrite <- list_fmap_compose.
    rewrite (list_fmap_ext _ (prod_map SStr SStr) l) by (by intros ? []).
    by rewrite sval_string_map_pairs, Hl.
  - rewrite Forall2_fmap_l. apply Forall_Forall2_diag, Forall_true. done.
Qed.
End query.
