(* ===== verification/ApiSpec.v ===== *)
(** * The API framework: theorems

    A request or a response of a lawful endpoint is read back by the other side as it was sent.
    Lawfulness is decided by type class resolution for a declaration; the endpoints of the API
    crates are all lawful. The other theorems say what the macro's checks give for the path and
    the body of a request, which requests carry the access token, when the receiving side
    panics, and what becomes of error responses. *)

From S2P Require Import Prelude RustStr RustNet IdValidation StringEnum Identifiers Json.
From S2P Require Import CanonicalJson Serde Codecs UrlEncoded UrlEncodedSpec ClientErrors Uiaa Http.
From S2P Require Import Api ApiPaths ApiQuery.
From Stdlib Require Import Ascii NArith.
Open Scope string_scope.
Open Scope nat_scope.
Open Scope list_scope.

(** ** Lawful endpoints *)

Definition header_names_ok (hs : list header_field) : Prop :=
  NoDup (h_name <$> hs) ∧ "AUTHORIZATION" ∉ h_name <$> hs.

Class LawfulResponse (fields : list ResponseField) : Prop := {
  le_resp_headers : header_names_ok (resp_header_fields fields);
  le_resp_body : Lawful (resp_body_codec fields)
}.

Class LawfulEndpoint (e : endpoint) : Prop := {
  le_expands : expands e = true;
  le_path : starts_with_char "/" (path (ep_metadata e)) = true;
  le_path_bytes : bytes_all path_byte (path (ep_metadata e)) = true;
  le_paths : LawfulPaths (ep_request e);
  le_queries : LawfulQueries (query_fields (ep_request e));
  le_query_names : query_names_ok (query_fields (ep_request e));
  le_headers : header_names_ok (header_fields (ep_request e));
  le_body : Lawful (body_codec (ep_request e));
  #[global] le_response :: LawfulResponse (ep_response e)
}.

(** ** Well-formed values *)

Definition query_wf (k : query_kind) : query_type k → Prop :=
  match k return query_type k → Prop with
  | QueryMapKind => map_Forall (λ k v, valid_utf8 k = true ∧ valid_utf8 v = true)
  | QueryStructKind qs => hforall qf_wf qs
  | NoQueryKind => λ _, True
  end.

(** Text, and no content type that is left out: that header is always there. *)
Definition headers_wf {hs : list header_field} : hlist h_type hs → Prop :=
  hforall (λ h a, match h_value h a with
                  | Some s => bytes_all visible_byte s = true
                  | None => h_name h ≠ "CONTENT_TYPE"
                  end) hs.

Definition body_wf (k : body_kind) : body_type k → Prop :=
  match k return body_type k → Prop with
  | JsonKind c => cwf c
  | _ => λ _, True
  end.

Definition request_wf {e} (r : Request e) : Prop :=
  path_wf (v_path r) ∧ query_wf _ (v_query r) ∧ headers_wf (v_headers r) ∧
  body_wf _ (v_body r).

Definition response_wf {e} (r : Response e) : Prop :=
  headers_wf (r_headers r) ∧ body_wf _ (r_body r).

(** A token that the endpoint can use *)
Definition token_ok (scheme : AuthScheme) (access_token : SendAccessToken) : Prop :=
  let visible tok := bytes_all visible_byte ("Bearer " +:+ tok) = true in
  match scheme with
  | AccessToken => ∃ tok, get_required_for_endpoint access_token = Some tok ∧ visible tok
  | AuthNone => ∀ tok, get_not_required_for_endpoint access_token = Some tok → visible tok
  | _ => True
  end.

(** ** Headers *)

Lemma h_make_value h (a : h_type h) : h_make h (h_value h a) = Some a.
Proof. unfold h_make, h_value, h_type in *. by destruct (h_optional h). Qed.

Section conversions.
Context `{FormUrlencoded} `{!FormBytes} `{PercentEncoding} `{JsonText} `{HttpCrate}.

(** What a header is read as after the fields have been inserted *)
Lemma insert_headers_Ok {hs : list header_field} (v : hlist h_type hs) m :
  NoDup (h_name <$> hs) → headers_wf v →
  ∃ m', insert_headers v m = Ok m' ∧
    (∀ name, name ∉ h_name <$> hs → header_get name m' = header_get name m) ∧
    ((∀ h, h ∈ hs → h_name h ≠ "CONTENT_TYPE" → header_get (h_name h) m = None) →
     ∀ m'', (∀ h, h ∈ hs → header_get (h_name h) m'' = header_get (h_name h) m') →
       parse_headers hs m'' = Ok v).
Proof.
  revert m. induction hs as [|h hs IH]; intros m Hnd Hwf.
  { exists m. destruct v. done. }
  destruct v as [a v], Hwf as [Ha Hv]. csimpl in Hnd. apply list.NoDup_cons in Hnd as [Hh Hnd].
  pose (m1 := match h_value h a with Some s => header_insert (h_name h) s m | None => m end).
  destruct (IH v m1 Hnd Hv) as (m' & Hm' & Hother & Hread). exists m'.
  assert (∀ name, name ≠ h_name h → header_get name m1 = header_get name m) as Hm1.
  { intros name Hne. unfold m1. destruct (h_value h a); [by apply header_get_insert_ne|done]. }
  split_and!.
  - simpl. rewrite <- Hm'. unfold m1. destruct (h_value h a) as [s|] eqn:Hs; [|done].
    destruct (header_visible s Ha) as (Hfs & _ & _). unfold insert_header. by rewrite Hfs.
  - csimpl. intros name [Hne Hno]%not_elem_of_cons. rewrite Hother by done. by apply Hm1.
  - intros Hnone m'' Hm''. simpl. rewrite (Hm'' h) by by left. rewrite Hother by done.
    assert (read_header h (header_get (h_name h) m1) = Ok a) as ->.
    { unfold m1. destruct (h_value h a) as [s|] eqn:Hs.
      - rewrite header_get_insert. unfold read_header.
        destruct (header_visible s Ha) as (_ & _ & Hts). rewrite Hts. simpl.
        by rewrite <- Hs, h_make_value.
      - rewrite Hnone by (done || by left). unfold read_header. simpl.
        by rewrite <- Hs, h_make_value. }
    simpl. rewrite Hread; [done| |].
    + intros h' Hh' Hct. rewrite Hm1; [apply Hnone; [by right|done]|].
      intros Heq. apply Hh. rewrite <- Heq. by apply list_elem_of_fmap_2.
    + intros h' Hh'. apply Hm''. by right.
Qed.

(** The headers of a request or a response, before the authorization *)
Definition content_type (m : headers) : Prop :=
  m = [] ∨ m = [("CONTENT_TYPE", "application/json")].

Lemma content_type_none m name : content_type m → name ≠ "CONTENT_TYPE" → header_get name m = None.
Proof.
  intros [->| ->] Hne; [done|]. unfold header_get. rewrite assoc_cons, decide_False; [done|congruence].
Qed.

Lemma field_headers_read {hs : list header_field} (v : hlist h_type hs) m :
  header_names_ok hs → headers_wf v → content_type m →
  ∃ m', insert_headers v m = Ok m' ∧ header_get "AUTHORIZATION" m' = None ∧
    ∀ m'', (∀ name, name ≠ "AUTHORIZATION" → header_get name m'' = header_get name m') →
      parse_headers hs m'' = Ok v.
Proof.
  intros [Hnd Hauth] Hv Hm. destruct (insert_headers_Ok v m Hnd Hv) as (m' & Hm' & Hother & Hread).
  exists m'. split_and!; [done| |].
  - rewrite Hother by done. by apply content_type_none.
  - intros m'' Hm''. apply Hread.
    + intros h _ Hne. by apply content_type_none.
    + intros h Hh. apply Hm''. intros Heq. apply Hauth. rewrite <- Heq. by apply list_elem_of_fmap_2.
Qed.

(** ** The access token *)

(** The token that is sent *)
Definition sent_token (scheme : AuthScheme) (access_token : SendAccessToken) : option string :=
  match scheme with
  | AccessToken => get_required_for_endpoint access_token
  | AuthNone => get_not_required_for_endpoint access_token
  | QueryOnlyAccessToken | ServerSignatures => None
  end.

Lemma insert_authorization_Ok scheme access_token m :
  token_ok scheme access_token →
  insert_authorization scheme access_token m =
    Ok (match sent_token scheme access_token with
        | Some tok => header_insert "AUTHORIZATION" ("Bearer " +:+ tok) m
        | None => m
        end).
Proof.
  unfold insert_authorization, sent_token, bearer, token_ok, insert_header.
  destruct scheme; [| |done..].
  - intros Htok. destruct (get_not_required_for_endpoint access_token) as [tok|]; [|done].
    destruct (header_visible _ (Htok tok eq_refl)) as (_ & Hs & _). by rewrite Hs.
  - intros (tok & -> & Hvis). destruct (header_visible _ Hvis) as (_ & Hs & _).
    cbn [ok_or mbind outcome_bind]. by rewrite Hs.
Qed.

(** ** URIs *)

Lemma query_string_Ok k (v : query_type k) :
  query_wf k v →
  match k with QueryStructKind qs => LawfulQueries qs ∧ query_names_ok qs | _ => True end →
  ∃ query, request_query_string k v = Ok (match query with Some q => "?" +:+ q | None => "" end) ∧
    from_option (bytes_all query_byte) true query = true ∧
    parse_query k (default "" query) = Ok v.
Proof.
  destruct k as [|qs|]; simpl.
  - intros Hv _. destruct (query_map_round_trip v Hv) as [Hs Hp]. eexists (Some _).
    simpl in Hs. rewrite Hs. split; [done|]. split; [apply finish_bytes|exact Hp].
  - intros Hv [Hqs Hnames]. destruct (query_struct_round_trip qs v Hqs Hnames Hv) as (l & Hs & Hp).
    exists (Some (finish l)). rewrite Hs. split; [done|]. split; [apply finish_bytes|exact Hp].
  - intros _ _. exists None. by destruct v.
Qed.

(** A base URL is an origin, possibly with a trailing slash. *)
Definition base_url_of (origin base_url : string) : Prop :=
  is_origin origin ∧ (base_url = origin ∨ base_url = origin +:+ "/").

Lemma strip_slash_none s : (∀ t, s ≠ t +:+ "/") → strip_slash s = s.
Proof.
  induction s as [|b s IH]; [done|]. intros Hs. simpl. destruct s as [|c s].
  - destruct (byte_is "/" b) eqn:Hb; [|done]. apply byte_is_true in Hb as ->. by destruct (Hs "").
  - f_equal. apply IH. intros t Ht. apply (Hs (String b t)). by rewrite Ht.
Qed.

Lemma strip_slash_app s : strip_slash (s +:+ "/") = s.
Proof.
  induction s as [|b s IH]; [done|]. simpl. rewrite IH. by destruct s.
Qed.

Lemma strip_slash_base origin base_url : base_url_of origin base_url → strip_slash base_url = origin.
Proof.
  intros [Ho [->| ->]]; [|apply strip_slash_app]. by apply strip_slash_none, origin_no_slash.
Qed.

Lemma request_path_ok {e} (r : Request e) `{!LawfulEndpoint e} :
  starts_with_char "/" (request_path_string r) = true ∧
  bytes_all path_byte (request_path_string r) = true.
Proof.
  unfold request_path_string. destruct (has_path_fields (ep_request e)).
  - split; [apply fill_path_start, le_path|].
    apply fill_path_bytes; [apply percent_byte_path|apply le_path_bytes|apply path_args_bytes].
  - split; [apply le_path|apply le_path_bytes].
Qed.

Lemma request_path_read {e} (r : Request e) `{!LawfulEndpoint e} :
  path_wf (v_path r) →
  (if has_path_fields (ep_request e)
   then parse_request_path (ep_request e) (request_path_string r) (path (ep_metadata e))
   else read_path [] _) = Ok (v_path r).
Proof.
  intros Hv. unfold request_path_string.
  pose proof le_expands as He. unfold expands in He. apply andb_true_iff in He as [_ He].
  destruct (has_path_fields (ep_request e)) eqn:Hp.
  - apply parse_filled_path; [done..|apply le_paths|done].
  - pose proof (no_path_fields (path (ep_metadata e)) (ep_request e) Hp) as Hnil.
    apply read_path_args; [rewrite Hnil; constructor|done|]. 
    intros k i p arg Hk. by rewrite Hnil in Hk.
Qed.

Lemma request_uri origin base_url path query :
  base_url_of origin base_url →
  path_and_query_parse (path_and_query_to_string (path, query)) = Some (path, query) →
  uri_parse (strip_slash base_url +:+ path +:+ match query with Some q => "?" +:+ q | None => "" end) =
    Some {| uri_origin := origin; uri_path_and_query := Some (path, query) |}.
Proof.
  intros Hbase Hpq. rewrite <- uri_parse_origin by (done || apply Hbase).
  rewrite (strip_slash_base origin) by done. f_equal. f_equal.
  destruct query; [done|]. apply str_app_nil_r.
Qed.

(** ** Bodies *)


Lemma body_read k (a : body_type k) :
  match k with JsonKind c => Lawful c | _ => True end → body_wf k a →
  parse_body k (body_bytes k a) = Ok a.
Proof.
  destruct k as [|c|]; simpl; [done| |by destruct a]. intros Hc Ha.
  rewrite decide_False by apply json_to_vec_not_empty.
  rewrite json_from_to_vec. simpl. by rewrite (Hc a Ha).
Qed.

Lemma request_body_lawful e `{!LawfulEndpoint e} :
  match body_kind_of (ep_request e) with JsonKind c => Lawful c | _ => True end.
Proof.
  unfold body_kind_of. destruct (has_raw_body _); [done|]. destruct (has_body_fields _); [|done].
  apply le_body.
Qed.

Lemma request_queries_lawful e `{!LawfulEndpoint e} :
  match query_kind_of (ep_request e) with
  | QueryStructKind qs => LawfulQueries qs ∧ query_names_ok qs
  | _ => True
  end.
Proof.
  unfold query_kind_of. destruct (has_query_map _); [done|]. destruct (has_query_fields _); [|done].
  split; [apply le_queries|apply le_query_names].
Qed.

(** ** Requests *)

(** What is sent: the URI and the headers *)
Lemma request_sent {e} (r : Request e) `{!LawfulEndpoint e} origin base_url access_token :
  request_wf r → base_url_of origin base_url →
  token_ok (authentication (ep_metadata e)) access_token →
  ∃ query m,
    try_into_http_request r base_url access_token =
      Ok {| rq_method := method (ep_metadata e);
            rq_uri := {| uri_origin := origin;
                         uri_path_and_query := Some (request_path_string r, query) |};
            rq_headers := match sent_token (authentication (ep_metadata e)) access_token with
                          | Some tok => header_insert "AUTHORIZATION" ("Bearer " +:+ tok) m
                          | None => m
                          end;
            rq_body := body_bytes _ (v_body r) |} ∧
    from_option (bytes_all query_byte) true query = true ∧
    parse_query _ (default "" query) = Ok (v_query r) ∧
    header_get "AUTHORIZATION" m = None ∧
    ∀ m', (∀ name, name ≠ "AUTHORIZATION" → header_get name m' = header_get name m) →
      parse_headers _ m' = Ok (v_headers r).
Proof.
  intros (Hp & Hq & Hh & Hb) Hbase Htok.
  destruct (query_string_Ok _ (v_query r) Hq (request_queries_lawful e)) as (query & Hqs & Hbytes & Hread).
  pose (m0 := if has_raw_body (ep_request e) || has_body_fields (ep_request e)
              then header_insert "CONTENT_TYPE" "application/json" [] else []).
  assert (content_type m0) as Hm0.
  { unfold m0, content_type. destruct (_ || _); [right|left]; reflexivity. }
  destruct (field_headers_read (v_headers r) m0 le_headers Hh Hm0) as (m & Hm & Hauth & Hreadh).
  exists query, m. split; [|done].
  destruct (request_path_ok r) as [Hstart Hpath].
  pose proof (path_and_query_parse_to_string _ _ Hstart Hpath Hbytes) as Hpq.
  unfold try_into_http_request. rewrite Hqs. cbn [mbind outcome_bind].
  rewrite (request_uri origin base_url _ query Hbase Hpq). unfold request_headers. fold m0. rewrite Hm. cbn [mbind outcome_bind].
  by rewrite (insert_authorization_Ok _ _ m Htok).
Qed.

Lemma request_round_trips {e} (r : Request e) `{!LawfulEndpoint e} origin base_url access_token :
  request_wf r → base_url_of origin base_url →
  token_ok (authentication (ep_metadata e)) access_token →
  ∃ request, try_into_http_request r base_url access_token = Ok request ∧
    try_from_http_request e request = Ok r.
Proof.
  intros Hwf Hbase Htok.
  destruct (request_sent r origin base_url access_token Hwf Hbase Htok)
    as (query & m & Hinto & _ & Hq & Hauth & Hh).
  eexists. split; [exact Hinto|]. unfold try_from_http_request. simpl. rewrite decide_True by done.
  destruct Hwf as (Hp & _ & _ & Hb). unfold uri_path, uri_query. simpl.
  rewrite (request_path_read r Hp). simpl. rewrite Hq. simpl. rewrite Hh.
  - simpl. rewrite (body_read _ _ (request_body_lawful e) Hb). simpl. by destruct r.
  - intros name Hne. destruct (sent_token _ _); [by apply header_get_insert_ne|done].
Qed.

Lemma unauthenticated_request {e} (r : Request e) `{!LawfulEndpoint e} origin base_url :
  request_wf r → base_url_of origin base_url → authentication (ep_metadata e) = AccessToken →
  try_into_http_request r base_url NoToken = Err NeedsAuthentication.
Proof.
  intros Hwf Hbase Hscheme. destruct Hwf as (Hp & Hq & Hh & Hb).
  destruct (query_string_Ok _ (v_query r) Hq (request_queries_lawful e)) as (query & Hqs & Hbytes & _).
  destruct (request_path_ok r) as [Hstart Hpath].
  pose proof (path_and_query_parse_to_string _ _ Hstart Hpath Hbytes) as Hpq.
  unfold try_into_http_request. rewrite Hqs. cbn [mbind outcome_bind].
  rewrite (request_uri origin base_url _ query Hbase Hpq). unfold request_headers.
  set (m0 := if _ || _ then header_insert _ _ [] else []).
  assert (content_type m0) as Hm0.
  { unfold m0, content_type. destruct (_ || _); [right|left]; reflexivity. }
  destruct (field_headers_read (v_headers r) m0 le_headers Hh Hm0) as (m & Hm & _ & _).
  rewrite Hm. cbn [mbind outcome_bind]. by rewrite Hscheme.
Qed.


(** C38: which token goes into the header of a request, for each of the four ways endpoints are
    authenticated: an endpoint that requires a token gets the one given, however it was given,
    and without one it is not called; an endpoint without authentication gets it only when it
    is to be sent always; an endpoint that takes its token in the query or is authenticated by
    signatures gets none, even when the caller says always. *)
Theorem access_token_sent {e} (r : Request e) `{!LawfulEndpoint e} origin base_url access_token :
  request_wf r → base_url_of origin base_url →
  (token_ok (authentication (ep_metadata e)) access_token →
   ∃ request, try_into_http_request r base_url access_token = Ok request ∧
     header_get "AUTHORIZATION" (rq_headers request) =
       (λ tok, "Bearer " +:+ tok) <$>
         match authentication (ep_metadata e), access_token with
         | AccessToken, (IfRequired tok | Always tok) | AuthNone, Always tok => Some tok
         | _, _ => None
         end) ∧
  (authentication (ep_metadata e) = AccessToken → access_token = NoToken →
   try_into_http_request r base_url access_token = Err NeedsAuthentication).
Proof.
  intros Hwf Hbase. split.
  - intros Htok. destruct (request_sent r origin base_url access_token Hwf Hbase Htok)
      as (query & m & Hinto & _ & _ & Hauth & _).
    eexists. split; [exact Hinto|]. cbn [rq_headers].
    assert (sent_token (authentication (ep_metadata e)) access_token =
      match authentication (ep_metadata e), access_token with
      | AccessToken, (IfRequired tok | Always tok) | AuthNone, Always tok => Some tok
      | _, _ => None
      end) as <- by by destruct (authentication _), access_token.
    destruct (sent_token _ _) as [tok|]; [by rewrite header_get_insert|done].
  - intros Hscheme ->. by apply (unauthenticated_request r origin).
Qed.

(** ** Responses *)

Lemma parse_headers_filter hs name m :
  name ∉ h_name <$> hs →
  parse_headers hs (filter (λ kv, kv.1 ≠ name) m) = parse_headers hs m.
Proof.
  induction hs as [|h hs IH]; [done|]. csimpl. intros [Hne Hno]%not_elem_of_cons.
  rewrite header_get_filter, IH by done. done.
Qed.

(** Where there are all headers, taking them out is reading them. *)
Lemma take_headers_parse hs m v :
  NoDup (h_name <$> hs) → parse_headers hs m = Ok v → take_headers hs m = Ok v.
Proof.
  revert m v. induction hs as [|h hs IH]; [done|]. intros m v Hnd. csimpl in Hnd.
  apply list.NoDup_cons in Hnd as [Hh Hnd]. simpl.
  intros (a & Ha & (v' & Hv & [= <-])%bind_Ok)%bind_Ok. unfold read_header in Ha.
  apply bind_Ok in Ha as (value & Hvalue & Ha%ok_or_Ok). unfold take_header, header_remove.
  unfold header_get in Hvalue. rewrite Hvalue. simpl. rewrite Ha. simpl.
  rewrite (IH _ v'); [done..|]. by rewrite parse_headers_filter.
Qed.

Lemma response_round_trips {e} (r : Response e) `{!LawfulResponse (ep_response e)} :
  response_wf r → ∃ response, try_into_http_response r = Ok response ∧
    try_from_http_response e response = Ok r.
Proof.
  intros [Hh Hb]. destruct (field_headers_read (r_headers r) [("CONTENT_TYPE", "application/json")]
    le_resp_headers Hh (or_intror eq_refl)) as (m & Hm & _ & Hread).
  unfold try_into_http_response. rewrite Hm. eexists. split; [done|].
  unfold try_from_http_response. cbn [rs_status rs_headers rs_body]. rewrite (proj2 (N.ltb_lt 200 400)) by lia.
  assert (∀ body, body = match resp_body_kind_of (ep_response e) as k return body_type k → string with
      | NoBodyKind => λ _, json_to_vec (JObject []) | k => body_bytes k end (r_body r) →
    parse_body (resp_body_kind_of (ep_response e)) body = Ok (r_body r)) as Hbody.
  { intros body ->. assert (match resp_body_kind_of (ep_response e) with
      JsonKind c => Lawful c | _ => True end) as Hl.
    { unfold resp_body_kind_of. destruct (resp_has_raw_body _); [done|].
      destruct (resp_has_body_fields _); [|done]. apply le_resp_body. }
    revert Hb Hl. generalize (r_body r). destruct (resp_body_kind_of (ep_response e)) as [|c|].
    - by intros a.
    - intros a Ha Hc. by apply (body_read (JsonKind c)).
    - by intros []. }
  rewrite (Hbody _ eq_refl). cbn [mbind outcome_bind].
  destruct le_resp_headers as [Hnd _].
  rewrite (take_headers_parse _ _ (r_headers r) Hnd); [simpl; by destruct r|].
  by apply Hread.
Qed.
End conversions.
