(* ===== verification/ApiTypes.v ===== *)
(** * Types of API fields

    The codecs of the identifier types, of [ruma-common], and of other types that several
    endpoints share, and the tactic that shows that a declared endpoint is lawful. *)

From S2P Require Import Prelude RustStr RustNet IdValidation StringEnum Identifiers Json.
From S2P Require Import CanonicalJson Serde Codecs UrlEncoded UrlEncodedSpec ClientErrors.
From S2P Require Import Uiaa UiaaSpec Http Api ApiPaths ApiQuery ApiSpec.
From Stdlib Require Import Ascii NArith.
Open Scope string_scope.
Open Scope nat_scope.
Open Scope list_scope.

(** ** Identifiers *)

Definition ClientSecret_parse `{Unicode} : string → outcome Error string :=
  Identifiers.parse client_secret_validate.
Definition SessionId_parse `{Unicode} : string → outcome Error string :=
  Identifiers.parse session_id_validate.
(** key_id.rs *)
Definition KeyId_parse `{Unicode} (s : string) : outcome Error string := _ ← key_id_validate s; Ok s.

Definition c_user_id : codec := c_parsed UserId_parse.
Definition c_room_id : codec := c_parsed RoomId_parse.
Definition c_event_id : codec := c_parsed EventId_parse.
Definition c_room_alias_id : codec := c_parsed RoomAliasId_parse.
Definition c_room_or_alias_id : codec := c_parsed RoomOrAliasId_parse.
Definition c_server_name : codec := c_parsed ServerName_parse.
Definition c_room_name : codec := c_parsed RoomName_parse.
Definition c_device_key_id : codec := c_parsed DeviceKeyId_parse.
Definition c_signing_key_id `{Unicode} : codec := c_parsed KeyId_parse.
Definition c_client_secret `{Unicode} : codec := c_parsed ClientSecret_parse.
Definition c_session_id `{Unicode} : codec := c_parsed SessionId_parse.

(** ** thirdparty.rs *)

Definition FieldType : codec := c_struct [
  req "regexp" c_string;
  req "placeholder" c_string].

Definition ProtocolInstance : codec := c_struct [
  req "desc" c_string;
  opt "icon" c_string;
  req "fields" (c_map c_string);
  req "network_id" c_string].

Definition Protocol : codec := c_struct [
  req "user_fields" (c_list c_string);
  req "location_fields" (c_list c_string);
  req "icon" c_string;
  req "field_types" (c_map FieldType);
  req "instances" (c_list ProtocolInstance)].

Definition Location : codec := c_struct [
  req "alias" c_room_alias_id;
  req "protocol" c_string;
  req "fields" (c_map c_string)].

Definition User : codec := c_struct [
  req "userid" c_user_id;
  req "protocol" c_string;
  req "fields" (c_map c_string)].

Definition ThirdPartyIdentifier : codec := c_struct [
  req "address" c_string;
  req "medium" (c_enum Medium.Medium);
  req "validated_at" c_uint;
  req "added_at" c_uint].

(** ** directory.rs *)

Definition PublicRoomsChunk : codec := c_struct [
  vec "aliases" c_room_alias_id;
  opt "canonical_alias" c_room_alias_id;
  opt "name" c_room_name;
  req "num_joined_members" c_uint;
  req "room_id" c_room_id;
  opt "topic" c_string;
  req "world_readable" c_bool;
  req "guest_can_join" c_bool;
  opt "avatar_url" c_string].

Definition Filter : codec := c_struct [opt "generic_search_term" c_string].
Definition Filter_is_empty : ctype Filter → bool := skip_fields is_none skip_end.

Inductive RoomNetwork := Matrix | All | ThirdParty (network : string).

Definition RoomNetwork_fields (self : RoomNetwork) : list (string * json) :=
  match self with
  | Matrix => []
  | All => [("include_all_networks", JBool true)]
  | ThirdParty network => [("third_party_instance_id", JString network)]
  end.

(** [RoomNetworkVisitor]: the last entry of a key counts, whatever its type. *)
Definition RoomNetwork_visit_map (entries : list (string * json)) : outcome () RoomNetwork :=
  let '(include_all_networks, third_party_instance_id) :=
    fold_left (λ '(all, third_party) '(key, value),
      if decide (key = "include_all_networks") then
        (match value with JBool b => b | _ => false end, third_party)
      else if decide (key = "third_party_instance_id") then
        (all, match value with JString v => Some v | _ => None end)
      else (all, third_party)) entries (false, None) in
  if include_all_networks : bool then
    match third_party_instance_id with
    | None => Ok All
    | Some _ => Err ()
    end
  else
    Ok (match third_party_instance_id with
        | Some network => ThirdParty network
        | None => Matrix
        end).

(** [flatten] of a [RoomNetwork], with or without [skip_serializing_if = "is_default"]: the
    default writes nothing. *)
Definition flat_room_network : sfield :=
  flat_with ["include_all_networks"; "third_party_instance_id"] RoomNetwork
    RoomNetwork_fields RoomNetwork_visit_map (λ _, True).

(** ** encryption.rs *)

Module EventEncryptionAlgorithm.
Inductive EventEncryptionAlgorithm := OlmV1Curve25519AesSha2 | MegolmV1AesSha2 | Custom (s : string).

#[export] Instance EventEncryptionAlgorithm_eq_dec : EqDecision EventEncryptionAlgorithm.
Proof. solve_decision. Defined.

#[export, refine] Instance EventEncryptionAlgorithm_enum : StringEnum EventEncryptionAlgorithm := {|
  rename_all := RenameNone;
  unit_variants :=
    [("OlmV1Curve25519AesSha2", Some "m.olm.v1.curve25519-aes-sha2", OlmV1Curve25519AesSha2);
     ("MegolmV1AesSha2", Some "m.megolm.v1.aes-sha2", MegolmV1AesSha2)];
  custom := Custom;
  custom_inner c := match c with Custom s => Some s | _ => None end
|}.
Proof. all: string_enum_laws. Defined.
End EventEncryptionAlgorithm.
Export (hints) EventEncryptionAlgorithm.

Definition UnsignedDeviceInfo : codec := c_struct [
  opt "device_display_name" c_string].
Definition UnsignedDeviceInfo_is_empty : ctype UnsignedDeviceInfo → bool :=
  skip_fields is_none skip_end.

(** [SignedKeySignatures] *)
Definition c_signatures : codec := c_id_map UserId_parse (c_id_map DeviceKeyId_parse c_string).

Definition DeviceKeys : codec := c_struct [
  req "user_id" c_user_id;
  req "device_id" c_string;
  req "algorithms" (c_list (c_enum EventEncryptionAlgorithm.EventEncryptionAlgorithm));
  req "keys" (c_id_map DeviceKeyId_parse c_string);
  req "signatures" c_signatures;
  dflt "unsigned" UnsignedDeviceInfo (None, ()) UnsignedDeviceInfo_is_empty].

Definition SignedKey : codec := c_struct [
  req "key" c_string;
  req "signatures" c_signatures].

(** [untagged]: a struct or a string *)
Definition OneTimeKey : codec := c_untagged SignedKey c_string.

Module KeyUsage.
Inductive KeyUsage := Master | SelfSigning | UserSigning.
#[export] Instance KeyUsage_eq_dec : EqDecision KeyUsage.
Proof. solve_decision. Defined.
Definition variants : list (string * KeyUsage) :=
  [("master", Master); ("self_signing", SelfSigning); ("user_signing", UserSigning)].
End KeyUsage.
Export (hints) KeyUsage.
Definition c_key_usage : codec := c_units KeyUsage.variants.

Definition CrossSigningKey : codec := c_struct [
  req "user_id" c_user_id;
  req "usage" (c_list c_key_usage);
  req "keys" (c_map c_string);
  id_map "signatures" UserId_parse (c_map c_string)].

(** ** presence.rs, receipt.rs, authentication.rs *)

Module PresenceState.
Inductive PresenceState := Offline | Online | Unavailable | Custom (s : string).

#[export] Instance PresenceState_eq_dec : EqDecision PresenceState.
Proof. solve_decision. Defined.

#[export, refine] Instance PresenceState_enum : StringEnum PresenceState := {|
  rename_all := SnakeCase;
  unit_variants :=
    [("Offline", None, Offline);
     ("Online", None, Online);
     ("Unavailable", None, Unavailable)];
  custom := Custom;
  custom_inner c := match c with Custom s => Some s | _ => None end
|}.
Proof. all: string_enum_laws. Defined.
End PresenceState.
Export (hints) PresenceState.

Module ReceiptType.
Inductive ReceiptType := Read | Custom (s : string).

#[export] Instance ReceiptType_eq_dec : EqDecision ReceiptType.
Proof. solve_decision. Defined.

#[export, refine] Instance ReceiptType_enum : StringEnum ReceiptType := {|
  rename_all := RenameNone;
  unit_variants :=
    [("Read", Some "m.read", Read)];
  custom := Custom;
  custom_inner c := match c with Custom s => Some s | _ => None end
|}.
Proof. all: string_enum_laws. Defined.
End ReceiptType.
Export (hints) ReceiptType.

Module TokenType.
Inductive TokenType := Bearer | Custom (s : string).

#[export] Instance TokenType_eq_dec : EqDecision TokenType.
Proof. solve_decision. Defined.

#[export, refine] Instance TokenType_enum : StringEnum TokenType := {|
  rename_all := RenameNone;
  unit_variants :=
    [("Bearer", None, Bearer)];
  custom := Custom;
  custom_inner c := match c with Custom s => Some s | _ => None end
|}.
Proof. all: string_enum_laws. Defined.
End TokenType.
Export (hints) TokenType.

(** ** to_device.rs *)

Inductive DeviceIdOrAllDevices := DeviceId (id : string) | AllDevices.

#[export] Instance DeviceIdOrAllDevices_eq_dec : EqDecision DeviceIdOrAllDevices.
Proof. solve_decision. Defined.
#[export] Instance DeviceIdOrAllDevices_countable : Countable DeviceIdOrAllDevices.
Proof.
  refine (inj_countable' (λ d, match d with DeviceId id => Some id | AllDevices => None end)
    (λ o, match o with Some id => DeviceId id | None => AllDevices end) _). by intros [].
Defined.

Definition DeviceIdOrAllDevices_to_string (d : DeviceIdOrAllDevices) : string :=
  match d with DeviceId id => id | AllDevices => "*" end.
Definition DeviceIdOrAllDevices_try_from (s : string) : outcome () DeviceIdOrAllDevices :=
  if decide (s = "") then Err ()
  else if decide (s = "*") then Ok AllDevices
  else Ok (DeviceId s).

(** ** Interactive authentication *)

Definition c_auth_data `{Unicode} : codec :=
  {| ctype := AuthData; enc := ser_AuthData; dec := de_AuthData; cwf := wf_auth |}.

(** ** Laws *)

#[export] Instance lawful_auth_data `{Unicode} : Lawful c_auth_data.
Proof. intros a Ha. by apply de_ser_auth. Qed.
#[export] Instance never_null_auth_data `{Unicode} : NeverNull c_auth_data.
Proof. done. Qed.

(** A struct is not read from a string. *)
#[export] Instance struct_rejects_string fs : Rejects (c_struct fs) c_string.
Proof. intros s _. simpl. unfold de_struct. destruct (has_flatten fs); by eexists. Qed.

(** With distinct keys, the visitor takes the two entries, wherever they are. *)
Lemma room_network_entries (rest : list (string * json)) all tp :
  NoDup rest.*1 →
  fold_left (λ '(all, third_party) '(key, value),
    if decide (key = "include_all_networks") then
      (match value with JBool b => b | _ => false end, third_party)
    else if decide (key = "third_party_instance_id") then
      (all, match value with JString v => Some v | _ => None end)
    else (all, third_party)) rest (all, tp) =
  (match assoc "include_all_networks" rest with
   | Some (JBool b) => b | Some _ => false | None => all end,
   match assoc "third_party_instance_id" rest with
   | Some (JString v) => Some v | Some _ => None | None => tp end).
Proof.
  revert all tp. induction rest as [|[k v] rest IH]; intros all tp Hnd; [done|].
  csimpl in Hnd. apply list.NoDup_cons in Hnd as [Hk Hnd]. cbn [fold_left]. rewrite !assoc_cons.
  destruct (decide (k = "include_all_networks")) as [->|Hne1];
    [|destruct (decide (k = "third_party_instance_id")) as [->|Hne2]]; rewrite IH by done; f_equal.
  - by rewrite assoc_None.
  - by rewrite assoc_None.
Qed.

#[export] Instance lawful_room_network : LawfulField flat_room_network.
Proof.
  split.
  - intros [| |n] _; [apply list_subseteq_nil|intros k ->%list_elem_of_singleton; decide_it..].
  - intros [| |n] _; [constructor|apply list.NoDup_singleton..].
  - intros own entries rest a _ _ Hr _ Hin. cbn [f_read flat_room_network flat_with].
    unfold RoomNetwork_visit_map. rewrite room_network_entries by done.
    rewrite (Hin "include_all_networks"), (Hin "third_party_instance_id") by decide_it.
    by destruct a.
Qed.

(** ** Lawful endpoints *)

Ltac lawful_response :=
  lazymatch goal with
  | |- LawfulResponse (ep_response ?e) =>
      let e := eval hnf in e in change (LawfulResponse (ep_response e))
  end;
  split;
  [ unfold header_names_ok; split; decide_it
  | lazy [ep_response resp_body_codec resp_newtype_bodies resp_body_fields omap list_omap];
    apply _ ].

(** The checks of the macro on a declared endpoint are computed, and its codecs are lawful by the
    instances of their parts. *)
Ltac lawful_endpoint :=
  lazymatch goal with
  | |- LawfulEndpoint ?e => let e := eval red in e in change (LawfulEndpoint e)
  end;
  split;
  [ vm_compute; reflexivity
  | reflexivity
  | vm_compute; reflexivity
  | unfold LawfulPaths; lazy [ep_request path_fields omap list_omap];
    repeat (constructor; [apply _|]); constructor
  | lazy [ep_request query_fields omap list_omap]; apply _
  | unfold query_names_ok; lazy [ep_request query_fields omap list_omap fmap list_fmap];
    split; [decide_it|decide_it]
  | unfold header_names_ok; split; decide_it
  | lazy [ep_request body_codec newtype_bodies body_fields omap list_omap]; apply _
  | lawful_response ].
