(* ===== verification/ClientTypes.v ===== *)
(** * Types of the client-server API

    Tags ([ruma-events/src/tag.rs]), and types that several endpoints share: the room directory,
    filters ([r0/filter.rs] and the files below it), JSON in a query string, durations in
    milliseconds, maps of device keys. *)

From S2P Require Import Prelude RustStr RustNet IdValidation StringEnum Identifiers Json.
From S2P Require Import EventContents CanonicalJson Serde UrlEncoded UrlEncodedSpec ClientErrors.
From S2P Require Import Uiaa UiaaSpec Codecs Http Api ApiPaths ApiQuery ApiSpec ApiTypes.
From Stdlib Require Import Ascii NArith.
Open Scope string_scope.
Open Scope nat_scope.
Open Scope list_scope.

(** [UserTagName]: its one field is private, so the values are those of [from_str]. *)
Record UserTagName := { utn_name : string; utn_prefix : starts_with "u." utn_name = true }.

#[export] Instance UserTagName_eq_dec : EqDecision UserTagName.
Proof.
  intros [x Hx] [y Hy]. destruct (decide (x = y)) as [<-|Hne].
  - left. f_equal. apply proof_irrel.
  - right. by intros [=].
Defined.

Definition UserTagName_from_str (s : string) : outcome () UserTagName :=
  match decide (starts_with "u." s = true) with
  | left H => Ok {| utn_name := s; utn_prefix := H |}
  | right _ => Err ()
  end.

Inductive TagName :=
  | Favorite
  | LowPriority
  | ServerNotice
  | TagName_User (tag : UserTagName)
  | TagName_Custom (s : string).

#[export] Instance TagName_eq_dec : EqDecision TagName.
Proof. solve_decision. Defined.

Definition TagName_as_ref (self : TagName) : string :=
  match self with
  | Favorite => "m.favourite"
  | LowPriority => "m.lowpriority"
  | ServerNotice => "m.server_notice"
  | TagName_User tag => utn_name tag
  | TagName_Custom s => s
  end.

Definition TagName_from (s : string) : TagName :=
  if decide (s = "m.favourite") then Favorite
  else if decide (s = "m.lowpriority") then LowPriority
  else if decide (s = "m.server_notice") then ServerNotice
  else match UserTagName_from_str s with
       | Ok tag => TagName_User tag
       | _ => TagName_Custom s
       end.

(** [str::rfind] *)
Fixpoint str_rfind (c : ascii) (s : string) : option nat :=
  match s with
  | "" => None
  | String b rest =>
      match str_rfind c rest with
      | Some i => Some (S i)
      | None => if bool_decide (b = c) then Some 0 else None
      end
  end.

(** [None] where indexing the string would panic *)
Definition display_name (self : TagName) : option string :=
  match self with
  | TagName_Custom s =>
      let start := default 0 ((λ p, p + 1) <$> str_rfind "." s) in
      slice_from start s
  | _ => slice_from 2 (TagName_as_ref self)
  end.

Definition tag_code (t : TagName) : nat + (string + string) :=
  match t with
  | Favorite => inl 0
  | LowPriority => inl 1
  | ServerNotice => inl 2
  | TagName_User tag => inr (inl (utn_name tag))
  | TagName_Custom s => inr (inr s)
  end.
Definition tag_decode (c : nat + (string + string)) : option TagName :=
  match c with
  | inl 0 => Some Favorite
  | inl 1 => Some LowPriority
  | inl _ => Some ServerNotice
  | inr (inl s) => match UserTagName_from_str s with Ok tag => Some (TagName_User tag) | _ => None end
  | inr (inr s) => Some (TagName_Custom s)
  end.

Lemma UserTagName_from_name (tag : UserTagName) : UserTagName_from_str (utn_name tag) = Ok tag.
Proof.
  unfold UserTagName_from_str. destruct (decide _) as [H|H]; [|by destruct H; destruct tag].
  destruct tag as [s Hs]. simpl in *. do 2 f_equal. apply proof_irrel.
Qed.

#[export] Instance TagName_countable : Countable TagName.
Proof.
  refine (inj_countable tag_code tag_decode _). intros [| | |tag|s]; try done. simpl.
  by rewrite UserTagName_from_name.
Defined.

(** The serde implementations go by way of the string. *)
Definition TagName_read (s : string) : outcome () TagName := Ok (TagName_from s).

Definition TagInfo : codec := c_struct [opt "order" c_number].
Definition Tags : codec := c_key_map TagName TagName_as_ref TagName_read TagInfo.

(** ** Properties *)

Lemma TagName_from_as_ref_user tag : TagName_from (utn_name tag) = TagName_User tag.
Proof.
  unfold TagName_from. rewrite UserTagName_from_name. destruct tag as [s Hs]. simpl.
  by repeat (case_decide as Hx; [by subst|clear Hx]).
Qed.

(** A name is read back, unless it is a custom one made of a string that has its own variant. *)
Lemma TagName_round_trip (t : TagName) :
  TagName_from (TagName_as_ref t) = t ↔
  ∀ s, t = TagName_Custom s →
    s ≠ "m.favourite" ∧ s ≠ "m.lowpriority" ∧ s ≠ "m.server_notice" ∧ starts_with "u." s = false.
Proof.
  destruct t as [| | |tag|s]; try (split; [by intros _|done]).
  - split; [by intros _|]. intros _. apply TagName_from_as_ref_user.
  - simpl. unfold TagName_from, UserTagName_from_str. split.
    + intros Hs _ [= <-]. repeat case_decide; try done.
      split_and!; try done. by apply not_true_is_false.
    + intros Hs. destruct (Hs s eq_refl) as (? & ? & ? & Hu). repeat rewrite decide_False by done.
      destruct (decide _) as [H3|H3]; [congruence|done].
Qed.

Lemma TagName_as_ref_from s : TagName_as_ref (TagName_from s) = s.
Proof.
  unfold TagName_from, UserTagName_from_str. by repeat (case_decide || destruct (decide _)).
Qed.

(** ** Fields of query strings *)

(** [ruma_serde::json_string] on an [Option], with [default] and
    [skip_serializing_if = "Option::is_none"]. A missing field is the default, [SNone]. *)
Definition q_json_opt `{JsonText} (name : string) (c : codec) : query_field := {|
  qf_name := name;
  qf_type := option (ctype c);
  qf_shape := TString;
  qf_default := Some SNone;
  qf_write o := (λ a, SStr (json_to_vec (enc c a))) <$> o;
  qf_read v :=
    match v with
    | SNone => Ok None
    | SStr s => j ← json_from_slice s; dec (c_option c) j
    | _ => Err ()
    end;
  qf_wf o := ∀ a, o = Some a → cwf c a ∧ valid_utf8 (json_to_vec (enc c a)) = true
|}.

#[export] Instance lawful_q_json_opt `{JsonText} name c :
  Lawful c → NeverNull c → LawfulQuery (q_json_opt name c).
Proof.
  intros Hc Hn. split; simpl.
  - intros [a|] s Ha [= <-]. destruct (Ha a eq_refl) as [Hwf Hu]. split.
    + by apply has_field_scalar.
    + rewrite json_from_to_vec. cbn [mbind outcome_bind].
      apply (lawful_option c Hc Hn (Some a)). exact Hwf.
  - intros [a|] _ [=]. exists SNone. split; [done|by left].
Qed.

(** ** Durations *)

(** [ruma_serde::duration::ms] and [opt_ms]: a whole number of milliseconds, which must be in the
    range of [UInt] to be written *)
Definition c_ms : codec := c_uint.
Definition opt_ms (name : string) : sfield := opt name c_ms.
Definition q_opt_ms (name : string) : query_field := q_opt name qc_uint.

(** ** Room versions *)

Definition c_room_version_id : codec := {|
  ctype := RoomVersionId;
  enc v := JString (RoomVersionId_as_str v);
  dec := de_RoomVersionId;
  cwf v := RoomVersionId_try_from (RoomVersionId_as_str v) = Ok v
|}.
#[export] Instance lawful_room_version_id : Lawful c_room_version_id.
Proof. intros v Hv. by apply (de_parse_Ok RoomVersionId_try_from). Qed.
#[export] Instance never_null_room_version_id : NeverNull c_room_version_id.
Proof. done. Qed.

Definition qc_room_version_id : qcodec := {|
  q_type := RoomVersionId;
  q_shape := TString;
  q_ser v := SStr (RoomVersionId_as_str v);
  q_de v := match v with SStr s => map_err (λ _, ()) (RoomVersionId_try_from s) | _ => Err () end;
  q_wf v := RoomVersionId_try_from (RoomVersionId_as_str v) = Ok v ∧
            valid_utf8 (RoomVersionId_as_str v) = true
|}.
#[export] Instance lawful_qc_room_version_id : LawfulScalar qc_room_version_id.
Proof. split; simpl; [by intros v [-> _]|done|by intros v [_ ?]]. Qed.

(** ** r0/room.rs *)

Module Visibility.
Inductive Visibility := Public | Private | Custom (s : string).

#[export] Instance Visibility_eq_dec : EqDecision Visibility.
Proof. solve_decision. Defined.

#[export, refine] Instance Visibility_enum : StringEnum Visibility := {|
  rename_all := SnakeCase;
  unit_variants :=
    [("Public", None, Public);
     ("Private", None, Private)];
  custom := Custom;
  custom_inner c := match c with Custom s => Some s | _ => None end
|}.
Proof. all: string_enum_laws. Defined.
End Visibility.
Export (hints) Visibility.

(** ** r0/filter/lazy_load.rs, r0/filter/url.rs *)

Inductive LazyLoadOptions := Disabled | Enabled (include_redundant_members : bool).

Definition LazyLoadOptions_is_disabled (self : LazyLoadOptions) : bool :=
  match self with Disabled => true | _ => false end.

Definition LazyLoadOptions_serialize (self : LazyLoadOptions) : list (string * json) :=
  match self with
  | Enabled true => [("lazy_load_members", JBool true); ("include_redundant_members", JBool true)]
  | Enabled _ => [("lazy_load_members", JBool true)]
  | Disabled => []
  end.

Definition LazyLoadJsonRepr : list sfield := [
  nullable "lazy_load_members" c_bool;
  nullable "include_redundant_members" c_bool].

Definition LazyLoadOptions_from (opts : fields_type LazyLoadJsonRepr) : LazyLoadOptions :=
  let '(lazy_load_members, (include_redundant_members, _)) := opts in
  if default false lazy_load_members then Enabled (default false include_redundant_members)
  else Disabled.

Definition flat_lazy_load_options : sfield :=
  flat_with ["lazy_load_members"; "include_redundant_members"] LazyLoadOptions
    LazyLoadOptions_serialize
    (λ entries, LazyLoadOptions_from <$> de_struct LazyLoadJsonRepr (JObject entries))
    (λ _, True).

#[export] Instance lawful_lazy_load_options : LawfulField flat_lazy_load_options.
Proof.
  split.
  - intros [|[]] _; [apply list_subseteq_nil|done|]. intros k ->%list_elem_of_singleton. by left.
  - intros [|[]] _; decide_it.
  - intros own entries rest a _ _ Hr _ Hin. cbn [f_read flat_lazy_load_options flat_with].
    unfold de_struct. change (has_flatten LazyLoadJsonRepr) with false. cbv iota.
    rewrite struct_src_obj by done. cbn [mbind outcome_bind].
    cbn [read_fields f_read nullable LazyLoadJsonRepr]. unfold field_opt, lookup_field.
    rewrite (Hin "lazy_load_members"), (Hin "include_redundant_members") by decide_it.
    by destruct a as [|[]].
Qed.

Inductive UrlFilter := EventsWithUrl | EventsWithoutUrl.

Definition UrlFilter_to_bool (self : UrlFilter) : bool :=
  match self with EventsWithUrl => true | EventsWithoutUrl => false end.
Definition UrlFilter_from_bool (b : bool) : UrlFilter :=
  if b then EventsWithUrl else EventsWithoutUrl.
Definition c_url_filter : codec := c_via UrlFilter c_bool UrlFilter_to_bool UrlFilter_from_bool.

(** ** r0/filter.rs *)

Module EventFormat.
Inductive EventFormat := Client | Federation | Custom (s : string).

#[export] Instance EventFormat_eq_dec : EqDecision EventFormat.
Proof. solve_decision. Defined.

#[export, refine] Instance EventFormat_enum : StringEnum EventFormat := {|
  rename_all := SnakeCase;
  unit_variants :=
    [("Client", None, Client);
     ("Federation", None, Federation)];
  custom := Custom;
  custom_inner c := match c with Custom s => Some s | _ => None end
|}.
Proof. all: string_enum_laws. Defined.
End EventFormat.
Export (hints) EventFormat.

Module RoomEventFilter.
Definition codec : codec := c_struct [
  vec "not_types" c_string;
  vec "not_rooms" c_room_id;
  opt "limit" c_uint;
  opt "rooms" (c_list c_room_id);
  vec "not_senders" c_user_id;
  opt "senders" (c_list c_user_id);
  opt "types" (c_list c_string);
  opt "contains_url" c_url_filter;
  flat_lazy_load_options].

(** [default] and [empty] *)
Definition empty : ctype codec := ([], ([], (None, (None, ([], (None, (None, (None, (Disabled, ()))))))))).
Definition ignore_all : ctype codec :=
  ([], ([], (None, (None, ([], (None, (Some [], (None, (Disabled, ()))))))))).
Definition is_empty : ctype codec → bool :=
  skip_fields list_is_empty (skip_fields list_is_empty (skip_fields is_none (skip_fields is_none
  (skip_fields list_is_empty (skip_fields is_none (skip_fields is_none (skip_fields is_none
  (skip_fields LazyLoadOptions_is_disabled skip_end)))))))).
End RoomEventFilter.

#[export] Instance skips_disabled : SkipsDefault Disabled LazyLoadOptions_is_disabled.
Proof. by intros []. Qed.

Module RoomFilter.
Definition codec : codec := c_struct [
  flag "include_leave";
  dflt "account_data" RoomEventFilter.codec RoomEventFilter.empty RoomEventFilter.is_empty;
  dflt "timeline" RoomEventFilter.codec RoomEventFilter.empty RoomEventFilter.is_empty;
  dflt "ephemeral" RoomEventFilter.codec RoomEventFilter.empty RoomEventFilter.is_empty;
  dflt "state" RoomEventFilter.codec RoomEventFilter.empty RoomEventFilter.is_empty;
  vec "not_rooms" c_room_id;
  opt "rooms" (c_list c_room_id)].

Definition empty : ctype codec :=
  (false, (RoomEventFilter.empty, (RoomEventFilter.empty, (RoomEventFilter.empty,
  (RoomEventFilter.empty, ([], (None, ()))))))).
Definition ignore_all : ctype codec :=
  (false, (RoomEventFilter.empty, (RoomEventFilter.empty, (RoomEventFilter.empty,
  (RoomEventFilter.empty, ([], (Some [], ()))))))).
Definition is_empty : ctype codec → bool :=
  skip_fields negb (skip_fields RoomEventFilter.is_empty (skip_fields RoomEventFilter.is_empty
  (skip_fields RoomEventFilter.is_empty (skip_fields RoomEventFilter.is_empty
  (skip_fields list_is_empty (skip_fields is_none skip_end)))))).
End RoomFilter.

Module Filter.
Definition codec : codec := c_struct [
  vec "not_types" c_string;
  opt "limit" c_uint;
  opt "senders" (c_list c_user_id);
  opt "types" (c_list c_string);
  vec "not_senders" c_user_id].

Definition empty : ctype codec := ([], (None, (None, (None, ([], ()))))).
Definition ignore_all : ctype codec := ([], (None, (None, (Some [], ([], ()))))).
Definition is_empty : ctype codec → bool :=
  skip_fields list_is_empty (skip_fields is_none (skip_fields is_none (skip_fields is_none
  (skip_fields list_is_empty skip_end)))).
End Filter.

Module FilterDefinition.
Definition codec : codec := c_struct [
  opt "event_fields" (c_list c_string);
  dflt "event_format" (c_enum EventFormat.EventFormat) EventFormat.Client
    (λ a, bool_decide (a = EventFormat.Client));
  dflt "presence" Filter.codec Filter.empty Filter.is_empty;
  dflt "account_data" Filter.codec Filter.empty Filter.is_empty;
  dflt "room" RoomFilter.codec RoomFilter.empty RoomFilter.is_empty].

Definition empty : ctype codec :=
  (None, (EventFormat.Client, (Filter.empty, (Filter.empty, (RoomFilter.empty, ()))))).
Definition ignore_all : ctype codec :=
  (None, (EventFormat.Client, (Filter.ignore_all, (Filter.ignore_all, (RoomFilter.ignore_all, ()))))).
Definition is_empty : ctype codec → bool :=
  skip_fields is_none (skip_fields (λ a, bool_decide (a = EventFormat.Client))
  (skip_fields Filter.is_empty (skip_fields Filter.is_empty (skip_fields RoomFilter.is_empty skip_end)))).
End FilterDefinition.

#[export] Instance skips_RoomEventFilter : SkipsDefault RoomEventFilter.empty RoomEventFilter.is_empty.
Proof. apply _. Qed.
#[export] Instance skips_RoomFilter : SkipsDefault RoomFilter.empty RoomFilter.is_empty.
Proof. apply _. Qed.
#[export] Instance skips_Filter : SkipsDefault Filter.empty Filter.is_empty.
Proof. apply _. Qed.
#[export] Instance skips_FilterDefinition : SkipsDefault FilterDefinition.empty FilterDefinition.is_empty.
Proof. apply _. Qed.

#[export] Instance lawful_filter_definition : Lawful FilterDefinition.codec.
Proof. apply _. Qed.
