(* ===== verification/ClientAccount.v ===== *)
(** * Client API: accounts and aliases

    The endpoints of [r0/account], [r0/alias] and [r0/appservice], and the types they share. *)

From S2P Require Import Prelude RustStr RustNet IdValidation StringEnum Identifiers Json.
From S2P Require Import CanonicalJson Serde Codecs UrlEncoded UrlEncodedSpec ClientErrors.
From S2P Require Import Uiaa UiaaSpec Http Api ApiPaths ApiQuery ApiSpec ApiTypes ClientTypes.
From Stdlib Require Import Ascii NArith.
Open Scope string_scope.
Open Scope nat_scope.
Open Scope list_scope.

Definition IdentityServerInfo_fields : list sfield := [
  req "id_server" c_string;
  req "id_access_token" c_string].
Definition IdentityServerInfo : codec := c_struct IdentityServerInfo_fields.

Module ThirdPartyIdRemovalStatus.
Inductive ThirdPartyIdRemovalStatus := NoSupport | Success | Custom (s : string).

#[export] Instance ThirdPartyIdRemovalStatus_eq_dec : EqDecision ThirdPartyIdRemovalStatus.
Proof. solve_decision. Defined.

#[export, refine] Instance ThirdPartyIdRemovalStatus_enum : StringEnum ThirdPartyIdRemovalStatus
  := {|
  rename_all := KebabCase;
  unit_variants :=
    [("NoSupport", None, NoSupport);
     ("Success", None, Success)];
  custom := Custom;
  custom_inner c := match c with Custom s => Some s | _ => None end
|}.
Proof. all: string_enum_laws. Defined.
End ThirdPartyIdRemovalStatus.
Export (hints) ThirdPartyIdRemovalStatus.

Module add_3pid.
Definition api `{Unicode} : endpoint := {|
  ep_metadata := {|
    description := "Add contact information to a user's account";
    method := "POST";
    name := "add_3pid";
    path := "/_matrix/client/r0/account/3pid/add";
    rate_limited := true;
    authentication := AccessToken
  |};
  ep_request := [
    Body (opt "auth" c_auth_data);
    Body (req "client_secret" c_client_secret);
    Body (req "sid" c_session_id)];
  ep_response := [];
  ep_error := UiaaError
|}.

#[export] Instance add_3pid_lawful `{Unicode} : LawfulEndpoint api.
Proof. lawful_endpoint. Qed.
End add_3pid.

Module bind_3pid.
Definition api `{Unicode} : endpoint := {|
  ep_metadata := {|
    description := "Bind a 3PID to a user's account on an identity server";
    method := "POST";
    name := "bind_3pid";
    path := "/_matrix/client/r0/account/3pid/bind";
    rate_limited := true;
    authentication := AccessToken
  |};
  ep_request := [
    Body (req "client_secret" c_client_secret);
    Body (flat IdentityServerInfo_fields);
    Body (req "sid" c_session_id)];
  ep_response := [];
  ep_error := ClientError
|}.

#[export] Instance bind_3pid_lawful `{Unicode} : LawfulEndpoint api.
Proof. lawful_endpoint. Qed.
End bind_3pid.

Module change_password.
Definition api `{Unicode} : endpoint := {|
  ep_metadata := {|
    description := "Change the password of the current user's account.";
    method := "POST";
    name := "change_password";
    path := "/_matrix/client/r0/account/password";
    rate_limited := true;
    authentication := AccessToken
  |};
  ep_request := [
    Body (req "new_password" c_string);
    Body (dflt "logout_devices" c_bool true id);
    Body (opt "auth" c_auth_data)];
  ep_response := [];
  ep_error := UiaaError
|}.

#[export] Instance change_password_lawful `{Unicode} : LawfulEndpoint api.
Proof. lawful_endpoint. Qed.
End change_password.

Module check_registration_token_validity.
Definition api : endpoint := {|
  ep_metadata := {|
    description := "Checks to see if the given registration token is valid.";
    method := "GET";
    name := "check_registration_token_validity";
    path :=
      "/_matrix/client/unstable/org.matrix.msc3231/register/" +:+
      "org.matrix.msc3231.login.registration_token/validity";
    rate_limited := true;
    authentication := AuthNone
  |};
  ep_request := [
    Query (q_req "registration_token" qc_string)];
  ep_response := [
    RespBody (req "valid" c_bool)];
  ep_error := ClientError
|}.

#[export] Instance check_registration_token_validity_lawful : LawfulEndpoint api.
Proof. lawful_endpoint. Qed.
End check_registration_token_validity.

Module deactivate.
Definition api `{Unicode} : endpoint := {|
  ep_metadata := {|
    description := "Deactivate the current user's account.";
    method := "POST";
    name := "deactivate";
    path := "/_matrix/client/r0/account/deactivate";
    rate_limited := true;
    authentication := AccessToken
  |};
  ep_request := [
    Body (opt "auth" c_auth_data);
    Body (opt "id_server" c_string)];
  ep_response := [
    RespBody (req "id_server_unbind_result" (c_enum
      ThirdPartyIdRemovalStatus.ThirdPartyIdRemovalStatus))];
  ep_error := UiaaError
|}.

#[export] Instance deactivate_lawful `{Unicode} : LawfulEndpoint api.
Proof. lawful_endpoint. Qed.
End deactivate.

Module delete_3pid.
Definition api : endpoint := {|
  ep_metadata := {|
    description := "Delete a 3PID from a user's account on an identity server.";
    method := "POST";
    name := "delete_3pid";
    path := "/_matrix/client/r0/account/3pid/delete";
    rate_limited := false;
    authentication := AccessToken
  |};
  ep_request := [
    Body (opt "id_server" c_string);
    Body (req "medium" (c_enum Medium.Medium));
    Body (req "address" c_string)];
  ep_response := [
    RespBody (req "id_server_unbind_result" (c_enum
      ThirdPartyIdRemovalStatus.ThirdPartyIdRemovalStatus))];
  ep_error := ClientError
|}.

#[export] Instance delete_3pid_lawful : LawfulEndpoint api.
Proof. lawful_endpoint. Qed.
End delete_3pid.

Module get_3pids.
Definition api : endpoint := {|
  ep_metadata := {|
    description := "Get a list of 3rd party contacts associated with the user's account.";
    method := "GET";
    name := "get_3pids";
    path := "/_matrix/client/r0/account/3pid";
    rate_limited := false;
    authentication := AccessToken
  |};
  ep_request := [];
  ep_response := [
    RespBody (vec "threepids" ThirdPartyIdentifier)];
  ep_error := ClientError
|}.

#[export] Instance get_3pids_lawful : LawfulEndpoint api.
Proof. lawful_endpoint. Qed.
End get_3pids.

Module get_username_availability.
Definition api : endpoint := {|
  ep_metadata := {|
    description := "Checks to see if a username is available, and valid, for the server.";
    method := "GET";
    name := "get_username_availability";
    path := "/_matrix/client/r0/register/available";
    rate_limited := true;
    authentication := AuthNone
  |};
  ep_request := [
    Query (q_req "username" qc_string)];
  ep_response := [
    RespBody (req "available" c_bool)];
  ep_error := ClientError
|}.

#[export] Instance get_username_availability_lawful : LawfulEndpoint api.
Proof. lawful_endpoint. Qed.
End get_username_availability.

Module register.
Module LoginType.
Inductive LoginType := ApplicationService.
#[export] Instance LoginType_eq_dec : EqDecision LoginType.
Proof. solve_decision. Defined.
Definition variants : list (string * LoginType) :=
  [("m.login.application_service", ApplicationService)].
End LoginType.
Export (hints) LoginType.

Module RegistrationKind.
Inductive RegistrationKind := Guest | User.
#[export] Instance RegistrationKind_eq_dec : EqDecision RegistrationKind.
Proof. solve_decision. Defined.
Definition variants : list (string * RegistrationKind) :=
  [("guest", Guest);
   ("user", User)].
End RegistrationKind.
Export (hints) RegistrationKind.

Definition api `{Unicode} : endpoint := {|
  ep_metadata := {|
    description := "Register an account on this homeserver.";
    method := "POST";
    name := "register";
    path := "/_matrix/client/r0/register";
    rate_limited := true;
    authentication := AuthNone
  |};
  ep_request := [
    Body (opt "password" c_string);
    Body (opt "username" c_string);
    Body (opt "device_id" c_string);
    Body (opt "initial_device_display_name" c_string);
    Body (opt "auth" c_auth_data);
    Query (q_dflt "kind" (qc_units RegistrationKind.variants) RegistrationKind.User (λ a,
      bool_decide (a = RegistrationKind.User)));
    Body (flag "inhibit_login");
    Body (opt "type" (c_units LoginType.variants))];
  ep_response := [
    RespBody (opt "access_token" c_string);
    RespBody (req "user_id" c_user_id);
    RespBody (nullable "device_id" c_string)];
  ep_error := UiaaError
|}.

#[export] Instance register_lawful `{Unicode} : LawfulEndpoint api.
Proof. lawful_endpoint. Qed.
End register.

Module request_3pid_management_token_via_email.
Definition api `{Unicode} : endpoint := {|
  ep_metadata := {|
    description := "Request a 3PID management token with a 3rd party email.";
    method := "POST";
    name := "request_3pid_management_token_via_email";
    path := "/_matrix/client/r0/account/3pid/email/requestToken";
    rate_limited := false;
    authentication := AuthNone
  |};
  ep_request := [
    Body (req "client_secret" c_client_secret);
    Body (req "email" c_string);
    Body (req "send_attempt" c_uint);
    Body (opt "next_link" c_string);
    Body (flat_opt IdentityServerInfo_fields)];
  ep_response := [
    RespBody (req "sid" c_session_id);
    RespBody (opt "submit_url" c_string)];
  ep_error := ClientError
|}.

#[export] Instance request_3pid_management_token_via_email_lawful `{Unicode} : LawfulEndpoint api.
Proof. lawful_endpoint. Qed.
End request_3pid_management_token_via_email.

Module request_3pid_management_token_via_msisdn.
Definition api `{Unicode} : endpoint := {|
  ep_metadata := {|
    description := "Request a 3PID management token with a phone number.";
    method := "POST";
    name := "request_3pid_management_token_via_msisdn";
    path := "/_matrix/client/r0/account/3pid/msisdn/requestToken";
    rate_limited := false;
    authentication := AuthNone
  |};
  ep_request := [
    Body (req "client_secret" c_client_secret);
    Body (req "country" c_string);
    Body (req "phone_number" c_string);
    Body (req "send_attempt" c_uint);
    Body (opt "next_link" c_string);
    Body (flat_opt IdentityServerInfo_fields)];
  ep_response := [
    RespBody (req "sid" c_session_id);
    RespBody (opt "submit_url" c_string)];
  ep_error := ClientError
|}.

#[export] Instance request_3pid_management_token_via_msisdn_lawful `{Unicode} : LawfulEndpoint api.
Proof. lawful_endpoint. Qed.
End request_3pid_management_token_via_msisdn.

Module request_openid_token.
Definition api : endpoint := {|
  ep_metadata := {|
    description := "Request an OpenID 1.0 token to verify identity with a third party.";
    method := "POST";
    name := "request_openid_token";
    path := "/_matrix/client/r0/user/:user_id/openid/request_token";
    rate_limited := true;
    authentication := AccessToken
  |};
  ep_request := [
    Path (p_id "user_id" UserId_parse)];
  ep_response := [
    RespBody (req "access_token" c_string);
    RespBody (req "token_type" (c_enum TokenType.TokenType));
    RespBody (req "matrix_server_name" c_server_name);
    RespBody (req "expires_in" c_secs)];
  ep_error := ClientError
|}.

#[export] Instance request_openid_token_lawful : LawfulEndpoint api.
Proof. lawful_endpoint. Qed.
End request_openid_token.

Module request_password_change_token_via_email.
Definition api `{Unicode} : endpoint := {|
  ep_metadata := {|
    description := "Request that a password change token is sent to the given email address.";
    method := "POST";
    name := "request_password_change_token_via_email";
    path := "/_matrix/client/r0/account/password/email/requestToken";
    rate_limited := false;
    authentication := AuthNone
  |};
  ep_request := [
    Body (req "client_secret" c_client_secret);
    Body (req "email" c_string);
    Body (req "send_attempt" c_uint);
    Body (opt "next_link" c_string);
    Body (flat_opt IdentityServerInfo_fields)];
  ep_response := [
    RespBody (req "sid" c_session_id);
    RespBody (opt "submit_url" c_string)];
  ep_error := ClientError
|}.

#[export] Instance request_password_change_token_via_email_lawful `{Unicode} : LawfulEndpoint api.
Proof. lawful_endpoint. Qed.
End request_password_change_token_via_email.

Module request_password_change_token_via_msisdn.
Definition api `{Unicode} : endpoint := {|
  ep_metadata := {|
    description := "Request that a password change token is sent to the given phone number.";
    method := "POST";
    name := "request_password_change_token_via_msisdn";
    path := "/_matrix/client/r0/account/password/msisdn/requestToken";
    rate_limited := false;
    authentication := AuthNone
  |};
  ep_request := [
    Body (req "client_secret" c_client_secret);
    Body (req "country" c_string);
    Body (req "phone_number" c_string);
    Body (req "send_attempt" c_uint);
    Body (opt "next_link" c_string)];
  ep_response := [
    RespBody (req "sid" c_session_id);
    RespBody (opt "submit_url" c_string)];
  ep_error := ClientError
|}.

#[export] Instance request_password_change_token_via_msisdn_lawful `{Unicode} : LawfulEndpoint api.
Proof. lawful_endpoint. Qed.
End request_password_change_token_via_msisdn.

Module request_registration_token_via_email.
Definition api `{Unicode} : endpoint := {|
  ep_metadata := {|
    description := "Request a registration token with a 3rd party email.";
    method := "POST";
    name := "request_registration_token_via_email";
    path := "/_matrix/client/r0/register/email/requestToken";
    rate_limited := false;
    authentication := AuthNone
  |};
  ep_request := [
    Body (req "client_secret" c_client_secret);
    Body (req "email" c_string);
    Body (req "send_attempt" c_uint);
    Body (opt "next_link" c_string);
    Body (flat_opt IdentityServerInfo_fields)];
  ep_response := [
    RespBody (req "sid" c_session_id);
    RespBody (opt "submit_url" c_string)];
  ep_error := ClientError
|}.

#[export] Instance request_registration_token_via_email_lawful `{Unicode} : LawfulEndpoint api.
Proof. lawful_endpoint. Qed.
End request_registration_token_via_email.

Module request_registration_token_via_msisdn.
Definition api `{Unicode} : endpoint := {|
  ep_metadata := {|
    description := "Request a registration token with a phone number.";
    method := "POST";
    name := "request_registration_token_via_msisdn";
    path := "/_matrix/client/r0/register/msisdn/requestToken";
    rate_limited := false;
    authentication := AuthNone
  |};
  ep_request := [
    Body (req "client_secret" c_client_secret);
    Body (req "country" c_string);
    Body (req "phone_number" c_string);
    Body (req "send_attempt" c_uint);
    Body (opt "next_link" c_string);
    Body (flat_opt IdentityServerInfo_fields)];
  ep_response := [
    RespBody (req "sid" c_session_id);
    RespBody (opt "submit_url" c_string)];
  ep_error := ClientError
|}.

#[export] Instance request_registration_token_via_msisdn_lawful `{Unicode} : LawfulEndpoint api.
Proof. lawful_endpoint. Qed.
End request_registration_token_via_msisdn.

Module unbind_3pid.
Definition api : endpoint := {|
  ep_metadata := {|
    description := "Unbind a 3PID from a user's account on an identity server.";
    method := "POST";
    name := "unbind_3pid";
    path := "/_matrix/client/r0/account/3pid/unbind";
    rate_limited := false;
    authentication := AccessToken
  |};
  ep_request := [
    Body (opt "id_server" c_string);
    Body (req "medium" (c_enum Medium.Medium));
    Body (req "address" c_string)];
  ep_response := [
    RespBody (req "id_server_unbind_result" (c_enum
      ThirdPartyIdRemovalStatus.ThirdPartyIdRemovalStatus))];
  ep_error := ClientError
|}.

#[export] Instance unbind_3pid_lawful : LawfulEndpoint api.
Proof. lawful_endpoint. Qed.
End unbind_3pid.

Module whoami.
Definition api : endpoint := {|
  ep_metadata := {|
    description := "Get information about the owner of a given access token.";
    method := "GET";
    name := "whoami";
    path := "/_matrix/client/r0/account/whoami";
    rate_limited := true;
    authentication := AccessToken
  |};
  ep_request := [];
  ep_response := [
    RespBody (req "user_id" c_user_id)];
  ep_error := ClientError
|}.

#[export] Instance whoami_lawful : LawfulEndpoint api.
Proof. lawful_endpoint. Qed.
End whoami.

Module create_alias.
Definition api : endpoint := {|
  ep_metadata := {|
    description := "Add an alias to a room.";
    method := "PUT";
    name := "create_alias";
    path := "/_matrix/client/r0/directory/room/:room_alias";
    rate_limited := false;
    authentication := AccessToken
  |};
  ep_request := [
    Path (p_id "room_alias" RoomAliasId_parse);
    Body (req "room_id" c_room_id)];
  ep_response := [];
  ep_error := ClientError
|}.

#[export] Instance create_alias_lawful : LawfulEndpoint api.
Proof. lawful_endpoint. Qed.
End create_alias.

Module delete_alias.
Definition api : endpoint := {|
  ep_metadata := {|
    description := "Remove an alias from a room.";
    method := "DELETE";
    name := "delete_alias";
    path := "/_matrix/client/r0/directory/room/:room_alias";
    rate_limited := false;
    authentication := AccessToken
  |};
  ep_request := [
    Path (p_id "room_alias" RoomAliasId_parse)];
  ep_response := [];
  ep_error := ClientError
|}.

#[export] Instance delete_alias_lawful : LawfulEndpoint api.
Proof. lawful_endpoint. Qed.
End delete_alias.

Module get_alias.
Definition api : endpoint := {|
  ep_metadata := {|
    description := "Resolve a room alias to a room ID.";
    method := "GET";
    name := "get_alias";
    path := "/_matrix/client/r0/directory/room/:room_alias";
    rate_limited := false;
    authentication := AuthNone
  |};
  ep_request := [
    Path (p_id "room_alias" RoomAliasId_parse)];
  ep_response := [
    RespBody (req "room_id" c_room_id);
    RespBody (req "servers" (c_list c_server_name))];
  ep_error := ClientError
|}.

#[export] Instance get_alias_lawful : LawfulEndpoint api.
Proof. lawful_endpoint. Qed.
End get_alias.

Module set_room_visibility.
Definition api : endpoint := {|
  ep_metadata := {|
    description :=
      "Updates the visibility of a given room on the application service's room directory.";
    method := "PUT";
    name := "set_room_visibility";
    path := "/_matrix/client/r0/directory/list/appservice/:network_id/:room_id";
    rate_limited := false;
    authentication := AccessToken
  |};
  ep_request := [
    Path (p_string "network_id");
    Path (p_id "room_id" RoomId_parse);
    Body (req "visibility" (c_enum Visibility.Visibility))];
  ep_response := [];
  ep_error := ClientError
|}.

#[export] Instance set_room_visibility_lawful : LawfulEndpoint api.
Proof. lawful_endpoint. Qed.
End set_room_visibility.
