(* ===== verification/ClientRooms.v ===== *)
(** * Client API: rooms and membership

    The endpoints of [r0/membership], [r0/user_directory], [r0/directory], [r0/redact], [r0/room]
    and, with the feature [unstable-pre-spec], [r0/knock]. *)

From S2P Require Import Prelude RustStr RustNet IdValidation StringEnum Identifiers Json.
From S2P Require Import CanonicalJson Serde UrlEncoded UrlEncodedSpec ClientErrors Uiaa UiaaSpec.
From S2P Require Import Codecs Http Api ApiPaths ApiQuery ApiSpec ApiTypes ClientTypes.
From Stdlib Require Import Ascii NArith.
Open Scope string_scope.
Open Scope nat_scope.
Open Scope list_scope.

Definition ThirdPartySigned `{Unicode} : codec := c_struct [
  req "sender" c_user_id;
  req "mxid" c_user_id;
  req "token" c_string;
  req "signatures" (c_id_map ServerName_parse (c_id_map KeyId_parse c_string))].

Definition Invite3pid_fields : list sfield := [
  req "id_server" c_string;
  req "id_access_token" c_string;
  req "medium" (c_enum Medium.Medium);
  req "address" c_string].
Definition Invite3pid : codec := c_struct Invite3pid_fields.

Module ban_user.
Definition api : endpoint := {|
  ep_metadata := {|
    description := "Ban a user from a room.";
    method := "POST";
    name := "ban_user";
    path := "/_matrix/client/r0/rooms/:room_id/ban";
    rate_limited := false;
    authentication := AccessToken
  |};
  ep_request := [
    Path (p_id "room_id" RoomId_parse);
    Body (req "user_id" c_user_id);
    Body (opt "reason" c_string)];
  ep_response := [];
  ep_error := ClientError
|}.

#[export] Instance ban_user_lawful : LawfulEndpoint api.
Proof. lawful_endpoint. Qed.
End ban_user.

Module forget_room.
Definition api : endpoint := {|
  ep_metadata := {|
    description := "Forget a room.";
    method := "POST";
    name := "forget_room";
    path := "/_matrix/client/r0/rooms/:room_id/forget";
    rate_limited := true;
    authentication := AccessToken
  |};
  ep_request := [
    Path (p_id "room_id" RoomId_parse)];
  ep_response := [];
  ep_error := ClientError
|}.

#[export] Instance forget_room_lawful : LawfulEndpoint api.
Proof. lawful_endpoint. Qed.
End forget_room.

Module get_member_events.
Module MembershipEventFilter.
Inductive MembershipEventFilter := Join | Invite | Leave | Ban | Custom (s : string).

#[export] Instance MembershipEventFilter_eq_dec : EqDecision MembershipEventFilter.
Proof. solve_decision. Defined.

#[export, refine] Instance MembershipEventFilter_enum : StringEnum MembershipEventFilter := {|
  rename_all := LowerCase;
  unit_variants :=
    [("Join", None, Join);
     ("Invite", None, Invite);
     ("Leave", None, Leave);
     ("Ban", None, Ban)];
  custom := Custom;
  custom_inner c := match c with Custom s => Some s | _ => None end
|}.
Proof. all: string_enum_laws. Defined.
End MembershipEventFilter.
Export (hints) MembershipEventFilter.

Definition api : endpoint := {|
  ep_metadata := {|
    description := "Get membership events for a room.";
    method := "GET";
    name := "get_member_events";
    path := "/_matrix/client/r0/rooms/:room_id/members";
    rate_limited := false;
    authentication := AccessToken
  |};
  ep_request := [
    Path (p_id "room_id" RoomId_parse);
    Query (q_opt "at" qc_string);
    Query (q_opt "membership" (qc_enum MembershipEventFilter.MembershipEventFilter));
    Query (q_opt "not_membership" (qc_enum MembershipEventFilter.MembershipEventFilter))];
  ep_response := [
    RespBody (req "chunk" (c_list c_raw))];
  ep_error := ClientError
|}.

#[export] Instance get_member_events_lawful : LawfulEndpoint api.
Proof. lawful_endpoint. Qed.
End get_member_events.

Module invite_user.
(** [untagged]: [UserId { user_id }] or [ThirdPartyId(Invite3pid)] *)
Definition InvitationRecipient : sfield := flat_or [req "user_id" c_user_id] Invite3pid_fields.

Definition api : endpoint := {|
  ep_metadata := {|
    description := "Invite a user to a room.";
    method := "POST";
    name := "invite_user";
    path := "/_matrix/client/r0/rooms/:room_id/invite";
    rate_limited := true;
    authentication := AccessToken
  |};
  ep_request := [
    Path (p_id "room_id" RoomId_parse);
    Body InvitationRecipient];
  ep_response := [];
  ep_error := ClientError
|}.

#[export] Instance invite_user_lawful : LawfulEndpoint api.
Proof. lawful_endpoint. Qed.
End invite_user.

Module join_room_by_id.
Definition api `{Unicode} : endpoint := {|
  ep_metadata := {|
    description := "Join a room using its ID.";
    method := "POST";
    name := "join_room_by_id";
    path := "/_matrix/client/r0/rooms/:room_id/join";
    rate_limited := true;
    authentication := AccessToken
  |};
  ep_request := [
    Path (p_id "room_id" RoomId_parse);
    Body (opt "third_party_signed" ThirdPartySigned)];
  ep_response := [
    RespBody (req "room_id" c_room_id)];
  ep_error := ClientError
|}.

#[export] Instance join_room_by_id_lawful `{Unicode} : LawfulEndpoint api.
Proof. lawful_endpoint. Qed.
End join_room_by_id.

Module join_room_by_id_or_alias.
Definition api `{Unicode} : endpoint := {|
  ep_metadata := {|
    description := "Join a room using its ID or one of its aliases.";
    method := "POST";
    name := "join_room_by_id_or_alias";
    path := "/_matrix/client/r0/join/:room_id_or_alias";
    rate_limited := true;
    authentication := AccessToken
  |};
  ep_request := [
    Path (p_id "room_id_or_alias" RoomOrAliasId_parse);
    Query (q_dflt "server_name" (qc_list (qc_parsed ServerName_parse)) [] list_is_empty);
    Body (opt "third_party_signed" ThirdPartySigned)];
  ep_response := [
    RespBody (req "room_id" c_room_id)];
  ep_error := ClientError
|}.

#[export] Instance join_room_by_id_or_alias_lawful `{Unicode} : LawfulEndpoint api.
Proof. lawful_endpoint. Qed.
End join_room_by_id_or_alias.

Module joined_members.
Definition RoomMember : codec := c_struct [
  opt "display_name" c_string;
  opt "avatar_url" c_string].

Definition api : endpoint := {|
  ep_metadata := {|
    description :=
      "Get a map of user ids to member info objects for members of the room. Primarily for use in Application Services.";
    method := "GET";
    name := "joined_members";
    path := "/_matrix/client/r0/rooms/:room_id/joined_members";
    rate_limited := false;
    authentication := AccessToken
  |};
  ep_request := [
    Path (p_id "room_id" RoomId_parse)];
  ep_response := [
    RespBody (req "joined" (c_id_map UserId_parse RoomMember))];
  ep_error := ClientError
|}.

#[export] Instance joined_members_lawful : LawfulEndpoint api.
Proof. lawful_endpoint. Qed.
End joined_members.

Module joined_rooms.
Definition api : endpoint := {|
  ep_metadata := {|
    description := "Get a list of the user's current rooms.";
    method := "GET";
    name := "joined_rooms";
    path := "/_matrix/client/r0/joined_rooms";
    rate_limited := false;
    authentication := AccessToken
  |};
  ep_request := [];
  ep_response := [
    RespBody (req "joined_rooms" (c_list c_room_id))];
  ep_error := ClientError
|}.

#[export] Instance joined_rooms_lawful : LawfulEndpoint api.
Proof. lawful_endpoint. Qed.
End joined_rooms.

Module kick_user.
Definition api : endpoint := {|
  ep_metadata := {|
    description := "Kick a user from a room.";
    method := "POST";
    name := "kick_user";
    path := "/_matrix/client/r0/rooms/:room_id/kick";
    rate_limited := false;
    authentication := AccessToken
  |};
  ep_request := [
    Path (p_id "room_id" RoomId_parse);
    Body (req "user_id" c_user_id);
    Body (opt "reason" c_string)];
  ep_response := [];
  ep_error := ClientError
|}.

#[export] Instance kick_user_lawful : LawfulEndpoint api.
Proof. lawful_endpoint. Qed.
End kick_user.

Module leave_room.
Definition api : endpoint := {|
  ep_metadata := {|
    description := "Leave a room.";
    method := "POST";
    name := "leave_room";
    path := "/_matrix/client/r0/rooms/:room_id/leave";
    rate_limited := true;
    authentication := AccessToken
  |};
  ep_request := [
    Path (p_id "room_id" RoomId_parse)];
  ep_response := [];
  ep_error := ClientError
|}.

#[export] Instance leave_room_lawful : LawfulEndpoint api.
Proof. lawful_endpoint. Qed.
End leave_room.

Module unban_user.
Definition api : endpoint := {|
  ep_metadata := {|
    description := "Unban a user from a room.";
    method := "POST";
    name := "unban_user";
    path := "/_matrix/client/r0/rooms/:room_id/unban";
    rate_limited := false;
    authentication := AccessToken
  |};
  ep_request := [
    Path (p_id "room_id" RoomId_parse);
    Body (req "user_id" c_user_id)];
  ep_response := [];
  ep_error := ClientError
|}.

#[export] Instance unban_user_lawful : LawfulEndpoint api.
Proof. lawful_endpoint. Qed.
End unban_user.

Module search_users.
Definition default_limit : Z := 10.
Definition is_default_limit (limit : Z) : bool := bool_decide (limit = default_limit).

Definition User : codec := c_struct [
  req "user_id" c_user_id;
  opt "display_name" c_string;
  opt "avatar_url" c_string].

Definition api : endpoint := {|
  ep_metadata := {|
    description := "Performs a search for users.";
    method := "POST";
    name := "search_users";
    path := "/_matrix/client/r0/user_directory/search";
    rate_limited := true;
    authentication := AccessToken
  |};
  ep_request := [
    Body (req "search_term" c_string);
    Body (dflt "limit" c_uint default_limit is_default_limit);
    Header {| h_name := "ACCEPT_LANGUAGE"; h_optional := true |}];
  ep_response := [
    RespBody (req "results" (c_list User));
    RespBody (req "limited" c_bool)];
  ep_error := ClientError
|}.

#[export] Instance search_users_lawful : LawfulEndpoint api.
Proof. lawful_endpoint. Qed.
End search_users.

Module directory.
Definition PublicRoomsChunk : codec := c_struct [
  vec "aliases" c_room_alias_id;
  opt "canonical_alias" c_room_alias_id;
  opt "name" c_room_name;
  req "num_joined_members" c_uint;
  req "room_id" c_room_id;
  opt "topic" c_string;
  req "world_readable" c_bool;
  req "guest_can_join" c_bool;
  opt "avatar_url" c_string].
End directory.

Module get_public_rooms.
Definition api : endpoint := {|
  ep_metadata := {|
    description := "Get the list of rooms in this homeserver's public directory.";
    method := "GET";
    name := "get_public_rooms";
    path := "/_matrix/client/r0/publicRooms";
    rate_limited := false;
    authentication := AuthNone
  |};
  ep_request := [
    Query (q_opt "limit" qc_uint);
    Query (q_opt "since" qc_string);
    Query (q_opt "server" (qc_parsed ServerName_parse))];
  ep_response := [
    RespBody (req "chunk" (c_list PublicRoomsChunk));
    RespBody (opt "next_batch" c_string);
    RespBody (opt "prev_batch" c_string);
    RespBody (opt "total_room_count_estimate" c_uint)];
  ep_error := ClientError
|}.

#[export] Instance get_public_rooms_lawful : LawfulEndpoint api.
Proof. lawful_endpoint. Qed.
End get_public_rooms.

Module get_public_rooms_filtered.
Definition api : endpoint := {|
  ep_metadata := {|
    description := "Get the list of rooms in this homeserver's public directory.";
    method := "POST";
    name := "get_public_rooms_filtered";
    path := "/_matrix/client/r0/publicRooms";
    rate_limited := false;
    authentication := AccessToken
  |};
  ep_request := [
    Query (q_opt "server" (qc_parsed ServerName_parse));
    Body (opt "limit" c_uint);
    Body (opt "since" c_string);
    Body (dflt "filter" Filter (None, ()) Filter_is_empty);
    Body flat_room_network];
  ep_response := [
    RespBody (req "chunk" (c_list PublicRoomsChunk));
    RespBody (opt "next_batch" c_string);
    RespBody (opt "prev_batch" c_string);
    RespBody (opt "total_room_count_estimate" c_uint)];
  ep_error := ClientError
|}.

#[export] Instance get_public_rooms_filtered_lawful : LawfulEndpoint api.
Proof. lawful_endpoint. Qed.
End get_public_rooms_filtered.

Module get_room_visibility.
Definition api : endpoint := {|
  ep_metadata := {|
    description := "Get the visibility of a public room on a directory.";
    method := "GET";
    name := "get_room_visibility";
    path := "/_matrix/client/r0/directory/list/room/:room_id";
    rate_limited := false;
    authentication := AuthNone
  |};
  ep_request := [
    Path (p_id "room_id" RoomId_parse)];
  ep_response := [
    RespBody (req "visibility" (c_enum Visibility.Visibility))];
  ep_error := ClientError
|}.

#[export] Instance get_room_visibility_lawful : LawfulEndpoint api.
Proof. lawful_endpoint. Qed.
End get_room_visibility.

Module set_room_visibility.
Definition api : endpoint := {|
  ep_metadata := {|
    description := "Set the visibility of a public room on a directory.";
    method := "PUT";
    name := "set_room_visibility";
    path := "/_matrix/client/r0/directory/list/room/:room_id";
    rate_limited := false;
    authentication := AccessToken
  |};
  ep_request := [
    Path (p_id "room_id" RoomId_parse);
    Body (req "visibility" (c_enum Visibility.Visibility))];
  ep_response := [];
  ep_error := ClientError
|}.

#[export] Instance set_room_visibility_lawful : LawfulEndpoint api.
Proof. lawful_endpoint. Qed.
End set_room_visibility.

Module knock_room.
Definition api : endpoint := {|
  ep_metadata := {|
    description := "Knock on a room.";
    method := "POST";
    name := "knock_room";
    path := "/_matrix/client/r0/knock/:room_id_or_alias";
    rate_limited := true;
    authentication := AccessToken
  |};
  ep_request := [
    Path (p_id "room_id_or_alias" RoomOrAliasId_parse);
    Body (opt "reason" c_string);
    Query (q_dflt "server_name" (qc_list (qc_parsed ServerName_parse)) [] list_is_empty)];
  ep_response := [
    RespBody (req "room_id" c_room_id)];
  ep_error := DefaultError
|}.

#[export] Instance knock_room_lawful : LawfulEndpoint api.
Proof. lawful_endpoint. Qed.
End knock_room.

Module redact_event.
Definition api : endpoint := {|
  ep_metadata := {|
    description :=
      "Redact an event, stripping all information not critical to the event graph integrity.";
    method := "PUT";
    name := "redact_event";
    path := "/_matrix/client/r0/rooms/:room_id/redact/:event_id/:txn_id";
    rate_limited := false;
    authentication := AccessToken
  |};
  ep_request := [
    Path (p_id "room_id" RoomId_parse);
    Path (p_id "event_id" EventId_parse);
    Path (p_string "txn_id");
    Body (opt "reason" c_string)];
  ep_response := [
    RespBody (req "event_id" c_event_id)];
  ep_error := ClientError
|}.

#[export] Instance redact_event_lawful : LawfulEndpoint api.
Proof. lawful_endpoint. Qed.
End redact_event.

Module aliases.
Definition api : endpoint := {|
  ep_metadata := {|
    description := "Get a list of aliases maintained by the local server for the given room.";
    method := "GET";
    name := "aliases";
    path := "/_matrix/client/r0/rooms/:room_id/aliases";
    rate_limited := true;
    authentication := AccessToken
  |};
  ep_request := [
    Path (p_id "room_id" RoomId_parse)];
  ep_response := [
    RespBody (req "aliases" (c_list c_room_alias_id))];
  ep_error := ClientError
|}.

#[export] Instance aliases_lawful : LawfulEndpoint api.
Proof. lawful_endpoint. Qed.
End aliases.

Module create_room.
(** ruma-events/src/room/create.rs *)
Definition c_previous_room : codec := c_struct [
  req "room_id" c_room_id;
  req "event_id" c_event_id].

Definition CreationContent : codec := c_struct [
  dflt "m.federate" c_bool true id;
  opt "predecessor" c_previous_room].

Module RoomPreset.
Inductive RoomPreset := PrivateChat | PublicChat | TrustedPrivateChat | Custom (s : string).

#[export] Instance RoomPreset_eq_dec : EqDecision RoomPreset.
Proof. solve_decision. Defined.

#[export, refine] Instance RoomPreset_enum : StringEnum RoomPreset := {|
  rename_all := SnakeCase;
  unit_variants :=
    [("PrivateChat", None, PrivateChat);
     ("PublicChat", None, PublicChat);
     ("TrustedPrivateChat", None, TrustedPrivateChat)];
  custom := Custom;
  custom_inner c := match c with Custom s => Some s | _ => None end
|}.
Proof. all: string_enum_laws. Defined.
End RoomPreset.
Export (hints) RoomPreset.

Definition api : endpoint := {|
  ep_metadata := {|
    description := "Create a new room.";
    method := "POST";
    name := "create_room";
    path := "/_matrix/client/r0/createRoom";
    rate_limited := false;
    authentication := AccessToken
  |};
  ep_request := [
    Body (opt "creation_content" c_raw);
    Body (vec "initial_state" c_raw);
    Body (vec "invite" c_user_id);
    Body (vec "invite_3pid" Invite3pid);
    Body (flag "is_direct");
    Body (opt "name" c_room_name);
    Body (opt "power_level_content_override" c_raw);
    Body (opt "preset" (c_enum RoomPreset.RoomPreset));
    Body (opt "room_alias_name" c_string);
    Body (opt "room_version" c_room_version_id);
    Body (opt "topic" c_string);
    Body (dflt "visibility" (c_enum Visibility.Visibility) Visibility.Private (λ a, bool_decide (a
      = Visibility.Private)))];
  ep_response := [
    RespBody (req "room_id" c_room_id)];
  ep_error := ClientError
|}.

#[export] Instance create_room_lawful : LawfulEndpoint api.
Proof. lawful_endpoint. Qed.
End create_room.

Module get_room_event.
Definition api : endpoint := {|
  ep_metadata := {|
    description := "Get a single event based on roomId/eventId";
    method := "GET";
    name := "get_room_event";
    path := "/_matrix/client/r0/rooms/:room_id/event/:event_id";
    rate_limited := false;
    authentication := AccessToken
  |};
  ep_request := [
    Path (p_id "room_id" RoomId_parse);
    Path (p_id "event_id" EventId_parse)];
  ep_response := [
    RespNewtypeBody c_raw];
  ep_error := ClientError
|}.

#[export] Instance get_room_event_lawful : LawfulEndpoint api.
Proof. lawful_endpoint. Qed.
End get_room_event.

Module report_content.
Definition api : endpoint := {|
  ep_metadata := {|
    description := "Report content as inappropriate.";
    method := "POST";
    name := "report_content";
    path := "/_matrix/client/r0/rooms/:room_id/report/:event_id";
    rate_limited := false;
    authentication := AccessToken
  |};
  ep_request := [
    Path (p_id "room_id" RoomId_parse);
    Path (p_id "event_id" EventId_parse);
    Body (req "score" c_int);
    Body (req "reason" c_string)];
  ep_response := [];
  ep_error := ClientError
|}.

#[export] Instance report_content_lawful : LawfulEndpoint api.
Proof. lawful_endpoint. Qed.
End report_content.

Module upgrade_room.
Definition api : endpoint := {|
  ep_metadata := {|
    description := "Upgrades a room to a particular version.";
    method := "POST";
    name := "upgrade_room";
    path := "/_matrix/client/r0/rooms/:room_id/upgrade";
    rate_limited := false;
    authentication := AccessToken
  |};
  ep_request := [
    Path (p_id "room_id" RoomId_parse);
    Body (req "new_version" c_room_version_id)];
  ep_response := [
    RespBody (req "replacement_room" c_room_id)];
  ep_error := ClientError
|}.

#[export] Instance upgrade_room_lawful : LawfulEndpoint api.
Proof. lawful_endpoint. Qed.
End upgrade_room.
