(* ===== verification/ClientMedia.v ===== *)
(** * Client API: profiles, presence and other services

    The endpoints of [r0/media], [r0/profile], [r0/presence], [r0/tag], [r0/typing], [r0/receipt],
    [r0/read_marker], [r0/voip], [r0/config], [r0/thirdparty] and [r0/server]. *)

From S2P Require Import Prelude RustStr RustNet IdValidation StringEnum Identifiers Json.
From S2P Require Import CanonicalJson Serde Codecs UrlEncoded UrlEncodedSpec ClientErrors.
From S2P Require Import Uiaa UiaaSpec Http Api ApiPaths ApiQuery ApiSpec ApiTypes ClientTypes.
From Stdlib Require Import Ascii NArith.
Open Scope string_scope.
Open Scope nat_scope.
Open Scope list_scope.

Module get_global_account_data.
Definition api : endpoint := {|
  ep_metadata := {|
    description := "Gets global account data for a user.";
    method := "GET";
    name := "get_global_account_data";
    path := "/_matrix/client/r0/user/:user_id/account_data/:event_type";
    rate_limited := false;
    authentication := AccessToken
  |};
  ep_request := [
    Path (p_id "user_id" UserId_parse);
    Path (p_string "event_type")];
  ep_response := [
    RespNewtypeBody c_raw];
  ep_error := ClientError
|}.

#[export] Instance get_global_account_data_lawful : LawfulEndpoint api.
Proof. lawful_endpoint. Qed.
End get_global_account_data.

Module get_room_account_data.
Definition api : endpoint := {|
  ep_metadata := {|
    description := "Gets account data room for a user for a given room";
    method := "GET";
    name := "get_room_account_data";
    path := "/_matrix/client/r0/user/:user_id/rooms/:room_id/account_data/:event_type";
    rate_limited := false;
    authentication := AccessToken
  |};
  ep_request := [
    Path (p_id "user_id" UserId_parse);
    Path (p_id "room_id" RoomId_parse);
    Path (p_string "event_type")];
  ep_response := [
    RespNewtypeBody c_raw];
  ep_error := ClientError
|}.

#[export] Instance get_room_account_data_lawful : LawfulEndpoint api.
Proof. lawful_endpoint. Qed.
End get_room_account_data.

Module set_global_account_data.
Definition api : endpoint := {|
  ep_metadata := {|
    description := "Sets global account data.";
    method := "PUT";
    name := "set_global_account_data";
    path := "/_matrix/client/r0/user/:user_id/account_data/:event_type";
    rate_limited := false;
    authentication := AccessToken
  |};
  ep_request := [
    Path (p_id "user_id" UserId_parse);
    Path (p_string "event_type");
    NewtypeBody c_raw];
  ep_response := [];
  ep_error := ClientError
|}.

#[export] Instance set_global_account_data_lawful : LawfulEndpoint api.
Proof. lawful_endpoint. Qed.
End set_global_account_data.

Module set_room_account_data.
Definition api : endpoint := {|
  ep_metadata := {|
    description := "Associate account data with a room.";
    method := "PUT";
    name := "set_room_account_data";
    path := "/_matrix/client/r0/user/:user_id/rooms/:room_id/account_data/:event_type";
    rate_limited := false;
    authentication := AccessToken
  |};
  ep_request := [
    NewtypeBody c_raw;
    Path (p_string "event_type");
    Path (p_id "room_id" RoomId_parse);
    Path (p_id "user_id" UserId_parse)];
  ep_response := [];
  ep_error := ClientError
|}.

#[export] Instance set_room_account_data_lawful : LawfulEndpoint api.
Proof. lawful_endpoint. Qed.
End set_room_account_data.

Module create_content.
Definition api : endpoint := {|
  ep_metadata := {|
    description := "Upload content to the media store.";
    method := "POST";
    name := "create_media_content";
    path := "/_matrix/media/r0/upload";
    rate_limited := true;
    authentication := AccessToken
  |};
  ep_request := [
    RawBody;
    Query (q_opt "filename" qc_string);
    Header {| h_name := "CONTENT_TYPE"; h_optional := true |}];
  ep_response := [
    RespBody (req "content_uri" c_string)];
  ep_error := ClientError
|}.

#[export] Instance create_content_lawful : LawfulEndpoint api.
Proof. lawful_endpoint. Qed.
End create_content.

Module get_content.
Definition api : endpoint := {|
  ep_metadata := {|
    description := "Retrieve content from the media store.";
    method := "GET";
    name := "get_media_content";
    path := "/_matrix/media/r0/download/:server_name/:media_id";
    rate_limited := false;
    authentication := AuthNone
  |};
  ep_request := [
    Path (p_string "media_id");
    Path (p_id "server_name" ServerName_parse);
    Query (q_dflt "allow_remote" qc_bool true id)];
  ep_response := [
    RespRawBody;
    RespHeader {| h_name := "CONTENT_TYPE"; h_optional := true |};
    RespHeader {| h_name := "CONTENT_DISPOSITION"; h_optional := true |}];
  ep_error := ClientError
|}.

#[export] Instance get_content_lawful : LawfulEndpoint api.
Proof. lawful_endpoint. Qed.
End get_content.

Module get_content_as_filename.
Definition api : endpoint := {|
  ep_metadata := {|
    description := "Retrieve content from the media store, specifying a filename to return.";
    method := "GET";
    name := "get_media_content_as_filename";
    path := "/_matrix/media/r0/download/:server_name/:media_id/:filename";
    rate_limited := false;
    authentication := AuthNone
  |};
  ep_request := [
    Path (p_string "media_id");
    Path (p_id "server_name" ServerName_parse);
    Path (p_string "filename");
    Query (q_dflt "allow_remote" qc_bool true id)];
  ep_response := [
    RespRawBody;
    RespHeader {| h_name := "CONTENT_TYPE"; h_optional := true |};
    RespHeader {| h_name := "CONTENT_DISPOSITION"; h_optional := true |}];
  ep_error := ClientError
|}.

#[export] Instance get_content_as_filename_lawful : LawfulEndpoint api.
Proof. lawful_endpoint. Qed.
End get_content_as_filename.

Module get_content_thumbnail.
Module Method.
Inductive Method := Crop | Scale | Custom (s : string).

#[export] Instance Method_eq_dec : EqDecision Method.
Proof. solve_decision. Defined.

#[export, refine] Instance Method_enum : StringEnum Method := {|
  rename_all := SnakeCase;
  unit_variants :=
    [("Crop", None, Crop);
     ("Scale", None, Scale)];
  custom := Custom;
  custom_inner c := match c with Custom s => Some s | _ => None end
|}.
Proof. all: string_enum_laws. Defined.
End Method.
Export (hints) Method.

Definition api : endpoint := {|
  ep_metadata := {|
    description := "Get a thumbnail of content from the media store.";
    method := "GET";
    name := "get_content_thumbnail";
    path := "/_matrix/media/r0/thumbnail/:server_name/:media_id";
    rate_limited := true;
    authentication := AuthNone
  |};
  ep_request := [
    Path (p_string "media_id");
    Path (p_id "server_name" ServerName_parse);
    Query (q_opt "method" (qc_enum Method.Method));
    Query (q_req "width" qc_uint);
    Query (q_req "height" qc_uint);
    Query (q_dflt "allow_remote" qc_bool true id)];
  ep_response := [
    RespRawBody;
    RespHeader {| h_name := "CONTENT_TYPE"; h_optional := true |}];
  ep_error := ClientError
|}.

#[export] Instance get_content_thumbnail_lawful : LawfulEndpoint api.
Proof. lawful_endpoint. Qed.
End get_content_thumbnail.

Module get_media_config.
Definition api : endpoint := {|
  ep_metadata := {|
    description := "Gets the config for the media repository.";
    method := "GET";
    name := "get_media_config";
    path := "/_matrix/media/r0/config";
    rate_limited := true;
    authentication := AccessToken
  |};
  ep_request := [];
  ep_response := [
    RespBody (req "m.upload.size" c_uint)];
  ep_error := ClientError
|}.

#[export] Instance get_media_config_lawful : LawfulEndpoint api.
Proof. lawful_endpoint. Qed.
End get_media_config.

Module get_media_preview.
Definition api : endpoint := {|
  ep_metadata := {|
    description := "Get a preview for a URL.";
    method := "GET";
    name := "get_media_preview";
    path := "/_matrix/media/r0/preview_url";
    rate_limited := true;
    authentication := AccessToken
  |};
  ep_request := [
    Query (q_req "url" qc_string);
    Query (q_req "ts" qc_uint)];
  ep_response := [
    RespNewtypeBody (c_option c_raw)];
  ep_error := ClientError
|}.

#[export] Instance get_media_preview_lawful : LawfulEndpoint api.
Proof. lawful_endpoint. Qed.
End get_media_preview.

Module get_presence.
Definition api : endpoint := {|
  ep_metadata := {|
    description := "Get presence status for this user.";
    method := "GET";
    name := "get_presence";
    path := "/_matrix/client/r0/presence/:user_id/status";
    rate_limited := false;
    authentication := AccessToken
  |};
  ep_request := [
    Path (p_id "user_id" UserId_parse)];
  ep_response := [
    RespBody (opt "status_msg" c_string);
    RespBody (opt "currently_active" c_bool);
    RespBody (opt_ms "last_active_ago");
    RespBody (req "presence" (c_enum PresenceState.PresenceState))];
  ep_error := ClientError
|}.

#[export] Instance get_presence_lawful : LawfulEndpoint api.
Proof. lawful_endpoint. Qed.
End get_presence.

Module set_presence.
Definition api : endpoint := {|
  ep_metadata := {|
    description := "Set presence status for this user.";
    method := "PUT";
    name := "set_presence";
    path := "/_matrix/client/r0/presence/:user_id/status";
    rate_limited := true;
    authentication := AccessToken
  |};
  ep_request := [
    Path (p_id "user_id" UserId_parse);
    Body (req "presence" (c_enum PresenceState.PresenceState));
    Body (opt "status_msg" c_string)];
  ep_response := [];
  ep_error := ClientError
|}.

#[export] Instance set_presence_lawful : LawfulEndpoint api.
Proof. lawful_endpoint. Qed.
End set_presence.

Module get_avatar_url.
Definition api : endpoint := {|
  ep_metadata := {|
    description := "Get the avatar URL of a user.";
    method := "GET";
    name := "get_avatar_url";
    path := "/_matrix/client/r0/profile/:user_id/avatar_url";
    rate_limited := false;
    authentication := AuthNone
  |};
  ep_request := [
    Path (p_id "user_id" UserId_parse)];
  ep_response := [
    RespBody (opt "avatar_url" c_string)];
  ep_error := ClientError
|}.

#[export] Instance get_avatar_url_lawful : LawfulEndpoint api.
Proof. lawful_endpoint. Qed.
End get_avatar_url.

Module get_display_name.
Definition api : endpoint := {|
  ep_metadata := {|
    description := "Get the display name of a user.";
    method := "GET";
    name := "get_display_name";
    path := "/_matrix/client/r0/profile/:user_id/displayname";
    rate_limited := false;
    authentication := AuthNone
  |};
  ep_request := [
    Path (p_id "user_id" UserId_parse)];
  ep_response := [
    RespBody (opt "displayname" c_string)];
  ep_error := ClientError
|}.

#[export] Instance get_display_name_lawful : LawfulEndpoint api.
Proof. lawful_endpoint. Qed.
End get_display_name.

Module get_profile.
Definition api : endpoint := {|
  ep_metadata := {|
    description := "Get all profile information of an user.";
    method := "GET";
    name := "get_profile";
    path := "/_matrix/client/r0/profile/:user_id";
    rate_limited := false;
    authentication := AuthNone
  |};
  ep_request := [
    Path (p_id "user_id" UserId_parse)];
  ep_response := [
    RespBody (opt "avatar_url" c_string);
    RespBody (opt "displayname" c_string)];
  ep_error := ClientError
|}.

#[export] Instance get_profile_lawful : LawfulEndpoint api.
Proof. lawful_endpoint. Qed.
End get_profile.

Module set_avatar_url.
Definition api : endpoint := {|
  ep_metadata := {|
    description := "Set the avatar URL of the user.";
    method := "PUT";
    name := "set_avatar_url";
    path := "/_matrix/client/r0/profile/:user_id/avatar_url";
    rate_limited := true;
    authentication := AccessToken
  |};
  ep_request := [
    Path (p_id "user_id" UserId_parse);
    Body (nullable "avatar_url" c_string)];
  ep_response := [];
  ep_error := ClientError
|}.

#[export] Instance set_avatar_url_lawful : LawfulEndpoint api.
Proof. lawful_endpoint. Qed.
End set_avatar_url.

Module set_display_name.
Definition api : endpoint := {|
  ep_metadata := {|
    description := "Set the display name of the user.";
    method := "PUT";
    name := "set_display_name";
    path := "/_matrix/client/r0/profile/:user_id/displayname";
    rate_limited := true;
    authentication := AccessToken
  |};
  ep_request := [
    Path (p_id "user_id" UserId_parse);
    Body (opt "displayname" c_string)];
  ep_response := [];
  ep_error := ClientError
|}.

#[export] Instance set_display_name_lawful : LawfulEndpoint api.
Proof. lawful_endpoint. Qed.
End set_display_name.

Module set_read_marker.
Definition api : endpoint := {|
  ep_metadata := {|
    description :=
      "Sets the position of the read marker for a given room, and optionally the read receipt's location.";
    method := "POST";
    name := "set_read_marker";
    path := "/_matrix/client/r0/rooms/:room_id/read_markers";
    rate_limited := true;
    authentication := AccessToken
  |};
  ep_request := [
    Path (p_id "room_id" RoomId_parse);
    Body (req "m.fully_read" c_event_id);
    Body (opt "m.read" c_event_id)];
  ep_response := [];
  ep_error := ClientError
|}.

#[export] Instance set_read_marker_lawful : LawfulEndpoint api.
Proof. lawful_endpoint. Qed.
End set_read_marker.

Module create_receipt.
Definition api : endpoint := {|
  ep_metadata := {|
    description := "Send a receipt event to a room.";
    method := "POST";
    name := "create_receipt";
    path := "/_matrix/client/r0/rooms/:room_id/receipt/:receipt_type/:event_id";
    rate_limited := true;
    authentication := AccessToken
  |};
  ep_request := [
    Path (p_id "room_id" RoomId_parse);
    Path (p_enum "receipt_type" ReceiptType.ReceiptType);
    Path (p_id "event_id" EventId_parse)];
  ep_response := [];
  ep_error := ClientError
|}.

#[export] Instance create_receipt_lawful : LawfulEndpoint api.
Proof. lawful_endpoint. Qed.
End create_receipt.

Module get_user_info.
Definition ConnectionInfo : codec := c_struct [
  nullable "ip" c_string;
  nullable "last_seen" c_uint;
  nullable "user_agent" c_string].

Definition SessionInfo : codec := c_struct [
  vec "connections" ConnectionInfo].

Definition DeviceInfo : codec := c_struct [
  vec "sessions" SessionInfo].

Definition api : endpoint := {|
  ep_metadata := {|
    description := "Get information about a particular user.";
    method := "GET";
    name := "get_user_info";
    path := "/_matrix/client/r0/admin/whois/:user_id";
    rate_limited := false;
    authentication := AccessToken
  |};
  ep_request := [
    Path (p_id "user_id" UserId_parse)];
  ep_response := [
    RespBody (opt "user_id" c_user_id);
    RespBody (str_map "devices" DeviceInfo)];
  ep_error := ClientError
|}.

#[export] Instance get_user_info_lawful : LawfulEndpoint api.
Proof. lawful_endpoint. Qed.
End get_user_info.

Module create_tag.
Definition api : endpoint := {|
  ep_metadata := {|
    description := "Add a new tag to a room.";
    method := "PUT";
    name := "create_tag";
    path := "/_matrix/client/r0/user/:user_id/rooms/:room_id/tags/:tag";
    rate_limited := false;
    authentication := AccessToken
  |};
  ep_request := [
    Path (p_id "user_id" UserId_parse);
    Path (p_id "room_id" RoomId_parse);
    Path (p_string "tag");
    NewtypeBody TagInfo];
  ep_response := [];
  ep_error := ClientError
|}.

#[export] Instance create_tag_lawful : LawfulEndpoint api.
Proof. lawful_endpoint. Qed.
End create_tag.

Module delete_tag.
Definition api : endpoint := {|
  ep_metadata := {|
    description := "Remove a tag from a room.";
    method := "DELETE";
    name := "delete_tag";
    path := "/_matrix/client/r0/user/:user_id/rooms/:room_id/tags/:tag";
    rate_limited := false;
    authentication := AccessToken
  |};
  ep_request := [
    Path (p_id "user_id" UserId_parse);
    Path (p_id "room_id" RoomId_parse);
    Path (p_string "tag")];
  ep_response := [];
  ep_error := ClientError
|}.

#[export] Instance delete_tag_lawful : LawfulEndpoint api.
Proof. lawful_endpoint. Qed.
End delete_tag.

Module get_tags.
Definition api : endpoint := {|
  ep_metadata := {|
    description := "Get the tags associated with a room.";
    method := "GET";
    name := "get_tags";
    path := "/_matrix/client/r0/user/:user_id/rooms/:room_id/tags";
    rate_limited := false;
    authentication := AccessToken
  |};
  ep_request := [
    Path (p_id "user_id" UserId_parse);
    Path (p_id "room_id" RoomId_parse)];
  ep_response := [
    RespBody (req "tags" Tags)];
  ep_error := ClientError
|}.

#[export] Instance get_tags_lawful : LawfulEndpoint api.
Proof. lawful_endpoint. Qed.
End get_tags.

Module get_location_for_protocol.
Definition api : endpoint := {|
  ep_metadata := {|
    description := "Fetches third party locations for a protocol.";
    method := "GET";
    name := "get_location_for_protocol";
    path := "/_matrix/client/r0/thirdparty/location/:protocol";
    rate_limited := false;
    authentication := AccessToken
  |};
  ep_request := [
    Path (p_string "protocol");
    QueryMap];
  ep_response := [
    RespNewtypeBody (c_list Location)];
  ep_error := ClientError
|}.

#[export] Instance get_location_for_protocol_lawful : LawfulEndpoint api.
Proof. lawful_endpoint. Qed.
End get_location_for_protocol.

Module get_location_for_room_alias.
Definition api : endpoint := {|
  ep_metadata := {|
    description := "Retrieve an array of third party network locations from a Matrix room alias.";
    method := "GET";
    name := "get_location_for_room_alias";
    path := "/_matrix/client/r0/thirdparty/location";
    rate_limited := false;
    authentication := AccessToken
  |};
  ep_request := [
    Query (q_req "alias" (qc_parsed RoomAliasId_parse))];
  ep_response := [
    RespNewtypeBody (c_list Location)];
  ep_error := ClientError
|}.

#[export] Instance get_location_for_room_alias_lawful : LawfulEndpoint api.
Proof. lawful_endpoint. Qed.
End get_location_for_room_alias.

Module get_protocol.
Definition api : endpoint := {|
  ep_metadata := {|
    description :=
      "Fetches the metadata from the homeserver about a particular third party protocol.";
    method := "GET";
    name := "get_protocol";
    path := "/_matrix/client/r0/thirdparty/protocol/:protocol";
    rate_limited := false;
    authentication := AccessToken
  |};
  ep_request := [
    Path (p_string "protocol")];
  ep_response := [
    RespNewtypeBody Protocol];
  ep_error := ClientError
|}.

#[export] Instance get_protocol_lawful : LawfulEndpoint api.
Proof. lawful_endpoint. Qed.
End get_protocol.

Module get_protocols.
Definition api : endpoint := {|
  ep_metadata := {|
    description := "Fetches the overall metadata about protocols supported by the homeserver.";
    method := "GET";
    name := "get_protocols";
    path := "/_matrix/client/r0/thirdparty/protocols";
    rate_limited := false;
    authentication := AccessToken
  |};
  ep_request := [];
  ep_response := [
    RespNewtypeBody (c_map Protocol)];
  ep_error := ClientError
|}.

#[export] Instance get_protocols_lawful : LawfulEndpoint api.
Proof. lawful_endpoint. Qed.
End get_protocols.

Module get_user_for_protocol.
Definition api : endpoint := {|
  ep_metadata := {|
    description := "Fetches third party users for a protocol.";
    method := "GET";
    name := "get_user_for_protocol";
    path := "/_matrix/client/r0/thirdparty/user/:protocol";
    rate_limited := false;
    authentication := AccessToken
  |};
  ep_request := [
    Path (p_string "protocol");
    QueryMap];
  ep_response := [
    RespNewtypeBody (c_list User)];
  ep_error := ClientError
|}.

#[export] Instance get_user_for_protocol_lawful : LawfulEndpoint api.
Proof. lawful_endpoint. Qed.
End get_user_for_protocol.

Module get_user_for_user_id.
Definition api : endpoint := {|
  ep_metadata := {|
    description := "Retrieve an array of third party users from a Matrix User ID.";
    method := "GET";
    name := "get_user_for_user_id";
    path := "/_matrix/client/r0/thirdparty/user";
    rate_limited := false;
    authentication := AccessToken
  |};
  ep_request := [
    Query (q_req "userid" (qc_parsed UserId_parse))];
  ep_response := [
    RespNewtypeBody (c_list User)];
  ep_error := ClientError
|}.

#[export] Instance get_user_for_user_id_lawful : LawfulEndpoint api.
Proof. lawful_endpoint. Qed.
End get_user_for_user_id.

Module create_typing_event.
Definition TypingInner : list sfield := [
  req "typing" c_bool;
  opt_ms "timeout"].

(** [serde(into = "TypingInner")] and the implementation of [Deserialize] *)
Inductive Typing := No | Yes (timeout : Z).

Definition Typing_into (typing : Typing) : fields_type TypingInner :=
  match typing with
  | No => (false, (None, ()))
  | Yes time => (true, (Some time, ()))
  end.
Definition Typing_deserialize (inner : fields_type TypingInner) : outcome () Typing :=
  let '(typing, (timeout, _)) := inner in
  match typing, timeout with
  | false, _ => Ok No
  | true, Some time => Ok (Yes time)
  | true, None => Err ()
  end.
Definition flat_typing : sfield := flat_via Typing TypingInner Typing_into Typing_deserialize.

Definition api : endpoint := {|
  ep_metadata := {|
    description := "Send a typing event to a room.";
    method := "PUT";
    name := "create_typing_event";
    path := "/_matrix/client/r0/rooms/:room_id/typing/:user_id";
    rate_limited := true;
    authentication := AccessToken
  |};
  ep_request := [
    Path (p_id "user_id" UserId_parse);
    Path (p_id "room_id" RoomId_parse);
    Body flat_typing];
  ep_response := [];
  ep_error := ClientError
|}.

#[export] Instance create_typing_event_lawful : LawfulEndpoint api.
Proof. lawful_endpoint. Qed.
End create_typing_event.

Module get_turn_server_info.
Definition api : endpoint := {|
  ep_metadata := {|
    description := "Get credentials for the client to use when initiating VoIP calls.";
    method := "GET";
    name := "turn_server_info";
    path := "/_matrix/client/r0/voip/turnServer";
    rate_limited := true;
    authentication := AccessToken
  |};
  ep_request := [];
  ep_response := [
    RespBody (req "username" c_string);
    RespBody (req "password" c_string);
    RespBody (req "uris" (c_list c_string));
    RespBody (req "ttl" c_secs)];
  ep_error := ClientError
|}.

#[export] Instance get_turn_server_info_lawful : LawfulEndpoint api.
Proof. lawful_endpoint. Qed.
End get_turn_server_info.
