(* ===== verification/ClientPush.v ===== *)
(** * Client API: push rules

    The codecs of the types of [ruma-common/src/push.rs], the flattened [PushRule] of the client
    API with its conversions ([r0/push.rs]), and the endpoints of [r0/push]. *)

From S2P Require Import Prelude RustStr RustNet IdValidation StringEnum Identifiers Json.
From S2P Require Import CanonicalJson MemberCount PushWords PushWordsSpec PushConditions.
From S2P Require Import PushConditionsSpec PushRules PushRulesSpec Serde PushSerde UrlEncoded.
From S2P Require Import UrlEncodedSpec ClientErrors Uiaa UiaaSpec Codecs Http Api ApiPaths.
From S2P Require Import ApiQuery ApiSpec ApiTypes ClientTypes.
From Stdlib Require Import Ascii NArith.
Open Scope string_scope.
Open Scope nat_scope.
Open Scope list_scope.

(** ** Codecs *)

(** Actions are read back but for custom tweaks. *)
Definition c_action `{RawContent} : codec := c_of Action standard_action.
Definition c_push_condition `{JsInt} : codec := c_of PushCondition valid_condition.
Definition c_pusher_data : codec :=
  c_of PusherData (λ data, format data ≠ Some (PushFormat_Custom "event_id_only")).
(** Rulesets of standard rules with distinct IDs, their sets as collecting the rules makes them. *)
Definition c_ruleset `{RawContent} `{JsInt} `{IndexSets} : codec := c_of Ruleset readable_ruleset.

#[export] Instance lawful_action `{RawContent} : Lawful c_action.
Proof. intros a Ha. by apply round_trips_action. Qed.
#[export] Instance lawful_push_condition `{JsInt} : Lawful c_push_condition.
Proof. intros c Hc. by apply round_trips_condition. Qed.
#[export] Instance lawful_pusher_data : Lawful c_pusher_data.
Proof. intros d Hd. by apply round_trips_pusher. Qed.
#[export] Instance lawful_ruleset `{RawContent} `{JsInt} `{IndexSets} : Lawful c_ruleset.
Proof. intros r (Hd & Hs & Hc). exact (eq_trans (read_ruleset r Hd Hs) (f_equal Ok Hc)). Qed.

(** ** r0/push.rs *)

Definition PushRule `{RawContent} `{JsInt} : codec := c_struct [
  req "actions" (c_list c_action);
  req "default" c_bool;
  req "enabled" c_bool;
  req "rule_id" c_string;
  opt "conditions" (c_list c_push_condition);
  opt "pattern" c_string].

Inductive MissingPatternError := MissingPattern.
Inductive MissingConditionsError := MissingConditions.

Section conversions.
Context `{RawContent} `{JsInt}.

Definition PushRule_from_simple (r : SimplePushRule) : ctype PushRule :=
  (simple_actions r, (simple_default r, (simple_enabled r, (simple_rule_id r, (None, (None, ())))))).
Definition PushRule_from_patterned (r : PatternedPushRule) : ctype PushRule :=
  (pat_actions r, (pat_default r, (pat_enabled r, (pat_rule_id r, (None, (Some (pattern r), ())))))).
Definition PushRule_from_conditional (r : ConditionalPushRule) : ctype PushRule :=
  (cond_actions r, (cond_default r, (cond_enabled r, (cond_rule_id r,
  (Some (conditions r), (None, ())))))).

Definition SimplePushRule_from (r : ctype PushRule) : SimplePushRule :=
  let '(actions, (default, (enabled, (rule_id, _)))) := r in
  {| simple_actions := actions; simple_default := default; simple_enabled := enabled;
     simple_rule_id := rule_id |}.
Definition PatternedPushRule_try_from (r : ctype PushRule) :
    outcome MissingPatternError PatternedPushRule :=
  let '(actions, (default, (enabled, (rule_id, (_, (pattern, _)))))) := r in
  match pattern with
  | Some pattern =>
      Ok {| pat_actions := actions; pat_default := default; pat_enabled := enabled;
            pat_rule_id := rule_id; pattern := pattern |}
  | None => Err MissingPattern
  end.
Definition ConditionalPushRule_try_from (r : ctype PushRule) :
    outcome MissingConditionsError ConditionalPushRule :=
  let '(actions, (default, (enabled, (rule_id, (conditions, _))))) := r in
  match conditions with
  | Some conditions =>
      Ok {| cond_actions := actions; cond_default := default; cond_enabled := enabled;
            cond_rule_id := rule_id; conditions := conditions |}
  | None => Err MissingConditions
  end.

(** Each kind of rule is recovered from the flattened one, and only rules with a pattern
    (conditions) become patterned (conditional) ones. *)
Lemma push_rule_conversions :
  (∀ r, SimplePushRule_from (PushRule_from_simple r) = r) ∧
  (∀ r, PatternedPushRule_try_from (PushRule_from_patterned r) = Ok r) ∧
  (∀ r, ConditionalPushRule_try_from (PushRule_from_conditional r) = Ok r) ∧
  (∀ r, PatternedPushRule_try_from (PushRule_from_simple r) = Err MissingPattern) ∧
  (∀ r, PatternedPushRule_try_from (PushRule_from_conditional r) = Err MissingPattern) ∧
  (∀ r, ConditionalPushRule_try_from (PushRule_from_patterned r) = Err MissingConditions).
Proof. split_and!; by intros []. Qed.
End conversions.

Module RuleKind.
Inductive RuleKind := Override | Underride | Sender | Room | Content | Custom (s : string).

#[export] Instance RuleKind_eq_dec : EqDecision RuleKind.
Proof. solve_decision. Defined.

#[export, refine] Instance RuleKind_enum : StringEnum RuleKind := {|
  rename_all := SnakeCase;
  unit_variants :=
    [("Override", None, Override);
     ("Underride", None, Underride);
     ("Sender", None, Sender);
     ("Room", None, Room);
     ("Content", None, Content)];
  custom := Custom;
  custom_inner c := match c with Custom s => Some s | _ => None end
|}.
Proof. all: string_enum_laws. Defined.
End RuleKind.
Export (hints) RuleKind.

Module PusherKind.
Inductive PusherKind := Http | Email | Custom (s : string).

#[export] Instance PusherKind_eq_dec : EqDecision PusherKind.
Proof. solve_decision. Defined.

#[export, refine] Instance PusherKind_enum : StringEnum PusherKind := {|
  rename_all := SnakeCase;
  unit_variants :=
    [("Http", None, Http);
     ("Email", None, Email)];
  custom := Custom;
  custom_inner c := match c with Custom s => Some s | _ => None end
|}.
Proof. all: string_enum_laws. Defined.
End PusherKind.
Export (hints) PusherKind.

Module delete_pushrule.
Definition api : endpoint := {|
  ep_metadata := {|
    description := "This endpoint removes the push rule defined in the path.";
    method := "DELETE";
    name := "delete_pushrule";
    path := "/_matrix/client/r0/pushrules/:scope/:kind/:rule_id";
    rate_limited := false;
    authentication := AccessToken
  |};
  ep_request := [
    Path (p_string "scope");
    Path (p_enum "kind" RuleKind.RuleKind);
    Path (p_string "rule_id")];
  ep_response := [];
  ep_error := ClientError
|}.

#[export] Instance delete_pushrule_lawful : LawfulEndpoint api.
Proof. lawful_endpoint. Qed.
End delete_pushrule.

Module get_notifications.
Definition Notification `{RawContent} : codec := c_struct [
  req "actions" (c_list c_action);
  req "event" c_raw;
  opt "profile_tag" c_string;
  req "read" c_bool;
  req "room_id" c_room_id;
  req "ts" c_uint].

Definition api `{RawContent} : endpoint := {|
  ep_metadata := {|
    description :=
      "Paginate through the list of events that the user has been, or would have been notified about.";
    method := "GET";
    name := "get_notifications";
    path := "/_matrix/client/r0/notifications";
    rate_limited := false;
    authentication := AccessToken
  |};
  ep_request := [
    Query (q_opt "from" qc_string);
    Query (q_opt "limit" qc_uint);
    Query (q_opt "only" qc_string)];
  ep_response := [
    RespBody (opt "next_token" c_string);
    RespBody (req "notifications" (c_list Notification))];
  ep_error := ClientError
|}.

#[export] Instance get_notifications_lawful `{RawContent} : LawfulEndpoint api.
Proof. lawful_endpoint. Qed.
End get_notifications.

Module get_pushers.
Definition Pusher_fields : list sfield := [
  req "pushkey" c_string;
  req "kind" (c_enum PusherKind.PusherKind);
  req "app_id" c_string;
  req "app_display_name" c_string;
  req "device_display_name" c_string;
  opt "profile_tag" c_string;
  req "lang" c_string;
  req "data" c_pusher_data].
Definition Pusher : codec := c_struct Pusher_fields.

Definition api : endpoint := {|
  ep_metadata := {|
    description := "Gets all currently active pushers for the authenticated user.";
    method := "GET";
    name := "get_pushers";
    path := "/_matrix/client/r0/pushers";
    rate_limited := false;
    authentication := AccessToken
  |};
  ep_request := [];
  ep_response := [
    RespBody (req "pushers" (c_list Pusher))];
  ep_error := ClientError
|}.

#[export] Instance get_pushers_lawful : LawfulEndpoint api.
Proof. lawful_endpoint. Qed.
End get_pushers.

Module get_pushrule.
Definition api `{RawContent} `{JsInt} : endpoint := {|
  ep_metadata := {|
    description := "Retrieve a single specified push rule.";
    method := "GET";
    name := "get_pushrule";
    path := "/_matrix/client/r0/pushrules/:scope/:kind/:rule_id";
    rate_limited := false;
    authentication := AccessToken
  |};
  ep_request := [
    Path (p_string "scope");
    Path (p_enum "kind" RuleKind.RuleKind);
    Path (p_string "rule_id")];
  ep_response := [
    RespNewtypeBody PushRule];
  ep_error := ClientError
|}.

#[export] Instance get_pushrule_lawful `{RawContent} `{JsInt} : LawfulEndpoint api.
Proof. lawful_endpoint. Qed.
End get_pushrule.

Module get_pushrule_actions.
Definition api `{RawContent} : endpoint := {|
  ep_metadata := {|
    description := "This endpoint get the actions for the specified push rule.";
    method := "GET";
    name := "get_pushrule_actions";
    path := "/_matrix/client/r0/pushrules/:scope/:kind/:rule_id/actions";
    rate_limited := false;
    authentication := AccessToken
  |};
  ep_request := [
    Path (p_string "scope");
    Path (p_enum "kind" RuleKind.RuleKind);
    Path (p_string "rule_id")];
  ep_response := [
    RespBody (req "actions" (c_list c_action))];
  ep_error := ClientError
|}.

#[export] Instance get_pushrule_actions_lawful `{RawContent} : LawfulEndpoint api.
Proof. lawful_endpoint. Qed.
End get_pushrule_actions.

Module get_pushrule_enabled.
Definition api : endpoint := {|
  ep_metadata := {|
    description := "This endpoint gets whether the specified push rule is enabled.";
    method := "GET";
    name := "get_pushrule_enabled";
    path := "/_matrix/client/r0/pushrules/:scope/:kind/:rule_id/enabled";
    rate_limited := false;
    authentication := AccessToken
  |};
  ep_request := [
    Path (p_string "scope");
    Path (p_enum "kind" RuleKind.RuleKind);
    Path (p_string "rule_id")];
  ep_response := [
    RespBody (req "enabled" c_bool)];
  ep_error := ClientError
|}.

#[export] Instance get_pushrule_enabled_lawful : LawfulEndpoint api.
Proof. lawful_endpoint. Qed.
End get_pushrule_enabled.

Module get_pushrules_all.
Definition api `{RawContent} `{JsInt} `{IndexSets} : endpoint := {|
  ep_metadata := {|
    description := "Retrieve all push rulesets for this user.";
    method := "GET";
    name := "get_pushrules_all";
    path := "/_matrix/client/r0/pushrules/";
    rate_limited := false;
    authentication := AccessToken
  |};
  ep_request := [];
  ep_response := [
    RespBody (req "global" c_ruleset)];
  ep_error := ClientError
|}.

#[export] Instance get_pushrules_all_lawful `{RawContent} `{JsInt} `{IndexSets} : LawfulEndpoint
  api.
Proof. lawful_endpoint. Qed.
End get_pushrules_all.

Module get_pushrules_global_scope.
Definition api `{RawContent} `{JsInt} `{IndexSets} : endpoint := {|
  ep_metadata := {|
    description := "Retrieve all push rulesets in the global scope for this user.";
    method := "GET";
    name := "get_pushrules_global_scope";
    path := "/_matrix/client/r0/pushrules/global/";
    rate_limited := false;
    authentication := AccessToken
  |};
  ep_request := [];
  ep_response := [
    RespNewtypeBody c_ruleset];
  ep_error := ClientError
|}.

#[export] Instance get_pushrules_global_scope_lawful `{RawContent} `{JsInt} `{IndexSets} :
  LawfulEndpoint api.
Proof. lawful_endpoint. Qed.
End get_pushrules_global_scope.

Module set_pusher.
Definition Pusher_fields : list sfield := [
  req "pushkey" c_string;
  nullable "kind" (c_enum PusherKind.PusherKind);
  req "app_id" c_string;
  req "app_display_name" c_string;
  req "device_display_name" c_string;
  opt "profile_tag" c_string;
  req "lang" c_string;
  req "data" c_pusher_data].
Definition Pusher : codec := c_struct Pusher_fields.

Definition api : endpoint := {|
  ep_metadata := {|
    description :=
      "This endpoint allows the creation, modification and deletion of pushers for this user ID.";
    method := "POST";
    name := "set_pusher";
    path := "/_matrix/client/r0/pushers/set";
    rate_limited := true;
    authentication := AccessToken
  |};
  ep_request := [
    Body (flat Pusher_fields);
    Body (flag "append")];
  ep_response := [];
  ep_error := ClientError
|}.

#[export] Instance set_pusher_lawful : LawfulEndpoint api.
Proof. lawful_endpoint. Qed.
End set_pusher.

Module set_pushrule.
Definition api `{RawContent} `{JsInt} : endpoint := {|
  ep_metadata := {|
    description :=
      "This endpoint allows the creation, modification and deletion of pushers for this user ID.";
    method := "PUT";
    name := "set_pushrule";
    path := "/_matrix/client/r0/pushrules/:scope/:kind/:rule_id";
    rate_limited := true;
    authentication := AccessToken
  |};
  ep_request := [
    Path (p_string "scope");
    Path (p_enum "kind" RuleKind.RuleKind);
    Path (p_string "rule_id");
    Query (q_opt "before" qc_string);
    Query (q_opt "after" qc_string);
    Body (req "actions" (c_list c_action));
    Body (vec "conditions" c_push_condition);
    Body (opt "pattern" c_string)];
  ep_response := [];
  ep_error := ClientError
|}.

#[export] Instance set_pushrule_lawful `{RawContent} `{JsInt} : LawfulEndpoint api.
Proof. lawful_endpoint. Qed.
End set_pushrule.

Module set_pushrule_actions.
Definition api `{RawContent} : endpoint := {|
  ep_metadata := {|
    description :=
      "This endpoint allows clients to change the actions of a push rule. This can be used to change the actions of builtin rules.";
    method := "PUT";
    name := "set_pushrule_actions";
    path := "/_matrix/client/r0/pushrules/:scope/:kind/:rule_id/actions";
    rate_limited := false;
    authentication := AccessToken
  |};
  ep_request := [
    Path (p_string "scope");
    Path (p_enum "kind" RuleKind.RuleKind);
    Path (p_string "rule_id");
    Body (req "actions" (c_list c_action))];
  ep_response := [];
  ep_error := ClientError
|}.

#[export] Instance set_pushrule_actions_lawful `{RawContent} : LawfulEndpoint api.
Proof. lawful_endpoint. Qed.
End set_pushrule_actions.

Module set_pushrule_enabled.
Definition api : endpoint := {|
  ep_metadata := {|
    description := "This endpoint allows clients to enable or disable the specified push rule.";
    method := "PUT";
    name := "set_pushrule_enabled";
    path := "/_matrix/client/r0/pushrules/:scope/:kind/:rule_id/enabled";
    rate_limited := false;
    authentication := AccessToken
  |};
  ep_request := [
    Path (p_string "scope");
    Path (p_enum "kind" RuleKind.RuleKind);
    Path (p_string "rule_id");
    Body (req "enabled" c_bool)];
  ep_response := [];
  ep_error := ClientError
|}.

#[export] Instance set_pushrule_enabled_lawful : LawfulEndpoint api.
Proof. lawful_endpoint. Qed.
End set_pushrule_enabled.
