(* ===== verification/ClientKeys.v ===== *)
(** * Client API: keys and their backup

    The endpoints of [r0/backup] (a feature that is off by default), [r0/device], [r0/keys] and
    [r0/to_device]. ([upload_signatures] and [upload_signing_keys] need the feature
    [unstable-pre-spec].) *)

From S2P Require Import Prelude RustStr RustNet IdValidation StringEnum Identifiers Json.
From S2P Require Import CanonicalJson Serde UrlEncoded UrlEncodedSpec ClientErrors Uiaa UiaaSpec.
From S2P Require Import Codecs Http Api ApiPaths ApiQuery ApiSpec ApiTypes ClientTypes.
From Stdlib Require Import Ascii NArith.
Open Scope string_scope.
Open Scope nat_scope.
Open Scope list_scope.

Definition SessionData : codec := c_struct [
  req "ephemeral" c_string;
  req "ciphertext" c_string;
  req "mac" c_string].

Definition KeyBackupData : codec := c_struct [
  req "first_message_index" c_uint;
  req "forwarded_count" c_uint;
  req "is_verified" c_bool;
  req "session_data" SessionData].

Definition RoomKeyBackup : codec := c_struct [
  req "sessions" (c_map KeyBackupData)].

Module BackupAlgorithm.
Inductive BackupAlgorithm := MegolmBackupV1Curve25519AesSha2.
#[export] Instance BackupAlgorithm_eq_dec : EqDecision BackupAlgorithm.
Proof. solve_decision. Defined.
Definition variants : list (string * BackupAlgorithm) :=
  [("m.megolm_backup.v1.curve25519-aes-sha2", MegolmBackupV1Curve25519AesSha2)].
End BackupAlgorithm.
Export (hints) BackupAlgorithm.

(** [serde(tag = "algorithm", content = "auth_data")]: an object of the two, or an array *)
Definition BackupAlgorithm_fields : list sfield := [
  req "algorithm" (c_units BackupAlgorithm.variants);
  req "auth_data" (c_struct [
    req "public_key" c_string;
    req "signatures" (c_id_map UserId_parse (c_id_map DeviceKeyId_parse c_string))])].

Module add_backup_key_session.
Definition api : endpoint := {|
  ep_metadata := {|
    description := "Store several keys in the backup.";
    method := "PUT";
    name := "add_backup_key_session";
    path := "/_matrix/client/r0/room_keys/keys/:room_id/:session_id";
    rate_limited := true;
    authentication := AccessToken
  |};
  ep_request := [
    Query (q_req "version" qc_string);
    Path (p_id "room_id" RoomId_parse);
    Path (p_string "session_id");
    NewtypeBody KeyBackupData];
  ep_response := [
    RespBody (req "etag" c_string);
    RespBody (req "count" c_uint)];
  ep_error := ClientError
|}.

#[export] Instance add_backup_key_session_lawful : LawfulEndpoint api.
Proof. lawful_endpoint. Qed.
End add_backup_key_session.

Module add_backup_key_sessions.
Definition api : endpoint := {|
  ep_metadata := {|
    description := "Store several sessions in the backup.";
    method := "PUT";
    name := "add_backup_key_sessions";
    path := "/_matrix/client/r0/room_keys/keys/:room_id";
    rate_limited := true;
    authentication := AccessToken
  |};
  ep_request := [
    Query (q_req "version" qc_string);
    Path (p_id "room_id" RoomId_parse);
    Body (req "sessions" (c_map KeyBackupData))];
  ep_response := [
    RespBody (req "etag" c_string);
    RespBody (req "count" c_uint)];
  ep_error := ClientError
|}.

#[export] Instance add_backup_key_sessions_lawful : LawfulEndpoint api.
Proof. lawful_endpoint. Qed.
End add_backup_key_sessions.

Module add_backup_keys.
Definition api : endpoint := {|
  ep_metadata := {|
    description := "Store several keys in the backup.";
    method := "PUT";
    name := "add_backup_keys";
    path := "/_matrix/client/r0/room_keys/keys";
    rate_limited := true;
    authentication := AccessToken
  |};
  ep_request := [
    Query (q_req "version" qc_string);
    Body (req "rooms" (c_id_map RoomId_parse RoomKeyBackup))];
  ep_response := [
    RespBody (req "etag" c_string);
    RespBody (req "count" c_uint)];
  ep_error := ClientError
|}.

#[export] Instance add_backup_keys_lawful : LawfulEndpoint api.
Proof. lawful_endpoint. Qed.
End add_backup_keys.

Module create_backup.
Definition api : endpoint := {|
  ep_metadata := {|
    description := "Creates a new backup.";
    method := "POST";
    name := "create_backup";
    path := "/_matrix/client/r0/room_keys/version";
    rate_limited := true;
    authentication := AccessToken
  |};
  ep_request := [
    Body (flat BackupAlgorithm_fields)];
  ep_response := [
    RespBody (req "version" c_string)];
  ep_error := ClientError
|}.

#[export] Instance create_backup_lawful : LawfulEndpoint api.
Proof. lawful_endpoint. Qed.
End create_backup.

Module delete_backup.
Definition api : endpoint := {|
  ep_metadata := {|
    description := "Delete an existing backup.";
    method := "DELETE";
    name := "delete_backup";
    path := "/_matrix/client/r0/room_keys/version/:version";
    rate_limited := true;
    authentication := AccessToken
  |};
  ep_request := [
    Path (p_string "version")];
  ep_response := [];
  ep_error := ClientError
|}.

#[export] Instance delete_backup_lawful : LawfulEndpoint api.
Proof. lawful_endpoint. Qed.
End delete_backup.

Module delete_backup_key_session.
Definition api : endpoint := {|
  ep_metadata := {|
    description := "Delete a key from the backup";
    method := "GET";
    name := "delete_backup_key_session";
    path := "/_matrix/client/r0/room_keys/keys/:room_id/:session_id";
    rate_limited := true;
    authentication := AccessToken
  |};
  ep_request := [
    Query (q_req "version" qc_string);
    Path (p_id "room_id" RoomId_parse);
    Path (p_string "session_id")];
  ep_response := [
    RespBody (req "etag" c_string);
    RespBody (req "count" c_uint)];
  ep_error := ClientError
|}.

#[export] Instance delete_backup_key_session_lawful : LawfulEndpoint api.
Proof. lawful_endpoint. Qed.
End delete_backup_key_session.

Module delete_backup_key_sessions.
Definition api : endpoint := {|
  ep_metadata := {|
    description := "Delete keys from the backup for a given room.";
    method := "GET";
    name := "delete_backup_key_sessions";
    path := "/_matrix/client/r0/room_keys/keys/:room_id";
    rate_limited := true;
    authentication := AccessToken
  |};
  ep_request := [
    Query (q_req "version" qc_string);
    Path (p_id "room_id" RoomId_parse)];
  ep_response := [
    RespBody (req "etag" c_string);
    RespBody (req "count" c_uint)];
  ep_error := ClientError
|}.

#[export] Instance delete_backup_key_sessions_lawful : LawfulEndpoint api.
Proof. lawful_endpoint. Qed.
End delete_backup_key_sessions.

Module delete_backup_keys.
Definition api : endpoint := {|
  ep_metadata := {|
    description := "Delete all keys in a backup.";
    method := "PUT";
    name := "delete_backup_keys";
    path := "/_matrix/client/r0/room_keys/keys";
    rate_limited := true;
    authentication := AccessToken
  |};
  ep_request := [
    Query (q_req "version" qc_string)];
  ep_response := [
    RespBody (req "etag" c_string);
    RespBody (req "count" c_uint)];
  ep_error := ClientError
|}.

#[export] Instance delete_backup_keys_lawful : LawfulEndpoint api.
Proof. lawful_endpoint. Qed.
End delete_backup_keys.

Module get_backup.
Definition api : endpoint := {|
  ep_metadata := {|
    description := "Get information about an existing backup.";
    method := "GET";
    name := "get_backup";
    path := "/_matrix/client/r0/room_keys/version/:version";
    rate_limited := true;
    authentication := AccessToken
  |};
  ep_request := [
    Path (p_string "version")];
  ep_response := [
    RespBody (flat BackupAlgorithm_fields);
    RespBody (req "count" c_uint);
    RespBody (req "etag" c_string);
    RespBody (req "version" c_string)];
  ep_error := ClientError
|}.

#[export] Instance get_backup_lawful : LawfulEndpoint api.
Proof. lawful_endpoint. Qed.
End get_backup.

Module get_backup_key_session.
Definition api : endpoint := {|
  ep_metadata := {|
    description := "Retrieve a key from the backup";
    method := "GET";
    name := "get_backup_key_session";
    path := "/_matrix/client/r0/room_keys/keys/:room_id/:session_id";
    rate_limited := true;
    authentication := AccessToken
  |};
  ep_request := [
    Query (q_req "version" qc_string);
    Path (p_id "room_id" RoomId_parse);
    Path (p_string "session_id")];
  ep_response := [
    RespNewtypeBody KeyBackupData];
  ep_error := ClientError
|}.

#[export] Instance get_backup_key_session_lawful : LawfulEndpoint api.
Proof. lawful_endpoint. Qed.
End get_backup_key_session.

Module get_backup_key_sessions.
Definition api : endpoint := {|
  ep_metadata := {|
    description := "Retrieve sessions from the backup for a given room.";
    method := "GET";
    name := "get_backup_key_sessions";
    path := "/_matrix/client/r0/room_keys/keys/:room_id";
    rate_limited := true;
    authentication := AccessToken
  |};
  ep_request := [
    Query (q_req "version" qc_string);
    Path (p_id "room_id" RoomId_parse)];
  ep_response := [
    RespBody (req "sessions" (c_map KeyBackupData))];
  ep_error := ClientError
|}.

#[export] Instance get_backup_key_sessions_lawful : LawfulEndpoint api.
Proof. lawful_endpoint. Qed.
End get_backup_key_sessions.

Module get_backup_keys.
Definition api : endpoint := {|
  ep_metadata := {|
    description := "Retrieve all keys from a backup.";
    method := "GET";
    name := "get_backup_keys";
    path := "/_matrix/client/r0/room_keys/keys";
    rate_limited := true;
    authentication := AccessToken
  |};
  ep_request := [
    Query (q_req "version" qc_string)];
  ep_response := [
    RespBody (req "rooms" (c_id_map RoomId_parse RoomKeyBackup))];
  ep_error := ClientError
|}.

#[export] Instance get_backup_keys_lawful : LawfulEndpoint api.
Proof. lawful_endpoint. Qed.
End get_backup_keys.

Module get_latest_backup.
Definition api : endpoint := {|
  ep_metadata := {|
    description := "Get information about the latest backup.";
    method := "GET";
    name := "get_latest_backup";
    path := "/_matrix/client/r0/room_keys/version";
    rate_limited := true;
    authentication := AccessToken
  |};
  ep_request := [];
  ep_response := [
    RespBody (flat BackupAlgorithm_fields);
    RespBody (req "count" c_uint);
    RespBody (req "etag" c_string);
    RespBody (req "version" c_string)];
  ep_error := ClientError
|}.

#[export] Instance get_latest_backup_lawful : LawfulEndpoint api.
Proof. lawful_endpoint. Qed.
End get_latest_backup.

Module update_backup.
Definition api : endpoint := {|
  ep_metadata := {|
    description := "Update information about an existing backup.";
    method := "POST";
    name := "update_backup";
    path := "/_matrix/client/r0/room_keys/version/:version";
    rate_limited := true;
    authentication := AccessToken
  |};
  ep_request := [
    Path (p_string "version");
    Body (flat BackupAlgorithm_fields)];
  ep_response := [];
  ep_error := ClientError
|}.

#[export] Instance update_backup_lawful : LawfulEndpoint api.
Proof. lawful_endpoint. Qed.
End update_backup.

Definition Device : codec := c_struct [
  req "device_id" c_string;
  nullable "display_name" c_string;
  nullable "last_seen_ip" c_string;
  opt "last_seen_ts" c_uint].

Module delete_device.
Definition api `{Unicode} : endpoint := {|
  ep_metadata := {|
    description := "Delete a device for authenticated user.";
    method := "DELETE";
    name := "delete_device";
    path := "/_matrix/client/r0/devices/:device_id";
    rate_limited := false;
    authentication := AccessToken
  |};
  ep_request := [
    Path (p_string "device_id");
    Body (opt "auth" c_auth_data)];
  ep_response := [];
  ep_error := UiaaError
|}.

#[export] Instance delete_device_lawful `{Unicode} : LawfulEndpoint api.
Proof. lawful_endpoint. Qed.
End delete_device.

Module delete_devices.
Definition api `{Unicode} : endpoint := {|
  ep_metadata := {|
    description := "Delete specified devices.";
    method := "POST";
    name := "delete_devices";
    path := "/_matrix/client/r0/delete_devices";
    rate_limited := false;
    authentication := AccessToken
  |};
  ep_request := [
    Body (req "devices" (c_list c_string));
    Body (opt "auth" c_auth_data)];
  ep_response := [];
  ep_error := UiaaError
|}.

#[export] Instance delete_devices_lawful `{Unicode} : LawfulEndpoint api.
Proof. lawful_endpoint. Qed.
End delete_devices.

Module get_device.
Definition api : endpoint := {|
  ep_metadata := {|
    description := "Get a device for authenticated user.";
    method := "GET";
    name := "get_device";
    path := "/_matrix/client/r0/devices/:device_id";
    rate_limited := false;
    authentication := AccessToken
  |};
  ep_request := [
    Path (p_string "device_id")];
  ep_response := [
    RespNewtypeBody Device];
  ep_error := ClientError
|}.

#[export] Instance get_device_lawful : LawfulEndpoint api.
Proof. lawful_endpoint. Qed.
End get_device.

Module get_devices.
Definition api : endpoint := {|
  ep_metadata := {|
    description := "Get registered devices for authenticated user.";
    method := "GET";
    name := "get_devices";
    path := "/_matrix/client/r0/devices";
    rate_limited := false;
    authentication := AccessToken
  |};
  ep_request := [];
  ep_response := [
    RespBody (req "devices" (c_list Device))];
  ep_error := ClientError
|}.

#[export] Instance get_devices_lawful : LawfulEndpoint api.
Proof. lawful_endpoint. Qed.
End get_devices.

Module update_device.
Definition api : endpoint := {|
  ep_metadata := {|
    description := "Update metadata for a device.";
    method := "PUT";
    name := "update_device";
    path := "/_matrix/client/r0/devices/:device_id";
    rate_limited := false;
    authentication := AccessToken
  |};
  ep_request := [
    Path (p_string "device_id");
    Body (opt "display_name" c_string)];
  ep_response := [];
  ep_error := ClientError
|}.

#[export] Instance update_device_lawful : LawfulEndpoint api.
Proof. lawful_endpoint. Qed.
End update_device.

Module claim_keys.
Definition api : endpoint := {|
  ep_metadata := {|
    description := "Claims one-time keys for use in pre-key messages.";
    method := "POST";
    name := "claim_keys";
    path := "/_matrix/client/r0/keys/claim";
    rate_limited := false;
    authentication := AccessToken
  |};
  ep_request := [
    Body (opt_ms "timeout");
    Body (req "one_time_keys" (c_id_map UserId_parse (c_map (c_enum DeviceKeyAlgorithm))))];
  ep_response := [
    RespBody (req "failures" (c_map c_value));
    RespBody (req "one_time_keys" (c_id_map UserId_parse (c_map (c_id_map DeviceKeyId_parse
      OneTimeKey))))];
  ep_error := ClientError
|}.

#[export] Instance claim_keys_lawful : LawfulEndpoint api.
Proof. lawful_endpoint. Qed.
End claim_keys.

Module get_key_changes.
Definition api : endpoint := {|
  ep_metadata := {|
    description :=
      "Gets a list of users who have updated their device identity keys since a previous sync token.";
    method := "GET";
    name := "get_key_changes";
    path := "/_matrix/client/r0/keys/changes";
    rate_limited := false;
    authentication := AccessToken
  |};
  ep_request := [
    Query (q_req "from" qc_string);
    Query (q_req "to" qc_string)];
  ep_response := [
    RespBody (req "changed" (c_list c_user_id));
    RespBody (req "left" (c_list c_user_id))];
  ep_error := ClientError
|}.

#[export] Instance get_key_changes_lawful : LawfulEndpoint api.
Proof. lawful_endpoint. Qed.
End get_key_changes.

Module get_keys.
Definition api : endpoint := {|
  ep_metadata := {|
    description := "Returns the current devices and identity keys for the given users.";
    method := "POST";
    name := "get_keys";
    path := "/_matrix/client/r0/keys/query";
    rate_limited := false;
    authentication := AccessToken
  |};
  ep_request := [
    Body (opt_ms "timeout");
    Body (req "device_keys" (c_id_map UserId_parse (c_list c_string)));
    Body (opt "token" c_string)];
  ep_response := [
    RespBody (str_map "failures" c_value);
    RespBody (id_map "device_keys" UserId_parse (c_map DeviceKeys))];
  ep_error := ClientError
|}.

#[export] Instance get_keys_lawful : LawfulEndpoint api.
Proof. lawful_endpoint. Qed.
End get_keys.

Module upload_keys.
Definition api : endpoint := {|
  ep_metadata := {|
    description := "Publishes end-to-end encryption keys for the device.";
    method := "POST";
    name := "upload_keys";
    path := "/_matrix/client/r0/keys/upload";
    rate_limited := false;
    authentication := AccessToken
  |};
  ep_request := [
    Body (opt "device_keys" DeviceKeys);
    Body (opt "one_time_keys" (c_id_map DeviceKeyId_parse OneTimeKey))];
  ep_response := [
    RespBody (req "one_time_key_counts" (c_enum_map DeviceKeyAlgorithm c_uint))];
  ep_error := ClientError
|}.

#[export] Instance upload_keys_lawful : LawfulEndpoint api.
Proof. lawful_endpoint. Qed.
End upload_keys.

Module upload_signatures.
Definition api : endpoint := {|
  ep_metadata := {|
    description := "Publishes cross-signing signatures for the user.";
    method := "POST";
    name := "upload_signatures";
    path := "/_matrix/client/r0/keys/signatures/upload";
    rate_limited := false;
    authentication := AccessToken
  |};
  ep_request := [
    NewtypeBody (c_id_map UserId_parse (c_map c_value))];
  ep_response := [];
  ep_error := ClientError
|}.

#[export] Instance upload_signatures_lawful : LawfulEndpoint api.
Proof. lawful_endpoint. Qed.
End upload_signatures.

Module upload_signing_keys.
Definition api `{Unicode} : endpoint := {|
  ep_metadata := {|
    description := "Publishes cross signing keys for the user.";
    method := "POST";
    name := "upload_signing_keys";
    path := "/_matrix/client/unstable/keys/device_signing/upload";
    rate_limited := false;
    authentication := AccessToken
  |};
  ep_request := [
    Body (opt "auth" c_auth_data);
    Body (opt "master_key" CrossSigningKey);
    Body (opt "self_signing_key" CrossSigningKey);
    Body (opt "user_signing_key" CrossSigningKey)];
  ep_response := [];
  ep_error := UiaaError
|}.

#[export] Instance upload_signing_keys_lawful `{Unicode} : LawfulEndpoint api.
Proof. lawful_endpoint. Qed.
End upload_signing_keys.

Module send_event_to_device.
Definition api : endpoint := {|
  ep_metadata := {|
    description := "Send an event to a device or devices.";
    method := "PUT";
    name := "send_event_to_device";
    path := "/_matrix/client/r0/sendToDevice/:event_type/:txn_id";
    rate_limited := false;
    authentication := AccessToken
  |};
  ep_request := [
    Path (p_string "event_type");
    Path (p_string "txn_id");
    Body (req "messages" (c_id_map UserId_parse (c_key_map DeviceIdOrAllDevices
      DeviceIdOrAllDevices_to_string DeviceIdOrAllDevices_try_from c_raw)))];
  ep_response := [];
  ep_error := ClientError
|}.

#[export] Instance send_event_to_device_lawful : LawfulEndpoint api.
Proof. lawful_endpoint. Qed.
End send_event_to_device.
