(* ===== verification/ClientMessages.v ===== *)
(** * Client API: messages, context and search

    The endpoints of [r0/message], [r0/context] and [r0/search], and their types. *)

From S2P Require Import Prelude RustStr RustNet IdValidation StringEnum Identifiers Json.
From S2P Require Import CanonicalJson Serde Codecs UrlEncoded UrlEncodedSpec ClientErrors.
From S2P Require Import Uiaa UiaaSpec Http Api ApiPaths ApiQuery ApiSpec ApiTypes ClientTypes.
From Stdlib Require Import Ascii NArith.
Open Scope string_scope.
Open Scope nat_scope.
Open Scope list_scope.

Module get_context.
Definition default_limit : Z := 10.
Definition is_default_limit (val : Z) : bool := bool_decide (val = default_limit).

Definition api `{JsonText} : endpoint := {|
  ep_metadata := {|
    description := "Get the events immediately preceding and following a given event.";
    method := "GET";
    name := "get_context";
    path := "/_matrix/client/r0/rooms/:room_id/context/:event_id";
    rate_limited := false;
    authentication := AccessToken
  |};
  ep_request := [
    Path (p_id "room_id" RoomId_parse);
    Path (p_id "event_id" EventId_parse);
    Query (q_dflt "limit" qc_uint default_limit is_default_limit);
    Query (q_json_opt "filter" RoomEventFilter.codec)];
  ep_response := [
    RespBody (opt "start" c_string);
    RespBody (opt "end" c_string);
    RespBody (vec "events_before" c_raw);
    RespBody (opt "event" c_raw);
    RespBody (vec "events_after" c_raw);
    RespBody (vec "state" c_raw)];
  ep_error := ClientError
|}.

#[export] Instance get_context_lawful `{JsonText} : LawfulEndpoint api.
Proof. lawful_endpoint. Qed.
End get_context.

Module get_message_events.
Module Direction.
Inductive Direction := Backward | Forward.
#[export] Instance Direction_eq_dec : EqDecision Direction.
Proof. solve_decision. Defined.
Definition variants : list (string * Direction) :=
  [("b", Backward);
   ("f", Forward)].
End Direction.
Export (hints) Direction.

Definition default_limit : Z := 10.
Definition is_default_limit (val : Z) : bool := bool_decide (val = default_limit).

Definition api `{JsonText} : endpoint := {|
  ep_metadata := {|
    description := "Get message events for a room.";
    method := "GET";
    name := "get_message_events";
    path := "/_matrix/client/r0/rooms/:room_id/messages";
    rate_limited := false;
    authentication := AccessToken
  |};
  ep_request := [
    Path (p_id "room_id" RoomId_parse);
    Query (q_req "from" qc_string);
    Query (q_opt "to" qc_string);
    Query (q_req "dir" (qc_units Direction.variants));
    Query (q_dflt "limit" qc_uint default_limit is_default_limit);
    Query (q_json_opt "filter" RoomEventFilter.codec)];
  ep_response := [
    RespBody (opt "start" c_string);
    RespBody (opt "end" c_string);
    RespBody (vec "chunk" c_raw);
    RespBody (vec "state" c_raw)];
  ep_error := ClientError
|}.

#[export] Instance get_message_events_lawful `{JsonText} : LawfulEndpoint api.
Proof. lawful_endpoint. Qed.
End get_message_events.

Module send_message_event.
Definition api : endpoint := {|
  ep_metadata := {|
    description := "Send a message event to a room.";
    method := "PUT";
    name := "create_message_event";
    path := "/_matrix/client/r0/rooms/:room_id/send/:event_type/:txn_id";
    rate_limited := false;
    authentication := AccessToken
  |};
  ep_request := [
    Path (p_id "room_id" RoomId_parse);
    Path (p_string "event_type");
    Path (p_string "txn_id");
    NewtypeBody c_raw];
  ep_response := [
    RespBody (req "event_id" c_event_id)];
  ep_error := ClientError
|}.

#[export] Instance send_message_event_lawful : LawfulEndpoint api.
Proof. lawful_endpoint. Qed.
End send_message_event.

Module search_events.
Module SearchKeys.
Inductive SearchKeys := ContentBody | ContentName | ContentTopic | Custom (s : string).

#[export] Instance SearchKeys_eq_dec : EqDecision SearchKeys.
Proof. solve_decision. Defined.

#[export, refine] Instance SearchKeys_enum : StringEnum SearchKeys := {|
  rename_all := RenameNone;
  unit_variants :=
    [("ContentBody", Some "content.body", ContentBody);
     ("ContentName", Some "content.name", ContentName);
     ("ContentTopic", Some "content.topic", ContentTopic)];
  custom := Custom;
  custom_inner c := match c with Custom s => Some s | _ => None end
|}.
Proof. all: string_enum_laws. Defined.
End SearchKeys.
Export (hints) SearchKeys.

Module OrderBy.
Inductive OrderBy := Recent | Rank | Custom (s : string).

#[export] Instance OrderBy_eq_dec : EqDecision OrderBy.
Proof. solve_decision. Defined.

#[export, refine] Instance OrderBy_enum : StringEnum OrderBy := {|
  rename_all := SnakeCase;
  unit_variants :=
    [("Recent", None, Recent);
     ("Rank", None, Rank)];
  custom := Custom;
  custom_inner c := match c with Custom s => Some s | _ => None end
|}.
Proof. all: string_enum_laws. Defined.
End OrderBy.
Export (hints) OrderBy.

Definition default_event_context_limit : Z := 5.
Definition is_default_event_context_limit (val : Z) : bool :=
  bool_decide (val = default_event_context_limit).

Definition EventContext : codec := c_struct [
  dflt "before_limit" c_uint default_event_context_limit is_default_event_context_limit;
  dflt "after_limit" c_uint default_event_context_limit is_default_event_context_limit;
  flag "include_profile"].

Definition EventContext_default : ctype EventContext := (default_event_context_limit,
  (default_event_context_limit, (false, ()))).

Definition EventContext_is_default : ctype EventContext → bool :=
  skip_fields (λ a, bool_decide (a = default_event_context_limit)) (skip_fields (λ a, bool_decide
    (a = default_event_context_limit)) (skip_fields negb skip_end)).

Module GroupingKey.
Inductive GroupingKey := RoomId | Sender | Custom (s : string).

#[export] Instance GroupingKey_eq_dec : EqDecision GroupingKey.
Proof. solve_decision. Defined.

#[export, refine] Instance GroupingKey_enum : StringEnum GroupingKey := {|
  rename_all := SnakeCase;
  unit_variants :=
    [("RoomId", None, RoomId);
     ("Sender", None, Sender)];
  custom := Custom;
  custom_inner c := match c with Custom s => Some s | _ => None end
|}.
Proof. all: string_enum_laws. Defined.
End GroupingKey.
Export (hints) GroupingKey.

Definition Grouping : codec := c_struct [
  nullable "key" (c_enum GroupingKey.GroupingKey)].

Definition Groupings : codec := c_struct [
  vec "group_by" Grouping].

Definition Groupings_default : ctype Groupings := ([], ()).

Definition Groupings_is_empty : ctype Groupings → bool :=
  skip_fields list_is_empty skip_end.

Definition Criteria : codec := c_struct [
  req "search_term" c_string;
  opt "keys" (c_list (c_enum SearchKeys.SearchKeys));
  opt "filter" RoomEventFilter.codec;
  opt "order_by" (c_enum OrderBy.OrderBy);
  dflt "event_context" EventContext EventContext_default EventContext_is_default;
  opt "include_state" c_bool;
  dflt "groupings" Groupings Groupings_default Groupings_is_empty].

Definition Categories : codec := c_struct [
  opt "room_events" Criteria].

Definition UserProfile : codec := c_struct [
  opt "avatar_url" c_string;
  opt "displayname" c_string].

Definition EventContextResult : codec := c_struct [
  opt "end" c_string;
  vec "events_after" c_raw;
  vec "events_before" c_raw;
  id_map "profile_info" UserId_parse UserProfile;
  opt "start" c_string].

Definition EventContextResult_default : ctype EventContextResult := (None, ([], ([], (∅, (None,
  ()))))).

Definition EventContextResult_is_empty : ctype EventContextResult → bool :=
  skip_fields is_none (skip_fields list_is_empty (skip_fields list_is_empty (skip_fields
    map_is_empty (skip_fields is_none skip_end)))).

Definition Grouping_default : ctype Grouping := (None, ()).

Definition Grouping_is_empty : ctype Grouping → bool :=
  skip_fields is_none skip_end.

Definition ResultGroup : codec := c_struct [
  opt "next_batch" c_string;
  opt "order" c_uint;
  vec "results" c_event_id].

Definition SearchResult : codec := c_struct [
  skipped "context" EventContextResult EventContextResult_is_empty;
  opt "rank" c_uint;
  opt "result" c_raw].

(** serde_json has no key of an object for [RoomIdOrUserId], an enum of newtype variants: maps
    from it are written and read when they are empty, and are errors otherwise. *)
Inductive RoomIdOrUserId := RoomId (id : string) | UserId (id : string).
Definition c_room_id_or_user_id_map (c : codec) : codec :=
  c_key_map Empty_set (Empty_set_rect (λ _, string)) (λ _, Err ()) c.

Definition ResultRoomEvents : codec := c_struct [
  opt "count" c_uint;
  dflt "groups" (c_enum_map GroupingKey.GroupingKey (c_room_id_or_user_id_map
    ResultGroup)) ∅
    map_is_empty;
  opt "next_batch" c_string;
  vec "results" SearchResult;
  id_map "state" RoomId_parse (c_list c_raw);
  vec "highlights" c_string].

Definition ResultRoomEvents_default : ctype ResultRoomEvents := (None, (∅, (None, ([], (∅, ([],
  ())))))).

Definition ResultRoomEvents_is_empty : ctype ResultRoomEvents → bool :=
  skip_fields is_none (skip_fields map_is_empty (skip_fields is_none (skip_fields list_is_empty
    (skip_fields map_is_empty (skip_fields list_is_empty skip_end))))).

Definition ResultCategories : codec := c_struct [
  dflt "room_events" ResultRoomEvents ResultRoomEvents_default ResultRoomEvents_is_empty].

Definition ResultGroup_default : ctype ResultGroup := (None, (None, ([], ()))).

Definition ResultGroup_is_empty : ctype ResultGroup → bool :=
  skip_fields is_none (skip_fields is_none (skip_fields list_is_empty skip_end)).

Definition SearchResult_is_empty : ctype SearchResult → bool :=
  skip_fields EventContextResult_is_empty (skip_fields is_none (skip_fields is_none skip_end)).

Definition UserProfile_default : ctype UserProfile := (None, (None, ())).

Definition UserProfile_is_empty : ctype UserProfile → bool :=
  skip_fields is_none (skip_fields is_none skip_end).

Definition api : endpoint := {|
  ep_metadata := {|
    description := "Search events.";
    method := "POST";
    name := "search";
    path := "/_matrix/client/r0/search";
    rate_limited := true;
    authentication := AccessToken
  |};
  ep_request := [
    Query (q_opt "next_batch" qc_string);
    Body (req "search_categories" Categories)];
  ep_response := [
    RespBody (req "search_categories" ResultCategories)];
  ep_error := ClientError
|}.

#[export] Instance search_events_lawful : LawfulEndpoint api.
Proof. lawful_endpoint. Qed.
End search_events.
