(* ===== verification/ClientState.v ===== *)
(** * Client API: the state of a room

    The endpoints of [r0/state]. [send_state_event.rs] and [get_state_events_for_key.rs] have
    request types of their own, whose conversions are written by hand, since a state key that is
    empty is left out of the path; their declarations ([api]) have a response only. *)

From S2P Require Import Prelude RustStr RustNet IdValidation StringEnum Identifiers Json.
From S2P Require Import EventTypes CanonicalJson Serde Codecs UrlEncoded UrlEncodedSpec.
From S2P Require Import ClientErrors Uiaa UiaaSpec Http Api ApiPaths ApiQuery ApiSpec ApiTypes.
From Stdlib Require Import Ascii NArith.
Open Scope string_scope.
Open Scope nat_scope.
Open Scope list_scope.

Module get_state_events.
Definition api : endpoint := {|
  ep_metadata := {|
    description := "Get state events for a room.";
    method := "GET";
    name := "get_state_events";
    path := "/_matrix/client/r0/rooms/:room_id/state";
    rate_limited := false;
    authentication := AccessToken
  |};
  ep_request := [
    Path (p_id "room_id" RoomId_parse)];
  ep_response := [
    RespNewtypeBody (c_list c_raw)];
  ep_error := ClientError
|}.

#[export] Instance get_state_events_lawful : LawfulEndpoint api.
Proof. lawful_endpoint. Qed.
End get_state_events.

(** ** The paths *)

Section paths.
Context `{PercentEncoding}.

Definition state_path (room_id event_type state_key : string) : string :=
  "/_matrix/client/r0/rooms/" +:+ utf8_percent_encode room_id +:+ "/state/" +:+
  utf8_percent_encode event_type +:+
  (if decide (state_key = "") then "" else "/" +:+ utf8_percent_encode state_key).

(** [percent_decode(segment).decode_utf8()?] *)
Definition decode_segment (segment : string) : outcome DeserializationError string :=
  let decoded := percent_decode segment in
  if valid_utf8 decoded then Ok decoded else Err DeUtf8.

(** The room, the type of the event and the state key; a missing index panics, but for the last *)
Definition parse_state_path (request_path : string) :
    outcome DeserializationError (string * string * string) :=
  match request_path with
  | "" => Panic
  | _ =>
      let path_segments := path_segments request_path in
      segment ← unwrap (path_segments !! 4);
      decoded ← decode_segment segment;
      room_id ← map_err DeIdent (RoomId_parse decoded);
      segment ← unwrap (path_segments !! 6);
      event_type ← decode_segment segment;
      state_key ← match path_segments !! 7 with
                  | Some segment => decode_segment segment
                  | None => Ok ""
                  end;
      Ok (room_id, event_type, state_key)
  end.
End paths.

(** ** send_state_event.rs *)

Module send_state_event.
Definition api : endpoint := {|
  ep_metadata := {|
    description := "Send a state event to a room associated with a given state key.";
    method := "PUT";
    name := "send_state_event";
    path := "/_matrix/client/r0/rooms/:room_id/state/:event_type/:state_key";
    rate_limited := false;
    authentication := AccessToken
  |};
  ep_request := [];
  ep_response := [
    RespBody (req "event_id" c_event_id)];
  ep_error := ClientError
|}.

#[export] Instance send_state_event_lawful : LawfulResponse (ep_response api).
Proof. lawful_response. Qed.

Record Request := { room_id : string; event_type : string; state_key : string; body : json }.

Section conversions.
Context `{PercentEncoding} `{JsonText} `{HttpCrate}.

(** The token is looked at before the URI, which the builder reports last. *)
Definition try_into_http_request (self : Request) (base_url : string)
    (access_token : SendAccessToken) : outcome IntoHttpError HttpRequest :=
  let url := strip_slash base_url +:+ state_path (room_id self) (event_type self) (state_key self) in
  token ← ok_or NeedsAuthentication (get_required_for_endpoint access_token);
  authorization ← ok_or IntoHeader (header_from_str ("Bearer " +:+ token));
  uri ← ok_or IntoHttp (uri_parse url);
  Ok {| rq_method := "PUT";
        rq_uri := uri;
        rq_headers := [("CONTENT_TYPE", "application/json"); ("AUTHORIZATION", authorization)];
        rq_body := json_to_vec (body self) |}.

Definition try_from_http_request (request : HttpRequest) : outcome FromHttpRequestError Request :=
  map_err ReqDeserialization (
    '(room_id, event_type, state_key) ← parse_state_path (uri_path (rq_uri request));
    body ← map_err (λ _, DeJson) (j ← json_from_slice (rq_body request); de_raw j);
    Ok {| room_id := room_id; event_type := event_type; state_key := state_key; body := body |}).
End conversions.
End send_state_event.

(** ** get_state_events_for_key.rs *)

Module get_state_events_for_key.
Definition api : endpoint := {|
  ep_metadata := {|
    description := "Get state events associated with a given key.";
    method := "GET";
    name := "get_state_events_for_key";
    path := "/_matrix/client/r0/rooms/:room_id/state/:event_type/:state_key";
    rate_limited := false;
    authentication := AccessToken
  |};
  ep_request := [];
  ep_response := [
    RespNewtypeBody c_raw];
  ep_error := ClientError
|}.

#[export] Instance get_state_events_for_key_lawful : LawfulResponse (ep_response api).
Proof. lawful_response. Qed.

Record Request := { room_id : string; event_type : EventType; state_key : string }.

Section conversions.
Context `{PercentEncoding} `{HttpCrate}.

(** The header's value is converted by the builder, after the URI. *)
Definition try_into_http_request (self : Request) (base_url : string)
    (access_token : SendAccessToken) : outcome IntoHttpError HttpRequest :=
  let url := strip_slash base_url +:+
    state_path (room_id self) (as_ref (event_type self)) (state_key self) in
  token ← ok_or NeedsAuthentication (get_required_for_endpoint access_token);
  uri ← ok_or IntoHttp (uri_parse url);
  authorization ← ok_or IntoHttp (header_from_string ("Bearer " +:+ token));
  Ok {| rq_method := "GET";
        rq_uri := uri;
        rq_headers := [("CONTENT_TYPE", "application/json"); ("AUTHORIZATION", authorization)];
        rq_body := "" |}.

Definition try_from_http_request (request : HttpRequest) : outcome FromHttpRequestError Request :=
  map_err ReqDeserialization (
    '(room_id, event_type, state_key) ← parse_state_path (uri_path (rq_uri request));
    Ok {| room_id := room_id; event_type := from event_type; state_key := state_key |}).
End conversions.
End get_state_events_for_key.

(** ** Properties *)

Section round_trips.
Context `{PercentEncoding} `{HttpCrate}.

Definition text_ok (s : string) : Prop := valid_utf8 s = true.

(** The segments of the path: the state key has one only when it is not empty. *)
Lemma state_path_segments room_id event_type state_key :
  path_segments (state_path room_id event_type state_key) =
    ["_matrix"; "client"; "r0"; "rooms"; utf8_percent_encode room_id; "state";
     utf8_percent_encode event_type] ++
    (if decide (state_key = "") then [] else [utf8_percent_encode state_key]).
Proof.
  assert (∀ s t, str_split "/" (utf8_percent_encode s +:+ String "/" t) =
    utf8_percent_encode s :: str_split "/" t) as Hsep.
  { intros s t. apply str_split_sep, percent_byte_no_slash, percent_encode_bytes. }
  assert (∀ s, str_split "/" (utf8_percent_encode s) = [utf8_percent_encode s]) as Hlast.
  { intros s. apply str_split_no_sep, percent_byte_no_slash, percent_encode_bytes. }
  unfold state_path.
  set (tail := if decide (state_key = "") then "" else "/" +:+ utf8_percent_encode state_key).
  change (path_segments _) with (str_split "/" ("_matrix" +:+ String "/" ("client" +:+ String "/"
    ("r0" +:+ String "/" ("rooms" +:+ String "/" (utf8_percent_encode room_id +:+ String "/"
    ("state" +:+ String "/" (utf8_percent_encode event_type +:+ tail)))))))).
  rewrite !str_split_sep by (reflexivity || apply percent_byte_no_slash, percent_encode_bytes).
  unfold tail. case_decide; [by rewrite str_app_nil_r, Hlast|].
  change ("/" +:+ utf8_percent_encode state_key) with (String "/" (utf8_percent_encode state_key)).
  by rewrite Hsep, Hlast.
Qed.

Lemma decode_encoded s : text_ok s → decode_segment (utf8_percent_encode s) = Ok s.
Proof. intros Hs. unfold decode_segment. rewrite percent_decode_encode. by rewrite Hs. Qed.

Lemma state_path_read room_id event_type state_key :
  RoomId_parse room_id = Ok room_id → text_ok room_id → text_ok event_type → text_ok state_key →
  parse_state_path (state_path room_id event_type state_key) = Ok (room_id, event_type, state_key).
Proof.
  intros Hr Hru Ht Hk.
  assert (∃ rest, state_path room_id event_type state_key = String "/" rest) as [rest Hrest]
    by (by eexists).
  unfold parse_state_path. rewrite Hrest, <- Hrest, state_path_segments.
  cbn [app lookup list_lookup unwrap mbind outcome_bind].
  rewrite (decode_encoded room_id), (decode_encoded event_type) by done.
  cbn [mbind outcome_bind]. rewrite Hr. cbn [map_err mbind outcome_bind].
  case_decide as Hsk; [by subst|]. cbn [lookup list_lookup]. by rewrite decode_encoded.
Qed.

Lemma state_path_bytes room_id event_type state_key :
  bytes_all path_byte (state_path room_id event_type state_key) = true.
Proof.
  assert (∀ s, bytes_all path_byte (utf8_percent_encode s) = true) as Henc.
  { intros s. eapply bytes_all_impl; [|apply percent_encode_bytes]. intros b Hb.
    unfold path_byte. by rewrite Hb. }
  unfold state_path. rewrite !bytes_all_app, !Henc.
  case_decide; [done|]. by rewrite bytes_all_app, Henc.
Qed.

Lemma state_uri origin base_url room_id event_type state_key :
  base_url_of origin base_url →
  uri_parse (strip_slash base_url +:+ state_path room_id event_type state_key) =
    Some {| uri_origin := origin;
            uri_path_and_query := Some (state_path room_id event_type state_key, None) |}.
Proof.
  intros Hbase.
  rewrite <- (request_uri origin base_url (state_path room_id event_type state_key) None Hbase).
  - simpl. by rewrite str_app_nil_r.
  - apply path_and_query_parse_to_string; [done|apply state_path_bytes|done].
Qed.
End round_trips.

Section requests.
Context `{PercentEncoding} `{JsonText} `{HttpCrate}.

Definition send_wf (r : send_state_event.Request) : Prop :=
  RoomId_parse (send_state_event.room_id r) = Ok (send_state_event.room_id r) ∧
  text_ok (send_state_event.room_id r) ∧ text_ok (send_state_event.event_type r) ∧
  text_ok (send_state_event.state_key r).

Definition get_wf (r : get_state_events_for_key.Request) : Prop :=
  RoomId_parse (get_state_events_for_key.room_id r) = Ok (get_state_events_for_key.room_id r) ∧
  text_ok (get_state_events_for_key.room_id r) ∧
  canonical (get_state_events_for_key.event_type r) ∧
  text_ok (as_ref (get_state_events_for_key.event_type r)) ∧
  text_ok (get_state_events_for_key.state_key r).

(** A request for the state of a room that is sent with a token is received as the same
    request, and carries the token; the path of a request with an empty state key has one
    segment less, which is where the receiver finds the empty key. Without a token no request is
    made, whatever the rest. *)
Theorem state_request_round_trip (r : send_state_event.Request)
    (g : get_state_events_for_key.Request) origin base_url access_token :
  base_url_of origin base_url →
  (token_ok AccessToken access_token → ∃ tok,
    get_required_for_endpoint access_token = Some tok ∧
    (send_wf r → ∃ request,
       send_state_event.try_into_http_request r base_url access_token = Ok request ∧
       send_state_event.try_from_http_request request = Ok r ∧
       header_get "AUTHORIZATION" (rq_headers request) = Some ("Bearer " +:+ tok) ∧
       length (path_segments (uri_path (rq_uri request))) =
         if decide (send_state_event.state_key r = "") then 7 else 8) ∧
    (get_wf g → ∃ request,
       get_state_events_for_key.try_into_http_request g base_url access_token = Ok request ∧
       get_state_events_for_key.try_from_http_request request = Ok g ∧
       header_get "AUTHORIZATION" (rq_headers request) = Some ("Bearer " +:+ tok))) ∧
  (access_token = NoToken →
     send_state_event.try_into_http_request r base_url access_token = Err NeedsAuthentication ∧
     get_state_events_for_key.try_into_http_request g base_url access_token =
       Err NeedsAuthentication).
Proof.
  intros Hbase. split; [|by intros ->].
  intros (tok & Htok & Hvis). exists tok. split; [done|].
  destruct (header_visible _ Hvis) as (Hfs & Hfstr & _). split.
  - intros (Hr & Hru & Ht & Hk). unfold send_state_event.try_into_http_request. rewrite Htok.
    cbn [ok_or mbind outcome_bind]. rewrite Hfs. cbn [ok_or mbind outcome_bind].
    rewrite (state_uri origin) by done. cbn [ok_or mbind outcome_bind]. eexists. split; [done|].
    unfold send_state_event.try_from_http_request, uri_path. cbn [rq_uri rq_body uri_path_and_query].
    rewrite state_path_read by done. cbn [mbind outcome_bind]. rewrite json_from_to_vec.
    split; [by destruct r|]. split; [done|]. rewrite state_path_segments. by case_decide.
  - intros (Hr & Hru & Hc & Ht & Hk). unfold get_state_events_for_key.try_into_http_request.
    rewrite Htok. cbn [ok_or mbind outcome_bind].
    rewrite (state_uri origin) by done. cbn [ok_or mbind outcome_bind]. rewrite Hfstr.
    cbn [ok_or mbind outcome_bind]. eexists. split; [done|].
    unfold get_state_events_for_key.try_from_http_request, uri_path.
    cbn [rq_uri rq_body uri_path_and_query]. rewrite state_path_read by done.
    cbn [mbind outcome_bind map_err]. split; [|done]. destruct g. simpl in *. by rewrite Hc.
Qed.
End requests.
