(* ===== verification/ClientSync.v ===== *)
(** * Client API: synchronisation and filters

    The endpoints of [r0/sync] and [r0/filter], and the types of the response. *)

From S2P Require Import Prelude RustStr RustNet IdValidation StringEnum Identifiers Json.
From S2P Require Import CanonicalJson Serde Codecs UrlEncoded UrlEncodedSpec ClientErrors.
From S2P Require Import Uiaa UiaaSpec Http Api ApiPaths ApiQuery ApiSpec ApiTypes ClientTypes.
From Stdlib Require Import Ascii NArith.
Open Scope string_scope.
Open Scope nat_scope.
Open Scope list_scope.

Module create_filter.
Definition api : endpoint := {|
  ep_metadata := {|
    description := "Create a new filter for event retrieval.";
    method := "POST";
    name := "create_filter";
    path := "/_matrix/client/r0/user/:user_id/filter";
    rate_limited := false;
    authentication := AccessToken
  |};
  ep_request := [
    Path (p_id "user_id" UserId_parse);
    NewtypeBody FilterDefinition.codec];
  ep_response := [
    RespBody (req "filter_id" c_string)];
  ep_error := ClientError
|}.

#[export] Instance create_filter_lawful : LawfulEndpoint api.
Proof. lawful_endpoint. Qed.
End create_filter.

Module get_filter.
Definition api : endpoint := {|
  ep_metadata := {|
    description := "Retrieve a previously created filter.";
    method := "GET";
    name := "get_filter";
    path := "/_matrix/client/r0/user/:user_id/filter/:filter_id";
    rate_limited := false;
    authentication := AccessToken
  |};
  ep_request := [
    Path (p_id "user_id" UserId_parse);
    Path (p_string "filter_id")];
  ep_response := [
    RespNewtypeBody FilterDefinition.codec];
  ep_error := ClientError
|}.

#[export] Instance get_filter_lawful : LawfulEndpoint api.
Proof. lawful_endpoint. Qed.
End get_filter.

Module sync_events.
(** [untagged]: a definition, as JSON in the string, or else the ID of a filter *)
Inductive Filter :=
  | FilterDefinition (filter : ctype FilterDefinition.codec)
  | FilterId (id : string).

Definition read_definition `{JsonText} (s : string) : outcome () (ctype FilterDefinition.codec) :=
  j ← json_from_slice s; dec FilterDefinition.codec j.

Definition qc_filter `{JsonText} : qcodec := {|
  q_type := Filter;
  q_shape := TString;
  q_ser f :=
    match f with
    | FilterDefinition d => SStr (json_to_vec (enc FilterDefinition.codec d))
    | FilterId id => SStr id
    end;
  q_de v :=
    match v with
    | SStr s =>
        match read_definition s with
        | Ok d => Ok (FilterDefinition d)
        | Err _ => Ok (FilterId s)
        | Panic => Panic
        end
    | _ => Err ()
    end;
  q_wf f :=
    match f with
    | FilterDefinition d =>
        cwf FilterDefinition.codec d ∧ valid_utf8 (json_to_vec (enc FilterDefinition.codec d)) = true
    | FilterId id => read_definition id = Err () ∧ valid_utf8 id = true
    end
|}.

#[export] Instance lawful_qc_filter `{JsonText} : LawfulScalar qc_filter.
Proof.
  split; [|done|].
  - intros [d|id] [Hd Hu]; cbn [q_de q_ser qc_filter].
    + unfold read_definition. rewrite json_from_to_vec. cbn [mbind outcome_bind].
      by rewrite (dec_enc (c := FilterDefinition.codec) d Hd).
    + by rewrite Hd.
  - by intros [d|id] [_ Hu].
Qed.

Definition Timeline : codec := c_struct [
  flag "limited";
  opt "prev_batch" c_string;
  vec "events" c_raw].

Definition Timeline_default : ctype Timeline := (false, (None, ([], ()))).

Definition Timeline_is_empty : ctype Timeline → bool :=
  skip_fields (λ _, true) (skip_fields (λ _, true) (skip_fields list_is_empty skip_end)).

Definition State : codec := c_struct [
  vec "events" c_raw].

Definition State_default : ctype State := ([], ()).

Definition State_is_empty : ctype State → bool :=
  skip_fields list_is_empty skip_end.

Definition RoomAccountData : codec := c_struct [
  vec "events" c_raw].

Definition RoomAccountData_default : ctype RoomAccountData := ([], ()).

Definition RoomAccountData_is_empty : ctype RoomAccountData → bool :=
  skip_fields list_is_empty skip_end.

Definition LeftRoom : codec := c_struct [
  dflt_lossy "timeline" Timeline Timeline_default Timeline_is_empty;
  dflt "state" State State_default State_is_empty;
  dflt "account_data" RoomAccountData RoomAccountData_default RoomAccountData_is_empty].

Definition RoomSummary : codec := c_struct [
  vec "m.heroes" c_string;
  opt "m.joined_member_count" c_uint;
  opt "m.invited_member_count" c_uint].

Definition RoomSummary_default : ctype RoomSummary := ([], (None, (None, ()))).

Definition RoomSummary_is_empty : ctype RoomSummary → bool :=
  skip_fields list_is_empty (skip_fields is_none (skip_fields is_none skip_end)).

Definition UnreadNotificationsCount : codec := c_struct [
  opt "highlight_count" c_uint;
  opt "notification_count" c_uint].

Definition UnreadNotificationsCount_default : ctype UnreadNotificationsCount := (None, (None, ())).

Definition UnreadNotificationsCount_is_empty : ctype UnreadNotificationsCount → bool :=
  skip_fields is_none (skip_fields is_none skip_end).

Definition Ephemeral : codec := c_struct [
  vec "events" c_raw].

Definition Ephemeral_default : ctype Ephemeral := ([], ()).

Definition Ephemeral_is_empty : ctype Ephemeral → bool :=
  skip_fields list_is_empty skip_end.

Definition JoinedRoom : codec := c_struct [
  dflt "summary" RoomSummary RoomSummary_default RoomSummary_is_empty;
  dflt "unread_notifications" UnreadNotificationsCount UnreadNotificationsCount_default
    UnreadNotificationsCount_is_empty;
  dflt_lossy "timeline" Timeline Timeline_default Timeline_is_empty;
  dflt "state" State State_default State_is_empty;
  dflt "account_data" RoomAccountData RoomAccountData_default RoomAccountData_is_empty;
  dflt "ephemeral" Ephemeral Ephemeral_default Ephemeral_is_empty].

Definition InviteState : codec := c_struct [
  vec "events" c_raw].

Definition InviteState_default : ctype InviteState := ([], ()).

Definition InviteState_is_empty : ctype InviteState → bool :=
  skip_fields list_is_empty skip_end.

Definition InvitedRoom : codec := c_struct [
  dflt "invite_state" InviteState InviteState_default InviteState_is_empty].

Definition Rooms : codec := c_struct [
  id_map "leave" RoomId_parse LeftRoom;
  id_map "join" RoomId_parse JoinedRoom;
  id_map "invite" RoomId_parse InvitedRoom].

Definition Rooms_default : ctype Rooms := (∅, (∅, (∅, ()))).

Definition Rooms_is_empty : ctype Rooms → bool :=
  skip_fields map_is_empty (skip_fields map_is_empty (skip_fields map_is_empty skip_end)).

Definition LeftRoom_default : ctype LeftRoom := (Timeline_default, (State_default,
  (RoomAccountData_default, ()))).

Definition LeftRoom_is_empty : ctype LeftRoom → bool :=
  skip_fields Timeline_is_empty (skip_fields State_is_empty (skip_fields RoomAccountData_is_empty
    skip_end)).

Definition JoinedRoom_default : ctype JoinedRoom := (RoomSummary_default,
  (UnreadNotificationsCount_default, (Timeline_default, (State_default, (RoomAccountData_default,
  (Ephemeral_default, ())))))).

Definition JoinedRoom_is_empty : ctype JoinedRoom → bool :=
  skip_fields RoomSummary_is_empty (skip_fields UnreadNotificationsCount_is_empty (skip_fields
    Timeline_is_empty (skip_fields State_is_empty (skip_fields RoomAccountData_is_empty
    (skip_fields Ephemeral_is_empty skip_end))))).

Definition GlobalAccountData : codec := c_struct [
  vec "events" c_raw].

Definition GlobalAccountData_default : ctype GlobalAccountData := ([], ()).

Definition GlobalAccountData_is_empty : ctype GlobalAccountData → bool :=
  skip_fields list_is_empty skip_end.

Definition InvitedRoom_default : ctype InvitedRoom := (InviteState_default, ()).

Definition InvitedRoom_is_empty : ctype InvitedRoom → bool :=
  skip_fields InviteState_is_empty skip_end.

Definition Presence : codec := c_struct [
  vec "events" c_raw].

Definition Presence_default : ctype Presence := ([], ()).

Definition Presence_is_empty : ctype Presence → bool :=
  skip_fields list_is_empty skip_end.

Definition ToDevice : codec := c_struct [
  vec "events" c_raw].

Definition ToDevice_default : ctype ToDevice := ([], ()).

Definition ToDevice_is_empty : ctype ToDevice → bool :=
  skip_fields list_is_empty skip_end.

Definition DeviceLists : codec := c_struct [
  vec "changed" c_user_id;
  vec "left" c_user_id].

Definition DeviceLists_default : ctype DeviceLists := ([], ([], ())).

Definition DeviceLists_is_empty : ctype DeviceLists → bool :=
  skip_fields list_is_empty (skip_fields list_is_empty skip_end).

Definition api `{JsonText} : endpoint := {|
  ep_metadata := {|
    description :=
      "Get all new events from all rooms since the last sync or a given point of time.";
    method := "GET";
    name := "sync";
    path := "/_matrix/client/r0/sync";
    rate_limited := false;
    authentication := AccessToken
  |};
  ep_request := [
    Query (q_opt "filter" qc_filter);
    Query (q_opt "since" qc_string);
    Query (q_dflt "full_state" qc_bool false negb);
    Query (q_dflt "set_presence" (qc_enum PresenceState.PresenceState) PresenceState.Online (λ a,
      bool_decide (a = PresenceState.Online)));
    Query (q_opt_ms "timeout")];
  ep_response := [
    RespBody (req "next_batch" c_string);
    RespBody (dflt "rooms" Rooms Rooms_default Rooms_is_empty);
    RespBody (dflt "presence" Presence Presence_default Presence_is_empty);
    RespBody (dflt "account_data" GlobalAccountData GlobalAccountData_default
      GlobalAccountData_is_empty);
    RespBody (dflt "to_device" ToDevice ToDevice_default ToDevice_is_empty);
    RespBody (dflt "device_lists" DeviceLists DeviceLists_default DeviceLists_is_empty);
    RespBody (dflt "device_one_time_keys_count" (c_enum_map DeviceKeyAlgorithm c_uint) ∅
      map_is_empty)];
  ep_error := ClientError
|}.

#[export] Instance sync_events_lawful `{JsonText} : LawfulEndpoint api.
Proof. lawful_endpoint. Qed.
End sync_events.
