(* ===== verification/Capabilities.v ===== *)
(** * Capabilities of a homeserver

    [ruma-client-api/src/r0/capabilities.rs] and [capabilities/iter.rs]: two capabilities with
    types of their own and a map of custom ones, with [get], [set], the iterator, and the form
    as JSON. *)

From S2P Require Import Prelude RustStr RustNet IdValidation StringEnum Identifiers Json.
From S2P Require Import CanonicalJson Serde Codecs UrlEncoded UrlEncodedSpec ClientErrors.
From S2P Require Import Uiaa UiaaSpec Http Api ApiPaths ApiQuery ApiSpec ApiTypes ClientTypes.
From Stdlib Require Import Ascii NArith.
Open Scope string_scope.
Open Scope nat_scope.
Open Scope list_scope.

(** ** Types *)

Definition ChangePasswordCapability : codec := c_struct [req "enabled" c_bool].
Definition ChangePasswordCapability_default : ctype ChangePasswordCapability := (true, ()).
Definition ChangePasswordCapability_is_default (self : ctype ChangePasswordCapability) : bool :=
  self.1.

Module RoomVersionStability.
Inductive RoomVersionStability := Stable | Unstable | Custom (s : string).

#[export] Instance RoomVersionStability_eq_dec : EqDecision RoomVersionStability.
Proof. solve_decision. Defined.

#[export, refine] Instance RoomVersionStability_enum : StringEnum RoomVersionStability := {|
  rename_all := LowerCase;
  unit_variants :=
    [("Stable", None, Stable);
     ("Unstable", None, Unstable)];
  custom := Custom;
  custom_inner c := match c with Custom s => Some s | _ => None end
|}.
Proof. all: string_enum_laws. Defined.
End RoomVersionStability.
Export (hints) RoomVersionStability.

Definition version_code (v : RoomVersionId) : nat + string :=
  match v with
  | V1 => inl 1 | V2 => inl 2 | V3 => inl 3 | V4 => inl 4 | V5 => inl 5 | V6 => inl 6
  | RoomVersionId_Custom version => inr version
  end.
Definition version_decode (c : nat + string) : option RoomVersionId :=
  match c with
  | inl 1 => Some V1 | inl 2 => Some V2 | inl 3 => Some V3
  | inl 4 => Some V4 | inl 5 => Some V5 | inl 6 => Some V6
  | inl _ => None
  | inr version => Some (RoomVersionId_Custom version)
  end.
#[export] Instance RoomVersionId_countable : Countable RoomVersionId.
Proof. refine (inj_countable version_code version_decode _). by intros []. Defined.

Definition RoomVersionId_read (s : string) : outcome () RoomVersionId :=
  map_err (λ _, ()) (RoomVersionId_try_from s).

Definition RoomVersionsCapability : codec := c_struct [
  req "default" c_room_version_id;
  req "available" (c_key_map RoomVersionId RoomVersionId_as_str RoomVersionId_read
    (c_enum RoomVersionStability.RoomVersionStability))].

Definition RoomVersionsCapability_default : ctype RoomVersionsCapability :=
  (V1, ({[V1 := RoomVersionStability.Stable]}, ())).
Definition RoomVersionsCapability_is_default (self : ctype RoomVersionsCapability) : bool :=
  let '(default, (available, _)) := self in
  bool_decide (default = V1) && (size (available : gmap RoomVersionId _) =? 1)
  && match (available : gmap RoomVersionId _) !! V1 with
     | Some stability => bool_decide (stability = RoomVersionStability.Stable)
     | None => false
     end.

Record Capabilities := {
  change_password : ctype ChangePasswordCapability;
  room_versions : ctype RoomVersionsCapability;
  custom_capabilities : gmap string json
}.

Definition Capabilities_new : Capabilities := {|
  change_password := ChangePasswordCapability_default;
  room_versions := RoomVersionsCapability_default;
  custom_capabilities := ∅
|}.

(** ** [get] and [set] *)

Definition get (self : Capabilities) (capability : string) : option json :=
  if decide (capability = "m.change_password") then
    Some (to_value (enc ChangePasswordCapability (change_password self)))
  else if decide (capability = "m.room_versions") then
    Some (to_value (enc RoomVersionsCapability (room_versions self)))
  else custom_capabilities self !! capability.

Definition set_change_password v (self : Capabilities) : Capabilities :=
  {| change_password := v; room_versions := room_versions self;
     custom_capabilities := custom_capabilities self |}.
Definition set_room_versions v (self : Capabilities) : Capabilities :=
  {| change_password := change_password self; room_versions := v;
     custom_capabilities := custom_capabilities self |}.
Definition set_custom v (self : Capabilities) : Capabilities :=
  {| change_password := change_password self; room_versions := room_versions self;
     custom_capabilities := v |}.

(** On an error nothing has been assigned. *)
Definition set (self : Capabilities) (capability : string) (value : json) :
    outcome () () * Capabilities :=
  let assign {A} (o : outcome () A) (f : A → Capabilities → Capabilities) :=
    match o with
    | Ok v => (Ok (), f v self)
    | Err e => (Err e, self)
    | Panic => (Panic, self)
    end in
  if decide (capability = "m.change_password") then
    assign (dec ChangePasswordCapability value) set_change_password
  else if decide (capability = "m.room_versions") then
    assign (dec RoomVersionsCapability value) set_room_versions
  else (Ok (), set_custom (<[capability := value]> (custom_capabilities self)) self).

(** ** The iterator *)

Record CapabilityRef := { cap_name : string; cap_value : option json; caps : Capabilities }.

Definition CapabilityRef_value (self : CapabilityRef) : outcome () json :=
  match cap_value self with
  | Some val => Ok val
  | None => unwrap (get (caps self) (cap_name self))
  end.

Record CapabilitiesIter := {
  iter_caps : Capabilities;
  pos : nat;
  custom_caps_iterator : list (string * json)
}.

Definition CapabilitiesIter_new (caps : Capabilities) : CapabilitiesIter :=
  {| iter_caps := caps; pos := 0; custom_caps_iterator := btree_iter (custom_capabilities caps) |}.

Definition next (self : CapabilitiesIter) : option (CapabilityRef * CapabilitiesIter) :=
  let known name :=
    Some ({| cap_name := name; cap_value := None; caps := iter_caps self |},
          {| iter_caps := iter_caps self; pos := S (pos self);
             custom_caps_iterator := custom_caps_iterator self |}) in
  match pos self with
  | 0 => known "m.change_password"
  | 1 => known "m.room_versions"
  | _ =>
      match custom_caps_iterator self with
      | [] => None
      | (name, value) :: rest =>
          Some ({| cap_name := name; cap_value := Some value; caps := iter_caps self |},
                {| iter_caps := iter_caps self; pos := pos self; custom_caps_iterator := rest |})
      end
  end.

(** [collect]; [None] when the fuel is used up *)
Fixpoint collect (fuel : nat) (it : CapabilitiesIter) : option (list CapabilityRef) :=
  match fuel with
  | 0 => None
  | S fuel =>
      match next it with
      | None => Some []
      | Some (r, it) => (λ l, r :: l) <$> collect fuel it
      end
  end.

(** ** As JSON *)

Definition capability_keys : list string := ["m.change_password"; "m.room_versions"].

Definition ser_Capabilities (self : Capabilities) : json :=
  JObject (
    (if ChangePasswordCapability_is_default (change_password self) then []
     else [("m.change_password", enc ChangePasswordCapability (change_password self))]) ++
    (if RoomVersionsCapability_is_default (room_versions self) then []
     else [("m.room_versions", enc RoomVersionsCapability (room_versions self))]) ++
    btree_iter (custom_capabilities self)).

Definition de_Capabilities : decoder Capabilities := λ j,
  '(src, rest) ← flat_src capability_keys j;
  change_password ← field_default capability_keys "m.change_password"
    ChangePasswordCapability_default (dec ChangePasswordCapability) src;
  room_versions ← field_default capability_keys "m.room_versions"
    RoomVersionsCapability_default (dec RoomVersionsCapability) src;
  custom ← de_JsonObject (JObject rest);
  Ok {| change_password := change_password; room_versions := room_versions;
        custom_capabilities := custom |}.

(** ** Properties *)

(** What [set] and reading keep: the known capabilities are never among the custom ones, which
    are values. *)
Definition well_formed (self : Capabilities) : Prop :=
  map_Forall (λ k v, k ∉ capability_keys ∧ is_value v) (custom_capabilities self).

#[export] Instance skips_change_password :
  SkipsDefault ChangePasswordCapability_default ChangePasswordCapability_is_default.
Proof. by intros [[] []]. Qed.

Lemma map_of_one `{Countable K} {A} (m : gmap K A) k x :
  size m = 1 → m !! k = Some x → m = {[k := x]}.
Proof.
  intros Hs Hk. rewrite <- (insert_delete_id m k x) by done.
  assert (size (delete k m) = 0) as ->%map_size_empty_inv; [|done].
  rewrite map_size_delete_Some by (by eexists). lia.
Qed.

#[export] Instance skips_room_versions :
  SkipsDefault RoomVersionsCapability_default RoomVersionsCapability_is_default.
Proof.
  intros [d [available []]]. simpl. intros [[Hd Hs]%andb_true_iff Hv]%andb_true_iff.
  apply bool_decide_eq_true in Hd as ->. apply Nat.eqb_eq in Hs.
  unfold RoomVersionsCapability_default. do 2 f_equal. apply map_of_one; [done|].
  destruct (_ !! V1) as [st|]; [|done]. by apply bool_decide_eq_true in Hv as ->.
Qed.

Lemma set_well_formed self capability value :
  well_formed self → is_value value → well_formed (set self capability value).2.
Proof.
  intros Hself Hval. unfold set. case_decide as H1; [by destruct (dec _ _)|].
  case_decide as H2; [by destruct (dec _ _)|].
  apply map_Forall_insert_2; [|done]. split; [|done].
  by intros [->|[->|[]%elem_of_nil]%elem_of_cons]%elem_of_cons.
Qed.

Lemma de_well_formed j self : de_Capabilities j = Ok self → well_formed self.
Proof.
  unfold de_Capabilities.
  intros ([src rest] & Hsrc & (cp & _ & (rv & _ & (m & Hm & [= <-])%bind_Ok)%bind_Ok)%bind_Ok)%bind_Ok.
  injection Hm as <-. intros k v Hkv. simpl in Hkv.
  apply last_entries_elem, list_elem_of_fmap in Hkv as ([k' v'] & [= -> ->] & Hin).
  split; [|apply is_value_to_value].
  unfold flat_src in Hsrc. destruct j; try done. case_decide; [|done]. injection Hsrc as <- <-.
  by apply list_elem_of_filter in Hin as [Hk _].
Qed.

(** The entries that are written have distinct keys, and those of the custom capabilities are
    found under theirs only. *)
Lemma capability_entries (self : Capabilities) pre :
  well_formed self → NoDup pre.*1 → pre.*1 ⊆ capability_keys →
  NoDup (pre ++ btree_iter (custom_capabilities self)).*1 ∧
  filter (λ kv, kv.1 ∉ capability_keys) (pre ++ btree_iter (custom_capabilities self)) =
    btree_iter (custom_capabilities self) ∧
  ∀ k, k ∈ capability_keys →
    assoc k (pre ++ btree_iter (custom_capabilities self)) = assoc k pre.
Proof.
  intros Hself Hnd Hpre.
  assert (∀ k, k ∈ (btree_iter (custom_capabilities self)).*1 → k ∉ capability_keys) as Hc.
  { intros k ([k' v] & -> & Hin)%list_elem_of_fmap. apply elem_of_btree_iter in Hin.
    by apply (Hself k' v Hin). }
  split_and!.
  - rewrite fmap_app. apply list.NoDup_app. split_and!; [done| |apply NoDup_btree_iter_fst].
    intros k Hk Hk'. by apply (Hc k Hk'), Hpre.
  - rewrite list.filter_app, list_filter_none, list_filter_all; [done|..].
    + intros kv Hin. by apply Hc, list_elem_of_fmap_2.
    + intros kv Hin Hno. apply Hno, Hpre. by apply list_elem_of_fmap_2.
  - intros k Hk. rewrite assoc_app. destruct (assoc k pre); [done|]. apply assoc_None.
    intros Hk'. by apply (Hc k).
Qed.

Definition cp_field : sfield := dflt "m.change_password" ChangePasswordCapability
  ChangePasswordCapability_default ChangePasswordCapability_is_default.
Definition rv_field : sfield := dflt "m.room_versions" RoomVersionsCapability
  RoomVersionsCapability_default RoomVersionsCapability_is_default.

Lemma de_ser_Capabilities (self : Capabilities) :
  well_formed self → cwf RoomVersionsCapability (room_versions self) →
  de_Capabilities (ser_Capabilities self) = Ok self.
Proof.
  intros Hself Hrv. unfold de_Capabilities, ser_Capabilities. rewrite app_assoc.
  match goal with |- context [(?x ++ ?y) ++ _] => set (pre := x ++ y) end.
  assert (pre = write_fields [cp_field; rv_field] (change_password self, (room_versions self, ())))
    as Hpre by (unfold pre; cbn [write_fields]; by rewrite app_nil_r).
  assert (DistinctKeys [cp_field; rv_field]) as Hdk by (red; decide_it).
  assert (LawfulFields [cp_field; rv_field]) as Hlf by apply _.
  assert (fields_wf [cp_field; rv_field] (change_password self, (room_versions self, ()))) as Hwf.
  { destruct (change_password self) as [? []]. by split; [|split; [intros _; exact Hrv|]]. }
  destruct (capability_entries self pre Hself) as (Hnd & Hrest & Hk).
  { rewrite Hpre. by apply write_fields_once. }
  { rewrite Hpre. by apply (write_fields_keys [cp_field; rv_field]). }
  rewrite flat_src_NoDup by done. cbn [mbind outcome_bind]. rewrite Hrest.
  assert (read_fields capability_keys (FromMap (pre ++ btree_iter (custom_capabilities self))) []
    [cp_field; rv_field] = Ok (change_password self, (room_versions self, ()))) as Hread.
  { apply read_fields_write; [done..|constructor| |].
    - intros k Hin. rewrite Hk by exact Hin. by rewrite Hpre.
    - by intros k []%elem_of_nil. }
  cbn [read_fields f_read cp_field rv_field dflt] in Hread.
  apply bind_Ok in Hread as (cp & -> & (v & (rv & -> & [= <-])%bind_Ok & [= -> ->])%bind_Ok).
  cbn [mbind outcome_bind].
  change (de_JsonObject (JObject (btree_iter (custom_capabilities self))))
    with (de_JsonObject (ser_JsonObject (custom_capabilities self))).
  rewrite de_ser_JsonObject; [by destruct self|].
  intros k v Hv. by apply (Hself k v Hv).
Qed.

(** [set] then [get]: the value itself for a custom capability; for a known one, what its type
    makes of the value. *)
Lemma get_set_custom self capability value :
  capability ∉ capability_keys →
  ∃ self', set self capability value = (Ok (), self') ∧
    get self' capability = Some value ∧
    ∀ other, other ≠ capability → get self' other = get self other.
Proof.
  intros Hno. unfold set, capability_keys in *. rewrite !not_elem_of_cons in Hno.
  destruct Hno as (H1 & H2 & _). rewrite !decide_False by done. eexists. split; [done|].
  split; [unfold get; rewrite !decide_False by done; apply lookup_insert_eq|].
  intros other Hne. unfold get. simpl. by rewrite lookup_insert_ne.
Qed.

Lemma get_set_known self capability value :
  capability ∈ capability_keys →
  (∃ self', set self capability value = (Ok (), self') ∧
     custom_capabilities self' = custom_capabilities self ∧
     ∀ other, other ≠ capability → get self' other = get self other) ∨
  (∃ e, set self capability value = (Err e, self)) ∨ set self capability value = (Panic, self).
Proof.
  intros [->|[->|[]%elem_of_nil]%elem_of_cons]%elem_of_cons; unfold set.
  - rewrite decide_True by done. destruct (dec _ _) as [v|e|]; [left|by right; left; eexists|by right; right].
    eexists. split; [done|]. split; [done|]. intros other Hne. unfold get. by case_decide.
  - rewrite decide_False, decide_True by done.
    destruct (dec _ _) as [v|e|]; [left|by right; left; eexists|by right; right].
    eexists. split; [done|]. split; [done|]. intros other Hne. unfold get.
    case_decide; [done|]. by case_decide.
Qed.

Lemma collect_custom (self : Capabilities) l fuel :
  length l < fuel →
  collect fuel {| iter_caps := self; pos := 2; custom_caps_iterator := l |} =
    Some ((λ '(name, value), {| cap_name := name; cap_value := Some value; caps := self |}) <$> l).
Proof.
  revert fuel. induction l as [|[k v] l IH]; intros [|fuel] Hf; try (simpl in Hf; lia); [done|].
  csimpl. rewrite IH by (simpl in Hf; lia). done.
Qed.

Lemma iter_custom (self : Capabilities) fuel :
  size (custom_capabilities self) + 2 < fuel →
  collect fuel (CapabilitiesIter_new self) =
    Some ({| cap_name := "m.change_password"; cap_value := None; caps := self |} ::
          {| cap_name := "m.room_versions"; cap_value := None; caps := self |} ::
          ((λ '(name, value), {| cap_name := name; cap_value := Some value; caps := self |})
             <$> btree_iter (custom_capabilities self))).
Proof.
  intros Hf. destruct fuel as [|[|fuel]]; [lia..|]. simpl.
  rewrite (collect_custom self); [done|].
  rewrite (Permutation_length (btree_iter_perm _)), length_map_to_list. lia.
Qed.

(** The iterator gives each capability once, the known ones first, and the value of each is that
    of [get]. *)
Lemma iter_spec (self : Capabilities) fuel :
  well_formed self → size (custom_capabilities self) + 2 < fuel →
  ∃ l, collect fuel (CapabilitiesIter_new self) = Some l ∧
    NoDup (cap_name <$> l) ∧
    (∀ name, name ∈ cap_name <$> l ↔ is_Some (get self name)) ∧
    Forall (λ r, ∃ v, CapabilityRef_value r = Ok v ∧ get self (cap_name r) = Some v) l.
Proof.
  intros Hself Hf. rewrite iter_custom by done. eexists. split; [done|].
  assert (∀ k, k ∈ (btree_iter (custom_capabilities self)).*1 ↔
    is_Some (custom_capabilities self !! k)) as Hkeys.
  { intros k. rewrite list_elem_of_fmap. split.
    - intros ([k' v] & -> & Hin%elem_of_btree_iter). by eexists.
    - intros [v Hv]. exists (k, v). split; [done|]. by apply elem_of_btree_iter. }
  assert (cap_name <$> ((λ '(name, value), {| cap_name := name; cap_value := Some value; caps := self |})
    <$> btree_iter (custom_capabilities self)) = (btree_iter (custom_capabilities self)).*1) as Hnames.
  { rewrite <- list_fmap_compose. apply list_fmap_ext. by intros ? [k v]. }
  assert (∀ k, is_Some (custom_capabilities self !! k) → k ∉ capability_keys) as Hno.
  { intros k [v Hv]. by apply (Hself k v). }
  split_and!.
  - csimpl. rewrite Hnames. repeat (apply list.NoDup_cons; split).
    + rewrite not_elem_of_cons, Hkeys. split; [done|]. intros Hk%Hno. by apply Hk; left.
    + rewrite Hkeys. intros Hk%Hno. apply Hk. by right; left.
    + apply NoDup_btree_iter_fst.
  - intros name. csimpl. rewrite !elem_of_cons, Hnames, Hkeys. unfold get.
    case_decide as H1; [split; [by eexists|by left]|].
    case_decide as H2; [split; [by eexists|by right; left]|]. naive_solver.
  - apply list.Forall_cons; split; [by eexists|]. apply list.Forall_cons; split; [by eexists|].
    apply list.Forall_fmap, list.Forall_forall. intros [k v] Hin. exists v. split; [done|]. simpl. apply elem_of_btree_iter in Hin.
    assert (k ∉ capability_keys) as Hk by (apply Hno; by eexists). unfold get.
    unfold capability_keys in Hk. rewrite !not_elem_of_cons in Hk. by rewrite !decide_False by tauto.
Qed.

Definition c_capabilities : codec := {|
  ctype := Capabilities;
  enc := ser_Capabilities;
  dec := de_Capabilities;
  cwf self := well_formed self ∧ cwf RoomVersionsCapability (room_versions self)
|}.
#[export] Instance lawful_capabilities : Lawful c_capabilities.
Proof. intros self [H1 H2]. by apply de_ser_Capabilities. Qed.

(** A homeserver's capabilities: those that are read from JSON have no known capability among
    the custom ones, and [set] keeps it so; an assignment is what [get] gives afterwards, leaves
    all other capabilities as they were, and fails only for a known capability with a value of
    the wrong type, which changes nothing; and the iterator ends, gives each capability once,
    and never panics. *)
Theorem capabilities_well_formed :
  (∀ j self, de_Capabilities j = Ok self → well_formed self) ∧
  (∀ self capability value, well_formed self → is_value value →
     well_formed (set self capability value).2) ∧
  (∀ self capability value, capability ∉ capability_keys →
     ∃ self', set self capability value = (Ok (), self') ∧ get self' capability = Some value ∧
       ∀ other, other ≠ capability → get self' other = get self other) ∧
  (∀ self capability value, (set self capability value).1 ≠ Ok () →
     capability ∈ capability_keys ∧ (set self capability value).2 = self) ∧
  (∀ self fuel, well_formed self → size (custom_capabilities self) + 2 < fuel →
     ∃ l, collect fuel (CapabilitiesIter_new self) = Some l ∧ NoDup (cap_name <$> l) ∧
       (∀ name, name ∈ cap_name <$> l ↔ is_Some (get self name)) ∧
       Forall (λ r, ∃ v, CapabilityRef_value r = Ok v ∧ get self (cap_name r) = Some v) l).
Proof.
  split_and!; [apply de_well_formed|apply set_well_formed|apply get_set_custom| |apply iter_spec].
  intros self capability value Herr. destruct (decide (capability ∈ capability_keys)) as [Hk|Hk].
  - split; [done|].
    destruct (get_set_known self capability value Hk) as [(self' & Hs & _)|[[e Hs]|Hs]];
      rewrite Hs in Herr |- *; done.
  - by destruct (get_set_custom self capability value Hk) as (self' & Hs & _); rewrite Hs in Herr.
Qed.
