(* ===== verification/ClientLogin.v ===== *)
(** * Login types and login information

    [ruma-client-api/src/r0/session/get_login_types.rs] with [login_type_serde.rs], and the
    types of [session/login.rs]: enums that are read by the [type] of the object, with a custom
    variant for all other types. *)

From S2P Require Import Prelude RustStr RustNet IdValidation StringEnum Identifiers Json.
From S2P Require Import CanonicalJson Serde Codecs UrlEncoded UrlEncodedSpec ClientErrors.
From S2P Require Import Uiaa UiaaSpec Http Api ApiPaths ApiQuery ApiSpec ApiTypes ClientTypes.
From Stdlib Require Import Ascii NArith.
Open Scope string_scope.
Open Scope nat_scope.
Open Scope list_scope.

(** ** get_login_types.rs *)

Module LoginType.
(** [PasswordLoginType], [TokenLoginType] and [SsoLoginType] have no fields. *)
Definition PasswordLoginType : codec := tagged "type" "m.login.password" [].
Definition TokenLoginType : codec := tagged "type" "m.login.token" [].
Definition SsoLoginType : codec := tagged "type" "m.login.sso" [].
Record CustomLoginType := { type_ : string; custom_data : gmap string json }.

Inductive LoginType :=
  | Password
  | Token
  | Sso
  | Custom (c : CustomLoginType).

(** The field [type_] is renamed to [override]; [data] is flattened. *)
Definition ser_CustomLoginType (c : CustomLoginType) : json :=
  JObject (("override", JString (type_ c)) :: btree_iter (custom_data c)).
Definition de_CustomLoginType : decoder CustomLoginType := λ j,
  '(src, rest) ← flat_src ["override"] j;
  type_ ← field_req ["override"] "override" de_string src;
  data ← de_JsonObject (JObject rest);
  Ok {| type_ := type_; custom_data := data |}.

Definition login_type (self : LoginType) : string :=
  match self with
  | Password => "m.login.password"
  | Token => "m.login.token"
  | Sso => "m.login.sso"
  | Custom c => type_ c
  end.

(** [serde(untagged)] *)
Definition ser_LoginType (self : LoginType) : json :=
  match self with
  | Password => enc PasswordLoginType ()
  | Token => enc TokenLoginType ()
  | Sso => enc SsoLoginType ()
  | Custom c => ser_CustomLoginType c
  end.

Definition of_type (login_type : string) (d : ∀ A, codec → A → outcome () A)
    (custom : outcome () LoginType) : outcome () LoginType :=
  if decide (login_type = "m.login.password") then d _ PasswordLoginType Password
  else if decide (login_type = "m.login.token") then d _ TokenLoginType Token
  else if decide (login_type = "m.login.sso") then d _ SsoLoginType Sso
  else custom.

(** [LoginType::new] *)
Definition new (login_type : string) (data : gmap string json) : outcome () LoginType :=
  of_type login_type (λ _ c a, _ ← dec c (ser_JsonObject data); Ok a)
    (Ok (Custom {| type_ := login_type; custom_data := data |})).

(** [data]: the serialization of a known type as an object, which has the [type] *)
Definition data (self : LoginType) : outcome () (gmap string json) :=
  match self with
  | Custom c => Ok (custom_data c)
  | _ => match de_JsonObject (ser_LoginType self) with Ok m => Ok m | _ => Panic end
  end.

(** login_type_serde.rs *)
Definition LoginTypeDeHelper : codec := c_struct [req "type" c_string].
Definition de_LoginType : decoder LoginType := λ json,
  json ← de_raw json;
  '(type_, _) ← dec LoginTypeDeHelper json;
  of_type type_ (λ _ c a, _ ← dec c json; Ok a) (Custom <$> de_CustomLoginType json).
End LoginType.

(** The known types *)
Definition c_login_type : codec := {|
  ctype := LoginType.LoginType;
  enc := LoginType.ser_LoginType;
  dec := LoginType.de_LoginType;
  cwf self := match self with LoginType.Custom _ => False | _ => True end
|}.
#[export] Instance lawful_login_type : Lawful c_login_type.
Proof. intros [| | |c] Hc; [reflexivity..|done]. Qed.

(** ** login.rs *)

Definition c_user_identifier : codec := {|
  ctype := UserIdentifier;
  enc := ser_UserIdentifier;
  dec := de_UserIdentifier;
  cwf := wf_identifier
|}.
#[export] Instance lawful_user_identifier : Lawful c_user_identifier.
Proof. intros u Hu. by apply de_ser_identifier. Qed.
#[export] Instance never_null_user_identifier : NeverNull c_user_identifier.
Proof. by intros []. Qed.

Module LoginInfo.
Definition Password_fields : list sfield := [
  req "identifier" c_user_identifier;
  req "password" c_string].
Definition Token_fields : list sfield := [req "token" c_string].

Record CustomLoginInfo := { login_type : string; extra : gmap string json }.

Inductive LoginInfo :=
  | Password (p : fields_type Password_fields)
  | Token (t : fields_type Token_fields)
  | Custom (c : CustomLoginInfo).

(** [serde(untagged)]; the structs have their tag. *)
Definition write (self : LoginInfo) : list (string * json) :=
  match self with
  | Password p => ("type", JString "m.login.password") :: write_fields Password_fields p
  | Token t => ("type", JString "m.login.token") :: write_fields Token_fields t
  | Custom c => ("type", JString (login_type c)) :: btree_iter (extra c)
  end.

(** [IncomingCustomLoginInfo] *)
Definition de_CustomLoginInfo : decoder CustomLoginInfo := λ j,
  '(src, rest) ← flat_src ["type"] j;
  login_type ← field_req ["type"] "type" de_string src;
  extra ← de_JsonObject (JObject rest);
  Ok {| login_type := login_type; extra := extra |}.

(** [json["type"].as_str()] *)
Definition type_of (json : json) : outcome () string :=
  match json with
  | JObject entries =>
      match assoc "type" entries with Some (JString s) => Ok s | _ => Err () end
  | _ => Err ()
  end.

Definition of_type (login_type : string) (json : json) (custom : outcome () LoginInfo) :
    outcome () LoginInfo :=
  if decide (login_type = "m.login.password") then Password <$> de_struct Password_fields json
  else if decide (login_type = "m.login.token") then Token <$> de_struct Token_fields json
  else custom.

(** [Deserialize for IncomingLoginInfo] *)
Definition de_LoginInfo : decoder LoginInfo := λ j,
  let json := to_value j in
  login_type ← type_of json;
  of_type login_type json (Custom <$> de_CustomLoginInfo json).

(** [IncomingLoginInfo::new] *)
Definition new (login_type : string) (data : gmap string json) : outcome () LoginInfo :=
  of_type login_type (ser_JsonObject data)
    (Ok (Custom {| login_type := login_type; extra := data |})).

(** [to_outgoing] borrows the same values. *)
Definition to_outgoing (self : LoginInfo) : LoginInfo := self.
End LoginInfo.

(** [flatten] of a [LoginInfo]. What a custom one writes is not known; the laws are for the
    others. *)
Definition flat_login_info : sfield :=
  flat_with ["type"; "identifier"; "password"; "token"] LoginInfo.LoginInfo LoginInfo.write
    (λ rest, LoginInfo.de_LoginInfo (JObject rest))
    (λ self, match self with
             | LoginInfo.Password p => fields_wf LoginInfo.Password_fields p
             | LoginInfo.Token _ => True
             | LoginInfo.Custom _ => False
             end).

(** ** Properties *)

(** Where the entries are the ones written, reading them as a [Value] finds their values. *)
Lemma value_entries (l : list (string * json)) entries :
  NoDup entries.*1 → (∀ k j, (k, j) ∈ l → assoc k entries = Some j) →
  ∃ es, to_value (JObject entries) = JObject es ∧ NoDup es.*1 ∧
    ∀ k j, (k, j) ∈ l → assoc k es = Some (to_value j).
Proof.
  intros Hnd Hl. eexists. split; [done|].
  destruct (holds_value (prod_map id Some <$> l) entries) as [Hnd' Hl'].
  { split; [done|]. apply list.Forall_fmap, list.Forall_forall. intros [k j] Hin. by apply Hl. }
  split; [done|]. intros k j Hin.
  apply (holds_field to_value (prod_map id Some <$> l) _ k (Some j)); [done|].
  by apply (list_elem_of_fmap_2 (prod_map id Some) l (k, j)).
Qed.

#[export] Instance lawful_flat_login_info : LawfulField flat_login_info.
Proof.
  split.
  - intros [[u [p []]]|[t []]|c] Hwf; [| |done]; cbn; intros k Hk; set_solver.
  - intros [[u [p []]]|[t []]|c] Hwf; [| |done]; decide_it.
  - intros own entries rest a Ha _ Hr _ Hin. cbn [f_read flat_login_info flat_with].
    destruct (value_entries (LoginInfo.write a) rest Hr) as (es & Hes & Hnd & Hv).
    { intros k j Hkj. rewrite Hin; [|destruct a as [[u [p []]]|[t []]|c]; [| |done]; set_solver].
      destruct a as [[u [p []]]|[t []]|c]; [| |done]; cbn in Hkj;
        repeat (apply elem_of_cons in Hkj as [[= -> ->]|Hkj]; [reflexivity|]);
        by apply elem_of_nil in Hkj. }
    unfold LoginInfo.de_LoginInfo. rewrite Hes.
    destruct a as [[u [p []]]|[t []]|c]; [| |done]; cbn [LoginInfo.type_of];
      rewrite (Hv "type" (JString _)) by (by left); cbn [to_value mbind outcome_bind].
    + unfold LoginInfo.of_type. rewrite decide_True by done. unfold de_struct.
      change (has_flatten LoginInfo.Password_fields) with false. cbv iota.
      rewrite struct_src_obj by done. cbn [mbind outcome_bind read_fields LoginInfo.Password_fields f_read req].
      rewrite (field_req_Some _ "identifier" _ _ (to_value (ser_UserIdentifier u))) by (apply Hv; by right; left).
      cbn [dec c_user_identifier]. rewrite de_identifier_value, (proj2 (de_ser_identifier u)) by apply Ha.
      cbn [mbind outcome_bind].
      by rewrite (field_req_Some _ "password" _ _ (JString p)) by (apply (Hv "password" (JString p)); by do 2 right; left).
    + unfold LoginInfo.of_type. rewrite decide_False, decide_True by done. unfold de_struct.
      change (has_flatten LoginInfo.Token_fields) with false. cbv iota.
      rewrite struct_src_obj by done. cbn [mbind outcome_bind read_fields LoginInfo.Token_fields f_read req].
      by rewrite (field_req_Some _ "token" _ _ (JString t)) by (apply (Hv "token" (JString t)); by right; left).
Qed.

(** The object of a login type of any other name, as the specification has it, cannot be read:
    the field of the type is looked for under [override]. *)
Lemma custom_login_type_unreadable name (entries : list (string * json)) :
  NoDup entries.*1 → assoc "type" entries = Some (JString name) → assoc "override" entries = None →
  name ∉ ["m.login.password"; "m.login.token"; "m.login.sso"] →
  LoginType.de_LoginType (JObject entries) = Err ().
Proof.
  intros Hnd Htype Hover Hname. rewrite !not_elem_of_cons in Hname.
  destruct Hname as (H1 & H2 & H3 & _).
  unfold LoginType.de_LoginType. cbn [de_raw mbind outcome_bind].
  assert (dec LoginType.LoginTypeDeHelper (JObject entries) = Ok (name, ())) as ->.
  { cbn [dec LoginType.LoginTypeDeHelper c_struct]. unfold de_struct. cbn [has_flatten existsb req f_inner list_is_empty negb orb].
    rewrite struct_src_obj by done. cbn [mbind outcome_bind read_fields f_read req].
    by rewrite (field_req_Some _ _ _ _ (JString name)). }
  cbn [mbind outcome_bind]. unfold LoginType.of_type. rewrite !decide_False by done.
  unfold LoginType.de_CustomLoginType. rewrite flat_src_NoDup by done. cbn [mbind outcome_bind].
  by rewrite field_req_None.
Qed.

(** What is written for a custom login type has no [type]. *)
Lemma custom_login_type_no_type (c : LoginType.CustomLoginType) :
  LoginType.custom_data c !! "override" = None → LoginType.custom_data c !! "type" = None →
  LoginType.de_LoginType (LoginType.ser_LoginType (LoginType.Custom c)) = Err ().
Proof.
  intros Hover Htype. unfold LoginType.de_LoginType, LoginType.ser_LoginType, LoginType.ser_CustomLoginType.
  cbn [de_raw mbind outcome_bind].
  assert (dec LoginType.LoginTypeDeHelper (JObject (("override", JString (LoginType.type_ c)) ::
    btree_iter (LoginType.custom_data c))) = Err ()) as ->; [|done].
  cbn [dec LoginType.LoginTypeDeHelper c_struct]. apply req_absent.
  - rewrite assoc_cons, decide_False by done. by rewrite assoc_btree_iter.
  - csimpl. apply list.NoDup_cons. split; [|apply NoDup_btree_iter_fst].
    intros ([k v] & Hk & Hin%elem_of_btree_iter)%list_elem_of_fmap. simpl in Hk. subst k. congruence.
Qed.

(** The entries of a map without those of some keys *)
Lemma filter_btree_iter (m : gmap string json) (keys : list string) m' :
  (∀ k v, m' !! k = Some v ↔ k ∉ keys ∧ m !! k = Some v) →
  last_entries (filter (λ kv, kv.1 ∉ keys) (btree_iter m)) = m'.
Proof.
  intros Hm. assert (NoDup (filter (λ kv, kv.1 ∉ keys) (btree_iter m)).*1) as Hnd.
  { eapply sublist_NoDup; [apply (NoDup_btree_iter_fst m)|]. apply fmap_sublist, sublist_filter. }
  rewrite last_entries_NoDup by done. apply map_eq. intros k. apply option_eq. intros v.
  rewrite <- elem_of_list_to_map by done. by rewrite list_elem_of_filter, elem_of_btree_iter, Hm.
Qed.

(** A custom login information is read back. *)
Lemma custom_login_info_round_trip (c : LoginInfo.CustomLoginInfo) :
  LoginInfo.login_type c ∉ ["m.login.password"; "m.login.token"] →
  LoginInfo.extra c !! "type" = None → map_Forall (λ _, is_value) (LoginInfo.extra c) →
  LoginInfo.de_LoginInfo (JObject (LoginInfo.write (LoginInfo.Custom c))) = Ok (LoginInfo.Custom c).
Proof.
  intros Hname Htype Hval. rewrite !not_elem_of_cons in Hname. destruct Hname as (H1 & H2 & _).
  destruct c as [name extra]. cbn [LoginInfo.login_type LoginInfo.extra LoginInfo.write] in *.
  set (m := <["type" := JString name]> extra).
  assert (to_value (JObject (("type", JString name) :: btree_iter extra)) = JObject (btree_iter m)) as Hv.
  { unfold to_value; fold to_value. do 2 f_equal. rewrite last_entries_map, last_entries_NoDup.
    - cbn [list_to_map foldr]. fold (list_to_map (M:=gmap string json) (btree_iter extra)).
      rewrite list_to_map_btree_iter, fmap_insert, map_value_id by done. done.
    - csimpl. apply list.NoDup_cons. split; [|apply NoDup_btree_iter_fst].
      intros ([k v] & Hk & Hin%elem_of_btree_iter)%list_elem_of_fmap. simpl in Hk. subst k. congruence. }
  unfold LoginInfo.de_LoginInfo. rewrite Hv. cbn [LoginInfo.type_of].
  assert (assoc "type" (btree_iter m) = Some (JString name)) as Hm.
  { rewrite assoc_btree_iter. apply lookup_insert_eq. }
  rewrite Hm. cbn [mbind outcome_bind].
  unfold LoginInfo.of_type. rewrite !decide_False by done. unfold LoginInfo.de_CustomLoginInfo.
  rewrite flat_src_NoDup by apply NoDup_btree_iter_fst. cbn [mbind outcome_bind].
  rewrite (field_req_Some _ _ _ _ (JString name)) by done.
  cbn [mbind outcome_bind de_string de_JsonObject]. rewrite last_entries_map.
  rewrite (filter_btree_iter m _ extra).
  - by rewrite map_value_id.
  - intros k v. unfold m. rewrite lookup_insert_Some, list_elem_of_singleton. split.
    + intros Hk. assert (k ≠ "type") by congruence. naive_solver.
    + intros [Hk [[<- _]|[_ ?]]]; done.
Qed.
