(* ===== verification/ClientSession.v ===== *)
(** * Client API: sessions, capabilities and discovery

    The endpoints of [r0/session], [r0/capabilities], [r0/uiaa] and [unversioned].
    ([sso_login_with_provider] needs the feature [unstable-pre-spec].) *)

From S2P Require Import Prelude RustStr RustNet IdValidation StringEnum Identifiers Json.
From S2P Require Import CanonicalJson Serde Codecs UrlEncoded UrlEncodedSpec ClientErrors.
From S2P Require Import Uiaa UiaaSpec Http Api ApiPaths ApiQuery ApiSpec ApiTypes ClientTypes.
From S2P Require Import Capabilities ClientLogin.
From Stdlib Require Import Ascii NArith.
Open Scope string_scope.
Open Scope nat_scope.
Open Scope list_scope.

Module get_capabilities.
Definition api : endpoint := {|
  ep_metadata := {|
    description :=
      "Gets information about the server's supported feature set and other relevant capabilities.";
    method := "GET";
    name := "get_capabilities";
    path := "/_matrix/client/r0/capabilities";
    rate_limited := true;
    authentication := AccessToken
  |};
  ep_request := [];
  ep_response := [
    RespBody (req "capabilities" c_capabilities)];
  ep_error := ClientError
|}.

#[export] Instance get_capabilities_lawful : LawfulEndpoint api.
Proof. lawful_endpoint. Qed.
End get_capabilities.

Module get_login_types.
Definition api : endpoint := {|
  ep_metadata := {|
    description :=
      "Gets the homeserver's supported login types to authenticate users. Clients should pick one of these and supply it as the type when logging in.";
    method := "GET";
    name := "get_login_types";
    path := "/_matrix/client/r0/login";
    rate_limited := true;
    authentication := AuthNone
  |};
  ep_request := [];
  ep_response := [
    RespBody (req "flows" (c_list c_login_type))];
  ep_error := ClientError
|}.

#[export] Instance get_login_types_lawful : LawfulEndpoint api.
Proof. lawful_endpoint. Qed.
End get_login_types.

Module login.
Definition HomeserverInfo : codec := c_struct [
  req "base_url" c_string].

Definition IdentityServerInfo_fields : list sfield := [
  req "base_url" c_string].
Definition IdentityServerInfo : codec := c_struct IdentityServerInfo_fields.

Definition DiscoveryInfo : codec := c_struct [
  req "m.homeserver" HomeserverInfo;
  nullable "m.identity_server" IdentityServerInfo].

Definition api : endpoint := {|
  ep_metadata := {|
    description := "Login to the homeserver.";
    method := "POST";
    name := "login";
    path := "/_matrix/client/r0/login";
    rate_limited := true;
    authentication := AuthNone
  |};
  ep_request := [
    Body flat_login_info;
    Body (opt "device_id" c_string);
    Body (opt "initial_device_display_name" c_string)];
  ep_response := [
    RespBody (req "user_id" c_user_id);
    RespBody (req "access_token" c_string);
    RespBody (opt "home_server" c_server_name);
    RespBody (req "device_id" c_string);
    RespBody (opt "well_known" DiscoveryInfo)];
  ep_error := ClientError
|}.

#[export] Instance login_lawful : LawfulEndpoint api.
Proof. lawful_endpoint. Qed.
End login.

Module login_fallback.
Definition api : endpoint := {|
  ep_metadata := {|
    description := "Get login fallback web page.";
    method := "GET";
    name := "login_fallback";
    path := "/_matrix/static/client/login/";
    rate_limited := false;
    authentication := AuthNone
  |};
  ep_request := [
    Query (q_opt "device_id" qc_string);
    Query (q_opt "initial_device_display_name" qc_string)];
  ep_response := [
    RespRawBody];
  ep_error := DefaultError
|}.

#[export] Instance login_fallback_lawful : LawfulEndpoint api.
Proof. lawful_endpoint. Qed.
End login_fallback.

Module logout.
Definition api : endpoint := {|
  ep_metadata := {|
    description := "Log out of the homeserver.";
    method := "POST";
    name := "logout";
    path := "/_matrix/client/r0/logout";
    rate_limited := false;
    authentication := AccessToken
  |};
  ep_request := [];
  ep_response := [];
  ep_error := ClientError
|}.

#[export] Instance logout_lawful : LawfulEndpoint api.
Proof. lawful_endpoint. Qed.
End logout.

Module logout_all.
Definition api : endpoint := {|
  ep_metadata := {|
    description :=
      "Invalidates all access tokens for a user, so that they can no longer be used for authorization.";
    method := "POST";
    name := "logout_all";
    path := "/_matrix/client/r0/logout/all";
    rate_limited := false;
    authentication := AccessToken
  |};
  ep_request := [];
  ep_response := [];
  ep_error := ClientError
|}.

#[export] Instance logout_all_lawful : LawfulEndpoint api.
Proof. lawful_endpoint. Qed.
End logout_all.

Module sso_login.
Definition api : endpoint := {|
  ep_metadata := {|
    description := "";
    method := "GET";
    name := "sso_login";
    path := "/_matrix/client/r0/login/sso/redirect";
    rate_limited := false;
    authentication := AuthNone
  |};
  ep_request := [
    Query (q_req "redirectUrl" qc_string)];
  ep_response := [
    RespHeader {| h_name := "LOCATION"; h_optional := false |}];
  ep_error := ClientError
|}.

#[export] Instance sso_login_lawful : LawfulEndpoint api.
Proof. lawful_endpoint. Qed.
End sso_login.

Module sso_login_with_provider.
Definition api : endpoint := {|
  ep_metadata := {|
    description := "Get the SSO login identity provider url.";
    method := "GET";
    name := "sso_login_with_provider";
    path := "/_matrix/client/unstable/org.matrix.msc2858/login/sso/redirect/:idp_id";
    rate_limited := false;
    authentication := AuthNone
  |};
  ep_request := [
    Path (p_string "idp_id");
    Query (q_req "redirectUrl" qc_string)];
  ep_response := [
    RespHeader {| h_name := "LOCATION"; h_optional := false |}];
  ep_error := ClientError
|}.

#[export] Instance sso_login_with_provider_lawful : LawfulEndpoint api.
Proof. lawful_endpoint. Qed.
End sso_login_with_provider.

Module get_uiaa_fallback_page.
Definition api : endpoint := {|
  ep_metadata := {|
    description := "Get UIAA fallback web page.";
    method := "GET";
    name := "authorize_fallback";
    path := "/_matrix/client/r0/auth/:auth_type/fallback/web";
    rate_limited := false;
    authentication := AuthNone
  |};
  ep_request := [
    Path (p_string "auth_type");
    Query (q_req "session" qc_string)];
  ep_response := [
    RespHeader {| h_name := "LOCATION"; h_optional := true |};
    RespRawBody];
  ep_error := ClientError
|}.

#[export] Instance get_uiaa_fallback_page_lawful : LawfulEndpoint api.
Proof. lawful_endpoint. Qed.
End get_uiaa_fallback_page.

Module discover_homeserver.
Definition HomeserverInfo : codec := c_struct [
  req "base_url" c_string].

Definition IdentityServerInfo_fields : list sfield := [
  req "base_url" c_string].
Definition IdentityServerInfo : codec := c_struct IdentityServerInfo_fields.

Definition api : endpoint := {|
  ep_metadata := {|
    description := "Get discovery information about the domain.";
    method := "GET";
    name := "discover_homeserver";
    path := "/.well-known/matrix/client";
    rate_limited := false;
    authentication := AuthNone
  |};
  ep_request := [];
  ep_response := [
    RespBody (req "m.homeserver" HomeserverInfo);
    RespBody (nullable "m.identity_server" IdentityServerInfo)];
  ep_error := ClientError
|}.

#[export] Instance discover_homeserver_lawful : LawfulEndpoint api.
Proof. lawful_endpoint. Qed.
End discover_homeserver.

Module get_supported_versions.
Definition api : endpoint := {|
  ep_metadata := {|
    description := "Get the versions of the client-server API supported by this homeserver.";
    method := "GET";
    name := "api_versions";
    path := "/_matrix/client/versions";
    rate_limited := false;
    authentication := AuthNone
  |};
  ep_request := [];
  ep_response := [
    RespBody (req "versions" (c_list c_string));
    RespBody (str_map "unstable_features" c_bool)];
  ep_error := ClientError
|}.

#[export] Instance get_supported_versions_lawful : LawfulEndpoint api.
Proof. lawful_endpoint. Qed.
End get_supported_versions.
