(* ===== verification/FederationTypes.v ===== *)
(** * Types of the server-server API

    [ruma-federation-api/src/serde.rs] (the responses that are wrapped in an array, the results
    of a transaction), [transactions/edu.rs], [membership/create_join_event.rs] and
    [discovery.rs]. *)

From S2P Require Import Prelude RustStr RustNet IdValidation StringEnum Identifiers Json.
From S2P Require Import EventTypes EventContents CanonicalJson Serde Codecs UrlEncoded.
From S2P Require Import UrlEncodedSpec ClientErrors Uiaa UiaaSpec Http Api ApiPaths ApiQuery.
From S2P Require Import ApiSpec ApiTypes ClientTypes.
From Stdlib Require Import Ascii NArith.
Open Scope string_scope.
Open Scope nat_scope.
Open Scope list_scope.

(** ** serde/v1_pdu.rs *)

(** A pair of a status code, which is not looked at, and the value; more items are skipped. *)
Definition c_v1_pdu (c : codec) : codec := {|
  ctype := ctype c;
  enc a := JArray [JNumber (NInt 200); enc c a];
  dec j := match j with JArray (_ :: j :: _) => dec c j | _ => Err () end;
  cwf := cwf c
|}.
#[export] Instance lawful_v1_pdu c : Lawful c → Lawful (c_v1_pdu c).
Proof. intros Hc a Ha. simpl. by apply Hc. Qed.

(** ** serde/pdu_process_response.rs *)

Definition WrappedError : codec := c_struct [opt "error" c_string].

(** [Result<(), String>] *)
Definition result : Type := () + string.
Definition result_to_error (r : result) : ctype WrappedError :=
  match r with inl _ => (None, ()) | inr error => (Some error, ()) end.
Definition result_from_error (e : ctype WrappedError) : result :=
  match e with (Some error, _) => inr error | (None, _) => inl () end.
#[export] Instance result_inverse : Inverse result_to_error result_from_error.
Proof. by intros [[]|error]. Qed.

Definition c_pdu_process_response : codec :=
  c_id_map EventId_parse (c_via result WrappedError result_to_error result_from_error).

(** ** membership/create_join_event.rs *)

Definition RoomState : codec := c_struct [
  req "origin" c_string;
  req "auth_chain" (c_list c_raw);
  req "state" (c_list c_raw)].

(** ** ruma-events/src/room/member.rs *)

Definition SignedContent `{Unicode} : codec := c_struct [
  req "mxid" c_user_id;
  req "signatures" (c_id_map ServerName_parse (c_id_map KeyId_parse c_string));
  req "token" c_string].
Definition ThirdPartyInvite `{Unicode} : codec := c_struct [
  req "display_name" c_string;
  req "signed" SignedContent].
(** [RoomMemberEventContent] *)
Definition c_member_content `{Unicode} : codec := c_struct [
  opt "avatar_url" c_string;
  opt "displayname" c_string;
  opt "is_direct" c_bool;
  req "membership" (c_enum MembershipState);
  opt "third_party_invite" ThirdPartyInvite].

(** ** membership/create_leave_event/v1.rs *)

(** [serde_json]'s [RawValue] gives any other serializer a struct with a name of its own, and
    takes nothing but a map with that name from any other deserializer. *)
Definition q_raw `{JsonText} (name : string) : query_field := {|
  qf_name := name; qf_type := json; qf_shape := TString; qf_default := None;
  qf_write j := Some (SStruct [("$serde_json::private::RawValue", SStr (json_to_vec j))]);
  qf_read _ := Err ();
  qf_wf _ := False
|}.
#[export] Instance lawful_q_raw `{JsonText} name : LawfulQuery (q_raw name).
Proof. split; by intros. Qed.

(** ** membership/create_invite/v1.rs *)

(** [invite_room_state] is left out when it is empty, and is required. *)
Definition UnsignedEventContent : codec := c_struct [
  skipped "invite_room_state" (c_list c_raw) list_is_empty].
Definition UnsignedEventContent_default : ctype UnsignedEventContent := ([], ()).
Definition UnsignedEventContent_is_empty : ctype UnsignedEventContent → bool :=
  skip_fields list_is_empty skip_end.

(** ** transactions/edu.rs *)

Definition PresenceUpdate : codec := c_struct [
  req "user_id" c_user_id;
  req "presence" (c_enum PresenceState.PresenceState);
  opt "status_msg" c_string;
  req "last_active_ago" c_uint;
  dflt_written "currently_active" c_bool false].
Definition PresenceContent : codec := c_struct [req "push" (c_list PresenceUpdate)].

(** ruma-events/src/receipt.rs *)
Definition Receipt : codec := c_struct [opt "ts" c_uint].
Definition ReceiptData : codec := c_struct [
  req "data" Receipt;
  req "event_ids" (c_list c_event_id)].
Definition ReceiptMap : codec := c_struct [req "m.read" (c_id_map UserId_parse ReceiptData)].
(** The one field, a map, is flattened. *)
Definition ReceiptContent : codec := c_id_map RoomId_parse ReceiptMap.

Definition TypingContent : codec := c_struct [
  req "room_id" c_room_id;
  req "user_id" c_user_id;
  req "typing" c_bool].

Definition DeviceListUpdateContent : codec := c_struct [
  req "user_id" c_user_id;
  req "device_id" c_string;
  opt "device_display_name" c_string;
  req "stream_id" c_uint;
  vec "prev_id" c_uint;
  opt "deleted" c_bool;
  opt "keys" DeviceKeys].

Definition DirectDeviceMessages : codec := c_id_map UserId_parse
  (c_key_map DeviceIdOrAllDevices DeviceIdOrAllDevices_to_string DeviceIdOrAllDevices_try_from c_raw).
Definition DirectDeviceContent : codec := c_struct [
  req "sender" c_user_id;
  req "type" (c_enum EventType);
  req "message_id" c_string;
  req "messages" DirectDeviceMessages].

Module Edu.
Inductive Edu :=
  | Presence (content : ctype PresenceContent)
  | Receipt (content : ctype ReceiptContent)
  | Typing (content : ctype TypingContent)
  | DeviceListUpdate (content : ctype DeviceListUpdateContent)
  | DirectToDevice (content : ctype DirectDeviceContent)
  | Custom (content : json).

(** [serde(tag = "edu_type", content = "content")]; the custom variant has no name of its own. *)
Definition serialize (self : Edu) : json :=
  let tagged edu_type content :=
    JObject [("edu_type", JString edu_type); ("content", content)] in
  match self with
  | Presence c => tagged "m.presence" (enc PresenceContent c)
  | Receipt c => tagged "m.receipt" (enc ReceiptContent c)
  | Typing c => tagged "m.typing" (enc TypingContent c)
  | DeviceListUpdate c => tagged "m.device_list_update" (enc DeviceListUpdateContent c)
  | DirectToDevice c => tagged "m.direct_to_device" (enc DirectDeviceContent c)
  | Custom c => tagged "_Custom" c
  end.

Definition EduDeHelper : codec := c_struct [req "edu_type" c_string; req "content" c_raw].

Definition deserialize : decoder Edu := λ json,
  json ← de_raw json;
  '(edu_type, (content, _)) ← dec EduDeHelper json;
  if decide (edu_type = "m.presence") then Presence <$> dec PresenceContent content
  else if decide (edu_type = "m.receipt") then Receipt <$> dec ReceiptContent content
  else if decide (edu_type = "m.typing") then Typing <$> dec TypingContent content
  else if decide (edu_type = "m.device_list_update") then
    DeviceListUpdate <$> dec DeviceListUpdateContent content
  else if decide (edu_type = "m.direct_to_device") then
    DirectToDevice <$> dec DirectDeviceContent content
  else Custom <$> dec c_value content.

Definition well_formed (self : Edu) : Prop :=
  match self with
  | Presence c => cwf PresenceContent c
  | Receipt c => cwf ReceiptContent c
  | Typing c => cwf TypingContent c
  | DeviceListUpdate c => cwf DeviceListUpdateContent c
  | DirectToDevice c => cwf DirectDeviceContent c
  | Custom c => cwf c_value c
  end.
End Edu.

(** The two fields are found where they are, whatever else the object has. *)
Lemma edu_helper entries edu_type content :
  NoDup entries.*1 → assoc "edu_type" entries = Some (JString edu_type) →
  assoc "content" entries = Some content →
  dec Edu.EduDeHelper (JObject entries) = Ok (edu_type, (content, ())).
Proof.
  intros Hnd Ht Hc. cbn [dec Edu.EduDeHelper c_struct]. unfold de_struct.
  match goal with |- context [has_flatten ?l] => change (has_flatten l) with false end. cbv iota.
  rewrite struct_src_obj by done. cbn [mbind outcome_bind read_fields f_read req].
  rewrite (field_req_Some _ _ _ _ _ Ht). cbn [dec c_string de_string mbind outcome_bind].
  by rewrite (field_req_Some _ _ _ _ _ Hc).
Qed.

Lemma edu_round_trip_lemma (edu : Edu.Edu) :
  Edu.well_formed edu → Edu.deserialize (Edu.serialize edu) = Ok edu.
Proof.
  intros Hwf. unfold Edu.deserialize.
  assert (∀ t j, dec Edu.EduDeHelper (JObject [("edu_type", JString t); ("content", j)]) =
    Ok (t, (j, ()))) as Hh.
  { intros t j. apply edu_helper; [decide_it|reflexivity..]. }
  destruct edu; cbn [Edu.serialize de_raw mbind outcome_bind]; rewrite Hh;
    cbn [mbind outcome_bind]; repeat (rewrite decide_False by done); try rewrite decide_True by done.
  - by rewrite (dec_enc (c := PresenceContent) _ Hwf).
  - by rewrite (dec_enc (c := ReceiptContent) _ Hwf).
  - by rewrite (dec_enc (c := TypingContent) _ Hwf).
  - by rewrite (dec_enc (c := DeviceListUpdateContent) _ Hwf).
  - by rewrite (dec_enc (c := DirectDeviceContent) _ Hwf).
  - by rewrite (dec_enc (c := c_value) content Hwf : dec c_value content = Ok content).
Qed.

(** The type of a custom EDU is not kept. *)
Lemma custom_edu_type_lost_lemma entries edu_type content :
  NoDup entries.*1 → assoc "edu_type" entries = Some (JString edu_type) →
  assoc "content" entries = Some content → is_value content →
  edu_type ∉ ["m.presence"; "m.receipt"; "m.typing"; "m.device_list_update"; "m.direct_to_device"] →
  ∃ edu, Edu.deserialize (JObject entries) = Ok edu ∧
    Edu.serialize edu = JObject [("edu_type", JString "_Custom"); ("content", content)].
Proof.
  intros Hnd Ht Hc Hval Hno. rewrite !not_elem_of_cons in Hno. destruct Hno as (H1 & H2 & H3 & H4 & H5 & _).
  unfold Edu.deserialize. cbn [de_raw mbind outcome_bind].
  rewrite (edu_helper _ _ _ Hnd Ht Hc). cbn [mbind outcome_bind]. rewrite !decide_False by done.
  cbn [dec c_value fmap outcome_fmap]. exists (Edu.Custom content). split; [|done].
  simpl. by rewrite Hval.
Qed.
