(* ===== verification/Federation.v ===== *)
(** * The server-server API

    The endpoints of the server-server API (ruma-federation-api): one Module per endpoint. *)

From S2P Require Import Prelude RustStr RustNet IdValidation StringEnum Identifiers Json.
From S2P Require Import CanonicalJson Serde Codecs UrlEncoded UrlEncodedSpec ClientErrors.
From S2P Require Import Uiaa UiaaSpec Http Api ApiPaths ApiQuery ApiSpec ApiTypes.
From S2P Require Import ClientTypes FederationTypes EventTypes EventContents.
From Stdlib Require Import Ascii NArith.
Open Scope string_scope.
Open Scope nat_scope.
Open Scope list_scope.

Module get_event_authorization_v1.
Definition api : endpoint := {|
  ep_metadata := {|
    description := "Retrieves the complete auth chain for a given event.";
    method := "GET";
    name := "get_event_authorization";
    path := "/_matrix/federation/v1/event_auth/:room_id/:event_id";
    rate_limited := false;
    authentication := ServerSignatures
  |};
  ep_request := [
    Path (p_id "room_id" RoomId_parse);
    Path (p_id "event_id" EventId_parse)];
  ep_response := [
    RespBody (req "auth_chain" (c_list c_raw))];
  ep_error := DefaultError
|}.

#[export] Instance federation_get_event_authorization_v1_lawful : LawfulEndpoint api.
Proof. lawful_endpoint. Qed.
End get_event_authorization_v1.

Module get_backfill_v1.
Definition api : endpoint := {|
  ep_metadata := {|
    description := "Request more history from another homeserver";
    method := "GET";
    name := "get_backfill";
    path := "/_matrix/federation/v1/backfill/:room_id";
    rate_limited := false;
    authentication := ServerSignatures
  |};
  ep_request := [
    Path (p_id "room_id" RoomId_parse);
    Query (q_vec "v" (qc_parsed EventId_parse));
    Query (q_req "limit" qc_uint)];
  ep_response := [
    RespBody (req "origin" c_server_name);
    RespBody (req "origin_server_ts" c_uint);
    RespBody (req "pdus" (c_list c_raw))];
  ep_error := DefaultError
|}.

#[export] Instance federation_get_backfill_v1_lawful : LawfulEndpoint api.
Proof. lawful_endpoint. Qed.
End get_backfill_v1.

Module get_devices_v1.
Definition UserDevice : codec := c_struct [
  req "device_id" c_string;
  req "keys" DeviceKeys;
  opt "device_display_name" c_string].

Definition api : endpoint := {|
  ep_metadata := {|
    description := "Gets information on all of the user's devices.";
    method := "GET";
    name := "get_devices";
    path := "/_matrix/federation/v1/user/devices/:user_id";
    rate_limited := false;
    authentication := ServerSignatures
  |};
  ep_request := [
    Path (p_id "user_id" UserId_parse)];
  ep_response := [
    RespBody (req "user_id" c_user_id);
    RespBody (req "stream_id" c_uint);
    RespBody (req "devices" (c_list UserDevice))];
  ep_error := DefaultError
|}.

#[export] Instance federation_get_devices_v1_lawful : LawfulEndpoint api.
Proof. lawful_endpoint. Qed.
End get_devices_v1.

Module get_public_rooms_filtered_v1.
Definition api : endpoint := {|
  ep_metadata := {|
    description := "Get the list of rooms in this homeserver's public directory.";
    method := "POST";
    name := "get_public_rooms_filtered";
    path := "/_matrix/federation/v1/publicRooms";
    rate_limited := false;
    authentication := ServerSignatures
  |};
  ep_request := [
    Body (opt "limit" c_uint);
    Body (opt "since" c_string);
    Body (dflt "filter" Filter (None, ()) Filter_is_empty);
    Body flat_room_network];
  ep_response := [
    RespBody (req "chunk" (c_list PublicRoomsChunk));
    RespBody (nullable "next_batch" c_string);
    RespBody (nullable "prev_batch" c_string);
    RespBody (nullable "total_room_count_estimate" c_uint)];
  ep_error := DefaultError
|}.

#[export] Instance federation_get_public_rooms_filtered_v1_lawful : LawfulEndpoint api.
Proof. lawful_endpoint. Qed.
End get_public_rooms_filtered_v1.

Definition VerifyKey : codec := c_struct [
  req "key" c_string].

Definition OldVerifyKey : codec := c_struct [
  req "expired_ts" c_uint;
  req "key" c_string].

Definition ServerSigningKeys `{Unicode} : codec := c_struct [
  req "server_name" c_server_name;
  req "verify_keys" (c_id_map KeyId_parse VerifyKey);
  req "old_verify_keys" (c_id_map KeyId_parse OldVerifyKey);
  req "signatures" (c_id_map ServerName_parse (c_id_map KeyId_parse c_string));
  req "valid_until_ts" c_uint].

Module discover_homeserver.
Definition api : endpoint := {|
  ep_metadata := {|
    description := "Get discovery information about the domain.";
    method := "GET";
    name := "discover_homeserver";
    path := "/.well-known/matrix/server";
    rate_limited := false;
    authentication := AuthNone
  |};
  ep_request := [];
  ep_response := [
    RespBody (req "m.server" c_server_name)];
  ep_error := DefaultError
|}.

#[export] Instance federation_discover_homeserver_lawful : LawfulEndpoint api.
Proof. lawful_endpoint. Qed.
End discover_homeserver.

Module get_remote_server_keys_v2.
Definition api `{Unicode} (now : Z) : endpoint := {|
  ep_metadata := {|
    description := "Query for another server's keys.";
    method := "GET";
    name := "get_remote_server_keys";
    path := "/_matrix/key/v2/query/:server_name";
    rate_limited := false;
    authentication := AuthNone
  |};
  ep_request := [
    Path (p_id "server_name" ServerName_parse);
    Query (q_dflt "minimum_valid_until_ts" qc_uint now (λ _, false))];
  ep_response := [
    RespBody (req "server_keys" (c_list ServerSigningKeys))];
  ep_error := DefaultError
|}.

#[export] Instance federation_get_remote_server_keys_v2_lawful `{Unicode} (now : Z) :
  LawfulEndpoint (api now).
Proof. lawful_endpoint. Qed.
End get_remote_server_keys_v2.

Module get_remote_server_keys_batch_v2.
Definition QueryCriteria : codec := c_struct [
  opt "minimum_valid_until_ts" c_uint].

Definition api `{Unicode} : endpoint := {|
  ep_metadata := {|
    description := "Query for keys from multiple servers in a batch format.";
    method := "POST";
    name := "get_remote_server_keys_batch";
    path := "/_matrix/key/v2/query";
    rate_limited := false;
    authentication := AuthNone
  |};
  ep_request := [
    Body (req "server_keys" (c_id_map ServerName_parse (c_id_map KeyId_parse QueryCriteria)))];
  ep_response := [
    RespBody (req "server_keys" (c_list ServerSigningKeys))];
  ep_error := DefaultError
|}.

#[export] Instance federation_get_remote_server_keys_batch_v2_lawful `{Unicode} : LawfulEndpoint
  api.
Proof. lawful_endpoint. Qed.
End get_remote_server_keys_batch_v2.

Module get_server_keys_v2.
Definition api `{Unicode} : endpoint := {|
  ep_metadata := {|
    description := "Gets the homeserver's published signing keys.";
    method := "GET";
    name := "get_server_keys";
    path := "/_matrix/key/v2/server";
    rate_limited := false;
    authentication := AuthNone
  |};
  ep_request := [];
  ep_response := [
    RespNewtypeBody ServerSigningKeys];
  ep_error := DefaultError
|}.

#[export] Instance federation_get_server_keys_v2_lawful `{Unicode} : LawfulEndpoint api.
Proof. lawful_endpoint. Qed.
End get_server_keys_v2.

Module get_server_version_v1.
Definition Server : codec := c_struct [
  opt "name" c_string;
  opt "version" c_string].

Definition api : endpoint := {|
  ep_metadata := {|
    description := "Get the implementation name and version of this homeserver.";
    method := "GET";
    name := "get_server_version";
    path := "/_matrix/federation/v1/version";
    rate_limited := false;
    authentication := AuthNone
  |};
  ep_request := [];
  ep_response := [
    RespBody (opt "server" Server)];
  ep_error := DefaultError
|}.

#[export] Instance federation_get_server_version_v1_lawful : LawfulEndpoint api.
Proof. lawful_endpoint. Qed.
End get_server_version_v1.

Module get_event_v1.
Definition api : endpoint := {|
  ep_metadata := {|
    description := "Retrieves a single event.";
    method := "GET";
    name := "get_event";
    path := "/_matrix/federation/v1/event/:event_id";
    rate_limited := false;
    authentication := ServerSignatures
  |};
  ep_request := [
    Path (p_id "event_id" EventId_parse)];
  ep_response := [
    RespBody (req "origin" c_server_name);
    RespBody (req "origin_server_ts" c_uint);
    RespBody (req "pdus" (c_single c_raw))];
  ep_error := DefaultError
|}.

#[export] Instance federation_get_event_v1_lawful : LawfulEndpoint api.
Proof. lawful_endpoint. Qed.
End get_event_v1.

Module get_missing_events_v1.
Definition default_limit : Z := 10.
Definition is_default_limit (val : Z) : bool := bool_decide (val = 10%Z).

Definition api : endpoint := {|
  ep_metadata := {|
    description := "Retrieves previous events that the sender is missing.";
    method := "POST";
    name := "get_missing_events";
    path := "/_matrix/federation/v1/get_missing_events/:room_id";
    rate_limited := false;
    authentication := ServerSignatures
  |};
  ep_request := [
    Path (p_id "room_id" RoomId_parse);
    Body (dflt "limit" c_uint default_limit is_default_limit);
    Body (dflt "min_depth" c_uint 0%Z (λ a, bool_decide (a = 0%Z)));
    Body (req "earliest_events" (c_list c_event_id));
    Body (req "latest_events" (c_list c_event_id))];
  ep_response := [
    RespBody (req "events" (c_list c_raw))];
  ep_error := DefaultError
|}.

#[export] Instance federation_get_missing_events_v1_lawful : LawfulEndpoint api.
Proof. lawful_endpoint. Qed.
End get_missing_events_v1.

Module get_room_state_v1.
Definition api : endpoint := {|
  ep_metadata := {|
    description := "Retrieves a snapshot of a room's state at a given event.";
    method := "GET";
    name := "get_room_state";
    path := "/_matrix/federation/v1/state/:room_id";
    rate_limited := false;
    authentication := ServerSignatures
  |};
  ep_request := [
    Path (p_id "room_id" RoomId_parse);
    Query (q_req "event_id" (qc_parsed EventId_parse))];
  ep_response := [
    RespBody (req "auth_chain" (c_list c_raw));
    RespBody (req "pdus" (c_list c_raw))];
  ep_error := DefaultError
|}.

#[export] Instance federation_get_room_state_v1_lawful : LawfulEndpoint api.
Proof. lawful_endpoint. Qed.
End get_room_state_v1.

Module get_room_state_ids_v1.
Definition api : endpoint := {|
  ep_metadata := {|
    description :=
      "Retrieves a snapshot of a room's state at a given event, in the form of event IDs";
    method := "GET";
    name := "get_room_state_ids";
    path := "/_matrix/federation/v1/state_ids/:room_id";
    rate_limited := false;
    authentication := ServerSignatures
  |};
  ep_request := [
    Path (p_id "room_id" RoomId_parse);
    Query (q_req "event_id" (qc_parsed EventId_parse))];
  ep_response := [
    RespBody (req "auth_chain_ids" (c_list c_event_id));
    RespBody (req "pdu_ids" (c_list c_event_id))];
  ep_error := DefaultError
|}.

#[export] Instance federation_get_room_state_ids_v1_lawful : LawfulEndpoint api.
Proof. lawful_endpoint. Qed.
End get_room_state_ids_v1.

Module claim_keys_v1.
Definition KeyObject : codec := c_struct [
  req "key" c_string;
  req "signatures" (c_id_map UserId_parse (c_id_map DeviceKeyId_parse c_string))].

Definition api : endpoint := {|
  ep_metadata := {|
    description := "Claims one-time keys for use in pre-key messages.";
    method := "POST";
    name := "claim_keys";
    path := "/_matrix/federation/v1/user/keys/claim";
    rate_limited := false;
    authentication := ServerSignatures
  |};
  ep_request := [
    Body (req "one_time_keys" (c_id_map UserId_parse (c_map (c_enum DeviceKeyAlgorithm))))];
  ep_response := [
    RespBody (req "one_time_keys"
      (c_id_map UserId_parse (c_map (c_id_map DeviceKeyId_parse OneTimeKey))))];
  ep_error := DefaultError
|}.

#[export] Instance federation_claim_keys_v1_lawful : LawfulEndpoint api.
Proof. lawful_endpoint. Qed.
End claim_keys_v1.

Module get_keys_v1.
Definition api : endpoint := {|
  ep_metadata := {|
    description := "Returns the current devices and identity keys for the given users.";
    method := "POST";
    name := "get_keys";
    path := "/_matrix/federation/v1/user/keys/query";
    rate_limited := false;
    authentication := ServerSignatures
  |};
  ep_request := [
    Body (req "device_keys" (c_id_map UserId_parse (c_list c_string)))];
  ep_response := [
    RespBody (req "device_keys" (c_id_map UserId_parse (c_map DeviceKeys)))];
  ep_error := DefaultError
|}.

#[export] Instance federation_get_keys_v1_lawful : LawfulEndpoint api.
Proof. lawful_endpoint. Qed.
End get_keys_v1.

Module create_knock_event_template_v1.
Definition api : endpoint := {|
  ep_metadata := {|
    description := "Send a request for a knock event template to a resident server.";
    method := "GET";
    name := "create_knock_event_template";
    path := "/_matrix/federation/v1/make_knock/:room_id/:user_id";
    rate_limited := false;
    authentication := ServerSignatures
  |};
  ep_request := [
    Path (p_id "room_id" RoomId_parse);
    Path (p_id "user_id" UserId_parse);
    Query (q_vec "ver" qc_room_version_id)];
  ep_response := [
    RespBody (req "room_version" c_room_version_id);
    RespBody (req "event" c_raw)];
  ep_error := DefaultError
|}.

#[export] Instance federation_create_knock_event_template_v1_lawful : LawfulEndpoint api.
Proof. lawful_endpoint. Qed.
End create_knock_event_template_v1.

Module create_invite_v1.
Definition api `{Unicode} : endpoint := {|
  ep_metadata := {|
    description := "Invites a remote user to a room.";
    method := "PUT";
    name := "create_invite";
    path := "/_matrix/federation/v1/invite/:room_id/:event_id";
    rate_limited := false;
    authentication := ServerSignatures
  |};
  ep_request := [
    Path (p_id "room_id" RoomId_parse);
    Path (p_id "event_id" EventId_parse);
    Body (req "sender" c_user_id);
    Body (req "origin" c_server_name);
    Body (req "origin_server_ts" c_uint);
    Body (req "type" (c_enum EventType));
    Body (req "state_key" c_user_id);
    Body (req "content" c_member_content);
    Body (dflt "unsigned" UnsignedEventContent UnsignedEventContent_default
      UnsignedEventContent_is_empty)];
  ep_response := [
    RespNewtypeBody (c_v1_pdu c_raw)];
  ep_error := DefaultError
|}.

#[export] Instance federation_create_invite_v1_lawful `{Unicode} : LawfulEndpoint api.
Proof. lawful_endpoint. Qed.
End create_invite_v1.

Module create_invite_v2.
Definition api : endpoint := {|
  ep_metadata := {|
    description := "Invites a remote user to a room.";
    method := "PUT";
    name := "create_invite";
    path := "/_matrix/federation/v2/invite/:room_id/:event_id";
    rate_limited := false;
    authentication := ServerSignatures
  |};
  ep_request := [
    Path (p_id "room_id" RoomId_parse);
    Path (p_id "event_id" EventId_parse);
    Body (req "room_version" c_room_version_id);
    Body (req "event" c_raw);
    Body (req "invite_room_state" (c_list c_raw))];
  ep_response := [
    RespBody (req "event" c_raw)];
  ep_error := DefaultError
|}.

#[export] Instance federation_create_invite_v2_lawful : LawfulEndpoint api.
Proof. lawful_endpoint. Qed.
End create_invite_v2.

Module create_join_event_v1.
Definition api : endpoint := {|
  ep_metadata := {|
    description := "Send a join event to a resident server.";
    method := "PUT";
    name := "create_join_event";
    path := "/_matrix/federation/v1/send_join/:room_id/:event_id";
    rate_limited := false;
    authentication := ServerSignatures
  |};
  ep_request := [
    Path (p_id "room_id" RoomId_parse);
    Path (p_id "event_id" EventId_parse);
    NewtypeBody c_raw];
  ep_response := [
    RespNewtypeBody (c_v1_pdu RoomState)];
  ep_error := DefaultError
|}.

#[export] Instance federation_create_join_event_v1_lawful : LawfulEndpoint api.
Proof. lawful_endpoint. Qed.
End create_join_event_v1.

Module create_join_event_v2.
Definition api : endpoint := {|
  ep_metadata := {|
    description := "Send a join event to a resident server.";
    method := "PUT";
    name := "create_join_event";
    path := "/_matrix/federation/v2/send_join/:room_id/:event_id";
    rate_limited := false;
    authentication := ServerSignatures
  |};
  ep_request := [
    Path (p_id "room_id" RoomId_parse);
    Path (p_id "event_id" EventId_parse);
    NewtypeBody c_raw];
  ep_response := [
    RespNewtypeBody RoomState];
  ep_error := DefaultError
|}.

#[export] Instance federation_create_join_event_v2_lawful : LawfulEndpoint api.
Proof. lawful_endpoint. Qed.
End create_join_event_v2.

Module create_join_event_template_v1.
Definition default_ver : list RoomVersionId := [V1].
Definition is_default_ver (ver : list RoomVersionId) : bool := bool_decide (ver = [V1]).

Definition api : endpoint := {|
  ep_metadata := {|
    description := "Send a request for a join event template to a resident server.";
    method := "GET";
    name := "create_join_event_template";
    path := "/_matrix/federation/v1/make_join/:room_id/:user_id";
    rate_limited := false;
    authentication := ServerSignatures
  |};
  ep_request := [
    Path (p_id "room_id" RoomId_parse);
    Path (p_id "user_id" UserId_parse);
    Query (q_vec_dflt "ver" qc_room_version_id default_ver is_default_ver)];
  ep_response := [
    RespBody (opt "room_version" c_room_version_id);
    RespBody (req "event" c_raw)];
  ep_error := DefaultError
|}.

#[export] Instance federation_create_join_event_template_v1_lawful : LawfulEndpoint api.
Proof. lawful_endpoint. Qed.
End create_join_event_template_v1.

Module create_leave_event_v1.
Definition Empty : codec := c_struct [].

Definition api `{JsonText} : endpoint := {|
  ep_metadata := {|
    description :=
      "Submits a signed leave event to the receiving server for it to accept it into the " +:+
      "room's graph.";
    method := "PUT";
    name := "create_leave_event";
    path := "/_matrix/federation/v1/send_leave/:room_id/:event_id";
    rate_limited := false;
    authentication := ServerSignatures
  |};
  ep_request := [
    Path (p_id "room_id" RoomId_parse);
    Path (p_id "event_id" EventId_parse);
    Query (q_req "sender" (qc_parsed UserId_parse));
    Query (q_req "origin" (qc_parsed ServerName_parse));
    Query (q_req "origin_server_ts" qc_uint);
    Query (q_req "type" (qc_enum EventType));
    Query (q_req "state_key" qc_string);
    Query (q_raw "content");
    Query (q_req "depth" qc_uint)];
  ep_response := [
    RespNewtypeBody (c_v1_pdu Empty)];
  ep_error := DefaultError
|}.

#[export] Instance federation_create_leave_event_v1_lawful `{JsonText} : LawfulEndpoint api.
Proof. lawful_endpoint. Qed.
End create_leave_event_v1.

Module create_leave_event_v2.
Definition api : endpoint := {|
  ep_metadata := {|
    description :=
      "Submits a signed leave event to the receiving server for it to accept it into the " +:+
      "room's graph.";
    method := "PUT";
    name := "create_leave_event";
    path := "/_matrix/federation/v1/send_leave/:room_id/:event_id";
    rate_limited := false;
    authentication := ServerSignatures
  |};
  ep_request := [
    Path (p_id "room_id" RoomId_parse);
    Path (p_id "event_id" EventId_parse);
    NewtypeBody c_raw];
  ep_response := [];
  ep_error := DefaultError
|}.

#[export] Instance federation_create_leave_event_v2_lawful : LawfulEndpoint api.
Proof. lawful_endpoint. Qed.
End create_leave_event_v2.

Module get_leave_event_v1.
Definition api : endpoint := {|
  ep_metadata := {|
    description :=
      "Asks the receiving server to return information that the sending server will need " +:+
      "to prepare a leave event to get out of the room.";
    method := "GET";
    name := "get_leave_event";
    path := "/_matrix/federation/v1/make_leave/:room_id/:user_id";
    rate_limited := false;
    authentication := ServerSignatures
  |};
  ep_request := [
    Path (p_id "room_id" RoomId_parse);
    Path (p_id "user_id" UserId_parse)];
  ep_response := [
    RespBody (nullable "room_version" c_room_version_id);
    RespBody (req "event" c_raw)];
  ep_error := DefaultError
|}.

#[export] Instance federation_get_leave_event_v1_lawful : LawfulEndpoint api.
Proof. lawful_endpoint. Qed.
End get_leave_event_v1.

Module get_openid_userinfo_v1.
Definition api : endpoint := {|
  ep_metadata := {|
    description :=
      "Exchanges an OpenID access token for information about the user who generated the token.";
    method := "GET";
    name := "get_openid_userinfo";
    path := "/_matrix/federation/v1/openid/userinfo";
    rate_limited := false;
    authentication := AuthNone
  |};
  ep_request := [
    Query (q_req "access_token" qc_string)];
  ep_response := [
    RespBody (req "sub" c_user_id)];
  ep_error := DefaultError
|}.

#[export] Instance federation_get_openid_userinfo_v1_lawful : LawfulEndpoint api.
Proof. lawful_endpoint. Qed.
End get_openid_userinfo_v1.

Module get_custom_information_v1.
Definition api : endpoint := {|
  ep_metadata := {|
    description :=
      "Performs a single query request on the receiving homeserver. The query string " +:+
      "arguments are dependent on which type of query is being made.";
    method := "GET";
    name := "get_custom_information";
    path := "/_matrix/federation/v1/query/:query_type";
    rate_limited := false;
    authentication := AccessToken
  |};
  ep_request := [
    Path (p_string "query_type");
    QueryMap];
  ep_response := [
    RespNewtypeBody c_value];
  ep_error := DefaultError
|}.

#[export] Instance federation_get_custom_information_v1_lawful : LawfulEndpoint api.
Proof. lawful_endpoint. Qed.
End get_custom_information_v1.

Module get_profile_information_v1.
Module ProfileField.
Inductive ProfileField := DisplayName | AvatarUrl | Custom (s : string).

#[export] Instance ProfileField_eq_dec : EqDecision ProfileField.
Proof. solve_decision. Defined.

#[export, refine] Instance ProfileField_enum : StringEnum ProfileField := {|
  rename_all := RenameNone;
  unit_variants :=
    [("DisplayName", Some "displayname", DisplayName);
     ("AvatarUrl", Some "avatar_url", AvatarUrl)];
  custom := Custom;
  custom_inner c := match c with Custom s => Some s | _ => None end
|}.
Proof. all: string_enum_laws. Defined.
End ProfileField.
Export (hints) ProfileField.

Definition api : endpoint := {|
  ep_metadata := {|
    description := "Get profile information, such as a display name or avatar, for a given user.";
    method := "GET";
    name := "get_profile_information";
    path := "/_matrix/federation/v1/query/profile";
    rate_limited := false;
    authentication := ServerSignatures
  |};
  ep_request := [
    Query (q_req "user_id" (qc_parsed UserId_parse));
    Query (q_opt "field" (qc_enum ProfileField.ProfileField))];
  ep_response := [
    RespBody (opt "displayname" c_string);
    RespBody (opt "avatar_url" c_string)];
  ep_error := DefaultError
|}.

#[export] Instance federation_get_profile_information_v1_lawful : LawfulEndpoint api.
Proof. lawful_endpoint. Qed.
End get_profile_information_v1.

Module get_room_information_v1.
Definition api : endpoint := {|
  ep_metadata := {|
    description := "Get mapped room ID and resident homeservers for a given room alias.";
    method := "GET";
    name := "get_room_information";
    path := "/_matrix/federation/v1/query/directory";
    rate_limited := false;
    authentication := ServerSignatures
  |};
  ep_request := [
    Query (q_req "room_alias" (qc_parsed RoomAliasId_parse))];
  ep_response := [
    RespBody (req "room_id" c_room_id);
    RespBody (req "servers" (c_list c_server_name))];
  ep_error := DefaultError
|}.

#[export] Instance federation_get_room_information_v1_lawful : LawfulEndpoint api.
Proof. lawful_endpoint. Qed.
End get_room_information_v1.

Module bind_callback_v1.
Definition ThirdPartyInvite `{Unicode} : codec := c_struct [
  req "medium" (c_enum Medium.Medium);
  req "address" c_string;
  req "mxid" c_user_id;
  req "room_id" c_room_id;
  req "sender" c_user_id;
  req "signed" (c_id_map ServerName_parse (c_id_map KeyId_parse c_string))].

Definition api `{Unicode} : endpoint := {|
  ep_metadata := {|
    description :=
      "Used by identity servers to notify the homeserver that one of its users has bound a " +:+
      "third party identifier successfully";
    method := "PUT";
    name := "bind_callback";
    path := "/_matrix/federation/v1/3pid/onbind";
    rate_limited := false;
    authentication := AuthNone
  |};
  ep_request := [
    Body (req "medium" (c_enum Medium.Medium));
    Body (req "address" c_string);
    Body (req "mxid" c_user_id);
    Body (req "invites" (c_list ThirdPartyInvite))];
  ep_response := [];
  ep_error := DefaultError
|}.

#[export] Instance federation_bind_callback_v1_lawful `{Unicode} : LawfulEndpoint api.
Proof. lawful_endpoint. Qed.
End bind_callback_v1.

Module exchange_invite_v1.
Definition api `{Unicode} : endpoint := {|
  ep_metadata := {|
    description :=
      "The receiving server will verify the partial m.room.member event given in the " +:+
      "request body.";
    method := "PUT";
    name := "exchange_invite";
    path := "/_matrix/federation/v1/exchange_third_party_invite/:room_id";
    rate_limited := false;
    authentication := AccessToken
  |};
  ep_request := [
    Path (p_id "room_id" RoomId_parse);
    Body (req "type" (c_enum EventType));
    Body (req "sender" c_user_id);
    Body (req "state_key" c_user_id);
    Body (req "content" FederationTypes.ThirdPartyInvite)];
  ep_response := [];
  ep_error := DefaultError
|}.

#[export] Instance federation_exchange_invite_v1_lawful `{Unicode} : LawfulEndpoint api.
Proof. lawful_endpoint. Qed.
End exchange_invite_v1.

Module send_transaction_message_v1.
Definition api : endpoint := {|
  ep_metadata := {|
    description := "Send transaction messages to another server";
    method := "PUT";
    name := "send_transaction_message";
    path := "/_matrix/federation/v1/send/:transaction_id";
    rate_limited := false;
    authentication := ServerSignatures
  |};
  ep_request := [
    Path (p_string "transaction_id");
    Body (req "origin" c_server_name);
    Body (req "origin_server_ts" c_uint);
    Body (req "pdus" (c_list c_raw));
    Body (vec "edus" c_raw)];
  ep_response := [
    RespBody (req "pdus" c_pdu_process_response)];
  ep_error := DefaultError
|}.

#[export] Instance federation_send_transaction_message_v1_lawful : LawfulEndpoint api.
Proof. lawful_endpoint. Qed.
End send_transaction_message_v1.
