(* ===== verification/ServiceApis.v ===== *)
(** * The APIs of services

    The endpoints of the identity service API (ruma-identity-service-api), of the application
    service API (ruma-appservice-api), with the conversion of what a homeserver pushes into a
    sync response of the client-server API, and of the push gateway API
    (ruma-push-gateway-api). *)

From S2P Require Import Prelude RustStr RustNet IdValidation StringEnum Identifiers Json.
From S2P Require Import EventTypes CanonicalJson PushRules Serde PushSerde UrlEncoded.
From S2P Require Import UrlEncodedSpec ClientErrors Uiaa UiaaSpec Codecs Http Api ApiPaths.
From S2P Require Import ApiQuery ApiSpec ApiTypes ClientTypes ClientPush ClientSync.
From Stdlib Require Import Ascii NArith.
Open Scope string_scope.
Open Scope nat_scope.
Open Scope list_scope.

Definition c_server_signatures `{Unicode} : codec :=
  c_id_map ServerName_parse (c_id_map KeyId_parse c_string).

Module bind_3pid_v2.
Definition api `{Unicode} : endpoint := {|
  ep_metadata := {|
    description := "Publish an association between a session and a Matrix user ID.";
    method := "POST";
    name := "bind_3pid";
    path := "/_matrix/identity/v2/3pid/bind";
    rate_limited := false;
    authentication := AccessToken
  |};
  ep_request := [
    Body (req "sid" c_session_id);
    Body (req "client_secret" c_client_secret);
    Body (req "mxid" c_user_id)];
  ep_response := [
    RespBody (req "address" c_string);
    RespBody (req "medium" (c_enum Medium.Medium));
    RespBody (req "mxid" c_user_id);
    RespBody (req "not_before" c_uint);
    RespBody (req "not_after" c_uint);
    RespBody (req "ts" c_uint);
    RespBody (req "signatures" c_server_signatures)];
  ep_error := DefaultError
|}.

#[export] Instance identity_bind_3pid_v2_lawful `{Unicode} : LawfulEndpoint api.
Proof. lawful_endpoint. Qed.
End bind_3pid_v2.

Module check_3pid_validity_v2.
Definition api `{Unicode} : endpoint := {|
  ep_metadata := {|
    description := "Determines if a given 3PID has been validated by a user.";
    method := "GET";
    name := "check_3pid_validity";
    path := "/_matrix/identity/v2/3pid/getValidated3pid/";
    rate_limited := false;
    authentication := AccessToken
  |};
  ep_request := [
    Query (q_req "sid" (qc_parsed SessionId_parse));
    Query (q_req "client_secret" (qc_parsed ClientSecret_parse))];
  ep_response := [
    RespBody (req "medium" (c_enum Medium.Medium));
    RespBody (req "address" c_string);
    RespBody (req "validated_at" c_uint)];
  ep_error := DefaultError
|}.

#[export] Instance identity_check_3pid_validity_v2_lawful `{Unicode} : LawfulEndpoint api.
Proof. lawful_endpoint. Qed.
End check_3pid_validity_v2.

Module create_email_validation_session_v2.
Definition api `{Unicode} : endpoint := {|
  ep_metadata := {|
    description := "Creates a session for validating an email address.";
    method := "POST";
    name := "create_email_validation_session";
    path := "/_matrix/identity/v2/validate/email/requestToken";
    rate_limited := false;
    authentication := AccessToken
  |};
  ep_request := [
    Body (req "client_secret" c_client_secret);
    Body (req "email" c_string);
    Body (req "send_attempt" c_uint);
    Body (opt "next_link" c_string)];
  ep_response := [
    RespBody (req "sid" c_session_id)];
  ep_error := DefaultError
|}.

#[export] Instance identity_create_email_validation_session_v2_lawful `{Unicode} : LawfulEndpoint
  api.
Proof. lawful_endpoint. Qed.
End create_email_validation_session_v2.

Module validate_email_v2.
Definition api `{Unicode} : endpoint := {|
  ep_metadata := {|
    description := "Validate ownership of an email address.";
    method := "POST";
    name := "validate_email";
    path := "/_matrix/identity/v2/validate/email/submitToken";
    rate_limited := false;
    authentication := AccessToken
  |};
  ep_request := [
    Body (req "sid" c_session_id);
    Body (req "client_secret" c_client_secret);
    Body (req "token" c_string)];
  ep_response := [
    RespBody (req "success" c_bool)];
  ep_error := DefaultError
|}.

#[export] Instance identity_validate_email_v2_lawful `{Unicode} : LawfulEndpoint api.
Proof. lawful_endpoint. Qed.
End validate_email_v2.

Module validate_email_by_end_user_v2.
Definition api `{Unicode} : endpoint := {|
  ep_metadata := {|
    description := "Validate ownership of an email address.";
    method := "GET";
    name := "validate_email_by_end_user";
    path := "/_matrix/identity/v2/validate/email/submitToken";
    rate_limited := false;
    authentication := AccessToken
  |};
  ep_request := [
    Query (q_req "sid" (qc_parsed SessionId_parse));
    Query (q_req "client_secret" (qc_parsed ClientSecret_parse));
    Query (q_req "token" qc_string)];
  ep_response := [];
  ep_error := DefaultError
|}.

#[export] Instance identity_validate_email_by_end_user_v2_lawful `{Unicode} : LawfulEndpoint api.
Proof. lawful_endpoint. Qed.
End validate_email_by_end_user_v2.

Module create_msisdn_validation_session_v2.
Definition api `{Unicode} : endpoint := {|
  ep_metadata := {|
    description := "Creates a session for validating a phone number.";
    method := "POST";
    name := "create_msisdn_validation_session";
    path := "/_matrix/identity/v2/validate/msisdn/requestToken";
    rate_limited := false;
    authentication := AccessToken
  |};
  ep_request := [
    Body (req "client_secret" c_client_secret);
    Body (req "country" c_string);
    Body (req "phone_number" c_string);
    Body (req "send_attempt" c_uint);
    Body (opt "next_link" c_string)];
  ep_response := [
    RespBody (req "sid" c_session_id)];
  ep_error := DefaultError
|}.

#[export] Instance identity_create_msisdn_validation_session_v2_lawful `{Unicode} : LawfulEndpoint
  api.
Proof. lawful_endpoint. Qed.
End create_msisdn_validation_session_v2.

Module validate_msisdn_v2.
Definition api `{Unicode} : endpoint := {|
  ep_metadata := {|
    description := "Validate ownership of an phone number.";
    method := "POST";
    name := "validate_msisdn";
    path := "/_matrix/identity/v2/validate/msisdn/submitToken";
    rate_limited := false;
    authentication := AccessToken
  |};
  ep_request := [
    Body (req "sid" c_session_id);
    Body (req "client_secret" c_client_secret);
    Body (req "token" c_string)];
  ep_response := [
    RespBody (req "success" c_bool)];
  ep_error := DefaultError
|}.

#[export] Instance identity_validate_msisdn_v2_lawful `{Unicode} : LawfulEndpoint api.
Proof. lawful_endpoint. Qed.
End validate_msisdn_v2.

Module validate_msisdn_by_phone_number_v2.
Definition api `{Unicode} : endpoint := {|
  ep_metadata := {|
    description := "Validate ownership of an email address.";
    method := "GET";
    name := "validate_email_by_end_user";
    path := "/_matrix/identity/v2/validate/msisdn/submitToken";
    rate_limited := false;
    authentication := AccessToken
  |};
  ep_request := [
    Query (q_req "sid" (qc_parsed SessionId_parse));
    Query (q_req "client_secret" (qc_parsed ClientSecret_parse));
    Query (q_req "token" qc_string)];
  ep_response := [];
  ep_error := DefaultError
|}.

#[export] Instance identity_validate_msisdn_by_phone_number_v2_lawful `{Unicode} : LawfulEndpoint
  api.
Proof. lawful_endpoint. Qed.
End validate_msisdn_by_phone_number_v2.

Module unbind_3pid_v2.
Definition ThirdPartyId : codec := c_struct [
  req "medium" (c_enum Medium.Medium);
  req "address" c_string].

Definition ThreePidOwnershipProof_fields `{Unicode} : list sfield := [
  req "sid" c_session_id;
  req "client_secret" c_client_secret].
Definition ThreePidOwnershipProof `{Unicode} : codec := c_struct ThreePidOwnershipProof_fields.

Definition api `{Unicode} : endpoint := {|
  ep_metadata := {|
    description := "Remove an association between a session and a Matrix user ID.";
    method := "POST";
    name := "unbind_3pid";
    path := "/_matrix/identity/v2/3pid/unbind";
    rate_limited := false;
    authentication := AccessToken
  |};
  ep_request := [
    Body (flat_opt ThreePidOwnershipProof_fields);
    Body (req "mxid" c_user_id);
    Body (req "threepid" ThirdPartyId)];
  ep_response := [];
  ep_error := DefaultError
|}.

#[export] Instance identity_unbind_3pid_v2_lawful `{Unicode} :
  LawfulEndpoint api.
Proof. lawful_endpoint. Qed.
End unbind_3pid_v2.

Module get_account_information_v2.
Definition api : endpoint := {|
  ep_metadata := {|
    description := "Gets information about what user owns the access token used in the request.";
    method := "POST";
    name := "get_account_information";
    path := "/_matrix/identity/v2/account";
    rate_limited := false;
    authentication := AccessToken
  |};
  ep_request := [];
  ep_response := [
    RespBody (req "user_id" c_user_id)];
  ep_error := DefaultError
|}.

#[export] Instance identity_get_account_information_v2_lawful : LawfulEndpoint api.
Proof. lawful_endpoint. Qed.
End get_account_information_v2.

Module logout_v2.
Definition api : endpoint := {|
  ep_metadata := {|
    description :=
      "Logs out the access token, preventing it from being used to authenticate future " +:+
      "requests to the server.";
    method := "POST";
    name := "logout";
    path := "/_matrix/identity/v2/account/logout";
    rate_limited := false;
    authentication := AccessToken
  |};
  ep_request := [];
  ep_response := [];
  ep_error := DefaultError
|}.

#[export] Instance identity_logout_v2_lawful : LawfulEndpoint api.
Proof. lawful_endpoint. Qed.
End logout_v2.

Module register_v2.
Definition api : endpoint := {|
  ep_metadata := {|
    description :=
      "Exchanges an OpenID token from the homeserver for an access token to access the " +:+
      "identity server.";
    method := "POST";
    name := "register_account";
    path := "/_matrix/identity/v2/account/register";
    rate_limited := false;
    authentication := AuthNone
  |};
  ep_request := [
    Body (req "access_token" c_string);
    Body (req "token_type" (c_enum TokenType.TokenType));
    Body (req "matrix_server_name" c_server_name);
    Body (req "expires_in" c_secs)];
  ep_response := [
    RespBody (req "token" c_string)];
  ep_error := DefaultError
|}.

#[export] Instance identity_register_v2_lawful : LawfulEndpoint api.
Proof. lawful_endpoint. Qed.
End register_v2.

Module sign_invitation_ed25519_v2.
Definition api `{Unicode} : endpoint := {|
  ep_metadata := {|
    description := "Sign invitation details.";
    method := "POST";
    name := "sign_invitation_ed25519";
    path := "/_matrix/identity/v2/sign-ed25519";
    rate_limited := false;
    authentication := AccessToken
  |};
  ep_request := [
    Body (req "mxid" c_user_id);
    Body (req "token" c_string);
    Body (req "private_key" c_string)];
  ep_response := [
    RespBody (req "mxid" c_user_id);
    RespBody (req "sender" c_user_id);
    RespBody (req "signatures" c_server_signatures);
    RespBody (req "token" c_string)];
  ep_error := DefaultError
|}.

#[export] Instance identity_sign_invitation_ed25519_v2_lawful `{Unicode} :
  LawfulEndpoint api.
Proof. lawful_endpoint. Qed.
End sign_invitation_ed25519_v2.

Module store_invitation_v2.
Record PublicKeys := { server_key : string; ephemeral_key : string }.
(** [[String; 2]] *)
Definition c_public_keys : codec := {|
  ctype := PublicKeys;
  enc self := JArray [JString (server_key self); JString (ephemeral_key self)];
  dec j :=
    match j with
    | JArray [server_key; ephemeral_key] =>
        server_key ← de_string server_key;
        ephemeral_key ← de_string ephemeral_key;
        Ok {| server_key := server_key; ephemeral_key := ephemeral_key |}
    | _ => Err ()
    end;
  cwf _ := True
|}.
#[export] Instance lawful_public_keys : Lawful c_public_keys.
Proof. by intros [server_key ephemeral_key] _. Qed.

Definition api : endpoint := {|
  ep_metadata := {|
    description := "Store pending invitations to a user's 3PID.";
    method := "POST";
    name := "store_invitation";
    path := "/_matrix/identity/v2/store-invite";
    rate_limited := false;
    authentication := AccessToken
  |};
  ep_request := [
    Body (req "medium" (c_enum Medium.Medium));
    Body (req "address" c_string);
    Body (req "room_id" c_room_id);
    Body (req "sender" c_user_id);
    Body (opt "room_alias" c_room_alias_id);
    Body (opt "room_avatar_url" c_string);
    Body (opt "room_join_rules" c_string);
    Body (opt "room_name" c_room_name);
    Body (opt "sender_display_name" c_string);
    Body (opt "sender_avatar_url" c_string)];
  ep_response := [
    RespBody (req "token" c_string);
    RespBody (req "public_keys" c_public_keys);
    RespBody (req "display_name" c_string)];
  ep_error := DefaultError
|}.

#[export] Instance identity_store_invitation_v2_lawful : LawfulEndpoint api.
Proof. lawful_endpoint. Qed.
End store_invitation_v2.

Module check_public_key_validity_v2.
Definition api : endpoint := {|
  ep_metadata := {|
    description :=
      "Check whether a long-term public key is valid. The response should always be the " +:+
      "same, provided the key exists.";
    method := "GET";
    name := "check_public_key_validity";
    path := "/_matrix/identity/v2/pubkey/isvalid";
    rate_limited := false;
    authentication := AuthNone
  |};
  ep_request := [
    Query (q_req "public_key" qc_string)];
  ep_response := [
    RespBody (req "valid" c_bool)];
  ep_error := DefaultError
|}.

#[export] Instance identity_check_public_key_validity_v2_lawful : LawfulEndpoint api.
Proof. lawful_endpoint. Qed.
End check_public_key_validity_v2.

Module get_public_key_v2.
Definition api `{Unicode} : endpoint := {|
  ep_metadata := {|
    description := "Get the public key for the given key ID.";
    method := "GET";
    name := "get_public_key";
    path := "/_matrix/identity/v2/pubkey/:key_id";
    rate_limited := false;
    authentication := AuthNone
  |};
  ep_request := [
    Path (p_id "key_id" KeyId_parse)];
  ep_response := [
    RespBody (req "public_key" c_string)];
  ep_error := DefaultError
|}.

#[export] Instance identity_get_public_key_v2_lawful `{Unicode} : LawfulEndpoint api.
Proof. lawful_endpoint. Qed.
End get_public_key_v2.

Module validate_ephemeral_key_v2.
Definition api : endpoint := {|
  ep_metadata := {|
    description := "Check whether a short-term public key is valid.";
    method := "GET";
    name := "validate_ephemeral_key";
    path := "/_matrix/identity/v2/pubkey/ephemeral/isvalid";
    rate_limited := false;
    authentication := AuthNone
  |};
  ep_request := [
    Query (q_req "public_key" qc_string)];
  ep_response := [
    RespBody (req "valid" c_bool)];
  ep_error := DefaultError
|}.

#[export] Instance identity_validate_ephemeral_key_v2_lawful : LawfulEndpoint api.
Proof. lawful_endpoint. Qed.
End validate_ephemeral_key_v2.

Module IdentifierHashingAlgorithm.
Inductive IdentifierHashingAlgorithm := Sha256 | NoHash | Custom (s : string).

#[export] Instance IdentifierHashingAlgorithm_eq_dec : EqDecision IdentifierHashingAlgorithm.
Proof. solve_decision. Defined.

#[export, refine] Instance IdentifierHashingAlgorithm_enum : StringEnum IdentifierHashingAlgorithm
  := {|
  rename_all := SnakeCase;
  unit_variants :=
    [("Sha256", None, Sha256);
     ("None", None, NoHash)];
  custom := Custom;
  custom_inner c := match c with Custom s => Some s | _ => None end
|}.
Proof. all: string_enum_laws. Defined.
End IdentifierHashingAlgorithm.
Export (hints) IdentifierHashingAlgorithm.

Module get_hash_parameters_v2.
Definition api : endpoint := {|
  ep_metadata := {|
    description :=
      "Gets parameters for hashing identifiers from the server. This can include any of " +:+
      "the algorithms defined in the spec.";
    method := "GET";
    name := "get_hash_parameters";
    path := "/_matrix/identity/v2/hash_details";
    rate_limited := false;
    authentication := AccessToken
  |};
  ep_request := [];
  ep_response := [
    RespBody (req "lookup_pepper" c_string);
    RespBody (req "algorithms" (c_list (c_enum
      IdentifierHashingAlgorithm.IdentifierHashingAlgorithm)))];
  ep_error := DefaultError
|}.

#[export] Instance identity_get_hash_parameters_v2_lawful : LawfulEndpoint api.
Proof. lawful_endpoint. Qed.
End get_hash_parameters_v2.

Module lookup_3pid_v2.
Definition api : endpoint := {|
  ep_metadata := {|
    description :=
      "Looks up the set of Matrix User IDs which have bound the 3PIDs given, if bindings " +:+
      "are available.";
    method := "POST";
    name := "lookup_3pid";
    path := "/_matrix/identity/v2/lookup";
    rate_limited := false;
    authentication := AccessToken
  |};
  ep_request := [
    Body (req "algorithm" (c_enum IdentifierHashingAlgorithm.IdentifierHashingAlgorithm));
    Body (req "pepper" c_string);
    Body (req "addresses" (c_list c_string))];
  ep_response := [
    RespBody (req "mappings" (c_map c_user_id))];
  ep_error := DefaultError
|}.

#[export] Instance identity_lookup_3pid_v2_lawful : LawfulEndpoint api.
Proof. lawful_endpoint. Qed.
End lookup_3pid_v2.

Module status_v2.
Definition api : endpoint := {|
  ep_metadata := {|
    description := "Checks that an identity server is available at this API endpoint.";
    method := "GET";
    name := "status";
    path := "/_matrix/identity/v2";
    rate_limited := false;
    authentication := AuthNone
  |};
  ep_request := [];
  ep_response := [];
  ep_error := DefaultError
|}.

#[export] Instance identity_status_v2_lawful : LawfulEndpoint api.
Proof. lawful_endpoint. Qed.
End status_v2.

Module accept_terms_of_service_v2.
Definition api : endpoint := {|
  ep_metadata := {|
    description :=
      "Called by a client to indicate that the user has accepted/agreed to the included " +:+
      "set of URLs.";
    method := "POST";
    name := "accept_terms_of_service";
    path := "/_matrix/identity/v2/terms";
    rate_limited := false;
    authentication := AccessToken
  |};
  ep_request := [
    Body (req "user_accepts" (c_list c_string))];
  ep_response := [];
  ep_error := DefaultError
|}.

#[export] Instance identity_accept_terms_of_service_v2_lawful : LawfulEndpoint api.
Proof. lawful_endpoint. Qed.
End accept_terms_of_service_v2.

Module get_terms_of_service_v2.
Definition LocalizedPolicy : codec := c_struct [
  req "name" c_string;
  req "url" c_string].

(** [localized] is flattened: what is left of the object is read as a map. *)
Record Policies := { version : string; localized : gmap string (ctype LocalizedPolicy) }.
Definition c_policies : codec := {|
  ctype := Policies;
  enc self := JObject (("version", JString (version self)) ::
    btree_iter (enc LocalizedPolicy <$> localized self));
  dec j :=
    '(src, rest) ← flat_src ["version"] j;
    version ← field_req ["version"] "version" de_string src;
    localized ← dec (c_map LocalizedPolicy) (JObject rest);
    Ok {| version := version; localized := localized |};
  cwf self := localized self !! "version" = None ∧ cwf (c_map LocalizedPolicy) (localized self)
|}.
#[export] Instance lawful_policies : Lawful c_policies.
Proof.
  intros [v m] [Hv Hm]. cbn [dec enc c_policies version localized] in *.
  set (own := [("version", JString v)]). set (rest := btree_iter (enc LocalizedPolicy <$> m)).
  change (_ :: rest) with (own ++ rest).
  rewrite (flat_src_app ["version"] own rest).
  - cbn [mbind outcome_bind]. rewrite (field_req_Some _ _ _ _ (JString v)) by done.
    cbn [mbind outcome_bind de_string].
    pose proof (lawful_map LocalizedPolicy _ m Hm) as Hl. cbn [enc c_map c_id_map] in Hl.
    fold rest in Hl. by rewrite Hl.
  - apply list.NoDup_singleton.
  - done.
  - intros k ([k' a] & -> & Hin%elem_of_btree_iter)%list_elem_of_fmap.
    rewrite lookup_fmap in Hin. rewrite list_elem_of_singleton. cbn. intros ->. by rewrite Hv in Hin.
Qed.

Definition api : endpoint := {|
  ep_metadata := {|
    description := "Gets all the terms of service offered by the server.";
    method := "GET";
    name := "get_terms_of_service";
    path := "/_matrix/identity/v2/terms";
    rate_limited := false;
    authentication := AuthNone
  |};
  ep_request := [];
  ep_response := [
    RespBody (req "policies" (c_map c_policies))];
  ep_error := DefaultError
|}.

#[export] Instance identity_get_terms_of_service_v2_lawful : LawfulEndpoint api.
Proof. lawful_endpoint. Qed.
End get_terms_of_service_v2.

Module set_room_visibility.
Definition api : endpoint := {|
  ep_metadata := {|
    description :=
      "Updates the visibility of a given room on the application service's room directory.";
    method := "PUT";
    name := "set_room_visibility";
    path := "/_matrix/client/r0/directory/list/appservice/:network_id/:room_id";
    rate_limited := false;
    authentication := QueryOnlyAccessToken
  |};
  ep_request := [
    Path (p_string "network_id");
    Path (p_id "room_id" RoomId_parse);
    Body (req "visibility" (c_enum Visibility.Visibility))];
  ep_response := [];
  ep_error := DefaultError
|}.

#[export] Instance appservice_set_room_visibility_lawful : LawfulEndpoint api.
Proof. lawful_endpoint. Qed.
End set_room_visibility.

Module push_events_v1.
Import ClientSync.sync_events.

(** The struct [sync_events::Response]: all of its fields are in the body. *)
Definition sync_response `{JsonText} : codec :=
  resp_body_codec (ep_response ClientSync.sync_events.api).

Definition EventDeHelper : codec := c_struct [
  nullable "room_id" c_room_id].

Definition api : endpoint := {|
  ep_metadata := {|
    description :=
      "This API is called by the homeserver when it wants to push an event (or batch of " +:+
      "events) to the application service.";
    method := "PUT";
    name := "push_events";
    path := "/_matrix/app/v1/transactions/:txn_id";
    rate_limited := false;
    authentication := QueryOnlyAccessToken
  |};
  ep_request := [
    Path (p_string "txn_id");
    Body (req "events" (c_list c_raw))];
  ep_response := [];
  ep_error := DefaultError
|}.

#[export] Instance appservice_push_events_v1_lawful : LawfulEndpoint api.
Proof. lawful_endpoint. Qed.

(** ** [IncomingRequest::try_into_sync_response] (the feature [helper]) *)

Section helper.
Context `{JsonText}.

Definition Response_new (next_batch : string) : ctype sync_response :=
  (next_batch, (Rooms_default, (Presence_default, (GlobalAccountData_default,
  (ToDevice_default, (DeviceLists_default, (∅, ()))))))).

(** [join.timeline.events.push(event)] *)
Definition timeline_push (event : json) (join : ctype JoinedRoom) : ctype JoinedRoom :=
  let '(summary, (unread, ((limited, (prev_batch, (events, u))), rest))) := join in
  (summary, (unread, ((limited, (prev_batch, (events ++ [event], u))), rest))).

(** [response.rooms.join.entry(room_id).or_default()], then the push *)
Definition join_push (room_id : string) (event : json) (response : ctype sync_response) :
    ctype sync_response :=
  let '(next_batch, ((leave, (join, invite)), rest)) := response in
  let entry := default JoinedRoom_default (join !! room_id) in
  (next_batch, ((leave, (<[room_id := timeline_push event entry]> join, invite)), rest)).

Fixpoint add_events (events : list json) (response : ctype sync_response) :
    outcome () (ctype sync_response) :=
  match events with
  | [] => Ok response
  | raw_event :: events =>
      '(room_id, _) ← dec EventDeHelper raw_event;
      add_events events
        match room_id with
        | Some room_id => join_push room_id raw_event response
        | None => response
        end
  end.

Definition try_into_sync_response (self : list json) (next_batch : string) :
    outcome () (ctype sync_response) :=
  add_events self (Response_new next_batch).
End helper.
End push_events_v1.

Definition Namespace : codec := c_struct [
  req "exclusive" c_bool;
  req "regex" c_string].

Definition Namespaces : codec := c_struct [
  vec "users" Namespace;
  vec "aliases" Namespace;
  vec "rooms" Namespace].

Definition Registration : codec := c_struct [
  req "id" c_string;
  req "url" c_string;
  req "as_token" c_string;
  req "hs_token" c_string;
  req "sender_localpart" c_string;
  req "namespaces" Namespaces;
  opt "rate_limited" c_bool;
  opt "protocols" (c_list c_string)].

Module query_room_alias_v1.
Definition api : endpoint := {|
  ep_metadata := {|
    description :=
      "This endpoint is invoked by the homeserver on an application service to query the " +:+
      "existence of a given room alias.";
    method := "GET";
    name := "query_room_alias";
    path := "/_matrix/app/v1/rooms/:room_alias";
    rate_limited := false;
    authentication := QueryOnlyAccessToken
  |};
  ep_request := [
    Path (p_id "room_alias" RoomAliasId_parse)];
  ep_response := [];
  ep_error := DefaultError
|}.

#[export] Instance appservice_query_room_alias_v1_lawful : LawfulEndpoint api.
Proof. lawful_endpoint. Qed.
End query_room_alias_v1.

Module query_user_id_v1.
Definition api : endpoint := {|
  ep_metadata := {|
    description :=
      "This endpoint is invoked by the homeserver on an application service to query the " +:+
      "existence of a given user ID.";
    method := "GET";
    name := "query_user_id";
    path := "/_matrix/app/v1/users/:user_id";
    rate_limited := false;
    authentication := QueryOnlyAccessToken
  |};
  ep_request := [
    Path (p_id "user_id" UserId_parse)];
  ep_response := [];
  ep_error := DefaultError
|}.

#[export] Instance appservice_query_user_id_v1_lawful : LawfulEndpoint api.
Proof. lawful_endpoint. Qed.
End query_user_id_v1.

Module get_location_for_protocol_v1.
Definition api : endpoint := {|
  ep_metadata := {|
    description := "Fetches third party locations for a protocol.";
    method := "GET";
    name := "get_location_for_protocol";
    path := "/_matrix/app/v1/thirdparty/location/:protocol";
    rate_limited := false;
    authentication := QueryOnlyAccessToken
  |};
  ep_request := [
    Path (p_string "protocol");
    QueryMap];
  ep_response := [
    RespNewtypeBody (c_list Location)];
  ep_error := DefaultError
|}.

#[export] Instance appservice_get_location_for_protocol_v1_lawful : LawfulEndpoint api.
Proof. lawful_endpoint. Qed.
End get_location_for_protocol_v1.

Module get_location_for_room_alias_v1.
Definition api : endpoint := {|
  ep_metadata := {|
    description := "Retrieve an array of third party network locations from a Matrix room alias.";
    method := "GET";
    name := "get_location_for_room_alias";
    path := "/_matrix/app/v1/thirdparty/location";
    rate_limited := false;
    authentication := QueryOnlyAccessToken
  |};
  ep_request := [
    Query (q_req "alias" (qc_parsed RoomAliasId_parse))];
  ep_response := [
    RespNewtypeBody (c_list Location)];
  ep_error := DefaultError
|}.

#[export] Instance appservice_get_location_for_room_alias_v1_lawful : LawfulEndpoint api.
Proof. lawful_endpoint. Qed.
End get_location_for_room_alias_v1.

Module get_protocol_v1.
Definition api : endpoint := {|
  ep_metadata := {|
    description :=
      "Fetches the metadata from the homeserver about a particular third party protocol.";
    method := "GET";
    name := "get_protocol";
    path := "/_matrix/app/v1/thirdparty/protocol/:protocol";
    rate_limited := false;
    authentication := QueryOnlyAccessToken
  |};
  ep_request := [
    Path (p_string "protocol")];
  ep_response := [
    RespNewtypeBody Protocol];
  ep_error := DefaultError
|}.

#[export] Instance appservice_get_protocol_v1_lawful : LawfulEndpoint api.
Proof. lawful_endpoint. Qed.
End get_protocol_v1.

Module get_user_for_protocol_v1.
Definition api : endpoint := {|
  ep_metadata := {|
    description := "Fetches third party users for a protocol.";
    method := "GET";
    name := "get_user_for_protocol";
    path := "/_matrix/app/v1/thirdparty/user/:protocol";
    rate_limited := false;
    authentication := QueryOnlyAccessToken
  |};
  ep_request := [
    Path (p_string "protocol");
    QueryMap];
  ep_response := [
    RespNewtypeBody (c_list User)];
  ep_error := DefaultError
|}.

#[export] Instance appservice_get_user_for_protocol_v1_lawful : LawfulEndpoint api.
Proof. lawful_endpoint. Qed.
End get_user_for_protocol_v1.

Module get_user_for_user_id_v1.
Definition api : endpoint := {|
  ep_metadata := {|
    description := "Retrieve an array of third party users from a Matrix User ID.";
    method := "GET";
    name := "get_user_for_user_id";
    path := "/_matrix/app/v1/thirdparty/user";
    rate_limited := false;
    authentication := QueryOnlyAccessToken
  |};
  ep_request := [
    Query (q_req "userid" (qc_parsed UserId_parse))];
  ep_response := [
    RespNewtypeBody (c_list User)];
  ep_error := DefaultError
|}.

#[export] Instance appservice_get_user_for_user_id_v1_lawful : LawfulEndpoint api.
Proof. lawful_endpoint. Qed.
End get_user_for_user_id_v1.

Module send_event_notification_v1.
Module NotificationPriority.
Inductive NotificationPriority := High | Low | Custom (s : string).

#[export] Instance NotificationPriority_eq_dec : EqDecision NotificationPriority.
Proof. solve_decision. Defined.

#[export, refine] Instance NotificationPriority_enum : StringEnum NotificationPriority := {|
  rename_all := SnakeCase;
  unit_variants :=
    [("High", None, High);
     ("Low", None, Low)];
  custom := Custom;
  custom_inner c := match c with Custom s => Some s | _ => None end
|}.
Proof. all: string_enum_laws. Defined.
End NotificationPriority.
Export (hints) NotificationPriority.

Definition NotificationCounts : codec := c_struct [
  dflt "unread" c_uint 0%Z (λ n, bool_decide (n = 0%Z));
  dflt "missed_calls" c_uint 0%Z (λ n, bool_decide (n = 0%Z))].
Definition NotificationCounts_default : ctype NotificationCounts := (0%Z, (0%Z, ())).

(** [mod tweak_serde]: the tweaks are the entries of a map. *)
Definition tweak_entry (item : Tweak) : string * json :=
  match item with
  | Highlight b => ("highlight", JBool b)
  | Sound value => ("sound", JString value)
  | CustomTweak name value => (name, value)
  end.

(** A value for [highlight] that is not a boolean counts as none, but the parser is left in
    front of an array or an object, which is then an error. *)
Definition read_tweak (entry : string * json) : outcome () Tweak :=
  let '(key, value) := entry in
  if decide (key = "sound") then Sound <$> de_string value
  else if decide (key = "highlight") then
    match value with
    | JBool b => Ok (Highlight b)
    | JArray _ | JObject _ => Err ()
    | _ => Ok (Highlight true)
    end
  else CustomTweak key <$> de_raw value.

Definition is_highlight (tw : Tweak) : bool := match tw with Highlight _ => true | _ => false end.

Fixpoint read_tweaks (entries : list (string * json)) : outcome () (list Tweak) :=
  match entries with
  | [] => Ok []
  | entry :: entries => tw ← read_tweak entry; tweaks ← read_tweaks entries; Ok (tw :: tweaks)
  end.

Definition c_tweaks : codec := {|
  ctype := list Tweak;
  enc tweak := JObject (tweak_entry <$> tweak);
  dec j :=
    match j with
    | JObject entries =>
        tweaks ← read_tweaks entries;
        Ok (if existsb is_highlight tweaks then tweaks else tweaks ++ [Highlight false])
    | _ => Err ()
    end;
  cwf tweaks :=
    existsb is_highlight tweaks = true ∧
    Forall (λ tw, read_tweak (tweak_entry tw) = Ok tw) tweaks
|}.
#[export] Instance lawful_tweaks : Lawful c_tweaks.
Proof.
  intros tweaks [Hh Hall]. cbn [dec enc c_tweaks].
  assert (read_tweaks (tweak_entry <$> tweaks) = Ok tweaks) as ->.
  { clear Hh. induction Hall as [|tw tweaks Htw _ IH]; [done|]. cbn. by rewrite Htw, IH. }
  cbn. by rewrite Hh.
Qed.

#[export] Instance skips_pusher_data : SkipsDefault PusherData_new PushSerde.is_empty.
Proof. by intros [[?|] [?|]]. Qed.

Definition Device : codec := c_struct [
  req "app_id" c_string;
  req "pushkey" c_string;
  opt "pushkey_ts" c_uint;
  dflt "data" c_pusher_data PusherData_new PushSerde.is_empty;
  skipped "tweaks" c_tweaks list_is_empty].

Definition Notification : codec := c_struct [
  opt "event_id" c_event_id;
  opt "room_id" c_room_id;
  opt "type" (c_enum EventType);
  opt "sender" c_user_id;
  opt "sender_display_name" c_string;
  opt "room_name" c_room_name;
  opt "room_alias" c_room_alias_id;
  flag "user_is_target";
  dflt "prio" (c_enum NotificationPriority.NotificationPriority) NotificationPriority.High
    (λ p, bool_decide (p = NotificationPriority.High));
  opt "content" c_raw;
  dflt "counts" NotificationCounts NotificationCounts_default
    (λ c, bool_decide (c = NotificationCounts_default));
  req "devices" (c_list Device)].

Definition api : endpoint := {|
  ep_metadata := {|
    description :=
      "Notify a push gateway about an event or update the number of unread notifications a " +:+
      "user has";
    method := "POST";
    name := "send_event_notification";
    path := "/_matrix/push/v1/notify";
    rate_limited := false;
    authentication := AuthNone
  |};
  ep_request := [
    Body (req "notification" Notification)];
  ep_response := [
    RespBody (req "rejected" (c_list c_string))];
  ep_error := DefaultError
|}.

#[export] Instance gateway_send_event_notification_v1_lawful : LawfulEndpoint api.
Proof. lawful_endpoint. Qed.
End send_event_notification_v1.
