(* ===== verification/ApiPlatform.v ===== *)
(** * A platform for the API examples

    Concrete functions that have the documented behaviour of the third-party crates the API
    framework calls: form and percent encoding by way of hexadecimal digits, JSON as text by
    way of a code of its syntax trees, and URIs of one server. They are for the examples only. *)

From S2P Require Import Prelude RustStr RustNet IdValidation StringEnum Identifiers Json.
From S2P Require Import CanonicalJson Serde UrlEncoded UrlEncodedSpec Codecs Http Api ApiSpec.
From Stdlib Require Import Ascii NArith.
Open Scope string_scope.
Open Scope nat_scope.
Open Scope list_scope.

(** ** Bytes *)

Lemma hex_bytes p s :
  (∀ n, (n < 16)%N → p (ascii_of_N (n + 97)) = true) → bytes_all p (hex s) = true.
Proof.
  intros Hp. induction s as [|b s IH]; [done|]. simpl. rewrite IH, !Hp; [done|apply N.mod_lt; lia|].
  apply N.Div0.div_lt_upper_bound. pose proof (N_ascii_bounded b). unfold byte. lia.
Qed.

Lemma below_16 (P : N → bool) :
  forallb P [0;1;2;3;4;5;6;7;8;9;10;11;12;13;14;15]%N = true → ∀ n, (n < 16)%N → P n = true.
Proof.
  intros HP n Hn. rewrite forallb_forall in HP. apply HP.
  destruct n as [|[[[[]|[]|]|[[]|[]|]|]|[[[]|[]|]|[[]|[]|]|]|]]; simpl; try lia; tauto.
Qed.

Lemma str_join_bytes p c l :
  p c = true → Forall (λ s, bytes_all p s = true) l → bytes_all p (str_join c l) = true.
Proof.
  intros Hc. induction 1 as [|s l Hs Hl IH]; [done|]. destruct l as [|t l]; [exact Hs|].
  change (str_join c (s :: t :: l)) with (s +:+ String c (str_join c (t :: l))).
  rewrite bytes_all_app, Hs.
  cbn [bytes_all andb]. by rewrite Hc, IH.
Qed.

#[export] Existing Instance hex_form.

#[export] Instance hex_form_bytes : FormBytes.
Proof.
  intros l. change (finish l) with (hex_finish l). unfold hex_finish. destruct l as [|kv l]; [done|].
  apply str_join_bytes; [done|]. apply list.Forall_fmap, list.Forall_forall. intros [k v] _. simpl.
  rewrite bytes_all_app. simpl.
  by rewrite !hex_bytes by (apply (below_16 (λ n, query_byte (ascii_of_N (n + 97)))); vm_compute; done).
Qed.

Lemma hex_percent_bytes s : bytes_all percent_byte (hex s) = true.
Proof.
  apply hex_bytes, (below_16 (λ n, percent_byte (ascii_of_N (n + 97)))). vm_compute. done.
Qed.

#[export] Instance hex_percent : PercentEncoding := {|
  utf8_percent_encode := hex;
  percent_decode := unhex;
  percent_decode_encode := unhex_hex;
  percent_encode_bytes := hex_percent_bytes
|}.

(** ** JSON as text *)

Definition tree_slice (s : string) : outcome () json :=
  match s with
  | "{}" => Ok (JObject [])
  | String "t" s => tree_from_string s
  | _ => Err ()
  end.

#[export, refine] Instance tree_text : JsonText := {|
  json_to_vec j := String "t" (tree_to_string j);
  json_from_slice := tree_slice
|}.
Proof.
  - intros j. exact (tree_from_to_string j).
  - done.
  - done.
Defined.

(** ** The http crate *)

Definition example_origin : string := "https://matrix.org".

(** Everything before the first question mark is the path. *)
Definition parse_pq (s : string) : option (string * option string) :=
  if starts_with_char "/" s then
    match str_find "?" s with
    | Some i => Some (str_take i s, Some (str_drop (S i) s))
    | None => Some (s, None)
    end
  else None.

Definition parse_uri (s : string) : option Uri :=
  rest ← strip_prefix example_origin s;
  pq ← parse_pq rest;
  Some {| uri_origin := example_origin; uri_path_and_query := Some pq |}.

Definition visible_text (s : string) : option string :=
  if bytes_all visible_byte s then Some s else None.

Lemma path_byte_not b : path_byte b = true → negb (byte_is "?" b) = true.
Proof. intros Hb. apply negb_true_iff, not_true_iff_false. by intros ->%byte_is_true. Qed.

Lemma parse_pq_to_string path query :
  starts_with_char "/" path = true → bytes_all path_byte path = true →
  parse_pq (path_and_query_to_string (path, query)) = Some (path, query).
Proof.
  intros Hstart Hpath. pose proof (bytes_all_impl _ _ _ path_byte_not Hpath) as Hno.
  pose proof (starts_with_char_app _ _ Hstart) as (rest & Hrest).
  unfold parse_pq. destruct query as [q|]; cbn [path_and_query_to_string].
  - replace (starts_with_char "/" (path +:+ "?" +:+ q)) with true by by rewrite Hrest.
    change (path +:+ "?" +:+ q) with (path +:+ String "?" q).
    rewrite str_find_app by done. rewrite str_take_app.
    do 3 f_equal. clear. induction path as [|b path IH]; [done|]. exact IH.
  - rewrite Hstart. by rewrite (proj2 (str_find_None "?" path) Hno).
Qed.

Lemma example_origin_no_slash s : example_origin ≠ s +:+ "/".
Proof.
  intros Hs. pose proof (strip_slash_app s) as Hstrip. rewrite <- Hs in Hstrip.
  vm_compute in Hstrip. subst s. discriminate Hs.
Qed.

#[export, refine] Instance example_http : HttpCrate := {|
  header_from_str := visible_text;
  header_from_string := visible_text;
  header_to_str := visible_text;
  uri_parse := parse_uri;
  path_and_query_parse := parse_pq;
  uri_from_parts := Some;
  is_origin origin := origin = example_origin
|}.
Proof.
  - intros s Hs. unfold visible_text. by rewrite Hs.
  - intros path query Hs Hp _. by apply parse_pq_to_string.
  - intros origin pq -> Hpq. unfold parse_uri.
    rewrite (proj2 (strip_prefix_Some example_origin _ _) eq_refl). cbn [mbind option_bind].
    by rewrite Hpq.
  - done.
  - intros origin ->. exact example_origin_no_slash.
Defined.
