(* ===== verification/Endpoints.v ===== *)
(** * The endpoints of each API, and routing

    All the endpoints that the repository's API crates declare, listed by API. A server picks
    the endpoint of a request by its method and its path; the theorems of [EndpointsSpec] say
    that the lists are lawful and for which endpoints that choice is not unique. *)

From S2P Require Import Prelude RustStr RustNet IdValidation StringEnum Identifiers Json.
From S2P Require Import CanonicalJson Serde Codecs UrlEncoded UrlEncodedSpec ClientErrors.
From S2P Require Import Uiaa UiaaSpec Http Api ApiPaths ApiQuery ApiSpec ApiTypes ClientTypes.
From S2P Require Import MemberCount PushRules PushSerde ClientAccount ClientKeys.
From S2P Require Import ClientRooms ClientMedia ClientPush.
From S2P Require Import ClientMessages ClientState ClientSync ClientSession Federation ServiceApis.
From Stdlib Require Import Ascii NArith.
Open Scope string_scope.
Open Scope nat_scope.
Open Scope list_scope.

Section endpoints.
Context `{Unicode} `{JsonText} `{RawContent} `{JsInt} `{IndexSets} (now : Z).

Definition client_requests : list endpoint := [
  ClientAccount.add_3pid.api;
  ClientAccount.bind_3pid.api;
  ClientAccount.change_password.api;
  ClientAccount.check_registration_token_validity.api;
  ClientAccount.deactivate.api;
  ClientAccount.delete_3pid.api;
  ClientAccount.get_3pids.api;
  ClientAccount.get_username_availability.api;
  ClientAccount.register.api;
  ClientAccount.request_3pid_management_token_via_email.api;
  ClientAccount.request_3pid_management_token_via_msisdn.api;
  ClientAccount.request_openid_token.api;
  ClientAccount.request_password_change_token_via_email.api;
  ClientAccount.request_password_change_token_via_msisdn.api;
  ClientAccount.request_registration_token_via_email.api;
  ClientAccount.request_registration_token_via_msisdn.api;
  ClientAccount.unbind_3pid.api;
  ClientAccount.whoami.api;
  ClientAccount.create_alias.api;
  ClientAccount.delete_alias.api;
  ClientAccount.get_alias.api;
  ClientAccount.set_room_visibility.api;
  ClientKeys.add_backup_key_session.api;
  ClientKeys.add_backup_key_sessions.api;
  ClientKeys.add_backup_keys.api;
  ClientKeys.create_backup.api;
  ClientKeys.delete_backup.api;
  ClientKeys.delete_backup_key_session.api;
  ClientKeys.delete_backup_key_sessions.api;
  ClientKeys.delete_backup_keys.api;
  ClientKeys.get_backup.api;
  ClientKeys.get_backup_key_session.api;
  ClientKeys.get_backup_key_sessions.api;
  ClientKeys.get_backup_keys.api;
  ClientKeys.get_latest_backup.api;
  ClientKeys.update_backup.api;
  ClientRooms.ban_user.api;
  ClientRooms.forget_room.api;
  ClientRooms.get_member_events.api;
  ClientRooms.invite_user.api;
  ClientRooms.join_room_by_id.api;
  ClientRooms.join_room_by_id_or_alias.api;
  ClientRooms.joined_members.api;
  ClientRooms.joined_rooms.api;
  ClientRooms.kick_user.api;
  ClientRooms.leave_room.api;
  ClientRooms.unban_user.api;
  ClientRooms.search_users.api;
  ClientRooms.get_public_rooms.api;
  ClientRooms.get_public_rooms_filtered.api;
  ClientRooms.get_room_visibility.api;
  ClientRooms.set_room_visibility.api;
  ClientRooms.knock_room.api;
  ClientRooms.redact_event.api;
  ClientRooms.aliases.api;
  ClientRooms.create_room.api;
  ClientRooms.get_room_event.api;
  ClientRooms.report_content.api;
  ClientRooms.upgrade_room.api;
  ClientMedia.get_global_account_data.api;
  ClientMedia.get_room_account_data.api;
  ClientMedia.set_global_account_data.api;
  ClientMedia.set_room_account_data.api;
  ClientMedia.create_content.api;
  ClientMedia.get_content.api;
  ClientMedia.get_content_as_filename.api;
  ClientMedia.get_content_thumbnail.api;
  ClientMedia.get_media_config.api;
  ClientMedia.get_media_preview.api;
  ClientMedia.get_presence.api;
  ClientMedia.set_presence.api;
  ClientMedia.get_avatar_url.api;
  ClientMedia.get_display_name.api;
  ClientMedia.get_profile.api;
  ClientMedia.set_avatar_url.api;
  ClientMedia.set_display_name.api;
  ClientMedia.set_read_marker.api;
  ClientMedia.create_receipt.api;
  ClientMedia.get_user_info.api;
  ClientMedia.create_tag.api;
  ClientMedia.delete_tag.api;
  ClientMedia.get_tags.api;
  ClientMedia.get_location_for_protocol.api;
  ClientMedia.get_location_for_room_alias.api;
  ClientMedia.get_protocol.api;
  ClientMedia.get_protocols.api;
  ClientMedia.get_user_for_protocol.api;
  ClientMedia.get_user_for_user_id.api;
  ClientMedia.create_typing_event.api;
  ClientMedia.get_turn_server_info.api;
  ClientPush.delete_pushrule.api;
  ClientPush.get_notifications.api;
  ClientPush.get_pushers.api;
  ClientPush.get_pushrule.api;
  ClientPush.get_pushrule_actions.api;
  ClientPush.get_pushrule_enabled.api;
  ClientPush.get_pushrules_all.api;
  ClientPush.get_pushrules_global_scope.api;
  ClientPush.set_pusher.api;
  ClientPush.set_pushrule.api;
  ClientPush.set_pushrule_actions.api;
  ClientPush.set_pushrule_enabled.api;
  ClientKeys.delete_device.api;
  ClientKeys.delete_devices.api;
  ClientKeys.get_device.api;
  ClientKeys.get_devices.api;
  ClientKeys.update_device.api;
  ClientKeys.claim_keys.api;
  ClientKeys.get_key_changes.api;
  ClientKeys.get_keys.api;
  ClientKeys.upload_keys.api;
  ClientKeys.upload_signatures.api;
  ClientKeys.upload_signing_keys.api;
  ClientKeys.send_event_to_device.api;
  ClientMessages.get_context.api;
  ClientMessages.get_message_events.api;
  ClientMessages.send_message_event.api;
  ClientMessages.search_events.api;
  ClientState.get_state_events.api;
  ClientSync.create_filter.api;
  ClientSync.get_filter.api;
  ClientSync.sync_events.api;
  ClientSession.get_capabilities.api;
  ClientSession.get_login_types.api;
  ClientSession.login.api;
  ClientSession.login_fallback.api;
  ClientSession.logout.api;
  ClientSession.logout_all.api;
  ClientSession.sso_login.api;
  ClientSession.sso_login_with_provider.api;
  ClientSession.get_uiaa_fallback_page.api;
  ClientSession.discover_homeserver.api;
  ClientSession.get_supported_versions.api].

(** The requests of two endpoints are converted by hand-written code (file ClientState). *)
Definition state_endpoints : list endpoint := [
  ClientState.send_state_event.api;
  ClientState.get_state_events_for_key.api].
Definition client_endpoints : list endpoint := client_requests ++ state_endpoints.

Definition federation_endpoints : list endpoint := [
  Federation.get_event_authorization_v1.api;
  Federation.get_backfill_v1.api;
  Federation.get_devices_v1.api;
  Federation.get_public_rooms_filtered_v1.api;
  Federation.discover_homeserver.api;
  Federation.get_remote_server_keys_v2.api now;
  Federation.get_remote_server_keys_batch_v2.api;
  Federation.get_server_keys_v2.api;
  Federation.get_server_version_v1.api;
  Federation.get_event_v1.api;
  Federation.get_missing_events_v1.api;
  Federation.get_room_state_v1.api;
  Federation.get_room_state_ids_v1.api;
  Federation.claim_keys_v1.api;
  Federation.get_keys_v1.api;
  Federation.create_knock_event_template_v1.api;
  Federation.create_invite_v1.api;
  Federation.create_invite_v2.api;
  Federation.create_join_event_v1.api;
  Federation.create_join_event_v2.api;
  Federation.create_join_event_template_v1.api;
  Federation.create_leave_event_v1.api;
  Federation.create_leave_event_v2.api;
  Federation.get_leave_event_v1.api;
  Federation.get_openid_userinfo_v1.api;
  Federation.get_custom_information_v1.api;
  Federation.get_profile_information_v1.api;
  Federation.get_room_information_v1.api;
  Federation.bind_callback_v1.api;
  Federation.exchange_invite_v1.api;
  Federation.send_transaction_message_v1.api].

Definition identity_endpoints : list endpoint := [
  ServiceApis.bind_3pid_v2.api;
  ServiceApis.check_3pid_validity_v2.api;
  ServiceApis.create_email_validation_session_v2.api;
  ServiceApis.validate_email_v2.api;
  ServiceApis.validate_email_by_end_user_v2.api;
  ServiceApis.create_msisdn_validation_session_v2.api;
  ServiceApis.validate_msisdn_v2.api;
  ServiceApis.validate_msisdn_by_phone_number_v2.api;
  ServiceApis.unbind_3pid_v2.api;
  ServiceApis.get_account_information_v2.api;
  ServiceApis.logout_v2.api;
  ServiceApis.register_v2.api;
  ServiceApis.sign_invitation_ed25519_v2.api;
  ServiceApis.store_invitation_v2.api;
  ServiceApis.check_public_key_validity_v2.api;
  ServiceApis.get_public_key_v2.api;
  ServiceApis.validate_ephemeral_key_v2.api;
  ServiceApis.get_hash_parameters_v2.api;
  ServiceApis.lookup_3pid_v2.api;
  ServiceApis.status_v2.api;
  ServiceApis.accept_terms_of_service_v2.api;
  ServiceApis.get_terms_of_service_v2.api].

Definition appservice_endpoints : list endpoint := [
  ServiceApis.set_room_visibility.api;
  ServiceApis.push_events_v1.api;
  ServiceApis.query_room_alias_v1.api;
  ServiceApis.query_user_id_v1.api;
  ServiceApis.get_location_for_protocol_v1.api;
  ServiceApis.get_location_for_room_alias_v1.api;
  ServiceApis.get_protocol_v1.api;
  ServiceApis.get_user_for_protocol_v1.api;
  ServiceApis.get_user_for_user_id_v1.api].

Definition gateway_endpoints : list endpoint := [
  ServiceApis.send_event_notification_v1.api].

(** The endpoints whose requests the macro converts *)
Definition generated_endpoints : list endpoint :=
  client_requests ++ federation_endpoints ++ identity_endpoints ++ appservice_endpoints ++
  gateway_endpoints.

Definition apis : list (list endpoint) := [
  client_endpoints; federation_endpoints; identity_endpoints; appservice_endpoints;
  gateway_endpoints].
End endpoints.

(** ** Routing *)

(** The path of a request fits that of an endpoint: static segments are the same. *)
Fixpoint segments_match (template segments : list string) : bool :=
  match template, segments with
  | [], [] => true
  | t :: template, s :: segments =>
      (starts_with_char ":" t || bool_decide (t = s)) && segments_match template segments
  | _, _ => false
  end.
Definition matches_template (path request_path : string) : bool :=
  segments_match (path_segments path) (path_segments request_path).

Definition routes_to (e : endpoint) (request : HttpRequest) : bool :=
  bool_decide (rq_method request = method (ep_metadata e))
  && matches_template (path (ep_metadata e)) (uri_path (rq_uri request)).

(** Two paths that a request can fit at once *)
Fixpoint segments_overlap (t1 t2 : list string) : bool :=
  match t1, t2 with
  | [], [] => true
  | a :: t1, b :: t2 =>
      (starts_with_char ":" a || starts_with_char ":" b || bool_decide (a = b))
      && segments_overlap t1 t2
  | _, _ => false
  end.
Definition overlap (e1 e2 : endpoint) : bool :=
  bool_decide (method (ep_metadata e1) = method (ep_metadata e2))
  && segments_overlap (path_segments (path (ep_metadata e1)))
       (path_segments (path (ep_metadata e2))).

(** The pairs of endpoints of an API that overlap, by method and name *)
Definition label (e : endpoint) : string := method (ep_metadata e) +:+ " " +:+ name (ep_metadata e).
Fixpoint collisions (l : list endpoint) : list (string * string) :=
  match l with
  | [] => []
  | e :: l => ((λ e', (label e, label e')) <$> filter (λ e', overlap e e' = true) l) ++ collisions l
  end.
