(* ===== verification/ApiConversions.v ===== *)
(** * What becomes of messages on their way

    A transaction of events as a sync response: each room's timeline has exactly its events, in
    order, and the response can be sent on. And requests and values that the declared types allow
    and that are not received as they were sent: the leave event of the first version of its
    endpoint, EDUs and login types the library does not know, timelines without events, and push
    gateway devices without tweaks. *)

From S2P Require Import Prelude RustStr RustNet IdValidation StringEnum Identifiers Json.
From S2P Require Import EventTypes CanonicalJson PushRules Serde PushSerde UrlEncoded.
From S2P Require Import UrlEncodedSpec ClientErrors Uiaa UiaaSpec Codecs Http Api ApiPaths.
From S2P Require Import ApiQuery ApiSpec ApiTypes ClientTypes ClientSync ClientLogin.
From S2P Require Import FederationTypes Federation ServiceApis ApiPlatform.
From Stdlib Require Import Ascii NArith.
Open Scope string_scope.
Open Scope nat_scope.
Open Scope list_scope.

Import ClientSync.sync_events ServiceApis.push_events_v1.

(** ** What the conversion promises *)

(** The room of an event; an event that cannot be read has none, and is an error. *)
Definition room_of (raw_event : json) : outcome () (option string) :=
  '(room_id, _) ← dec EventDeHelper raw_event; Ok room_id.

Fixpoint rooms_of (events : list json) : outcome () (list (option string * json)) :=
  match events with
  | [] => Ok []
  | event :: events => room ← room_of event; l ← rooms_of events; Ok ((room, event) :: l)
  end.

(** The events of a room, in their order *)
Definition events_of (room_id : string) (l : list (option string * json)) : list json :=
  (filter (λ re, re.1 = Some room_id) l).*2.

(** A joined room with a timeline and nothing else *)
Definition joined_with (events : list json) : ctype JoinedRoom :=
  (RoomSummary_default, (UnreadNotificationsCount_default, ((false, (None, (events, ()))),
  (State_default, (RoomAccountData_default, (Ephemeral_default, ())))))).

Definition joined_of (room_id : string) (l : list (option string * json)) :
    option (ctype JoinedRoom) :=
  match events_of room_id l with [] => None | events => Some (joined_with events) end.

(** ** Proofs *)

Section proofs.
Context `{JsonText}.

(** The invariant of the loop: [join] has the timelines of the events read so far. *)
Definition response_of (next_batch : string) (join : gmap string (ctype JoinedRoom)) :
    ctype sync_response :=
  (next_batch, ((∅, (join, (∅, ()))), (Presence_default, (GlobalAccountData_default,
  (ToDevice_default, (DeviceLists_default, (∅, ()))))))).

Definition timelines (join : gmap string (ctype JoinedRoom)) (l : list (option string * json)) : Prop :=
  ∀ room_id, join !! room_id = joined_of room_id l.

Lemma events_of_app room_id l1 l2 :
  events_of room_id (l1 ++ l2) = events_of room_id l1 ++ events_of room_id l2.
Proof. unfold events_of. by rewrite list.filter_app, fmap_app. Qed.

Lemma timelines_push join l room_id event :
  timelines join l →
  timelines (<[room_id := timeline_push event (default JoinedRoom_default (join !! room_id))]> join)
    (l ++ [(Some room_id, event)]).
Proof.
  intros Hl r. unfold joined_of. rewrite events_of_app. destruct (decide (r = room_id)) as [->|Hne].
  - rewrite lookup_insert_eq. rewrite (Hl room_id). unfold joined_of.
    assert (events_of room_id [(Some room_id, event)] = [event]) as ->.
    { unfold events_of. by rewrite filter_cons_True. }
    destruct (events_of room_id l) as [|e es]; reflexivity.
  - rewrite lookup_insert_ne by done. rewrite (Hl r). unfold joined_of.
    assert (events_of r [(Some room_id, event)] = []) as ->.
    { unfold events_of. rewrite filter_cons_False; [done|]. cbn. congruence. }
    by rewrite app_nil_r.
Qed.

Lemma timelines_skip join l event : timelines join l → timelines join (l ++ [(None, event)]).
Proof.
  intros Hl r. unfold joined_of. rewrite events_of_app, (Hl r).
  assert (events_of r [(None, event)] = []) as ->.
  { unfold events_of. by rewrite filter_cons_False. }
  by rewrite app_nil_r.
Qed.

Lemma add_events_spec events next_batch join done_ :
  timelines join done_ →
  match rooms_of events with
  | Ok l => ∃ join', add_events events (response_of next_batch join) = Ok (response_of next_batch join') ∧
              timelines join' (done_ ++ l)
  | Err e => add_events events (response_of next_batch join) = Err e
  | Panic => add_events events (response_of next_batch join) = Panic
  end.
Proof.
  revert join done_. induction events as [|event events IH]; intros join done_ Hl.
  { exists join. by rewrite app_nil_r. }
  cbn [rooms_of add_events]. unfold room_of.
  destruct (dec EventDeHelper event) as [[room_id []]|e|]; [|done..].
  cbn [mbind outcome_bind].
  set (join' := match room_id with
    | Some room_id => <[room_id := timeline_push event (default JoinedRoom_default (join !! room_id))]> join
    | None => join end).
  assert (timelines join' (done_ ++ [(room_id, event)])) as Hl'.
  { unfold join'. destruct room_id; [by apply timelines_push|by apply timelines_skip]. }
  specialize (IH join' _ Hl').
  destruct room_id as [room_id|];
    [change (join_push room_id event (response_of next_batch join)) with (response_of next_batch join')
    |change (response_of next_batch join) with (response_of next_batch join')].
  all: clearbody join'.
  all: destruct (rooms_of events) as [l|e|]; cbn [mbind outcome_bind]; [|done..].
  all: destruct IH as (join2 & Hadd & Hj); exists join2; split; [done|].
  all: by rewrite <- app_assoc in Hj.
Qed.

(** What is read can be written. *)
Lemma room_of_Ok event room_id :
  room_of event = Ok (Some room_id) → RoomId_parse room_id = Ok room_id ∧ event ≠ JNull.
Proof.
  unfold room_of. intros ([r []] & Hdec & [= ->])%bind_Ok.
  change (dec EventDeHelper event)
    with (src ← struct_src ["room_id"] event; r ← field_opt ["room_id"] "room_id" (dec c_room_id) src;
          Ok (r, ())) in Hdec.
  apply bind_Ok in Hdec as (src & Hsrc & (r & Hr & [= ->])%bind_Ok).
  split; [|by intros ->]. unfold field_opt in Hr.
  destruct (lookup_field _ _ src) as [j|]; [|by destruct src].
  destruct j; try done; cbn [de_option] in Hr; apply fmap_Ok in Hr as (id & Hid & [= ->]); try done.
  cbn [dec c_room_id c_parsed de_parse de_string mbind outcome_bind] in Hid.
  unfold RoomId_parse, Identifiers.parse in *.
  destruct (room_id_validate s) eqn:Hv; simpl in Hid; try done.
  injection Hid as <-. by rewrite Hv.
Qed.

Lemma rooms_of_events events l room_id event :
  rooms_of events = Ok l → (Some room_id, event) ∈ l →
  RoomId_parse room_id = Ok room_id ∧ event ≠ JNull.
Proof.
  revert l. induction events as [|e events IH]; intros l; cbn [rooms_of].
  { by intros [= <-] Hin%elem_of_nil. }
  intros (room & Hroom & (l' & Hl' & [= <-])%bind_Ok)%bind_Ok.
  intros [[= <- <-]|Hin]%elem_of_cons; [by apply room_of_Ok|by apply (IH l')].
Qed.

Lemma timelines_wf events l next_batch join :
  rooms_of events = Ok l → timelines join l → cwf sync_response (response_of next_batch join).
Proof.
  intros Hl Hj.
  assert (map_Forall (λ k a, RoomId_parse k = Ok k ∧ cwf JoinedRoom a) join) as Hwf.
  { intros r room Hr. rewrite (Hj r) in Hr. unfold joined_of in Hr.
    destruct (events_of r l) as [|e es] eqn:He; [done|]. injection Hr as <-.
    assert (∀ x, x ∈ e :: es → (Some r, x) ∈ l) as Hin.
    { intros x Hx. rewrite <- He in Hx. unfold events_of in Hx.
      apply list_elem_of_fmap in Hx as ([r' x'] & -> & [Hr' Hx]%list_elem_of_filter).
      cbn in Hr'. by subst r'. }
    split; [apply (rooms_of_events events l r e Hl); apply Hin; left|].
    split; [done|]. split; [done|]. split; [|by split_and!].
    split; [|done]. split; [done|]. split; [done|]. split; [|done]. intros _.
    apply list.Forall_forall. intros x Hx. by apply (rooms_of_events events l r x Hl), Hin. }
  split; [done|]. split; [|by split_and!].
  intros _. split; [done|]. split; [|by split_and!]. intros _. exact Hwf.
Qed.
End proofs.

(** C40: [try_into_sync_response] gives a response in which a room is joined exactly when the
    transaction has events for it, with a timeline of exactly its events in their order;
    everything else is empty. An event without a room is left out, an event that cannot be read
    is the error of the conversion. The response is well formed, so that it can be sent and read
    back as the response of the sync endpoint. *)
Theorem push_events_to_sync `{JsonText} events next_batch :
  match rooms_of events with
  | Ok l => ∃ join,
      try_into_sync_response events next_batch = Ok (response_of next_batch join) ∧
      (∀ room_id, join !! room_id = joined_of room_id l) ∧
      cwf sync_response (response_of next_batch join)
  | Err e => try_into_sync_response events next_batch = Err e
  | Panic => try_into_sync_response events next_batch = Panic
  end.
Proof.
  pose proof (add_events_spec events next_batch ∅ []) as Hs. unfold try_into_sync_response.
  change (Response_new next_batch) with (response_of next_batch ∅).
  destruct (rooms_of events) as [l|e|] eqn:Hl; [|by apply Hs..].
  destruct Hs as (join & Hadd & Hj); [done|]. exists join. split; [done|]. split; [exact Hj|].
  by eapply timelines_wf.
Qed.

(** The source's test: two events of one room *)
Example push_events_example :
  let member := JObject [("type", JString "m.room.member"); ("room_id", JString "!roomid:room.com")] in
  let message := JObject [("type", JString "m.room.message"); ("room_id", JString "!roomid:room.com")] in
  let presence := JObject [("type", JString "m.presence")] in
  rooms_of [member; presence; message] =
    Ok [(Some "!roomid:room.com", member); (None, presence); (Some "!roomid:room.com", message)] ∧
  events_of "!roomid:room.com"
    [(Some "!roomid:room.com", member); (None, presence); (Some "!roomid:room.com", message)] =
    [member; message] ∧
  rooms_of [JObject [("room_id", JString "room.com")]] = Err ().
Proof. split_and!; reflexivity. Qed.

(** ** create_leave_event, version 1 *)

Section leave.
Context `{FormUrlencoded} `{PercentEncoding} `{JsonText} `{HttpCrate}.

Lemma leave_query_unsupported sender origin ts ty key content depth :
  uint_in_range ts = true →
  request_query_string (query_kind_of (ep_request Federation.create_leave_event_v1.api))
    (sender, (origin, (ts, (ty, (key, (content, (depth, ()))))))) =
  Err (IntoQuery UnsupportedValue).
Proof.
  intros Hts. assert (serialize_integer ts = Ok (Z_to_string ts)) as Hint.
  { apply serialize_integer_Ok. unfold fits_64. unfold uint_in_range, MAX_SAFE_INT in Hts. lia. }
  cbv [request_query_string query_kind_of]. cbn -[serialize_integer].
  unfold to_string. cbn -[serialize_integer]. unfold serialize_field. cbn -[serialize_integer].
  rewrite Hint. reflexivity.
Qed.

Lemma read_query_unread qs q entries v :
  q ∈ qs → (∀ s a, qf_read q s ≠ Ok a) → read_query qs entries ≠ Ok v.
Proof.
  intros Hin Hq. revert entries v. induction Hin as [q qs|q q' qs _ IH]; intros [|[k s] entries] v.
  all: cbn [read_query]; try done.
  - intros (a & Ha & _)%bind_Ok. by apply (Hq s a).
  - intros (a & _ & (v' & Hv & _)%bind_Ok)%bind_Ok. by apply (IH Hq entries v').
Qed.

(** The content of a leave event is a query field of a type that only [serde_json] can write
    and read: no request to the first version of the endpoint can be sent, whatever its fields
    are, and none is ever read. *)
Theorem leave_event_v1_unusable :
  (∀ (r : Request Federation.create_leave_event_v1.api) base_url access_token,
     uint_in_range (v_query r).2.2.1 = true →
     try_into_http_request r base_url access_token = Err (IntoQuery UnsupportedValue)) ∧
  (∀ request r,
     try_from_http_request Federation.create_leave_event_v1.api request ≠ Ok r).
Proof.
  split.
  - intros [p q h b] base_url access_token Hts. unfold try_into_http_request.
    destruct q as (sender & origin & ts & ty & key & content & depth & []).
    cbn [v_query] in *. by rewrite leave_query_unsupported.
  - intros request r. unfold try_from_http_request. destruct (decide _); [|done].
    intros Hr. destruct (_ ≫= _) as [r'|d|] eqn:Hbind in Hr; try done.
    apply bind_Ok in Hbind as (p & _ & (q & Hq & _)%bind_Ok).
    destruct (parse_query _ _) as [q'| |] eqn:Hq' in Hq; try done.
    change (query_kind_of _) with
      (QueryStructKind (query_fields (ep_request Federation.create_leave_event_v1.api))) in Hq'.
    cbn [parse_query] in Hq'. apply bind_Ok in Hq' as (s & _ & Hs). destruct s; try done.
    revert Hs. apply (read_query_unread _ (q_raw "content")); [|done].
    apply (list_elem_of_lookup_2 _ 5). reflexivity.
Qed.
End leave.

(** ** EDUs and login types *)

(** Well-formed EDUs are read back from their JSON, but for an EDU of a type the library does
    not know the type is lost: it is read, and written again as one of type [_Custom]. A login
    type that the library does not know is lost altogether: it is not read from the JSON that
    the specification describes, nor from what the library itself writes for it. *)
Theorem custom_types_lost :
  (∀ edu, Edu.well_formed edu → Edu.deserialize (Edu.serialize edu) = Ok edu) ∧
  (∀ entries edu_type content,
     NoDup entries.*1 → assoc "edu_type" entries = Some (JString edu_type) →
     assoc "content" entries = Some content → is_value content →
     edu_type ∉ ["m.presence"; "m.receipt"; "m.typing"; "m.device_list_update";
                 "m.direct_to_device"] →
     ∃ edu, Edu.deserialize (JObject entries) = Ok edu ∧
       Edu.serialize edu = JObject [("edu_type", JString "_Custom"); ("content", content)]) ∧
  (∀ name (entries : list (string * json)),
     NoDup entries.*1 → assoc "type" entries = Some (JString name) →
     assoc "override" entries = None →
     name ∉ ["m.login.password"; "m.login.token"; "m.login.sso"] →
     LoginType.de_LoginType (JObject entries) = Err ()) ∧
  (∀ c, LoginType.custom_data c !! "override" = None → LoginType.custom_data c !! "type" = None →
     LoginType.de_LoginType (LoginType.ser_LoginType (LoginType.Custom c)) = Err ()).
Proof.
  split_and!.
  - apply edu_round_trip_lemma.
  - apply custom_edu_type_lost_lemma.
  - apply custom_login_type_unreadable.
  - apply custom_login_type_no_type.
Qed.

(** ** What is left out when it looks empty *)

Lemma timeline_skipped limited prev_batch :
  write_fields [dflt_lossy "timeline" ClientSync.sync_events.Timeline
                  ClientSync.sync_events.Timeline_default ClientSync.sync_events.Timeline_is_empty]
    ((limited, (prev_batch, ([], ()))), tt) = [].
Proof. reflexivity. Qed.

Lemma tweaks_skipped :
  write_fields [skipped "tweaks" ServiceApis.send_event_notification_v1.c_tweaks list_is_empty]
    ([], tt) = [].
Proof. reflexivity. Qed.

(** A device without tweaks, as [Device::new] makes it, is written without the field, which the
    reader demands; and tweaks without [highlight] come back with one. *)
Lemma device_without_tweaks app_id pushkey :
  let device := ServiceApis.send_event_notification_v1.Device in
  dec device (enc device (app_id, (pushkey, (None, (PusherData_new, ([], ())))))) = Err ().
Proof. reflexivity. Qed.

Lemma tweaks_gain_highlight s :
  let tweaks := ServiceApis.send_event_notification_v1.c_tweaks in
  dec tweaks (enc tweaks [Sound s]) = Ok [Sound s; Highlight false].
Proof. reflexivity. Qed.
