(* ===== verification/EndpointsSpec.v ===== *)
(** * The endpoints of each API: theorems

    Every endpoint is declared as the macro demands ([generated_lawful]); its requests and
    responses are sent and received unchanged; a request goes to no other endpoint of its API than its own, but for the
    listed collisions; and which segments of an incoming path the generated code looks at, and
    when it panics. *)

From S2P Require Import Prelude RustStr RustNet IdValidation StringEnum Identifiers Json.
From S2P Require Import EventTypes CanonicalJson MemberCount PushRules PushRulesSpec Serde.
From S2P Require Import PushSerde UrlEncoded UrlEncodedSpec ClientErrors Uiaa UiaaSpec Codecs.
From S2P Require Import Http Api ApiPaths ApiQuery ApiSpec ApiTypes ClientTypes ClientAccount.
From S2P Require Import ClientKeys ClientRooms ClientMedia ClientPush.
From S2P Require Import ClientMessages ClientState ClientSync ClientSession.
From S2P Require Import Federation ServiceApis ApiPlatform Endpoints.
From Stdlib Require Import Ascii NArith.
Open Scope string_scope.
Open Scope nat_scope.
Open Scope list_scope.

(** ** Every endpoint is lawful *)

Import (hints) ClientAccount.add_3pid ClientAccount.bind_3pid ClientAccount.change_password
  ClientAccount.check_registration_token_validity ClientAccount.deactivate
  ClientAccount.delete_3pid ClientAccount.get_3pids ClientAccount.get_username_availability
  ClientAccount.register ClientAccount.request_3pid_management_token_via_email
  ClientAccount.request_3pid_management_token_via_msisdn ClientAccount.request_openid_token
  ClientAccount.request_password_change_token_via_email
  ClientAccount.request_password_change_token_via_msisdn
  ClientAccount.request_registration_token_via_email
  ClientAccount.request_registration_token_via_msisdn ClientAccount.unbind_3pid
  ClientAccount.whoami ClientAccount.create_alias ClientAccount.delete_alias
  ClientAccount.get_alias ClientAccount.set_room_visibility ClientKeys.add_backup_key_session
  ClientKeys.add_backup_key_sessions ClientKeys.add_backup_keys ClientKeys.create_backup
  ClientKeys.delete_backup ClientKeys.delete_backup_key_session
  ClientKeys.delete_backup_key_sessions ClientKeys.delete_backup_keys
  ClientKeys.get_backup ClientKeys.get_backup_key_session
  ClientKeys.get_backup_key_sessions ClientKeys.get_backup_keys
  ClientKeys.get_latest_backup ClientKeys.update_backup ClientRooms.ban_user
  ClientRooms.forget_room ClientRooms.get_member_events ClientRooms.invite_user
  ClientRooms.join_room_by_id ClientRooms.join_room_by_id_or_alias
  ClientRooms.joined_members ClientRooms.joined_rooms ClientRooms.kick_user
  ClientRooms.leave_room ClientRooms.unban_user ClientRooms.search_users
  ClientRooms.get_public_rooms ClientRooms.get_public_rooms_filtered
  ClientRooms.get_room_visibility ClientRooms.set_room_visibility ClientRooms.knock_room
  ClientRooms.redact_event ClientRooms.aliases ClientRooms.create_room
  ClientRooms.get_room_event ClientRooms.report_content ClientRooms.upgrade_room
  ClientMedia.get_global_account_data ClientMedia.get_room_account_data
  ClientMedia.set_global_account_data ClientMedia.set_room_account_data
  ClientMedia.create_content ClientMedia.get_content ClientMedia.get_content_as_filename
  ClientMedia.get_content_thumbnail ClientMedia.get_media_config ClientMedia.get_media_preview
  ClientMedia.get_presence ClientMedia.set_presence ClientMedia.get_avatar_url
  ClientMedia.get_display_name ClientMedia.get_profile ClientMedia.set_avatar_url
  ClientMedia.set_display_name ClientMedia.set_read_marker ClientMedia.create_receipt
  ClientMedia.get_user_info ClientMedia.create_tag ClientMedia.delete_tag ClientMedia.get_tags
  ClientMedia.get_location_for_protocol ClientMedia.get_location_for_room_alias
  ClientMedia.get_protocol ClientMedia.get_protocols ClientMedia.get_user_for_protocol
  ClientMedia.get_user_for_user_id ClientMedia.create_typing_event
  ClientMedia.get_turn_server_info ClientPush.delete_pushrule ClientPush.get_notifications
  ClientPush.get_pushers ClientPush.get_pushrule ClientPush.get_pushrule_actions
  ClientPush.get_pushrule_enabled ClientPush.get_pushrules_all
  ClientPush.get_pushrules_global_scope ClientPush.set_pusher ClientPush.set_pushrule
  ClientPush.set_pushrule_actions ClientPush.set_pushrule_enabled ClientKeys.delete_device
  ClientKeys.delete_devices ClientKeys.get_device ClientKeys.get_devices
  ClientKeys.update_device ClientKeys.claim_keys ClientKeys.get_key_changes ClientKeys.get_keys
  ClientKeys.upload_keys ClientKeys.upload_signatures ClientKeys.upload_signing_keys
  ClientKeys.send_event_to_device ClientMessages.get_context ClientMessages.get_message_events
  ClientMessages.send_message_event ClientMessages.search_events ClientState.get_state_events
  ClientSync.create_filter ClientSync.get_filter ClientSync.sync_events
  ClientSession.get_capabilities ClientSession.get_login_types ClientSession.login
  ClientSession.login_fallback ClientSession.logout ClientSession.logout_all
  ClientSession.sso_login ClientSession.sso_login_with_provider
  ClientSession.get_uiaa_fallback_page ClientSession.discover_homeserver
  ClientSession.get_supported_versions ClientState.send_state_event
  ClientState.get_state_events_for_key Federation.get_event_authorization_v1
  Federation.get_backfill_v1 Federation.get_devices_v1 Federation.get_public_rooms_filtered_v1
  Federation.discover_homeserver Federation.get_remote_server_keys_v2
  Federation.get_remote_server_keys_batch_v2 Federation.get_server_keys_v2
  Federation.get_server_version_v1 Federation.get_event_v1 Federation.get_missing_events_v1
  Federation.get_room_state_v1 Federation.get_room_state_ids_v1 Federation.claim_keys_v1
  Federation.get_keys_v1 Federation.create_knock_event_template_v1 Federation.create_invite_v1
  Federation.create_invite_v2 Federation.create_join_event_v1 Federation.create_join_event_v2
  Federation.create_join_event_template_v1 Federation.create_leave_event_v1
  Federation.create_leave_event_v2 Federation.get_leave_event_v1
  Federation.get_openid_userinfo_v1 Federation.get_custom_information_v1
  Federation.get_profile_information_v1 Federation.get_room_information_v1
  Federation.bind_callback_v1 Federation.exchange_invite_v1
  Federation.send_transaction_message_v1 ServiceApis.bind_3pid_v2 ServiceApis.check_3pid_validity_v2
  ServiceApis.create_email_validation_session_v2 ServiceApis.validate_email_v2
  ServiceApis.validate_email_by_end_user_v2 ServiceApis.create_msisdn_validation_session_v2
  ServiceApis.validate_msisdn_v2 ServiceApis.validate_msisdn_by_phone_number_v2
  ServiceApis.unbind_3pid_v2 ServiceApis.get_account_information_v2 ServiceApis.logout_v2
  ServiceApis.register_v2 ServiceApis.sign_invitation_ed25519_v2 ServiceApis.store_invitation_v2
  ServiceApis.check_public_key_validity_v2 ServiceApis.get_public_key_v2
  ServiceApis.validate_ephemeral_key_v2 ServiceApis.get_hash_parameters_v2 ServiceApis.lookup_3pid_v2
  ServiceApis.status_v2 ServiceApis.accept_terms_of_service_v2 ServiceApis.get_terms_of_service_v2
  ServiceApis.set_room_visibility ServiceApis.push_events_v1 ServiceApis.query_room_alias_v1
  ServiceApis.query_user_id_v1 ServiceApis.get_location_for_protocol_v1
  ServiceApis.get_location_for_room_alias_v1 ServiceApis.get_protocol_v1
  ServiceApis.get_user_for_protocol_v1 ServiceApis.get_user_for_user_id_v1
  ServiceApis.send_event_notification_v1.

Ltac all_lawful :=
  lazymatch goal with
  | |- Forall _ [] => apply list.Forall_nil_2
  | |- Forall _ (_ :: _) => apply list.Forall_cons_2; [apply _|all_lawful]
  end.

Section lawful.
Context `{Unicode} `{JsonText} `{RawContent} `{JsInt} `{IndexSets} (now : Z).

Lemma client_lawful : Forall LawfulEndpoint client_requests.
Proof. unfold client_requests. all_lawful. Qed.
Lemma federation_lawful : Forall LawfulEndpoint (federation_endpoints now).
Proof. unfold federation_endpoints. all_lawful. Qed.
Lemma identity_lawful : Forall LawfulEndpoint identity_endpoints.
Proof. unfold identity_endpoints. all_lawful. Qed.
Lemma appservice_lawful : Forall LawfulEndpoint appservice_endpoints.
Proof. unfold appservice_endpoints. all_lawful. Qed.
Lemma gateway_lawful : Forall LawfulEndpoint gateway_endpoints.
Proof. unfold gateway_endpoints. all_lawful. Qed.

Lemma generated_lawful : Forall LawfulEndpoint (generated_endpoints now).
Proof.
  unfold generated_endpoints. repeat rewrite Forall_app.
  eauto using client_lawful, federation_lawful, identity_lawful, appservice_lawful, gateway_lawful.
Qed.

Lemma responses_lawful : Forall (λ e, LawfulResponse (ep_response e)) (generated_endpoints now ++ state_endpoints).
Proof.
  apply Forall_app. split.
  - eapply list.Forall_impl; [apply generated_lawful|]. intros e He. apply _.
  - unfold state_endpoints. all_lawful.
Qed.
End lawful.

(** ** Routing *)

Lemma segments_match_overlap t1 t2 segments :
  segments_match t1 segments = true → segments_match t2 segments = true →
  segments_overlap t1 t2 = true.
Proof.
  revert t2 segments. induction t1 as [|a t1 IH]; intros [|b t2] [|s segments]; try done. simpl.
  intros [Ha H1]%andb_true_iff [Hb H2]%andb_true_iff. apply andb_true_iff. split; [|by eapply IH].
  destruct (starts_with_char ":" a), (starts_with_char ":" b); try done. simpl in *.
  apply bool_decide_eq_true in Ha as ->. apply bool_decide_eq_true in Hb as ->.
  by apply bool_decide_eq_true.
Qed.

Lemma segments_match_fill segments args : segments_match segments (fill_segments segments args) = true.
Proof.
  revert args. induction segments as [|seg segments IH]; intros args; [done|]. simpl.
  destruct (starts_with_char ":" seg) eqn:Hseg; [destruct args|]; simpl; rewrite ?Hseg; simpl;
    rewrite ?IH; [done..|]. by rewrite bool_decide_true.
Qed.

Lemma segments_match_refl segments : segments_match segments segments = true.
Proof.
  induction segments as [|seg segments IH]; [done|]. simpl.
  by rewrite IH, bool_decide_true, orb_true_r.
Qed.

Lemma routes_overlap e1 e2 request :
  routes_to e1 request = true → routes_to e2 request = true → overlap e1 e2 = true.
Proof.
  unfold routes_to, overlap, matches_template.
  intros [Hm1%bool_decide_eq_true H1]%andb_true_iff [Hm2%bool_decide_eq_true H2]%andb_true_iff.
  apply andb_true_iff. split; [apply bool_decide_eq_true; congruence|].
  by eapply segments_match_overlap.
Qed.

Lemma overlap_sym e1 e2 : overlap e1 e2 = overlap e2 e1.
Proof.
  unfold overlap. f_equal; [apply bool_decide_ext; naive_solver|].
  generalize (path_segments (path (ep_metadata e1))) (path_segments (path (ep_metadata e2))).
  intros t1. induction t1 as [|a t1 IH]; intros [|b t2]; try done. simpl. rewrite IH.
  f_equal. rewrite (bool_decide_ext (a = b) (b = a)) by naive_solver.
  destruct (starts_with_char ":" a), (starts_with_char ":" b); done.
Qed.

Lemma collisions_complete l i j e e' :
  l !! i = Some e → l !! j = Some e' → i < j → overlap e e' = true →
  (label e, label e') ∈ collisions l.
Proof.
  revert i j. induction l as [|e0 l IH]; intros i j Hi Hj Hij Hov; [done|].
  cbn [collisions]. apply elem_of_app. destruct i as [|i], j as [|j]; try lia.
  - left. injection Hi as ->. apply list_elem_of_fmap. exists e'. split; [done|].
    apply list_elem_of_filter. split; [done|]. by eapply list_elem_of_lookup_2.
  - right. apply (IH i j); [done..|lia|done].
Qed.

(** The pairs of endpoints of one API that a request can be for at once *)
Definition known_collisions : list (string * string) := [
  ("PUT add_backup_keys", "PUT delete_backup_keys");
  ("GET delete_backup_key_session", "GET get_backup_key_session");
  ("GET delete_backup_key_sessions", "GET get_backup_key_sessions");
  ("PUT create_leave_event", "PUT create_leave_event");
  ("GET get_custom_information", "GET get_profile_information");
  ("GET get_custom_information", "GET get_room_information");
  ("GET check_public_key_validity", "GET get_public_key")].

Section routing.
Context `{Unicode} `{JsonText} `{RawContent} `{JsInt} `{IndexSets} (now : Z).

Lemma all_collisions : concat (collisions <$> apis now) = known_collisions.
Proof. vm_compute. reflexivity. Qed.

Lemma api_collisions api e e' i j :
  api ∈ apis now → api !! i = Some e → api !! j = Some e' → i ≠ j → overlap e e' = true →
  (label e, label e') ∈ known_collisions ∨ (label e', label e) ∈ known_collisions.
Proof.
  intros Hapi Hi Hj Hij Hov. rewrite <- all_collisions.
  assert (∀ p, p ∈ collisions api → p ∈ concat (collisions <$> apis now)) as Hin.
  { intros p Hp. apply list_elem_of_In, in_concat. exists (collisions api).
    split; apply list_elem_of_In; [by apply list_elem_of_fmap_2|done]. }
  destruct (decide (i < j)).
  - left. apply Hin. by eapply (collisions_complete api i j).
  - right. apply Hin. apply (collisions_complete api j i); [done..|lia|]. by rewrite overlap_sym.
Qed.
End routing.

(** ** What is sent *)

Section requests.
Context `{Unicode} `{JsonText} `{RawContent} `{JsInt} `{IndexSets}.
Context `{FormUrlencoded} `{!FormBytes} `{PercentEncoding} `{HttpCrate}.

Lemma generated_lawful_elem now e : e ∈ generated_endpoints now → LawfulEndpoint e.
Proof. intros He. pose proof (generated_lawful now) as Hall. rewrite list.Forall_forall in Hall. auto. Qed.

Lemma filled_path_matches {e} (r : Request e) `{!LawfulEndpoint e} :
  matches_template (path (ep_metadata e)) (request_path_string r) = true.
Proof.
  unfold matches_template, request_path_string.
  destruct (has_path_fields (ep_request e)) eqn:Hp; [|apply segments_match_refl].
  pose proof le_expands as He. unfold expands, path_expands in He. rewrite Hp in He. simpl in He.
  repeat rewrite andb_true_iff in He.
  rewrite path_segments_fill; [apply segments_match_fill|apply le_path| |].
  - tauto.
  - eapply list.Forall_impl; [apply path_args_bytes|]. apply percent_byte_no_slash.
Qed.
End requests.

(** ** The theorems *)

Section theorems.
Context `{Unicode} `{JsonText} `{RawContent} `{JsInt} `{IndexSets}.
Context `{FormUrlencoded} `{!FormBytes} `{PercentEncoding} `{HttpCrate}.

(** C31: A well-formed request of any of these endpoints is turned into an HTTP request, given a
    token the endpoint can use, and the server reads the same request back from it: path
    parameters, query, headers and body. *)
Theorem request_round_trip now e (r : Request e) origin base_url access_token :
  e ∈ generated_endpoints now →
  request_wf r → base_url_of origin base_url →
  token_ok (authentication (ep_metadata e)) access_token →
  ∃ request, try_into_http_request r base_url access_token = Ok request ∧
    try_from_http_request e request = Ok r.
Proof.
  intros He%generated_lawful_elem Hwf Hbase Htok. by apply (request_round_trips r origin).
Qed.

(** C32: A well-formed response of any endpoint, those with hand-written requests included, is
    turned into an HTTP response from which the client reads the same response. *)
Theorem response_round_trip now e (r : Response e) :
  e ∈ generated_endpoints now ++ state_endpoints → response_wf r →
  ∃ response, try_into_http_response r = Ok response ∧ try_from_http_response e response = Ok r.
Proof.
  intros He Hwf. pose proof (responses_lawful now) as Hall. rewrite list.Forall_forall in Hall.
  pose proof (Hall e He) as Hl. by apply response_round_trips.
Qed.

(** C36: What is sent for an endpoint fits the method and path of that endpoint, whatever its path
    parameters are, and those of no other endpoint of its API, but for seven pairs of endpoints
    that a server cannot tell apart. *)
Theorem requests_routed now api i e (r : Request e) origin base_url access_token :
  api ∈ apis now → api !! i = Some e → e ∈ generated_endpoints now →
  request_wf r → base_url_of origin base_url →
  token_ok (authentication (ep_metadata e)) access_token →
  ∃ request, try_into_http_request r base_url access_token = Ok request ∧
    routes_to e request = true ∧
    ∀ j e', api !! j = Some e' → i ≠ j → routes_to e' request = true →
      (label e, label e') ∈ known_collisions ∨ (label e', label e) ∈ known_collisions.
Proof.
  intros Hapi Hi He%generated_lawful_elem Hwf Hbase Htok.
  destruct (request_sent r origin base_url access_token Hwf Hbase Htok) as (query & m & Hs & _).
  eexists. split; [exact Hs|].
  assert (routes_to e
    {| rq_method := method (ep_metadata e);
       rq_uri := {| uri_origin := origin; uri_path_and_query := Some (request_path_string r, query) |};
       rq_headers := match sent_token (authentication (ep_metadata e)) access_token with
                     | Some tok => header_insert "AUTHORIZATION" ("Bearer " +:+ tok) m
                     | None => m
                     end;
       rq_body := body_bytes _ (v_body r) |} = true) as Hown.
  { unfold routes_to. cbn [rq_method rq_uri uri_path uri_path_and_query].
    by rewrite bool_decide_true, filled_path_matches. }
  split; [exact Hown|]. intros j e' Hj Hij Hother.
  apply (api_collisions now api e e' i j); [done..|]. by eapply routes_overlap.
Qed.
End theorems.

(** ** Examples *)

#[local] Existing Instances ascii_unicode decimal_js_int list_sets.
#[local] Instance example_raw : RawContent := de_raw.

Definition kick : Request ClientRooms.kick_user.api :=
  Build_Request ClientRooms.kick_user.api ("!room:matrix.org", tt) tt tt
    ("@user:matrix.org", (Some "spam", tt)).

Lemma kick_listed : ClientRooms.kick_user.api ∈ generated_endpoints 0.
Proof. apply (list_elem_of_lookup_2 _ 44). reflexivity. Qed.

Lemma kick_wf : request_wf kick.
Proof.
  split_and!; [split; [split; reflexivity|done]|done|done|].
  split; [reflexivity|]. split; [|done]. by intros a [= <-].
Qed.

Lemma example_base : base_url_of example_origin "https://matrix.org/".
Proof. split; [done|by right]. Qed.

Lemma example_token : token_ok AccessToken (IfRequired "token").
Proof. exists "token". split; reflexivity. Qed.

Lemma request_round_trip_witness :
  ∃ request, try_into_http_request kick "https://matrix.org/" (IfRequired "token") = Ok request ∧
    try_from_http_request ClientRooms.kick_user.api request = Ok kick.
Proof.
  apply (request_round_trip 0 ClientRooms.kick_user.api kick example_origin).
  - exact kick_listed.
  - exact kick_wf.
  - exact example_base.
  - exact example_token.
Defined.

Definition kicked : Response ClientRooms.kick_user.api :=
  Build_Response ClientRooms.kick_user.api tt tt.

Lemma response_round_trip_witness :
  ∃ response, try_into_http_response kicked = Ok response ∧
    try_from_http_response ClientRooms.kick_user.api response = Ok kicked.
Proof.
  apply (response_round_trip 0 ClientRooms.kick_user.api kicked).
  - apply elem_of_app. left. exact kick_listed.
  - split; exact I.
Defined.

Lemma requests_routed_witness :
  ∃ request, try_into_http_request kick "https://matrix.org/" (IfRequired "token") = Ok request ∧
    routes_to ClientRooms.kick_user.api request = true ∧
    ∀ j e', (client_endpoints : list endpoint) !! j = Some e' → 44 ≠ j →
      routes_to e' request = true →
      (label ClientRooms.kick_user.api, label e') ∈ known_collisions ∨
      (label e', label ClientRooms.kick_user.api) ∈ known_collisions.
Proof.
  apply (requests_routed 0 client_endpoints 44 ClientRooms.kick_user.api kick example_origin).
  - left.
  - reflexivity.
  - exact kick_listed.
  - exact kick_wf.
  - exact example_base.
  - exact example_token.
Defined.


(** The token goes with a request that needs one; without one there is no request. *)
Lemma access_token_sent_witness :
  (∃ request, try_into_http_request kick "https://matrix.org/" (IfRequired "token") = Ok request ∧
     header_get "AUTHORIZATION" (rq_headers request) = Some "Bearer token") ∧
  try_into_http_request kick "https://matrix.org/" NoToken = Err NeedsAuthentication.
Proof.
  split.
  - apply (access_token_sent kick example_origin "https://matrix.org/" (IfRequired "token")).
    + exact kick_wf.
    + exact example_base.
    + exact example_token.
  - apply (access_token_sent kick example_origin "https://matrix.org/" NoToken).
    + exact kick_wf.
    + exact example_base.
    + reflexivity.
    + reflexivity.
Defined.

(** A state event with an empty state key *)
Definition name_event : send_state_event.Request := {|
  send_state_event.room_id := "!room:matrix.org";
  send_state_event.event_type := "m.room.name";
  send_state_event.state_key := "";
  send_state_event.body := JObject [("name", JString "a room")] |}.
Definition get_name : get_state_events_for_key.Request := {|
  get_state_events_for_key.room_id := "!room:matrix.org";
  get_state_events_for_key.event_type := from "m.room.name";
  get_state_events_for_key.state_key := "" |}.

Lemma state_request_round_trip_witness :
  ∃ request,
    send_state_event.try_into_http_request name_event "https://matrix.org/" (IfRequired "token")
      = Ok request ∧
    send_state_event.try_from_http_request request = Ok name_event ∧
    length (path_segments (uri_path (rq_uri request))) = 7.
Proof.
  destruct (state_request_round_trip name_event get_name example_origin "https://matrix.org/"
    (IfRequired "token") example_base) as [Hsend _].
  destruct (Hsend example_token) as (tok & _ & Hs & _).
  destruct Hs as (request & Hinto & Hfrom & _ & Hlen); [split_and!; reflexivity|].
  exists request. split; [exact Hinto|]. split; [exact Hfrom|exact Hlen].
Defined.

(** ** Reading a path parameter does not panic *)

Class PathNoPanic (p : path_field) : Prop := path_no_panic s : p_read p s ≠ Panic.

Lemma validate_id_no_panic s sigils : validate_id s sigils ≠ Panic.
Proof. unfold validate_id. by repeat case_match. Qed.

Lemma parse_id_no_panic s sigils : parse_id s sigils ≠ Panic.
Proof.
  unfold parse_id. pose proof (validate_id_no_panic s sigils).
  destruct (validate_id s sigils); simpl; [|done..].
  destruct (str_find ":" s) as [i|]; simpl; [|done].
  pose proof (server_name_validate_no_panic (str_drop (i + 1) s)).
  by destruct (server_name_validate _).
Qed.

Lemma delimited_no_panic s sigils : validate_delimited_id s sigils ≠ Panic.
Proof.
  unfold validate_delimited_id. pose proof (parse_id_no_panic s sigils).
  by destruct (parse_id s sigils).
Qed.

(** A validator that does not panic *)
Class NoPanic {A} (validate : string → outcome Error A) : Prop := no_panic s : validate s ≠ Panic.

#[export] Instance room_no_panic : NoPanic room_id_validate.
Proof. intros s. apply delimited_no_panic. Qed.
#[export] Instance alias_no_panic : NoPanic room_alias_id_validate.
Proof. intros s. apply delimited_no_panic. Qed.
#[export] Instance room_or_alias_no_panic : NoPanic room_id_or_alias_id_validate.
Proof. intros s. apply delimited_no_panic. Qed.
#[export] Instance server_no_panic : NoPanic server_name_validate.
Proof. intros s. apply server_name_validate_no_panic. Qed.
#[export] Instance event_no_panic : NoPanic event_id_validate.
Proof.
  intros s. unfold event_id_validate. destruct (str_contains ":" s); [|by case_match].
  pose proof (delimited_no_panic s ["$"%char]). by destruct (validate_delimited_id _ _).
Qed.
#[export] Instance user_no_panic : NoPanic user_id_validate.
Proof.
  intros s. unfold user_id_validate. pose proof (parse_id_no_panic s ["@"%char]).
  destruct (parse_id s _) as [i| |]; simpl; [|done..].
  unfold localpart_is_fully_conforming. by repeat case_match.
Qed.

#[export] Instance string_path_no_panic name : PathNoPanic (p_string name).
Proof. done. Qed.
#[export] Instance enum_path_no_panic name A `{StringEnum A} : PathNoPanic (p_enum name A).
Proof. done. Qed.
#[export] Instance id_path_no_panic name {A} (validate : string → outcome Error A) :
  NoPanic validate → PathNoPanic (p_id name (Identifiers.parse validate)).
Proof.
  intros Hv s. cbn [p_read p_id]. unfold Identifiers.parse. pose proof (Hv s).
  by destruct (validate s).
Qed.

(** ** The endpoints *)

Definition paths_no_panic (e : endpoint) : Prop :=
  ∀ p, p ∈ path_fields (ep_request e) → PathNoPanic p.

Ltac paths_ok :=
  lazymatch goal with
  | |- Forall _ [] => apply list.Forall_nil_2
  | |- Forall _ (_ :: _) => apply list.Forall_cons_2; [|paths_ok]
  end.
Ltac path_ok :=
  intros Hlabel p Hp; lazy [ep_request path_fields omap list_omap] in Hp;
  repeat (apply elem_of_cons in Hp as [->|Hp]; [first [apply _|by destruct Hlabel]|]);
  by apply elem_of_nil in Hp.

Section paths.
Context `{Unicode} `{JsonText} `{RawContent} `{JsInt} `{IndexSets} (now : Z).

Lemma generated_no_panic :
  Forall (λ e, label e ≠ "GET get_public_key" → paths_no_panic e) (generated_endpoints now).
Proof.
  unfold generated_endpoints. rewrite !Forall_app. split_and!.
  - unfold client_requests. paths_ok. all: path_ok.
  - unfold federation_endpoints. paths_ok. all: path_ok.
  - unfold identity_endpoints. paths_ok. all: path_ok.
  - unfold appservice_endpoints. paths_ok. all: path_ok.
  - unfold gateway_endpoints. paths_ok. all: path_ok.
Qed.
End paths.

(** ** Which segments are read *)

Section reading.
Context `{PercentEncoding}.

Lemma read_path_no_panic segments l :
  Forall (λ ip : nat * path_field, ip.1 < length segments ∧ PathNoPanic ip.2) l →
  read_path segments l ≠ Panic.
Proof.
  induction 1 as [|[i p] l [Hi Hp] _ IH]; [done|]. cbn [read_path].
  destruct (lookup_lt_is_Some_2 segments i Hi) as [s Hs]. rewrite Hs. cbn [unwrap mbind outcome_bind].
  destruct (valid_utf8 (percent_decode s)); [|discriminate]. 
  pose proof (Hp (percent_decode s) : p_read p (percent_decode s) ≠ Panic) as Hread.
  destruct (p_read p (percent_decode s)); cbn [mbind outcome_bind]; [|discriminate|done].
  by destruct (read_path segments l).
Qed.

Lemma read_path_panic segments (l : list (nat * path_field)) i rest :
  l.*1 = i :: rest → length segments ≤ i → read_path segments l = Panic.
Proof.
  destruct l as [|[i' p] l]; [done|]. csimpl. intros [= -> _] Hi. cbn [read_path].
  by rewrite lookup_ge_None_2.
Qed.

Lemma read_path_ext segments other (l : list (nat * path_field)) :
  (∀ i, i ∈ l.*1 → other !! i = segments !! i) → read_path other l = read_path segments l.
Proof.
  induction l as [|[i p] l IH]; [done|]. intros Hall. cbn [read_path].
  rewrite (Hall i) by (csimpl; left). rewrite IH; [done|].
  intros k Hk. apply Hall. csimpl. by right.
Qed.

Lemma path_var_indices e :
  LawfulEndpoint e → has_path_fields (ep_request e) = true →
  (path_vars (path (ep_metadata e)) (ep_request e)).*1 = (placeholders (path (ep_metadata e))).*1.
Proof.
  intros He Hp. apply path_vars_placeholders. intros var Hvar.
  pose proof le_expands as Hexp. unfold expands in Hexp. apply andb_true_iff in Hexp as [_ Hexp].
  by eapply path_expands_found.
Qed.
End reading.

(** C39: How the generated code reads the path of an incoming request, for every endpoint with
    path parameters (but for the one that reads a key ID). The empty path, and a path with no
    segment for the first parameter, make it panic; it does not panic when there is a segment for
    every parameter. The other segments are not looked at: two paths that agree in the segments
    of the parameters are read alike. *)
Theorem incoming_path_bounds `{Unicode} `{JsonText} `{RawContent} `{JsInt} `{IndexSets}
    `{PercentEncoding} now e request_path :
  e ∈ generated_endpoints now → label e ≠ "GET get_public_key" →
  has_path_fields (ep_request e) = true →
  let parse_path p := parse_request_path (ep_request e) p (path (ep_metadata e)) in
  let indices := (placeholders (path (ep_metadata e))).*1 in
  let segments := path_segments request_path in
  (request_path = "" ∨ (∃ i rest, indices = i :: rest ∧ length segments ≤ i) →
     parse_path request_path = Panic) ∧
  (request_path ≠ "" → Forall (λ i, i < length segments) indices →
     parse_path request_path ≠ Panic) ∧
  (∀ other, request_path ≠ "" → other ≠ "" →
     (∀ i, i ∈ indices → path_segments other !! i = segments !! i) →
     parse_path other = parse_path request_path).
Proof.
  intros He Hlabel Hp. pose proof (generated_lawful_elem now e He) as Hl.
  pose proof (generated_no_panic now) as Hno. rewrite list.Forall_forall in Hno.
  specialize (Hno e He Hlabel). pose proof (path_var_indices e Hl Hp) as Hvars.
  cbv zeta. rewrite <- Hvars. clear Hvars.
  set (l := path_vars (path (ep_metadata e)) (ep_request e)).
  assert (∀ p, p ≠ "" → parse_request_path (ep_request e) p (path (ep_metadata e)) =
    read_path (path_segments p) l) as Hparse by by intros [|].
  split_and!.
  - intros [-> |(i & rest & Hi & Hlen)]; [done|].
    destruct (decide (request_path = "")) as [->|Hne]; [done|]. rewrite Hparse by done.
    by apply (read_path_panic _ _ i rest).
  - intros Hne Hall. rewrite Hparse by done. apply read_path_no_panic.
    rewrite list.Forall_fmap in Hall. apply list.Forall_forall. intros ip Hip. split.
    + rewrite list.Forall_forall in Hall. by apply Hall.
    + apply Hno. by eapply path_vars_elem.
  - intros other Hne Hother Hall. rewrite !Hparse by done. by apply read_path_ext.
Qed.

(** A request path for another endpoint is read, and one that is too short is a panic. *)
Lemma incoming_path_bounds_witness :
  let parse_path p := parse_request_path (ep_request ClientRooms.kick_user.api) p
    (path (ep_metadata ClientRooms.kick_user.api)) in
  parse_path "/_matrix/client/r0/rooms" = Panic ∧
  parse_path "/_matrix/client/r0/rooms/e/ban" ≠ Panic ∧
  parse_path "/a/b/c/d/e/f" = parse_path "/_matrix/client/r0/rooms/e/ban".
Proof.
  pose proof (incoming_path_bounds 0 ClientRooms.kick_user.api "/_matrix/client/r0/rooms"
    kick_listed ltac:(discriminate) eq_refl) as (Hshort & _ & _).
  pose proof (incoming_path_bounds 0 ClientRooms.kick_user.api "/_matrix/client/r0/rooms/e/ban"
    kick_listed ltac:(discriminate) eq_refl) as (_ & Hok & Hother).
  assert ((placeholders (path (ep_metadata ClientRooms.kick_user.api))).*1 = [4]) as Hidx
    by (vm_compute; reflexivity).
  rewrite Hidx in Hshort, Hok, Hother. split; [|split].
  - apply Hshort. right. exists 4, []. split; [reflexivity|]. vm_compute. lia.
  - apply Hok; [discriminate|]. constructor; [vm_compute; lia|constructor].
  - apply Hother; [discriminate|discriminate|].
    intros i Hi. apply list_elem_of_singleton in Hi as ->. vm_compute. reflexivity.
Defined.
