(* ===== verification/RoomContents.v ===== *)
(** * Contents of room events

    The content structs of the message and state events of [ruma-events/src/call], [policy],
    [room] and [sticker.rs], and the families of them that the enums of [EventEnums] are over:
    which type has which content, and what is kept of it when the event is redacted. Contents
    that have a record elsewhere ([EventContents], [Events], [Messages]) keep it; the others are
    codecs. Default features. *)

From S2P Require Import Prelude RustStr RustNet IdValidation StringEnum Identifiers Json.
From S2P Require Import CanonicalJson SigningKeys Signing.
From S2P Require Import EventTypes EventContents Serde Codecs Events.
From S2P Require Import EventEnums EventsSpec EventEnumsSpec Messages MessageReply MessagesSpec.
From S2P Require Import UrlEncoded ApiTypes ClientTypes FederationTypes.
From Stdlib Require Import Ascii NArith.
Import EventContents.Membership.
Open Scope string_scope.
Open Scope nat_scope.
Open Scope list_scope.

(** [derive(EventContent)] for a type with a codec; [kept] takes over the fields that are marked
    [skip_redaction]. *)
Definition codec_content (ty : string) (c : codec) : EnumContent :=
  derived_content ty (enc c) (dec c).
Definition codec_content_keeping (ty : string) (c k : codec) (kept : ctype c → ctype k) :
    EnumContent :=
  derived_content_keeping ty (enc c) (dec c) kept (enc k) (dec k).

(** ** call.rs, call/*.rs *)

Module SessionDescriptionType.
Inductive SessionDescriptionType := Answer | Offer | Custom (s : string).

#[export] Instance SessionDescriptionType_eq_dec : EqDecision SessionDescriptionType.
Proof. solve_decision. Defined.

#[export, refine] Instance SessionDescriptionType_enum : StringEnum SessionDescriptionType := {|
  rename_all := SnakeCase;
  unit_variants := [("Answer", None, Answer); ("Offer", None, Offer)];
  custom := Custom;
  custom_inner c := match c with Custom s => Some s | _ => None end
|}.
Proof. all: string_enum_laws. Defined.
End SessionDescriptionType.
Export (hints) SessionDescriptionType.

Definition SessionDescription : codec := c_struct [
  req "type" (c_enum SessionDescriptionType.SessionDescriptionType);
  req "sdp" c_string].

Definition CallAnswerEventContent : codec := c_struct [
  req "answer" SessionDescription;
  req "call_id" c_string;
  req "version" c_uint].

Definition Candidate : codec := c_struct [
  req "candidate" c_string;
  req "sdpMid" c_string;
  req "sdpMLineIndex" c_uint].
Definition CallCandidatesEventContent : codec := c_struct [
  req "call_id" c_string;
  req "candidates" (c_list Candidate);
  req "version" c_uint].

Module Reason.
Inductive Reason := IceFailed | InviteTimeout | Custom (s : string).

#[export] Instance Reason_eq_dec : EqDecision Reason.
Proof. solve_decision. Defined.

#[export, refine] Instance Reason_enum : StringEnum Reason := {|
  rename_all := SnakeCase;
  unit_variants := [("IceFailed", None, IceFailed); ("InviteTimeout", None, InviteTimeout)];
  custom := Custom;
  custom_inner c := match c with Custom s => Some s | _ => None end
|}.
Proof. all: string_enum_laws. Defined.
End Reason.
Export (hints) Reason.

Definition CallHangupEventContent : codec := c_struct [
  req "call_id" c_string;
  req "version" c_uint;
  opt "reason" (c_enum Reason.Reason)].

Definition CallInviteEventContent : codec := c_struct [
  req "call_id" c_string;
  req "lifetime" c_uint;
  req "offer" SessionDescription;
  req "version" c_uint].

(** ** sticker.rs, with the [ImageInfo] of messages *)

Definition c_image_info : codec := c_of ImageInfo ImageInfo_wf.
#[export] Instance lawful_image_info : Lawful c_image_info.
Proof. intros x Hx. by apply ImageInfo_decodes. Qed.

Definition StickerEventContent : codec := c_struct [
  req "body" c_string;
  req "info" c_image_info;
  req "url" c_string].

(** ** policy/rule.rs, policy/rule/*.rs: newtypes of one struct *)

Module Recommendation.
Inductive Recommendation := Ban | Custom (s : string).

#[export] Instance Recommendation_eq_dec : EqDecision Recommendation.
Proof. solve_decision. Defined.

#[export, refine] Instance Recommendation_enum : StringEnum Recommendation := {|
  rename_all := RenameNone;
  unit_variants := [("Ban", Some "m.ban", Ban)];
  custom := Custom;
  custom_inner c := match c with Custom s => Some s | _ => None end
|}.
Proof. all: string_enum_laws. Defined.
End Recommendation.
Export (hints) Recommendation.

Definition PolicyRuleEventContent : codec := c_struct [
  req "entity" c_string;
  req "recommendation" (c_enum Recommendation.Recommendation);
  req "reason" c_string].

(** ** room/message.rs, room/message/feedback.rs *)

(** A content without relation comes back with the one that says nothing. *)
Definition RoomMessage_wf (c : RoomMessageEventContent) : Prop :=
  MessageType_wf (msgtype c) ∧ relation_wf (relates_to c) ∧ custom_apart c ∧ relates_to c ≠ None.
Definition c_room_message : codec := {|
  ctype := RoomMessageEventContent;
  enc := ser_RoomMessageEventContent;
  dec := de_RoomMessageEventContent;
  cwf := RoomMessage_wf
|}.
#[export] Instance lawful_room_message : Lawful c_room_message.
Proof.
  intros c (Hm & Hr & Hc & Hn). cbn [enc dec c_room_message].
  rewrite message_round_trip_lemma by done. by destruct c as [m [r|]].
Qed.

Module FeedbackType.
Inductive FeedbackType := Delivered | Read | Custom (s : string).

#[export] Instance FeedbackType_eq_dec : EqDecision FeedbackType.
Proof. solve_decision. Defined.

#[export, refine] Instance FeedbackType_enum : StringEnum FeedbackType := {|
  rename_all := SnakeCase;
  unit_variants := [("Delivered", None, Delivered); ("Read", None, Read)];
  custom := Custom;
  custom_inner c := match c with Custom s => Some s | _ => None end
|}.
Proof. all: string_enum_laws. Defined.
End FeedbackType.
Export (hints) FeedbackType.

Definition RoomMessageFeedbackEventContent : codec := c_struct [
  req "target_event_id" c_event_id;
  req "type" (c_enum FeedbackType.FeedbackType)].

(** ** room/encrypted.rs *)

Module Encrypted.
Definition CiphertextInfo : codec := c_struct [
  req "body" c_string;
  req "type" c_uint].
Definition OlmV1Curve25519AesSha2Content_fields : list sfield := [
  req "ciphertext" (c_map CiphertextInfo);
  req "sender_key" c_string].
Definition MegolmV1AesSha2Content_fields : list sfield := [
  req "ciphertext" c_string;
  req "sender_key" c_string;
  req "device_id" c_string;
  req "session_id" c_string].

Inductive EncryptedEventScheme :=
  | OlmV1Curve25519AesSha2 (content : fields_type OlmV1Curve25519AesSha2Content_fields)
  | MegolmV1AesSha2 (content : fields_type MegolmV1AesSha2Content_fields).

(** [serde(tag = "algorithm")]; an algorithm that is not one of the two is an error. *)
Definition EncryptedEventScheme_entries (scheme : EncryptedEventScheme) : list (string * json) :=
  match scheme with
  | OlmV1Curve25519AesSha2 content =>
      ("algorithm", JString "m.olm.v1.curve25519-aes-sha2") ::
      write_fields OlmV1Curve25519AesSha2Content_fields content
  | MegolmV1AesSha2 content =>
      ("algorithm", JString "m.megolm.v1.aes-sha2") ::
      write_fields MegolmV1AesSha2Content_fields content
  end.

Definition de_EncryptedEventScheme (entries : list (string * json)) :
    outcome () EncryptedEventScheme :=
  '(algorithm, rest) ← take_tag "algorithm" (JObject entries);
  if decide (algorithm = "m.olm.v1.curve25519-aes-sha2") then
    OlmV1Curve25519AesSha2 <$> de_struct OlmV1Curve25519AesSha2Content_fields rest
  else if decide (algorithm = "m.megolm.v1.aes-sha2") then
    MegolmV1AesSha2 <$> de_struct MegolmV1AesSha2Content_fields rest
  else Err ().

Definition EncryptedEventScheme_wf (scheme : EncryptedEventScheme) : Prop :=
  match scheme with
  | OlmV1Curve25519AesSha2 content => fields_wf OlmV1Curve25519AesSha2Content_fields content
  | MegolmV1AesSha2 content => fields_wf MegolmV1AesSha2Content_fields content
  end.

Definition flat_scheme : sfield :=
  flat_with ["algorithm"; "ciphertext"; "sender_key"; "device_id"; "session_id"]
    EncryptedEventScheme EncryptedEventScheme_entries de_EncryptedEventScheme
    EncryptedEventScheme_wf.

(** relation_serde.rs *)
Inductive Relation := Reply (in_reply_to : string) | Custom_.

Definition InReplyTo : codec := c_struct [req "event_id" c_event_id].
Definition RelatesToJsonRepr : codec := c_struct [opt "m.in_reply_to" InReplyTo].
Definition RelatesToJsonRepr_default : ctype RelatesToJsonRepr := (None, ()).
Definition RelatesToJsonRepr_is_empty : ctype RelatesToJsonRepr → bool :=
  skip_fields is_none skip_end.
Definition EventWithRelatesToJsonRepr_fields : list sfield := [
  dflt "m.relates_to" RelatesToJsonRepr RelatesToJsonRepr_default RelatesToJsonRepr_is_empty].

Definition convert_relation (ev : fields_type EventWithRelatesToJsonRepr_fields) : Relation :=
  match ev with
  | ((Some (event_id, _), _), _) => Reply event_id
  | ((None, _), _) => Custom_
  end.
Definition relation_repr (r : Relation) : fields_type EventWithRelatesToJsonRepr_fields :=
  match r with
  | Reply in_reply_to => ((Some (in_reply_to, ()), ()), ())
  | Custom_ => (RelatesToJsonRepr_default, ())
  end.

(** [flatten] of an [Option<Relation>]: what cannot be read is [None], and what is not there is
    the relation that says nothing. *)
Definition flat_relation : sfield := {|
  f_own := [];
  f_inner := ["m.relates_to"];
  f_type := option Relation;
  f_write o :=
    match o with
    | Some r => write_fields EventWithRelatesToJsonRepr_fields (relation_repr r)
    | None => []
    end;
  f_read _ _ rest :=
    try_ok (convert_relation <$> de_struct EventWithRelatesToJsonRepr_fields (JObject rest));
  f_wf o := ∃ r, o = Some r ∧ match r with Reply id => EventId_parse id = Ok id | Custom_ => True end
|}.

Definition RoomEncryptedEventContent : codec := c_struct [flat_scheme; flat_relation].
Definition ToDeviceRoomEncryptedEventContent : codec := c_struct [flat_scheme].

(** [From<message::Relation>] *)
Definition relation_from_message (rel : Messages.Relation) : Relation :=
  match rel with Messages.Reply in_reply_to => Reply in_reply_to | CustomRelation => Custom_ end.

Lemma take_tag_there entries tag t :
  NoDup entries.*1 → assoc tag entries = Some (JString t) →
  take_tag tag (JObject entries) = Ok (t, JObject (filter (λ kv, kv.1 ≠ tag) entries)).
Proof.
  intros Hnd Ht. unfold take_tag.
  assert (filter (λ kv, kv.1 = tag) entries = [(tag, JString t)]) as ->; [|done].
  induction entries as [|[k j] entries IH]; [done|]. apply list.NoDup_cons in Hnd as [Hk Hnd].
  rewrite assoc_cons in Ht. rewrite filter_cons. cbn [fst]. destruct (decide (k = tag)) as [->|Hne].
  - injection Ht as ->. f_equal. apply list_filter_none. intros [k' j'] Hin Hk'.
    simpl in Hk'. subst k'. apply Hk. by apply (list_elem_of_fmap_2 fst _ (tag, j')).
  - apply IH; done.
Qed.

(** The fields that follow a tag are read from what is left. *)
Lemma de_struct_tagged tag fs v entries :
  LawfulFields fs → DistinctKeys fs → FreshKey tag fs → fields_wf fs v → NoDup entries.*1 →
  (∀ k, k ∈ all_keys fs → assoc k entries = assoc k (write_fields fs v)) →
  de_struct fs (JObject (filter (λ kv, kv.1 ≠ tag) entries)) = Ok v.
Proof.
  intros Hfs Hd Htag Hv Hnd Hk. red in Htag. apply de_struct_reads; [done..| |].
  - eapply sublist_NoDup; [exact Hnd|]. apply fmap_sublist, sublist_filter.
  - intros k Hin. rewrite <- Hk by done.
    assert (k ≠ tag) as Hne by by intros ->. clear -Hne.
    induction entries as [|[k' j] entries IH]; [done|]. rewrite filter_cons, assoc_cons. cbn [fst].
    destruct (decide (k' ≠ tag)) as [Ht|Ht]; [by rewrite assoc_cons, IH|].
    rewrite IH, decide_False; [done|]. intros ->. by apply Ht.
Qed.

#[export] Instance lawful_flat_scheme : LawfulField flat_scheme.
Proof.
  assert (∀ fs v t, LawfulFields fs → DistinctKeys fs → FreshKey "algorithm" fs → fields_wf fs v →
    NoDup (("algorithm", JString t) :: write_fields fs v).*1) as Honce.
  { intros fs v t Hfs Hd Hf Hv. csimpl. apply list.NoDup_cons. split; [|by apply write_fields_once].
    by intros ?%(write_fields_keys fs v Hfs Hv). }
  split.
  - intros [v|v] _; repeat destruct v as [? v]; vm_compute; set_solver.
  - intros [v|v] Hv; apply Honce; try done; apply _.
  - intros own entries rest scheme Hwf _ Hnd _ Hin. cbn [f_read flat_scheme flat_with].
    unfold de_EncryptedEventScheme. destruct scheme as [v|v]; cbn [f_inner flat_scheme flat_with] in Hin.
    all: erewrite take_tag_there by (done || by rewrite Hin by by left).
    all: cbn [mbind outcome_bind]; repeat first [rewrite decide_False by done | rewrite decide_True by done].
    all: erewrite de_struct_tagged; [done|apply _..|exact Hwf|done|].
    all: intros k Hk; rewrite Hin; [cbn [f_write flat_scheme flat_with EncryptedEventScheme_entries];
           rewrite assoc_cons, decide_False; [done|]|].
    all: revert Hk; vm_compute; set_solver.
Qed.

#[export] Instance lawful_flat_relation : LawfulField flat_relation.
Proof.
  split.
  - intros o (r & -> & Hr). cbn [f_write flat_relation]. destruct r; vm_compute; set_solver.
  - intros o (r & -> & Hr). cbn [f_write flat_relation]. destruct r; vm_compute; decide_it.
  - intros own entries rest o (r & -> & Hr) _ Hnd _ Hin. cbn [f_read flat_relation].
    rewrite (de_struct_reads EventWithRelatesToJsonRepr_fields (relation_repr r)); [by destruct r|apply _..| |done|done].
    destruct r; simpl; repeat split; try done.
    intros ? [= <-]. by repeat split.
Qed.
End Encrypted.
Export (hints) Encrypted.

(** ** Types with decoders of their own *)

(** A type with a decoder of its own, which reads the fields that the codec declares. *)
Definition c_as (A : Type) (c : codec) (to : A → ctype c) (from : ctype c → A) (d : decoder A) :
    codec :=
  {| ctype := A; enc a := enc c (to a); dec := d; cwf a := cwf c (to a) |}.

Class Agrees {A} (c : codec) (from : ctype c → A) (d : decoder A) : Prop :=
  agrees j : d j = from <$> dec c j.

#[export] Instance lawful_as A c (to : A → ctype c) (from : ctype c → A) d :
  Lawful c → Inverse to from → Agrees c from d → Lawful (c_as A c to from d).
Proof.
  intros Hc Hi Hd a Ha. cbn [enc dec c_as]. rewrite (agrees (from:=from)), (Hc _ Ha). simpl.
  by rewrite (inverse a).
Qed.
#[export] Instance never_null_as A c (to : A → ctype c) (from : ctype c → A) d :
  NeverNull c → NeverNull (c_as A c to from d).
Proof. intros Hc a Ha. by apply (enc_not_null (c:=c)). Qed.

Ltac get_head t := lazymatch t with ?f _ => get_head f | _ => t end.

(** Both read one field after another from the same source. *)
Ltac same_fields :=
  intros j; cbn [dec c_struct]; unfold de_struct;
  match goal with |- context [has_flatten ?l] => change (has_flatten l) with false end;
  cbv iota zeta;
  match goal with |- context [Codecs.own_keys ?l] =>
    let k := eval vm_compute in (Codecs.own_keys l) in change (Codecs.own_keys l) with k
  end;
  match goal with |- ?lhs = _ => let d := get_head lhs in unfold d end;
  cbv zeta; destruct (struct_src _ j) as [src| |]; [|done..];
  cbn [mbind outcome_bind fmap outcome_fmap read_fields];
  repeat match goal with
  | |- mbind _ ?m = ?rhs =>
      match rhs with context [f_read ?f ?own ?src ?rest] => change (f_read f own src rest) with m end;
      destruct m; [|done..]; cbn [mbind outcome_bind fmap outcome_fmap]
  end;
  try reflexivity.
#[export] Hint Extern 1 (Agrees _ _ _) => same_fields : typeclass_instances.

(** ** Message contents *)

Definition message_codec (v : MessageVariant) : codec :=
  match v with
  | CallAnswer => CallAnswerEventContent
  | CallInvite => CallInviteEventContent
  | CallHangup => CallHangupEventContent
  | CallCandidates => CallCandidatesEventContent
  | RoomEncrypted => Encrypted.RoomEncryptedEventContent
  | RoomMessage => c_room_message
  | RoomMessageFeedback => RoomMessageFeedbackEventContent
  | Sticker => StickerEventContent
  end.

(** The type that a variant is declared with *)
Definition variant_type {V} `{EventEnumDecl V, EqDecision V} (v : V) : string :=
  default "" (fst ∘ snd <$> list_find (λ kv, kv.2 = v) event_types).

(** No message content keeps anything when it is redacted. *)
Definition message_contents (v : MessageVariant) : EnumContent :=
  codec_content (variant_type v) (message_codec v).

(** enums.rs: [AnyMessageEventContent::relation] *)
Definition relation (v : MessageVariant) : regular (message_contents v) → option Encrypted.Relation :=
  match v with
  | RoomEncrypted => λ '(_, (relates_to, _)), relates_to
  | RoomMessage => λ ev, Encrypted.relation_from_message <$> relates_to ev
  | _ => λ _, None
  end.

#[export] Instance message_codec_lawful v : Lawful (message_codec v).
Proof. destruct v; apply _. Qed.

(** ** room/avatar.rs, canonical_alias.rs, encryption.rs, guest_access.rs, ... *)

Definition c_thumbnail_info : codec := c_of ThumbnailInfo ThumbnailInfo_wf.
#[export] Instance lawful_thumbnail_info : Lawful c_thumbnail_info.
Proof. intros x Hx. by apply ThumbnailInfo_decodes. Qed.
#[export] Instance never_null_thumbnail_info : NeverNull c_thumbnail_info.
Proof. done. Qed.

Definition AvatarImageInfo : codec := c_struct [
  opt "h" c_uint;
  opt "w" c_uint;
  opt "mimetype" c_string;
  opt "size" c_uint;
  opt "thumbnail_info" c_thumbnail_info;
  opt "thumbnail_url" c_string].
Definition RoomAvatarEventContent : codec := c_struct [
  opt "info" AvatarImageInfo;
  req "url" c_string].

Definition RoomCanonicalAliasEventContent : codec := c_struct [
  opt_nonempty "alias" true RoomAliasId_parse;
  vec "alt_aliases" c_room_alias_id].

Definition RoomEncryptionEventContent : codec := c_struct [
  req "algorithm" (c_enum EventEncryptionAlgorithm.EventEncryptionAlgorithm);
  opt "rotation_period_ms" c_uint;
  opt "rotation_period_msgs" c_uint].

Module GuestAccess.
Inductive GuestAccess := CanJoin | Forbidden | Custom (s : string).

#[export] Instance GuestAccess_eq_dec : EqDecision GuestAccess.
Proof. solve_decision. Defined.

#[export, refine] Instance GuestAccess_enum : StringEnum GuestAccess := {|
  rename_all := SnakeCase;
  unit_variants := [("CanJoin", None, CanJoin); ("Forbidden", None, Forbidden)];
  custom := Custom;
  custom_inner c := match c with Custom s => Some s | _ => None end
|}.
Proof. all: string_enum_laws. Defined.
End GuestAccess.
Export (hints) GuestAccess.

Definition RoomGuestAccessEventContent : codec := c_struct [
  req "guest_access" (c_enum GuestAccess.GuestAccess)].

Module HistoryVisibility.
Inductive HistoryVisibility := Invited | Joined | Shared | WorldReadable | Custom (s : string).

#[export] Instance HistoryVisibility_eq_dec : EqDecision HistoryVisibility.
Proof. solve_decision. Defined.

#[export, refine] Instance HistoryVisibility_enum : StringEnum HistoryVisibility := {|
  rename_all := SnakeCase;
  unit_variants :=
    [("Invited", None, Invited); ("Joined", None, Joined); ("Shared", None, Shared);
     ("WorldReadable", None, WorldReadable)];
  custom := Custom;
  custom_inner c := match c with Custom s => Some s | _ => None end
|}.
Proof. all: string_enum_laws. Defined.
End HistoryVisibility.
Export (hints) HistoryVisibility.

Definition RoomHistoryVisibilityEventContent : codec := c_struct [
  req "history_visibility" (c_enum HistoryVisibility.HistoryVisibility)].

(** [None] is written as [null]; the empty name is read as [None]. *)
Definition RoomNameEventContent : codec := c_struct [opt_nonempty "name" false RoomName_parse].
Definition RoomPinnedEventsEventContent : codec := c_struct [req "pinned" (c_list c_event_id)].
Definition RoomServerAclEventContent : codec := c_struct [
  dflt "allow_ip_literals" c_bool true (λ b, b);
  vec "allow" c_string;
  vec "deny" c_string].
Definition RoomTombstoneEventContent : codec := c_struct [
  req "body" c_string;
  req "replacement_room" c_room_id].
Definition RoomTopicEventContent : codec := c_struct [req "topic" c_string].

(** room/aliases.rs, whose content is in [Events] *)
Definition c_aliases : codec := c_as RoomAliasesEventContent
  (c_struct [req "aliases" (c_list c_room_alias_id)])
  (λ c, (aliases c, ())) (λ '(aliases, _), {| aliases := aliases |})
  de_RoomAliasesEventContent.

(** ** Contents whose records are in [EventContents] *)

(** room/create.rs *)
Definition c_previous_room : codec := c_as PreviousRoom
  (c_struct [req "room_id" c_room_id; req "event_id" c_event_id])
  (λ r, (pr_room_id r, (pr_event_id r, ())))
  (λ '(room_id, (event_id, _)), {| pr_room_id := room_id; pr_event_id := event_id |})
  de_PreviousRoom.

Definition c_create : codec := c_as RoomCreateEventContent
  (c_struct [
     req "creator" c_user_id;
     dflt "m.federate" c_bool true (λ b, b);
     dflt_written "room_version" c_room_version_id default_room_version_id;
     opt "predecessor" c_previous_room])
  (λ c, (creator c, (federate c, (room_version c, (predecessor c, ())))))
  (λ '(creator, (federate, (room_version, (predecessor, _)))),
     {| creator := creator; federate := federate; room_version := room_version;
        predecessor := predecessor |})
  de_RoomCreateEventContent.
Definition RedactedRoomCreateEventContent : codec := c_struct [req "creator" c_user_id].

(** room/third_party_invite.rs *)
Definition c_public_key : codec := c_as PublicKey
  (c_struct [opt "key_validity_url" c_string; req "public_key" c_string])
  (λ k, (pk_key_validity_url k, (pk_public_key k, ())))
  (λ '(url, (key, _)), {| pk_key_validity_url := url; pk_public_key := key |})
  de_PublicKey.

Definition c_third_party_invite : codec := c_as RoomThirdPartyInviteEventContent
  (c_struct [
     req "display_name" c_string;
     req "key_validity_url" c_string;
     req "public_key" c_string;
     opt "public_keys" (c_list c_public_key)])
  (λ c, (tpe_display_name c, (tpe_key_validity_url c, (tpe_public_key c, (tpe_public_keys c, ())))))
  (λ '(display_name, (url, (key, (keys, _)))),
     {| tpe_display_name := display_name; tpe_key_validity_url := url;
        tpe_public_key := key; tpe_public_keys := keys |})
  de_RoomThirdPartyInviteEventContent.

(** room/join_rules.rs: a tagged enum that is flattened; its custom variant is not written. *)
Definition JoinRule_entries (r : JoinRule) : list (string * json) :=
  [("join_rule", JString (JoinRule_as_str r))].
Definition JoinRule_wf (r : JoinRule) : Prop :=
  match r with JoinRule_Custom _ => False | _ => True end.

Definition c_join_rules : codec := {|
  ctype := RoomJoinRulesEventContent;
  enc c := JObject (JoinRule_entries (join_rule c));
  dec := de_RoomJoinRulesEventContent;
  cwf c := JoinRule_wf (join_rule c)
|}.

(** The redacted content has the same field with the same attributes, but the [Deserialize] that
    [derive] gives it: [JoinRule] asks the deserializer of a flattened field for a [RawValue],
    which such a deserializer does not give. *)
Definition de_RedactedRoomJoinRulesEventContent : decoder RoomJoinRulesEventContent := λ j,
  _ ← flat_src [] j; Err ().
Definition c_redacted_join_rules : codec := {|
  ctype := RoomJoinRulesEventContent;
  enc c := JObject (JoinRule_entries (join_rule c));
  dec := de_RedactedRoomJoinRulesEventContent;
  cwf _ := False
|}.

(** room/power_levels.rs *)
Definition c_notification_levels : codec := c_as NotificationPowerLevels
  (c_struct [dflt_written "room" c_int default_power_level])
  (λ n, (room n, ())) (λ '(room, _), {| room := room |})
  de_NotificationPowerLevels.

Definition level (name : string) : sfield :=
  dflt name c_int default_power_level is_default_power_level.
Definition level_zero (name : string) : sfield := dflt name c_int 0%Z (λ z, bool_decide (z = 0%Z)).
Definition event_levels : sfield := dflt "events" (c_key_map EventType as_ref key_enum c_int) ∅ map_is_empty.

Definition c_power_levels : codec := c_as RoomPowerLevelsEventContent
  (c_struct [
     level "ban"; event_levels; level_zero "events_default"; level "invite"; level "kick";
     level "redact"; level "state_default"; id_map "users" UserId_parse c_int;
     level_zero "users_default";
     dflt "notifications" c_notification_levels NotificationPowerLevels_new
       (λ n, bool_decide (n = NotificationPowerLevels_new))])
  (λ c, (ban c, (events c, (events_default c, (invite c, (kick c, (redact c, (state_default c,
     (users c, (users_default c, (notifications c, ())))))))))))
  (λ '(ban, (events, (events_default, (invite, (kick, (redact, (state_default,
     (users, (users_default, (notifications, _)))))))))),
     {| ban := ban; events := events; events_default := events_default; invite := invite;
        kick := kick; redact := redact; state_default := state_default; users := users;
        users_default := users_default; notifications := notifications |})
  de_RoomPowerLevelsEventContent.

(** All levels but those for invites and notifications are kept. *)
Definition RedactedRoomPowerLevelsEventContent : codec := c_struct [
  level "ban"; event_levels; level_zero "events_default"; level "kick"; level "redact";
  level "state_default"; id_map "users" UserId_parse c_int; level_zero "users_default"].

#[export] Instance is_default_level : SkipsDefault default_power_level is_default_power_level.
Proof. intros z. apply bool_decide_eq_true. Qed.

(** room/member.rs *)
Section member.
Context `{Unicode}.

Definition c_signed_content : codec := c_as EventContents.SignedContent
  (c_struct [
     req "mxid" c_user_id;
     req "signatures" (c_id_map ServerName_parse (c_id_map SigningKeyId_parse c_string));
     req "token" c_string])
  (λ s, (mxid s, (signatures s, (token s, ()))))
  (λ '(mxid, (signatures, (token, _))),
     {| mxid := mxid; signatures := signatures; token := token |})
  de_SignedContent.
Definition c_member_invite : codec := c_as EventContents.ThirdPartyInvite
  (c_struct [
     req "display_name" c_string;
     req "signed" c_signed_content])
  (λ i, (tpi_display_name i, (signed i, ())))
  (λ '(display_name, (signed, _)), {| tpi_display_name := display_name; signed := signed |})
  de_ThirdPartyInvite.
Definition c_member : codec := c_as RoomMemberEventContent
  (c_struct [
     opt "avatar_url" c_string;
     opt "displayname" c_string;
     opt "is_direct" c_bool;
     req "membership" (c_enum MembershipState);
     opt "third_party_invite" c_member_invite])
  (λ c, (avatar_url c, (displayname c, (is_direct c, (membership c, (third_party_invite c, ()))))))
  (λ '(avatar_url, (displayname, (is_direct, (membership, (invite, _))))),
     {| avatar_url := avatar_url; displayname := displayname; is_direct := is_direct;
        membership := membership; third_party_invite := invite |})
  de_RoomMemberEventContent.
Definition c_redacted_member : codec := c_via RedactedRoomMemberEventContent
  (c_struct [req "membership" (c_enum MembershipState)])
  (λ c, (redacted_membership c, ()))
  (λ '(membership, _), {| redacted_membership := membership |}).
(** [membership_change] of a full, of a sync and of a stripped event, which has no previous
    content *)
Definition RoomMemberEvent_membership_change
    (self : Event StateEvent RoomMemberEventContent Unsigned) : MembershipChange :=
  membership_change (content self) (prev_content self) (sender self) (state_key self).
Definition SyncRoomMemberEvent_membership_change
    (self : Event SyncStateEvent RoomMemberEventContent Unsigned) : MembershipChange :=
  membership_change (content self) (prev_content self) (sender self) (state_key self).
Definition StrippedRoomMemberEvent_membership_change
    (self : Event StrippedStateEvent RoomMemberEventContent Unsigned) : MembershipChange :=
  membership_change (content self) None (sender self) (state_key self).

Lemma membership_change_full_sync (e : Event SyncStateEvent RoomMemberEventContent Unsigned) id :
  RoomMemberEvent_membership_change (into_full_event (s:=SyncStateEvent) e id) =
  SyncRoomMemberEvent_membership_change e.
Proof. done. Qed.
End member.

(** ** State contents *)

Section state.
Context `{Unicode}.

(** The redacted content of a member event is written by hand: an absent content counts as an
    empty one. *)
Definition member_content : EnumContent :=
  {| regular := RoomMemberEventContent;
     redacted := RedactedRoomMemberEventContent;
     regular_content :=
       {| event_type _ := "m.room.member"; ser_content := enc c_member;
          from_parts := from_parts_as "m.room.member" (dec c_member) |};
     redacted_content :=
       {| event_type _ := "m.room.member"; ser_content := enc c_redacted_member;
          from_parts := from_parts_as "m.room.member" (dec c_redacted_member) |};
     redacted_traits :=
       {| empty _ := Err (); has_serialize_fields _ := true;
          has_deserialize_fields := HDF_Optional |};
     redact_traits := redact_member |}.

Definition state_contents (v : StateVariant) : EnumContent :=
  let ty := variant_type v in
  match v with
  | PolicyRuleRoom | PolicyRuleServer | PolicyRuleUser => codec_content ty PolicyRuleEventContent
  | RoomAliases => aliases_content
  | RoomAvatar => codec_content ty RoomAvatarEventContent
  | RoomCanonicalAlias => codec_content ty RoomCanonicalAliasEventContent
  | RoomCreate =>
      codec_content_keeping ty c_create RedactedRoomCreateEventContent (λ c, (creator c, ()))
  | RoomEncryption => codec_content ty RoomEncryptionEventContent
  | RoomGuestAccess => codec_content ty RoomGuestAccessEventContent
  | RoomHistoryVisibility =>
      codec_content_keeping ty RoomHistoryVisibilityEventContent RoomHistoryVisibilityEventContent id
  | RoomJoinRules => codec_content_keeping ty c_join_rules c_redacted_join_rules id
  | RoomMember => member_content
  | RoomName => codec_content ty RoomNameEventContent
  | RoomPinnedEvents => codec_content ty RoomPinnedEventsEventContent
  | RoomPowerLevels =>
      codec_content_keeping ty c_power_levels RedactedRoomPowerLevelsEventContent
        (λ c, (ban c, (events c, (events_default c, (kick c, (redact c, (state_default c,
               (users c, (users_default c, ())))))))))
  | RoomServerAcl => codec_content ty RoomServerAclEventContent
  | RoomThirdPartyInvite => codec_content ty c_third_party_invite
  | RoomTombstone => codec_content ty RoomTombstoneEventContent
  | RoomTopic => codec_content ty RoomTopicEventContent
  end.

(** The values that the content types have *)
Definition state_wf (v : StateVariant) : regular (state_contents v) → Prop :=
  match v with
  | PolicyRuleRoom | PolicyRuleServer | PolicyRuleUser => cwf PolicyRuleEventContent
  | RoomAliases => cwf c_aliases
  | RoomAvatar => cwf RoomAvatarEventContent
  | RoomCanonicalAlias => cwf RoomCanonicalAliasEventContent
  | RoomCreate => cwf c_create
  | RoomEncryption => cwf RoomEncryptionEventContent
  | RoomGuestAccess => cwf RoomGuestAccessEventContent
  | RoomHistoryVisibility => cwf RoomHistoryVisibilityEventContent
  | RoomJoinRules => cwf c_join_rules
  | RoomMember => cwf c_member
  | RoomName => cwf RoomNameEventContent
  | RoomPinnedEvents => cwf RoomPinnedEventsEventContent
  | RoomPowerLevels => cwf c_power_levels
  | RoomServerAcl => cwf RoomServerAclEventContent
  | RoomThirdPartyInvite => cwf c_third_party_invite
  | RoomTombstone => cwf RoomTombstoneEventContent
  | RoomTopic => cwf RoomTopicEventContent
  end.

Definition message_wf (v : MessageVariant) : regular (message_contents v) → Prop :=
  cwf (message_codec v).

(** ** Contents are read back *)

Lemma codec_content_reads ty c (x : ctype c) :
  Lawful c → cwf c x → content_reads (C:=regular (codec_content ty c)) x.
Proof.
  intros Hc Hx. unfold content_reads. simpl. unfold from_parts_as.
  by rewrite decide_False, (Hc x Hx) by (intros Hty; by apply Hty).
Qed.

Lemma codec_content_keeping_reads ty c k kept (x : ctype c) :
  Lawful c → cwf c x → content_reads (C:=regular (codec_content_keeping ty c k kept)) x.
Proof. exact (codec_content_reads ty c x). Qed.

Lemma codec_content_keeping_redacts ty c k kept (x : ctype c) :
  Lawful k → cwf k (kept x) → redacts_readably (c:=codec_content_keeping ty c k kept) x.
Proof.
  intros Hk Hx version. apply (derived_content_keeping_reads ty (enc c) (dec c) kept). by apply Hk.
Qed.

#[export] Instance lawful_join_rules : Lawful c_join_rules.
Proof. by intros [[]] Hx. Qed.

Lemma message_reads v x : message_wf v x → content_reads x.
Proof. intros Hx. by apply codec_content_reads; [apply _|]. Qed.

Lemma state_reads v x : state_wf v x → content_reads x.
Proof.
  destruct v; intros Hx.
  all: first [by apply codec_content_reads; [apply _|]
             |by apply codec_content_keeping_reads; [apply _|]|idtac].
  - exact (codec_content_reads "m.room.aliases" c_aliases x _ Hx).
  - exact (codec_content_reads "m.room.member" c_member x _ Hx).
Qed.

Lemma message_redacts v (x : regular (message_contents v)) : redacts_readably x.
Proof. apply derived_content_redacts. Qed.

Lemma state_redacts v x : state_wf v x → v ≠ RoomJoinRules → redacts_readably x.
Proof.
  destruct v; intros Hx Hv.
  1-3, 5-6, 8-9, 13-14, 16-19: exact (derived_content_redacts _ _ _ x).
  - by apply aliases_content_redacts, (state_reads RoomAliases).
  - apply codec_content_keeping_redacts; [apply _|]. by destruct Hx.
  - by apply codec_content_keeping_redacts; [apply _|].
  - done.
  - intros version. destruct Hx as (_ & _ & _ & Hm & _).
    exact (dec_enc (c:=c_redacted_member) (redact_member x version) (conj Hm I)).
  - apply codec_content_keeping_redacts; [apply _|].
    destruct Hx as (H1 & H2 & H3 & _ & H4 & H5 & H6 & H7 & H8 & _).
    exact (conj H1 (conj H2 (conj H3 (conj H4 (conj H5 (conj H6 (conj H7 (conj H8 I)))))))).
Qed.

(** ** The families are those of their types *)

Lemma room_contents_lawful : lawful_contents message_contents state_contents.
Proof.
  split; intros ty v Hin%assoc_Some_elem%list_elem_of_In; simpl in Hin;
    repeat destruct Hin as [[= <- <-]|Hin]; try done; by split.
Qed.
End state.

(** ** Room events with these contents *)

Section theorems.
Context `{Unicode}.

Definition custom_wf (x : CustomEventContent) : Prop := map_Forall (λ _, is_value) (data x).

(** Valid regular events: fields and contents have values of their types, and a custom event is
    not of a declared type. *)
Definition room_event_valid {sync} (e : AnyRoomEvent message_contents state_contents sync) : Prop :=
  match e with
  | Message (AnyMessage (Known v e)) => wf_event e ∧ message_wf v (content e)
  | Message (AnyMessage (EventEnums.Custom e)) =>
      wf_event e ∧ custom_wf (content e) ∧
      assoc (custom_type (content e)) (event_types (V:=MessageVariant)) = None ∧
      custom_type (content e) ≠ "m.room.redaction"
  | Message (RoomRedaction e) => wf_event e
  | State (Known v e) =>
      wf_event e ∧ state_wf v (content e) ∧
      ∀ p, cond_get (prev_content e) = Some (Some p) → state_wf v p
  | State (EventEnums.Custom e) =>
      wf_event e ∧ custom_wf (content e) ∧
      assoc (custom_type (content e)) (event_types (V:=StateVariant)) = None ∧
      ∀ p, cond_get (prev_content e) = Some (Some p) →
        custom_wf p ∧ custom_type p = custom_type (content e)
  | RedactedMessage _ | RedactedState _ => False
  end.

Definition is_join_rules {sync} (e : AnyRoomEvent message_contents state_contents sync) : bool :=
  match e with State (Known v _) => bool_decide (v = RoomJoinRules) | _ => false end.

Lemma custom_content_reads (x : CustomEventContent) : custom_wf x → content_reads x.
Proof.
  intros Hx. unfold content_reads. cbn [from_parts ser_content Custom_content].
  rewrite de_ser_JsonObject by done. by destruct x.
Qed.

Lemma message_no_prev {sync c} (e : RoomEvent KMessage sync false c) :
  cond_get (prev_content e) = None.
Proof. apply cond_get_false. by destruct sync. Qed.

Lemma room_event_valid_ok {sync} (e : AnyRoomEvent message_contents state_contents sync) :
  room_event_valid e → AnyRoomEvent_ok _ _ e.
Proof.
  destruct room_contents_lawful as [_ Hs].
  destruct e as [[[v e|e]|e]|[v e|e]|e|e]; try done; cbn [room_event_valid AnyRoomEvent_ok].
  - intros [Hwf Hc]. split; [|done]. split; [done|]. split; [by apply message_reads|].
    intros p Hp. by rewrite message_no_prev in Hp.
  - intros (Hwf & Hc & Hty & Hne). split; [|done]. split; [|done]. split; [done|].
    split; [by apply custom_content_reads|]. intros p Hp. by rewrite message_no_prev in Hp.
  - intros Hwf. split; [|done]. split; [done|]. split; [apply RoomRedactionEventContent_reads|].
    intros p Hp. assert (cond_get (prev_content e) = None) as Hn by by apply cond_get_false; destruct sync.
    by rewrite Hn in Hp.
  - intros (Hwf & Hc & Hp). split; [|done]. split; [done|]. split; [by apply state_reads|].
    intros p Hpp. destruct (declared v) as (ty & Hty & _).
    split; [|by apply state_reads, Hp]. by rewrite !(type_of_law ty _ false _ (Hs ty v Hty)).
  - intros (Hwf & Hc & Hty & Hp). split; [|done]. split; [|done]. split; [done|].
    split; [by apply custom_content_reads|]. intros p Hpp. destruct (Hp p Hpp) as [Hw Ht].
    split; [done|]. by apply custom_content_reads.
Qed.

Lemma room_event_redacts_readably {sync} (e : AnyRoomEvent message_contents state_contents sync) :
  room_event_valid e → is_join_rules e = false → AnyRoomEvent_redacts_readably _ _ e.
Proof.
  destruct e as [[[v e|e]|e]|[v e|e]|e|e]; try done; cbn [room_event_valid is_join_rules].
  - intros _ _. apply message_redacts.
  - intros (_ & Hc & _) Hv%bool_decide_eq_false. by apply (state_redacts v).
Qed.

(** C22: Every valid message or state event, of every type that the code knows or of a custom one,
    in full or sync form, is read back from its JSON; so is its redacted form, in every room
    version, unless it is a redaction event or sets the join rules. *)
Theorem room_event_round_trip {sync} (e : AnyRoomEvent message_contents state_contents sync)
    redaction version :
  room_event_valid e → wf_event redaction →
  let e' := AnyRoomEvent_from _ _ (redact_AnyRoomEvent _ _ e redaction version) in
  de_AnyRoomEvent _ _ sync (ser_AnyRoomEvent _ _ e) = Ok e ∧
  (redaction_message _ _ e = false → is_join_rules e = false →
   de_AnyRoomEvent _ _ sync (ser_AnyRoomEvent _ _ e') = Ok e').
Proof.
  intros He Hr e'. pose proof (room_event_valid_ok e He) as Hok.
  destruct room_contents_lawful as [Hm Hs]. split.
  - by apply AnyRoomEvent_round_trip_lemma.
  - intros Hn Hj. apply redact_AnyRoomEvent_reads; [by split|done..|].
    by apply room_event_redacts_readably.
Qed.
(** ** What redaction keeps *)

Lemma assoc_filter_in {A} (ks : list string) (l : list (string * A)) key :
  assoc key (filter (λ kv, kv.1 ∈ ks) l) = if decide (key ∈ ks) then assoc key l else None.
Proof.
  induction l as [|[k a] l IH]; [by case_decide|]. rewrite filter_cons. simpl.
  destruct (decide (k ∈ ks)) as [Hk|Hk]; rewrite !assoc_cons, ?IH.
  - destruct (decide (k = key)) as [<-|]; [by rewrite decide_True|done].
  - destruct (decide (k = key)) as [<-|]; [by rewrite !decide_False|done].
Qed.

(** The entries of the fields of a struct, one by one *)
Lemma filter_written (ks : list string) name (j : json) l :
  filter (λ kv, kv.1 ∈ ks) ((name, j) :: l) =
  (if decide (name ∈ ks) then [(name, j)] else []) ++ filter (λ kv, kv.1 ∈ ks) l.
Proof. rewrite filter_cons. simpl. by case_decide. Qed.

Lemma filter_unless (ks : list string) (skip : bool) name (j : json) :
  filter (λ kv, kv.1 ∈ ks) (if skip then [] else [(name, j)]) =
  if decide (name ∈ ks) then if skip then [] else [(name, j)] else [].
Proof. destruct skip; [by case_decide|]. rewrite filter_written. by case_decide. Qed.

Lemma filter_skip_none {A} (ks : list string) name (f : A → json) o :
  filter (λ kv, kv.1 ∈ ks) (skip_none name f o) =
  if decide (name ∈ ks) then skip_none name f o else [].
Proof.
  destruct o; [|by case_decide]. cbn [skip_none]. rewrite filter_written. by case_decide.
Qed.

(** [kept] is the content, but for the entries of other names. *)
Definition keeps_only (ks : list string) (kept content : json) : Prop :=
  ∀ key, json_get key kept = if decide (key ∈ ks) then json_get key content else None.

Lemma keeps_entries ks l l' : l' = filter (λ kv, kv.1 ∈ ks) l → keeps_only ks (JObject l') (JObject l).
Proof. intros -> key. apply assoc_filter_in. Qed.

Ltac keeps_fields :=
  apply keeps_entries; cbn -[enc filter skip_none is_default_power_level bool_decide map_is_empty];
  repeat first [rewrite list.filter_app | rewrite filter_unless | rewrite filter_skip_none
               | rewrite filter_written];
  reflexivity.

(** What a redacted state content writes is what ruma-signatures keeps of the content. *)
Definition content_kept (ty : string) (version : RoomVersionId) (after : option json)
    (before : json) : Prop :=
  ∀ key, after ≫= json_get key =
    if decide (key ∈ allowed_content_keys_for ty version) then json_get key before else None.

Lemma content_kept_only ks ty version after before :
  allowed_content_keys_for ty version = ks → keeps_only ks after before →
  content_kept ty version (Some after) before.
Proof. intros <- Hk key. apply Hk. Qed.

Lemma nothing_kept ty version before :
  allowed_content_keys_for ty version = [] → content_kept ty version None before.
Proof. intros Hty key. by rewrite Hty, decide_False by apply not_elem_of_nil. Qed.

Lemma state_content_kept v (x : regular (state_contents v)) version :
  content_kept (variant_type v) version
    (written_content true (redact_content x version : redacted (state_contents v)))
    (ser_content x).
Proof.
  destruct v.
  1-3, 5-6, 8-9, 13-14, 16-19: by apply nothing_kept.
  - destruct x as [l], version.
    1-5: by apply (content_kept_only ["aliases"]); [|keeps_fields].
    all: by apply nothing_kept.
  - apply (content_kept_only ["creator"]); [done|keeps_fields].
  - destruct x as [h []]. apply (content_kept_only ["history_visibility"]); [done|keeps_fields].
  - apply (content_kept_only ["join_rule"]); [done|keeps_fields].
  - apply (content_kept_only ["membership"]); [done|keeps_fields].
  - apply (content_kept_only ["ban"; "events"; "events_default"; "kick"; "redact";
      "state_default"; "users"; "users_default"]); [done|keeps_fields].
Qed.

Lemma message_content_kept v (x : regular (message_contents v)) version :
  content_kept (variant_type v) version
    (written_content true (redact_content x version : redacted (message_contents v)))
    (ser_content x).
Proof. destruct v; by apply nothing_kept. Qed.

(** The JSON of an event and of its redacted form, entry by entry: unsigned data aside, [after]
    has the entries of [before] that ruma-signatures keeps in a redacted event, its content has
    the entries of the content with a name in [ks], and the unsigned data is the redaction. *)
Definition redacted_json (ks : list string) (redaction : SyncRedaction) (before after : json) :
    Prop :=
  (∀ key, key ∉ ["content"; "unsigned"] → json_get key after =
     if decide (key ∈ ALLOWED_KEYS) then json_get key before else None) ∧
  (∀ key, json_get "content" after ≫= json_get key =
     if decide (key ∈ ks) then json_get "content" before ≫= json_get key else None) ∧
  json_get "unsigned" after = Some (JObject [("redacted_because", ser_Event redaction)]).

Lemma redact_RoomEvent_json {k sync c} (e : RoomEvent k sync false c) redaction version ty ks :
  event_type (content e) = ty →
  event_type (redact_content (content e) version : redacted c) = ty →
  (∀ key, written_content true (redact_content (content e) version : redacted c) ≫= json_get key =
     if decide (key ∈ ks) then json_get key (ser_content (content e)) else None) →
  json_get "type" (ser_RoomEvent e) = Some (JString ty) ∧
  redacted_json ks redaction (ser_RoomEvent e)
    (ser_RoomEvent (redact_RoomEvent e redaction version)).
Proof.
  intros Hty Hty' Hks.
  destruct (redact_RoomEvent_get e redaction version) as (T & T' & Hc & Hc' & Hid & Hu & Hno).
  rewrite Hty in T. split; [exact T|]. split; [|split; [|exact Hu]].
  - intros key Hkey. destruct (decide (key = "type")) as [->|Hn].
    { rewrite decide_True by decide_it. by rewrite T, T', Hty'. }
    destruct (decide (key ∈ ["event_id"; "sender"; "origin_server_ts"; "room_id"; "state_key"]))
      as [Hin|Hout].
    { rewrite (Hid key Hin), decide_True; [done|]. unfold ALLOWED_KEYS. set_solver. }
    destruct (Hno key) as [-> Hnone]; [set_solver..|]. case_decide as Hkeep; [|done].
    rewrite Hnone; [done|]. unfold ALLOWED_KEYS in Hkeep. set_solver.
  - intros key. rewrite Hc', Hc. apply Hks.
Qed.

Definition is_redacted_event {sync} (e : AnyRoomEvent message_contents state_contents sync) : bool :=
  match e with RedactedMessage _ | RedactedState _ => true | _ => false end.
Definition is_custom_event {sync} (e : AnyRoomEvent message_contents state_contents sync) : bool :=
  match e with
  | Message (AnyMessage (EventEnums.Custom _)) | State (EventEnums.Custom _) => true
  | _ => false
  end.

(** C24: The redaction of a room event of any type, compared with what ruma-signatures makes of its
    JSON: unsigned data aside, the redacted event is written with the entries of the event that
    [redact] of ruma-signatures keeps, with the same values, and no other; its content has the
    entries that are kept for its type and the room version, and no other; the unsigned data
    is the redaction. The content of a custom event is dropped. A redacted event stays as it
    is. If the event is valid, neither a redaction event nor one that sets the join rules, its
    redacted form is read back as the redacted event. *)
Theorem redact_AnyRoomEvent_spec {sync} (e : AnyRoomEvent message_contents state_contents sync)
    redaction version :
  let e' := AnyRoomEvent_from _ _ (redact_AnyRoomEvent _ _ e redaction version) in
  let before := ser_AnyRoomEvent _ _ e in
  let after := ser_AnyRoomEvent _ _ e' in
  (is_redacted_event e = true → e' = e) ∧
  (is_redacted_event e = false → ∃ ty, json_get "type" before = Some (JString ty) ∧
     redacted_json (if is_custom_event e then [] else allowed_content_keys_for ty version)
       redaction before after) ∧
  (room_event_valid e → wf_event redaction → redaction_message _ _ e = false →
   is_join_rules e = false → de_AnyRoomEvent _ _ sync after = Ok e').
Proof.
  cbv zeta. split; [by destruct e|]. split.
  - intros Hreg. destruct e as [[[v e|e]|e]|[v e|e]|e|e]; try done; eexists;
      apply redact_RoomEvent_json; try reflexivity.
    + assert (event_type (content e) = variant_type v) as -> by by destruct v.
      apply message_content_kept.
    + by destruct v.
    + assert (event_type (content e) = variant_type v) as -> by by destruct v.
      apply state_content_kept.
  - intros He Hr Hn Hj. destruct room_contents_lawful as [Hm Hs].
    apply redact_AnyRoomEvent_reads; [by split|by apply room_event_valid_ok|done..|].
    by apply room_event_redacts_readably.
Qed.

(** A struct whose content is never read is never read. *)
Lemma de_event_no_content {s C U} `{UnsignedData U} rc rp j :
  (∀ ty content, rc ty content = Err ()) → de_event (C:=C) (U:=U) rc rp s j = Err ().
Proof.
  intros Hrc. unfold de_event. destruct j; try done. case_decide; [|done].
  destruct (assoc "type" _) as [t|]; [|done]. destruct t; try done. cbn [de_string mbind outcome_bind].
  by rewrite Hrc.
Qed.

Lemma redacted_join_rules_content ty content :
  read_redacted (C:=redacted (state_contents RoomJoinRules)) ty content = Err ().
Proof.
  unfold read_redacted. cbn [has_deserialize_fields redacted_traits state_contents
    codec_content_keeping derived_content_keeping].
  destruct content as [j|]; [|done]. cbn [ok_or mbind outcome_bind from_parts redacted_content
    state_contents codec_content_keeping derived_content_keeping]. unfold from_parts_as.
  case_decide; [done|]. destruct j; try done. cbn. by case_decide.
Qed.

(** No redacted event that sets the join rules is ever read, from whatever JSON: in
    particular the redaction of such an event, which is written like any other, is not. *)
Theorem redacted_join_rules_unreadable {sync} :
  (∀ j, de_RoomEvent KState sync true (state_contents RoomJoinRules) j = Err ()) ∧
  ∀ (e : RoomEvent KState sync false (state_contents RoomJoinRules)) redaction version,
    de_AnyRoomEvent message_contents state_contents sync
      (ser_RoomEvent (redact_RoomEvent e redaction version)) = Err ().
Proof.
  assert (∀ j, de_RoomEvent KState sync true (state_contents RoomJoinRules) j = Err ()) as Hno.
  { intros j. apply de_event_no_content, redacted_join_rules_content. }
  split; [exact Hno|]. intros e redaction version. unfold de_AnyRoomEvent.
  destruct (de_event_helper_ser (redact_RoomEvent e redaction version)) as [-> _].
  rewrite redacted_names_redaction. cbn [mbind outcome_bind]. unfold de_AnyStateEvent, de_AnyEvent.
  rewrite de_event_type_ser. cbn [mbind outcome_bind]. unfold de_AnyEvent_as.
  change (type_of true _) with "m.room.join_rules".
  change (assoc "m.room.join_rules" event_types) with (Some RoomJoinRules). cbv iota beta.
  by rewrite Hno.
Qed.
End theorems.

(** ** Relations *)

(** A field whose decoder goes by way of another one *)
Definition by_way {A B} (f : A → B) (d : decoder A) (d' : decoder B) : Prop :=
  ∀ j, d' j = f <$> d j.

Lemma field_opt_by_way {A B} (f : A → B) d d' fields name src :
  by_way f d d' →
  field_opt fields name d' src = (λ o : option A, f <$> o) <$> field_opt fields name d src.
Proof.
  intros Hd. unfold field_opt. destruct (lookup_field _ _ _) as [j|]; [|by destruct src].
  unfold de_option. destruct j; try done; rewrite Hd; by destruct (d _).
Qed.
Lemma field_default_by_way {A B} (f : A → B) d d' fields name a src :
  by_way f d d' →
  field_default fields name (f a) d' src = f <$> field_default fields name a d src.
Proof. intros Hd. unfold field_default. destruct (lookup_field _ _ _); [apply Hd|done]. Qed.

Definition in_reply_to_repr (id : string) : ctype Encrypted.InReplyTo := (id, ()).
Definition relates_to_repr (o : option string) : ctype Encrypted.RelatesToJsonRepr :=
  (in_reply_to_repr <$> o, ()).

Ltac one_field key :=
  intros j; cbn [dec c_struct]; unfold de_struct;
  match goal with |- context [has_flatten ?l] => change (has_flatten l) with false end; cbv iota zeta;
  match goal with |- context [Codecs.own_keys ?l] => change (Codecs.own_keys l) with [key] end;
  match goal with |- _ = fmap _ (?d j) => unfold d end;
  destruct (struct_src _ j) as [src| |]; [|done..];
  cbn [mbind outcome_bind fmap outcome_fmap read_fields].

Lemma in_reply_to_by_way : by_way in_reply_to_repr de_InReplyTo (dec Encrypted.InReplyTo).
Proof.
  unfold Encrypted.InReplyTo, by_way. one_field "event_id".
  change (f_read _ _ src []) with (field_req ["event_id"] "event_id" (de_parse EventId_parse) src).
  by destruct (field_req _ _ _ _).
Qed.

Lemma relates_to_by_way : by_way relates_to_repr de_RelatesTo (dec Encrypted.RelatesToJsonRepr).
Proof.
  unfold Encrypted.RelatesToJsonRepr, by_way. one_field "m.in_reply_to".
  change (f_read _ _ src []) with
    (field_opt ["m.in_reply_to"] "m.in_reply_to" (dec Encrypted.InReplyTo) src).
  rewrite (field_opt_by_way _ _ _ _ _ _ in_reply_to_by_way). by destruct (field_opt _ _ _ _).
Qed.

(** The relation that an encrypted event shows in clear text is the one that the message it
    hides has: the two implementations of relations read any JSON alike, and write alike. *)
Theorem encrypted_relation_agrees :
  (∀ j, Encrypted.convert_relation <$> dec (c_struct Encrypted.EventWithRelatesToJsonRepr_fields) j =
        Encrypted.relation_from_message <$> de_Relation j) ∧
  (∀ r, write_fields Encrypted.EventWithRelatesToJsonRepr_fields
          (Encrypted.relation_repr (Encrypted.relation_from_message r)) =
        Serde.written (Relation_fields r)).
Proof.
  split; [|by intros []]. unfold Encrypted.EventWithRelatesToJsonRepr_fields.
  cbn [dec c_struct]. one_field "m.relates_to".
  change (f_read _ _ src []) with
    (field_default ["m.relates_to"] "m.relates_to" (relates_to_repr None)
       (dec Encrypted.RelatesToJsonRepr) src).
  rewrite (field_default_by_way _ _ _ _ _ _ _ relates_to_by_way).
  by destruct (field_default _ _ _ _ _) as [[id|]| |].
Qed.

(** An encrypted event without relation comes back with the one that says nothing. *)
Lemma encrypted_without_relation scheme :
  Encrypted.EncryptedEventScheme_wf scheme →
  dec Encrypted.RoomEncryptedEventContent
    (enc Encrypted.RoomEncryptedEventContent (scheme, (None, ()))) =
  Ok (scheme, (Some Encrypted.Custom_, ())).
Proof.
  intros Hs.
  apply (dec_enc (c:=Encrypted.RoomEncryptedEventContent) (scheme, (Some Encrypted.Custom_, ()))).
  split; [done|]. split; [by eexists|done].
Qed.

(** ** An instance *)

#[local] Existing Instance ascii_unicode.

Definition name_level : gmap EventType Z := {[ from "m.room.name" := 30%Z ]}.
Definition some_levels : RoomPowerLevelsEventContent :=
  {| ban := 60; events := name_level; events_default := 0; invite := 10;
     kick := 50; redact := 50; state_default := 50; users := {[ "@alice:example.org" := 100%Z ]};
     users_default := 0; notifications := {| room := 20 |} |}.

Definition a_power_levels_event : RoomEvent KState true false (state_contents RoomPowerLevels) :=
  Build_Event SyncStateEvent RoomPowerLevelsEventContent Unsigned
    some_levels () "$levels:example.org" "@alice:example.org" 1%Z () "" (Some some_levels)
    {| age := Some 7%Z; transaction_id := None |}.

Definition a_room_event : AnyRoomEvent message_contents state_contents true :=
  State (Known (contents:=state_contents) RoomPowerLevels a_power_levels_event).

Lemma some_levels_wf : cwf c_power_levels some_levels.
Proof.
  assert (cwf (c_key_map EventType as_ref key_enum c_int) (events some_levels)) as He.
  { intros k a Hk. change (name_level !! k = Some a) in Hk.
    unfold name_level in Hk. apply lookup_singleton_Some in Hk as [<- <-]. by split. }
  assert (cwf (c_id_map UserId_parse c_int) (users some_levels)) as Hu.
  { apply map_Forall_singleton. by split. }
  split; [intros _; reflexivity|]. split; [intros _; exact He|].
  do 5 (split; [intros _; reflexivity|]). split; [intros _; exact Hu|].
  split; [intros _; reflexivity|]. split; [intros _; split; [intros _; reflexivity|exact I]|exact I].
Qed.

Lemma a_room_event_valid : room_event_valid a_room_event.
Proof.
  split; [wf_fields|]. split; [exact some_levels_wf|]. intros p. cbn. intros [= <-].
  exact some_levels_wf.
Qed.

Lemma room_event_round_trip_witness :
  let e' := AnyRoomEvent_from _ _ (redact_AnyRoomEvent _ _ a_room_event a_redaction V6) in
  de_AnyRoomEvent _ _ true (ser_AnyRoomEvent _ _ a_room_event) = Ok a_room_event ∧
  de_AnyRoomEvent _ _ true (ser_AnyRoomEvent _ _ e') = Ok e'.
Proof.
  destruct (room_event_round_trip a_room_event a_redaction V6 a_room_event_valid a_redaction_wf)
    as [He Hr].
  split; [exact He|]. by apply Hr.
Defined.

Lemma redact_AnyRoomEvent_spec_witness :
  let e' := AnyRoomEvent_from _ _ (redact_AnyRoomEvent _ _ a_room_event a_redaction V6) in
  (∃ ty, json_get "type" (ser_AnyRoomEvent _ _ a_room_event) = Some (JString ty) ∧
     redacted_json (allowed_content_keys_for ty V6) a_redaction
       (ser_AnyRoomEvent _ _ a_room_event) (ser_AnyRoomEvent _ _ e')) ∧
  de_AnyRoomEvent _ _ true (ser_AnyRoomEvent _ _ e') = Ok e'.
Proof.
  destruct (redact_AnyRoomEvent_spec a_room_event a_redaction V6) as (_ & Hjson & Hread).
  split; [exact (Hjson eq_refl)|].
  exact (Hread a_room_event_valid a_redaction_wf eq_refl eq_refl).
Defined.

(** The redacted levels keep all but those for invites and notifications. *)
Example redacted_levels :
  enc RedactedRoomPowerLevelsEventContent
    (content (redact_RoomEvent a_power_levels_event a_redaction V6)) =
  JObject [("ban", JNumber (NInt 60));
           ("events", JObject [("m.room.name", JNumber (NInt 30))]);
           ("users", JObject [("@alice:example.org", JNumber (NInt 100))])].
Proof. vm_compute. reflexivity. Qed.
