(* ===== verification/OtherContents.v ===== *)
(** * Contents of other events

    The contents of account data, ephemeral and to-device events and of presence, with key
    verification, from [ruma-events/src]; the enums over these kinds and over stripped and initial
    state events, and the enums of contents that [event_enum!] generates for every kind;
    persistent data units ([pdu.rs]). Default features, but for the modules that belong to
    [unstable-pre-spec] as a whole (ready.rs, done.rs, secret, reaction.rs, relation.rs, space):
    these are modelled and are in none of the enums. *)

From S2P Require Import Prelude RustStr RustNet IdValidation StringEnum Identifiers Json.
From S2P Require Import EventTypes EventContents CanonicalJson MemberCount PushConditions.
From S2P Require Import PushRules PushRulesSpec PushSerde ClientPush.
From S2P Require Import Serde Codecs Events EventEnums EventsSpec EventEnumsSpec UrlEncoded.
From S2P Require Import ApiTypes ClientTypes FederationTypes RoomContents.
From Stdlib Require Import Ascii NArith.
Open Scope string_scope.
Open Scope nat_scope.
Open Scope list_scope.

(** ** ruma-serde/src/empty.rs *)

(** The visitor leaves the entries of the object where they are, and serde_json then takes them
    for trailing characters. *)
Definition c_empty : codec := {|
  ctype := ();
  enc _ := JObject [];
  dec j := match j with JObject [] => Ok () | _ => Err () end;
  cwf _ := True
|}.
#[export] Instance lawful_empty : Lawful c_empty.
Proof. by intros []. Qed.

(** [vec_as_map_of_empty]: a vector by way of a [BTreeMap] *)
Definition vec_map (l : list string) : gmap string () := list_to_map ((λ k, (k, ())) <$> l).
Definition map_vec (m : gmap string ()) : list string := (btree_iter m).*1.

Definition c_vec_as_map {E} (p : string → outcome E string) : codec := {|
  ctype := list string;
  enc l := enc (c_id_map p c_empty) (vec_map l);
  dec j := map_vec <$> dec (c_id_map p c_empty) j;
  cwf l := cwf (c_id_map p c_empty) (vec_map l) ∧ map_vec (vec_map l) = l
|}.
#[export] Instance lawful_vec_as_map {E} (p : string → outcome E string) : Lawful (c_vec_as_map p).
Proof.
  intros l [Hl Hs]. cbn [enc dec c_vec_as_map].
  rewrite (dec_enc (c:=c_id_map p c_empty) (vec_map l) Hl). cbn [fmap outcome_fmap]. by rewrite Hs.
Qed.

(** ** Account data: direct.rs, ignored_user_list.rs, push_rules.rs, fully_read.rs, tag.rs *)

Definition DirectEventContent : codec := c_id_map UserId_parse (c_list c_room_id).
Definition IgnoredUserListEventContent : codec := c_struct [
  req "ignored_users" (c_vec_as_map UserId_parse)].
Definition PushRulesEventContent `{RawContent} `{JsInt} `{IndexSets} : codec := c_struct [
  req "global" c_ruleset].
Definition FullyReadEventContent : codec := c_struct [req "event_id" c_event_id].
Definition TagEventContent : codec := c_struct [req "tags" Tags].

(** ** Ephemeral events: receipt.rs, typing.rs *)

Definition UserReceipts : codec := c_id_map UserId_parse Receipt.
Definition Receipts : codec := c_enum_map ReceiptType.ReceiptType UserReceipts.
Definition ReceiptEventContent : codec := c_id_map EventId_parse Receipts.
Definition TypingEventContent : codec := c_struct [req "user_ids" (c_list c_user_id)].

(** ** presence.rs *)

Definition PresenceEventContent : codec := c_struct [
  opt "avatar_url" c_string;
  opt "currently_active" c_bool;
  opt "displayname" c_string;
  opt "last_active_ago" c_uint;
  req "presence" (c_enum PresenceState.PresenceState);
  opt "status_msg" c_string].

(** ** To-device events: dummy.rs, room_key.rs, room_key_request.rs, forwarded_room_key.rs *)

(** This visitor goes over the entries. *)
Definition ToDeviceDummyEventContent : codec := {|
  ctype := ();
  enc _ := JObject [];
  dec j := match j with JObject _ => Ok () | _ => Err () end;
  cwf _ := True
|}.
#[export] Instance lawful_dummy : Lawful ToDeviceDummyEventContent.
Proof. by intros []. Qed.

Definition c_algorithm : codec := c_enum EventEncryptionAlgorithm.EventEncryptionAlgorithm.

Definition ToDeviceRoomKeyEventContent : codec := c_struct [
  req "algorithm" c_algorithm;
  req "room_id" c_room_id;
  req "session_id" c_string;
  req "session_key" c_string].

Module Action.
Inductive Action := Request | CancelRequest | Custom (s : string).

#[export] Instance Action_eq_dec : EqDecision Action.
Proof. solve_decision. Defined.

#[export, refine] Instance Action_enum : StringEnum Action := {|
  rename_all := SnakeCase;
  unit_variants :=
    [("Request", None, Request); ("CancelRequest", Some "request_cancellation", CancelRequest)];
  custom := Custom;
  custom_inner c := match c with Custom s => Some s | _ => None end
|}.
Proof. all: string_enum_laws. Defined.
End Action.
Export (hints) Action.

Definition RequestedKeyInfo : codec := c_struct [
  req "algorithm" c_algorithm;
  req "room_id" c_room_id;
  req "sender_key" c_string;
  req "session_id" c_string].
Definition ToDeviceRoomKeyRequestEventContent : codec := c_struct [
  req "action" (c_enum Action.Action);
  nullable "body" RequestedKeyInfo;
  req "requesting_device_id" c_string;
  req "request_id" c_string].

Definition ToDeviceForwardedRoomKeyEventContent : codec := c_struct [
  req "algorithm" c_algorithm;
  req "room_id" c_room_id;
  req "sender_key" c_string;
  req "session_id" c_string;
  req "session_key" c_string;
  req "sender_claimed_ed25519_key" c_string;
  req "forwarding_curve25519_key_chain" (c_list c_string)].

(** ** key/verification.rs *)

Module HashAlgorithm.
Inductive HashAlgorithm := Sha256 | Custom (s : string).

#[export] Instance HashAlgorithm_eq_dec : EqDecision HashAlgorithm.
Proof. solve_decision. Defined.

#[export, refine] Instance HashAlgorithm_enum : StringEnum HashAlgorithm := {|
  rename_all := SnakeCase;
  unit_variants :=
    [("Sha256", None, Sha256)];
  custom := Custom;
  custom_inner c := match c with Custom s => Some s | _ => None end
|}.
Proof. all: string_enum_laws. Defined.
End HashAlgorithm.
Export (hints) HashAlgorithm.

Module KeyAgreementProtocol.
Inductive KeyAgreementProtocol := Curve25519 | Curve25519HkdfSha256 | Custom (s : string).

#[export] Instance KeyAgreementProtocol_eq_dec : EqDecision KeyAgreementProtocol.
Proof. solve_decision. Defined.

#[export, refine] Instance KeyAgreementProtocol_enum : StringEnum KeyAgreementProtocol := {|
  rename_all := KebabCase;
  unit_variants :=
    [("Curve25519", None, Curve25519);
     ("Curve25519HkdfSha256", None, Curve25519HkdfSha256)];
  custom := Custom;
  custom_inner c := match c with Custom s => Some s | _ => None end
|}.
Proof. all: string_enum_laws. Defined.
End KeyAgreementProtocol.
Export (hints) KeyAgreementProtocol.

Module MessageAuthenticationCode.
Inductive MessageAuthenticationCode := HkdfHmacSha256 | HmacSha256 | Custom (s : string).

#[export] Instance MessageAuthenticationCode_eq_dec : EqDecision MessageAuthenticationCode.
Proof. solve_decision. Defined.

#[export, refine] Instance MessageAuthenticationCode_enum : StringEnum MessageAuthenticationCode := {|
  rename_all := KebabCase;
  unit_variants :=
    [("HkdfHmacSha256", None, HkdfHmacSha256);
     ("HmacSha256", None, HmacSha256)];
  custom := Custom;
  custom_inner c := match c with Custom s => Some s | _ => None end
|}.
Proof. all: string_enum_laws. Defined.
End MessageAuthenticationCode.
Export (hints) MessageAuthenticationCode.

Module ShortAuthenticationString.
Inductive ShortAuthenticationString := Decimal | Emoji | Custom (s : string).

#[export] Instance ShortAuthenticationString_eq_dec : EqDecision ShortAuthenticationString.
Proof. solve_decision. Defined.

#[export, refine] Instance ShortAuthenticationString_enum : StringEnum ShortAuthenticationString := {|
  rename_all := SnakeCase;
  unit_variants :=
    [("Decimal", None, Decimal);
     ("Emoji", None, Emoji)];
  custom := Custom;
  custom_inner c := match c with Custom s => Some s | _ => None end
|}.
Proof. all: string_enum_laws. Defined.
End ShortAuthenticationString.
Export (hints) ShortAuthenticationString.

Module VerificationMethod.
Inductive VerificationMethod := SasV1 | Custom (s : string).

#[export] Instance VerificationMethod_eq_dec : EqDecision VerificationMethod.
Proof. solve_decision. Defined.

#[export, refine] Instance VerificationMethod_enum : StringEnum VerificationMethod := {|
  rename_all := RenameNone;
  unit_variants :=
    [("SasV1", Some "m.sas.v1", SasV1)];
  custom := Custom;
  custom_inner c := match c with Custom s => Some s | _ => None end
|}.
Proof. all: string_enum_laws. Defined.
End VerificationMethod.
Export (hints) VerificationMethod.

(** The names that the renaming rules give *)
Example verification_names :
  as_ref HashAlgorithm.Sha256 = "sha256" ∧
  as_ref KeyAgreementProtocol.Curve25519HkdfSha256 = "curve25519-hkdf-sha256" ∧
  as_ref MessageAuthenticationCode.HkdfHmacSha256 = "hkdf-hmac-sha256".
Proof. by vm_compute. Qed.

(** ** key/verification/cancel.rs *)

Module CancelCode.
Inductive CancelCode := User | Timeout | UnknownTransaction | UnknownMethod | UnexpectedMessage | KeyMismatch | UserMismatch | InvalidMessage | Accepted | Custom (s : string).

#[export] Instance CancelCode_eq_dec : EqDecision CancelCode.
Proof. solve_decision. Defined.

#[export, refine] Instance CancelCode_enum : StringEnum CancelCode := {|
  rename_all := RenameNone;
  unit_variants :=
    [("User", Some "m.user", User);
     ("Timeout", Some "m.timeout", Timeout);
     ("UnknownTransaction", Some "m.unknown_transaction", UnknownTransaction);
     ("UnknownMethod", Some "m.unknown_method", UnknownMethod);
     ("UnexpectedMessage", Some "m.unexpected_message", UnexpectedMessage);
     ("KeyMismatch", Some "m.key_mismatch", KeyMismatch);
     ("UserMismatch", Some "m.user_mismatch", UserMismatch);
     ("InvalidMessage", Some "m.invalid_message", InvalidMessage);
     ("Accepted", Some "m.accepted", Accepted)];
  custom := Custom;
  custom_inner c := match c with Custom s => Some s | _ => None end
|}.
Proof. all: string_enum_laws. Defined.
End CancelCode.
Export (hints) CancelCode.

Definition ToDeviceKeyVerificationCancelEventContent : codec := c_struct [
  req "transaction_id" c_string;
  req "reason" c_string;
  req "code" (c_enum CancelCode.CancelCode)].

(** ** key/verification/request.rs, ready.rs, key.rs, mac.rs, done.rs *)

Definition c_methods : codec := c_list (c_enum VerificationMethod.VerificationMethod).

Definition ToDeviceKeyVerificationRequestEventContent : codec := c_struct [
  req "from_device" c_string;
  req "transaction_id" c_string;
  req "methods" c_methods;
  req "timestamp" c_uint].
Definition ToDeviceKeyVerificationKeyEventContent : codec := c_struct [
  req "transaction_id" c_string;
  req "key" c_string].
Definition ToDeviceKeyVerificationMacEventContent : codec := c_struct [
  req "transaction_id" c_string;
  req "mac" (c_map c_string);
  req "keys" c_string].
Definition ToDeviceKeyVerificationReadyEventContent : codec := c_struct [
  req "from_device" c_string;
  req "methods" c_methods;
  req "transaction_id" c_string].
Definition ToDeviceKeyVerificationDoneEventContent : codec := c_struct [
  req "transaction_id" c_string].

(** The events of a room name the request they are about. *)
Definition VerificationRelation : codec := tagged "rel_type" "m.reference" [req "event_id" c_event_id].
Definition KeyVerificationReadyEventContent : codec := c_struct [
  req "from_device" c_string;
  req "methods" c_methods;
  req "m.relates_to" VerificationRelation].
Definition KeyVerificationDoneEventContent : codec := c_struct [
  req "m.relates_to" VerificationRelation].

(** ** key/verification/start.rs *)

Definition c_short_strings : codec := c_list (c_enum ShortAuthenticationString.ShortAuthenticationString).

(** A method that is not known, with all the entries that come with it *)
Definition CustomMethodContent : codec := c_flat_last [req "method" c_string] c_json_object.

Definition StartSasV1Content_fields : list sfield := [
  req "key_agreement_protocols" (c_list (c_enum KeyAgreementProtocol.KeyAgreementProtocol));
  req "hashes" (c_list (c_enum HashAlgorithm.HashAlgorithm));
  req "message_authentication_codes"
    (c_list (c_enum MessageAuthenticationCode.MessageAuthenticationCode));
  req "short_authentication_string" c_short_strings].
Definition StartSasV1Content : codec := tagged "method" "m.sas.v1" StartSasV1Content_fields.

(** [serde(untagged)]: whatever has the fields of the first variant is taken for it. *)
Definition StartMethod : codec := c_untagged_apart StartSasV1Content CustomMethodContent.
Definition ToDeviceKeyVerificationStartEventContent : codec :=
  c_flat_last [req "from_device" c_string; req "transaction_id" c_string] StartMethod.

(** ** key/verification/accept.rs *)

Definition AcceptSasV1Content_fields : list sfield := [
  req "key_agreement_protocol" (c_enum KeyAgreementProtocol.KeyAgreementProtocol);
  req "hash" (c_enum HashAlgorithm.HashAlgorithm);
  req "message_authentication_code" (c_enum MessageAuthenticationCode.MessageAuthenticationCode);
  req "short_authentication_string" c_short_strings;
  req "commitment" c_string].
Definition AcceptSasV1Content : codec := tagged "method" "m.sas.v1" AcceptSasV1Content_fields.

Definition AcceptMethod : codec := c_untagged_apart AcceptSasV1Content CustomMethodContent.
Definition ToDeviceKeyVerificationAcceptEventContent : codec :=
  c_flat_last [req "transaction_id" c_string] AcceptMethod.

#[export] Instance start_lawful : Lawful ToDeviceKeyVerificationStartEventContent.
Proof. apply _. Qed.
#[export] Instance accept_lawful : Lawful ToDeviceKeyVerificationAcceptEventContent.
Proof. apply _. Qed.

(** ** secret/request.rs, secret/send.rs *)

(** [flatten] of a type with [serde(try_from = "R")], where [R] is a struct: values that the
    conversion does not take back are lost. *)
Definition flat_try_from (A : Type) (fs : list sfield) (to : A → fields_type fs)
    (from : fields_type fs → outcome () A) : sfield := {|
  f_own := [];
  f_inner := all_keys fs;
  f_type := A;
  f_write a := write_fields fs (to a);
  f_read _ _ rest := v ← de_struct fs (JObject rest); from v;
  f_wf a := fields_wf fs (to a) ∧ from (to a) = Ok a
|}.
#[export] Instance lawful_flat_try_from A fs (to : A → fields_type fs) from :
  LawfulFields fs → DistinctKeys fs → LawfulField (flat_try_from A fs to from).
Proof.
  intros Hfs Hnd. split; cbn [f_wf f_write f_read flat_try_from].
  - intros a [Ha _]. by apply write_fields_keys.
  - intros a [Ha _]. by apply write_fields_once.
  - intros own entries rest a [Ha Hi] _ Hr _ Hin. by rewrite (de_struct_reads fs (to a)).
Qed.

Module SecretName.
Inductive SecretName :=
  | CrossSigningMasterKey | CrossSigningUserSigningKey | CrossSigningSelfSigningKey | RecoveryKey
  | Custom (s : string).

#[export] Instance SecretName_eq_dec : EqDecision SecretName.
Proof. solve_decision. Defined.

#[export, refine] Instance SecretName_enum : StringEnum SecretName := {|
  rename_all := RenameNone;
  unit_variants :=
    [("CrossSigningMasterKey", Some "m.cross_signing.master", CrossSigningMasterKey);
     ("CrossSigningUserSigningKey", Some "m.cross_signing.user_signing", CrossSigningUserSigningKey);
     ("CrossSigningSelfSigningKey", Some "m.cross_signing.self_signing", CrossSigningSelfSigningKey);
     ("RecoveryKey", Some "m.megolm_backup.v1", RecoveryKey)];
  custom := Custom;
  custom_inner c := match c with Custom s => Some s | _ => None end
|}.
Proof. all: string_enum_laws. Defined.
End SecretName.
Export (hints) SecretName.

Module RequestAction.
Inductive RequestAction :=
  | Request (name : SecretName.SecretName) | RequestCancellation | Custom (s : string).

Definition RequestActionJsonRepr_fields : list sfield := [
  opt "name" (c_enum SecretName.SecretName);
  req "action" c_string].
Definition serialize (self : RequestAction) : fields_type RequestActionJsonRepr_fields :=
  match self with
  | Request name => (Some name, ("request", ()))
  | RequestCancellation => (None, ("request_cancellation", ()))
  | Custom custom => (None, (custom, ()))
  end.
Definition try_from (value : fields_type RequestActionJsonRepr_fields) : outcome () RequestAction :=
  let '(name, (action, _)) := value in
  if decide (action = "request") then
    match name with Some name => Ok (Request name) | None => Err () end
  else if decide (action = "request_cancellation") then Ok RequestCancellation
  else Ok (Custom action).
End RequestAction.

Definition ToDeviceSecretRequestEventContent : codec := c_struct [
  flat_try_from RequestAction.RequestAction RequestAction.RequestActionJsonRepr_fields
    RequestAction.serialize RequestAction.try_from;
  req "requesting_device_id" c_string;
  req "request_id" c_string].
Definition ToDeviceSecretSendEventContent : codec := c_struct [
  req "request_id" c_string;
  req "secret" c_string].

(** ** reaction.rs, relation.rs *)

Definition ReactionRelation : codec := tagged "rel_type" "m.annotation" [
  req "event_id" c_event_id;
  req "key" c_string].
Definition ReactionEventContent : codec := c_struct [req "m.relates_to" ReactionRelation].

Definition BundledReaction_fields : list sfield := [
  req "key" c_string;
  opt "origin_server_ts" c_uint;
  req "count" c_uint].
(** [serde(tag = "type")] on an enum of one variant: here the tag is looked at. *)
Definition BundledAnnotation : codec := {|
  ctype := fields_type BundledReaction_fields;
  enc v := JObject (("type", JString "m.reaction") :: write_fields BundledReaction_fields v);
  dec j :=
    '(t, rest) ← take_tag "type" j;
    if decide (t = "m.reaction") then de_struct BundledReaction_fields rest else Err ();
  cwf := fields_wf BundledReaction_fields
|}.
#[export] Instance lawful_bundled_annotation : Lawful BundledAnnotation.
Proof.
  intros v Hv. cbn [enc dec BundledAnnotation].
  assert (NoDup (("type", JString "m.reaction") :: write_fields BundledReaction_fields v).*1) as Hnd.
  { rewrite fmap_cons. apply list.NoDup_cons. split.
    - intros Hin%(write_fields_keys BundledReaction_fields v _ Hv). revert Hin. decide_it.
    - refine (write_fields_once BundledReaction_fields v _ _ Hv). decide_it. }
  erewrite Encrypted.take_tag_there by done. cbn [mbind outcome_bind].
  rewrite decide_True by done. apply Encrypted.de_struct_tagged; [apply _..|done|done|].
  intros k Hk. rewrite assoc_cons, decide_False; [done|]. intros <-. revert Hk. decide_it.
Qed.

Definition AnnotationChunk : codec := c_struct [
  req "chunk" (c_list BundledAnnotation);
  opt "next_batch" c_string].
Definition Relations : codec := c_struct [nullable "m.annotation" AnnotationChunk].

(** ** space/child.rs, space/parent.rs *)

Definition SpaceChildEventContent : codec := c_struct [
  opt "via" (c_list c_server_name);
  opt "order" c_string;
  opt "suggested" c_bool].
Definition SpaceParentEventContent : codec := c_struct [
  opt "via" (c_list c_server_name);
  req "canonical" c_bool].

(** ** pdu.rs *)

Section pdu.
Context `{Unicode}.

(** A pair, as an array of two *)
Definition c_pair (c1 c2 : codec) : codec := {|
  ctype := ctype c1 * ctype c2;
  enc '(a, b) := JArray [enc c1 a; enc c2 b];
  dec j := match j with JArray [j1; j2] => a ← dec c1 j1; b ← dec c2 j2; Ok (a, b) | _ => Err () end;
  cwf '(a, b) := cwf c1 a ∧ cwf c2 b
|}.
#[export] Instance lawful_pair c1 c2 : Lawful c1 → Lawful c2 → Lawful (c_pair c1 c2).
Proof.
  intros H1 H2 [a b] [Ha Hb]. cbn [enc dec c_pair]. rewrite (H1 a Ha). cbn [mbind outcome_bind].
  by rewrite (H2 b Hb).
Qed.

Definition EventHash : codec := c_struct [req "sha256" c_string].
Definition c_event_ref : codec := c_pair c_event_id EventHash.
Definition c_pdu_signatures : codec := c_id_map ServerName_parse (c_id_map KeyId_parse c_string).

(** The lists of events are left out when they are empty, and are required. *)
Definition RoomV1Pdu : codec := c_struct [
  req "event_id" c_event_id;
  req "room_id" c_room_id;
  req "sender" c_user_id;
  req "origin" c_string;
  req "origin_server_ts" c_uint;
  req "type" (c_enum EventType);
  req "content" c_raw;
  opt "state_key" c_string;
  skipped "prev_events" (c_list c_event_ref) list_is_empty;
  req "depth" c_uint;
  skipped "auth_events" (c_list c_event_ref) list_is_empty;
  opt "redacts" c_event_id;
  str_map "unsigned" c_raw;
  req "hashes" EventHash;
  req "signatures" c_pdu_signatures].

Definition RoomV3Pdu : codec := c_struct [
  req "room_id" c_room_id;
  req "sender" c_user_id;
  req "origin" c_string;
  req "origin_server_ts" c_uint;
  req "type" (c_enum EventType);
  req "content" c_raw;
  opt "state_key" c_string;
  req "prev_events" (c_list c_event_id);
  req "depth" c_uint;
  req "auth_events" (c_list c_event_id);
  opt "redacts" c_event_id;
  str_map "unsigned" c_raw;
  req "hashes" EventHash;
  req "signatures" c_pdu_signatures].

(** [GetEventId]: which of the two an object is depends on whether it has an [event_id]. *)
Definition Pdu : codec := {|
  ctype := ctype RoomV1Pdu + ctype RoomV3Pdu;
  enc p := match p with inl p => enc RoomV1Pdu p | inr p => enc RoomV3Pdu p end;
  dec j :=
    src ← struct_src ["event_id"] j;
    event_id ← field_opt ["event_id"] "event_id" de_ignored src;
    match event_id with
    | Some _ => inl <$> dec RoomV1Pdu j
    | None => inr <$> dec RoomV3Pdu j
    end;
  cwf p := match p with inl p => cwf RoomV1Pdu p | inr p => cwf RoomV3Pdu p end
|}.

#[export] Instance lawful_pdu : Lawful Pdu.
Proof.
  assert (Lawful RoomV1Pdu) as H1 by apply _. assert (Lawful RoomV3Pdu) as H3 by apply _.
  intros [p|p] Hp; cbn [enc dec cwf Pdu] in *.
  - rewrite (H1 p Hp). unfold RoomV1Pdu. cbn [enc c_struct].
    rewrite struct_src_obj by (apply write_fields_once; [apply _|decide_it|exact Hp]).
    by destruct p as [id p].
  - rewrite (H3 p Hp). unfold RoomV3Pdu. cbn [enc c_struct].
    rewrite struct_src_obj by (apply write_fields_once; [apply _|decide_it|exact Hp]).
    cbn [mbind outcome_bind]. unfold field_opt, lookup_field.
    rewrite assoc_None; [done|]. intros Hin%(write_fields_keys _ p _ Hp). revert Hin. decide_it.
Qed.

Definition v1_prev_events (p : ctype RoomV1Pdu) : list (string * ctype EventHash) :=
  let '(_, (_, (_, (_, (_, (_, (_, (_, (prev_events, _))))))))) := p in prev_events.
Definition v1_auth_events (p : ctype RoomV1Pdu) : list (string * ctype EventHash) :=
  let '(_, (_, (_, (_, (_, (_, (_, (_, (_, (_, (auth_events, _))))))))))) := p in auth_events.

Lemma read_fields_each own src rest fs v f :
  read_fields own src rest fs = Ok v → f ∈ fs → ∃ a, f_read f own src rest = Ok a.
Proof.
  intros Hr Hf. induction Hf as [f fs|f g fs Hf IH]; simpl in Hr.
  - destruct (f_read f own src rest) as [a| |]; try done. by exists a.
  - destruct (f_read g own src rest) as [a| |]; try done. cbn [mbind outcome_bind] in Hr.
    destruct (read_fields own src rest fs) as [w| |]; try done. by apply (IH w).
Qed.

(** A struct is not read without a field that it requires. *)
Lemma de_struct_needs name c skip fs entries v :
  has_flatten fs = false → skipped name c skip ∈ fs → assoc name entries = None →
  de_struct fs (JObject entries) ≠ Ok v.
Proof.
  intros Hf Hin Hno. unfold de_struct. rewrite Hf. unfold struct_src. case_decide; [|done].
  cbn [mbind outcome_bind]. intros Hr.
  destruct (read_fields_each _ _ _ _ _ _ Hr Hin) as [a Ha]. simpl in Ha.
  by rewrite field_req_None in Ha.
Qed.

(** A PDU of version 1 that refers to no previous or no authorizing events, as that which creates
    a room, is written and cannot be read. *)
Lemma empty_refs_unreadable (p : ctype RoomV1Pdu) p' :
  v1_prev_events p = [] ∨ v1_auth_events p = [] → dec Pdu (enc Pdu (inl p)) ≠ Ok p'.
Proof.
  intros Hp.
  assert (∀ v, dec RoomV1Pdu (enc RoomV1Pdu p) ≠ Ok v) as Hno.
  { destruct p as (id & room & sender & origin & ts & ty & content & key & prev & depth & auth &
      redacts & unsigned & hashes & signatures & []). cbn in Hp.
    destruct Hp as [-> | ->].
    - intros v. apply (de_struct_needs "prev_events" (c_list c_event_ref) list_is_empty).
      + done.
      + do 8 apply list_elem_of_further. apply list_elem_of_here.
      + cbn [write_fields f_write req opt skipped str_map dflt].
        destruct key, redacts, (list_is_empty auth), (map_is_empty unsigned); reflexivity.
    - intros v. apply (de_struct_needs "auth_events" (c_list c_event_ref) list_is_empty).
      + done.
      + do 10 apply list_elem_of_further. apply list_elem_of_here.
      + cbn [write_fields f_write req opt skipped str_map dflt].
        destruct key, redacts, (list_is_empty prev), (map_is_empty unsigned); reflexivity. }
  cbn [enc dec Pdu]. destruct (struct_src _ _) as [src| |] eqn:Hs; try done.
  unfold RoomV1Pdu at 1 in Hs. destruct p as [id p]. cbn [enc c_struct] in Hs.
  unfold struct_src in Hs. case_decide; [|done]. injection Hs as <-.
  cbn [mbind outcome_bind]. change (field_opt _ _ _ _) with (Ok (E:=()) (Some ())).
  cbn [mbind outcome_bind]. destruct (dec RoomV1Pdu _) as [v| |] eqn:Hv; try done.
  by destruct (Hno v).
Qed.
End pdu.

(** ** Enums over other kinds of events *)

(** A content without redacted form *)
Record PlainContent := { plain : Type; plain_content : EventContent plain }.
#[export] Existing Instance plain_content.

Definition codec_plain (ty : string) (c : codec) : PlainContent := {|
  plain := ctype c;
  plain_content :=
    {| event_type _ := ty; ser_content := enc c; from_parts := from_parts_as ty (dec c) |}
|}.
(** The regular form of a content that has both *)
Definition plain_of (c : EnumContent) : PlainContent :=
  {| plain := regular c; plain_content := regular_content c |}.

(** [expand_event_enum] and [expand_content_enum] for one kind; [s] is the struct of its events. *)
Section plain_enum.
Context {V : Type} `{EventEnumDecl V} (contents : V → PlainContent).

Inductive AnyPlainEvent (s : EventStruct) :=
  | KnownEvent (v : V) (e : Event s (plain (contents v)) Unsigned)
  | CustomEvent (e : Event s CustomEventContent Unsigned).
Arguments KnownEvent {s} v e.
Arguments CustomEvent {s} e.

Definition ser_AnyPlainEvent {s} (e : AnyPlainEvent s) : json :=
  match e with KnownEvent _ e => ser_Event e | CustomEvent e => ser_Event e end.

Definition de_AnyPlainEvent (s : EventStruct) : decoder (AnyPlainEvent s) := λ j,
  ty ← de_event_type j;
  match assoc ty event_types with
  | Some v => KnownEvent v <$> de_Event s j
  | None => CustomEvent <$> de_Event s j
  end.

Definition AnyPlainEvent_event_type {s} (e : AnyPlainEvent s) : string :=
  match e with
  | KnownEvent _ e => event_type (content e)
  | CustomEvent e => event_type (content e)
  end.

(** The content enum keeps nothing of a custom content but its type. *)
Inductive AnyEventContent :=
  | KnownContent (v : V) (c : plain (contents v))
  | CustomContent (ty : string).

Definition AnyEventContent_event_type (c : AnyEventContent) : string :=
  match c with KnownContent _ c => event_type c | CustomContent ty => ty end.

(** [serde(untagged)]; the custom variant has one field, which is skipped. *)
Definition ser_AnyEventContent (c : AnyEventContent) : json :=
  match c with KnownContent _ c => ser_content c | CustomContent _ => JObject [] end.

Definition AnyEventContent_from_parts (ty : string) (input : json) : outcome () AnyEventContent :=
  match assoc ty event_types with
  | Some v => KnownContent v <$> from_parts ty input
  | None => Ok (CustomContent ty)
  end.

(** The accessors [content] and [prev_content] *)
Definition AnyPlainEvent_content {s} (e : AnyPlainEvent s) : AnyEventContent :=
  match e with
  | KnownEvent v e => KnownContent v (content e)
  | CustomEvent e => CustomContent (event_type (content e))
  end.
Definition AnyPlainEvent_prev_content {s} (e : AnyPlainEvent s) : option AnyEventContent :=
  match e with
  | KnownEvent v e => c ← default None (cond_get (prev_content e)); Some (KnownContent v c)
  | CustomEvent e => c ← default None (cond_get (prev_content e)); Some (CustomContent (event_type c))
  end.

(** [expand_into_full_event] and [expand_from_full_event] *)
Definition into_full_AnyPlainEvent {s} (e : AnyPlainEvent s) (id : string) :
    AnyPlainEvent (full_of s) :=
  match e with
  | KnownEvent v e => KnownEvent v (into_full_event e id)
  | CustomEvent e => CustomEvent (into_full_event e id)
  end.
Definition from_full_AnyPlainEvent {s} (Hs : has s F_room_id = false)
    (e : AnyPlainEvent (full_of s)) : AnyPlainEvent s :=
  match e with
  | KnownEvent v e => KnownEvent v (from_full_event Hs e)
  | CustomEvent e => CustomEvent (from_full_event Hs e)
  end.

(** ** Laws *)

(** Every variant has the content of its type. *)
Class TypedContents : Prop :=
  typed_content v :
    ∃ ty, assoc ty event_types = Some v ∧ ∀ x : plain (contents v), event_type x = ty.

Variable wf : ∀ v, plain (contents v) → Prop.
Class ReadContents : Prop := read_contents v x : wf v x → content_reads x.

Definition plain_event_valid {s} (e : AnyPlainEvent s) : Prop :=
  match e with
  | KnownEvent v e =>
      wf_event e ∧ wf v (content e) ∧ ∀ p, cond_get (prev_content e) = Some (Some p) → wf v p
  | CustomEvent e =>
      wf_event e ∧ custom_wf (content e) ∧ assoc (custom_type (content e)) event_types = None ∧
      ∀ p, cond_get (prev_content e) = Some (Some p) →
        custom_wf p ∧ custom_type p = custom_type (content e)
  end.

Context `{!TypedContents} `{!ReadContents}.

Lemma ser_Event_type {s C} `{EventContent C} (e : Event s C Unsigned) :
  de_event_type (ser_Event e) = Ok (event_type (content e)).
Proof.
  destruct (serialize_event_entries (s:=s) (U:=Unsigned) event_type (λ c, [("content", ser_content c)]) ser_content)
    with (e := e) as (entries & He & Hnd & Hty & _).
  { intros c. right. by eexists. }
  unfold ser_Event. rewrite He. unfold de_event_type. rewrite struct_src_obj by done.
  cbn [mbind outcome_bind]. by rewrite (field_req_Some _ _ _ _ _ Hty).
Qed.

Lemma AnyPlainEvent_reads {s} (e : AnyPlainEvent s) :
  plain_event_valid e → de_AnyPlainEvent s (ser_AnyPlainEvent e) = Ok e.
Proof.
  unfold de_AnyPlainEvent. destruct e as [v e|e]; cbn [ser_AnyPlainEvent plain_event_valid].
  - intros (Hwf & Hc & Hp). destruct (typed_content v) as (ty & Hty & Ht).
    rewrite ser_Event_type, Ht. cbn [mbind outcome_bind]. rewrite Hty.
    rewrite Event_round_trip_lemma; [done|done|by apply read_contents|].
    intros p Hpp. rewrite !Ht. split; [done|]. by apply read_contents, Hp.
  - intros (Hwf & Hc & Hty & Hp). rewrite ser_Event_type. cbn [mbind outcome_bind].
    change (event_type (content e)) with (custom_type (content e)). rewrite Hty.
    rewrite Event_round_trip_lemma; [done|done|by apply custom_content_reads|].
    intros p Hpp. destruct (Hp p Hpp) as [Hw Ht]. split; [done|]. by apply custom_content_reads.
Qed.

(** What a content enum holds is read back; of a custom content, its type. *)
Lemma AnyEventContent_reads (c : AnyEventContent) :
  match c with
  | KnownContent v x => wf v x
  | CustomContent ty => assoc ty event_types = None
  end → AnyEventContent_from_parts (AnyEventContent_event_type c) (ser_AnyEventContent c) = Ok c.
Proof.
  unfold AnyEventContent_from_parts. destruct c as [v x|ty]; cbn [AnyEventContent_event_type]; intros Hc.
  - destruct (typed_content v) as (ty & Hty & Ht). rewrite Ht, Hty. cbn [ser_AnyEventContent].
    pose proof (read_contents v x Hc) as Hr. unfold content_reads in Hr. rewrite Ht in Hr. by rewrite Hr.
  - by rewrite Hc.
Qed.

Lemma ser_Event_content {s C} `{EventContent C} (e : Event s C Unsigned) :
  json_get "content" (ser_Event e) = Some (ser_content (content e)).
Proof.
  refine (event_entries_assoc (λ c, [("content", ser_content c)]) ser_content _ e
            F_content _ (has_content s)).
  intros c. right. by eexists.
Qed.

(** An event and its content are read alike: the accessor gives what the content enum makes of
    the event's type and its [content] entry. *)
Lemma AnyPlainEvent_content_reads {s} (e : AnyPlainEvent s) :
  plain_event_valid e →
  AnyEventContent_event_type (AnyPlainEvent_content e) = AnyPlainEvent_event_type e ∧
  ∃ j, json_get "content" (ser_AnyPlainEvent e) = Some j ∧
    AnyEventContent_from_parts (AnyPlainEvent_event_type e) j = Ok (AnyPlainEvent_content e).
Proof.
  intros He. split; [by destruct e|]. unfold AnyEventContent_from_parts.
  destruct e as [v e|e]; cbn [ser_AnyPlainEvent AnyPlainEvent_event_type plain_event_valid] in *.
  - exists (ser_content (content e)). split; [apply ser_Event_content|].
    destruct (typed_content v) as (ty & Hty & Ht). destruct He as (_ & Hc & _).
    pose proof (read_contents v _ Hc) as Hr. unfold content_reads in Hr. rewrite Ht in *.
    rewrite Hty. by rewrite Hr.
  - exists (ser_content (content e)). split; [apply ser_Event_content|].
    destruct He as (_ & _ & Hty & _). change (event_type (content e)) with (custom_type (content e)).
    by rewrite Hty.
Qed.
End plain_enum.

(** ** The kinds: enums.rs *)

Lemma codec_plain_reads ty c (x : ctype c) :
  Lawful c → cwf c x → content_reads (C:=plain (codec_plain ty c)) x.
Proof. exact (codec_content_reads ty c x). Qed.

(** The contents of a kind, by their codecs *)
Section codec_kind.
Context {V : Type} `{EventEnumDecl V, EqDecision V} (kind_codec : V → codec).

Definition kind_contents (v : V) : PlainContent := codec_plain (variant_type v) (kind_codec v).
Definition kind_wf (v : V) : plain (kind_contents v) → Prop := cwf (kind_codec v).

Lemma kind_contents_read : (∀ v, Lawful (kind_codec v)) → ReadContents kind_contents kind_wf.
Proof. intros Hc v x Hx. by apply codec_plain_reads. Qed.
Lemma kind_contents_typed :
  (∀ v : V, assoc (variant_type v) event_types = Some v) → TypedContents kind_contents.
Proof. intros Hv v. by exists (variant_type v). Qed.
End codec_kind.

Module GlobalAccountData.
Inductive Variant := Direct | IgnoredUserList | PushRules.
#[export] Instance Variant_eq_dec : EqDecision Variant.
Proof. solve_decision. Defined.
#[export] Instance Variant_decl : EventEnumDecl Variant := {|
  event_types :=
    [("m.direct", Direct); ("m.ignored_user_list", IgnoredUserList); ("m.push_rules", PushRules)]
|}.
Definition content `{RawContent} `{JsInt} `{IndexSets} (v : Variant) : codec :=
  match v with
  | Direct => DirectEventContent
  | IgnoredUserList => IgnoredUserListEventContent
  | PushRules => PushRulesEventContent
  end.
End GlobalAccountData.
Export (hints) GlobalAccountData.

Module RoomAccountData.
Inductive Variant := FullyRead | Tag.
#[export] Instance Variant_eq_dec : EqDecision Variant.
Proof. solve_decision. Defined.
#[export] Instance Variant_decl : EventEnumDecl Variant := {|
  event_types := [("m.fully_read", FullyRead); ("m.tag", Tag)]
|}.
Definition content (v : Variant) : codec :=
  match v with FullyRead => FullyReadEventContent | Tag => TagEventContent end.
End RoomAccountData.
Export (hints) RoomAccountData.

Module EphemeralRoom.
Inductive Variant := Receipt | Typing.
#[export] Instance Variant_eq_dec : EqDecision Variant.
Proof. solve_decision. Defined.
#[export] Instance Variant_decl : EventEnumDecl Variant := {|
  event_types := [("m.receipt", Receipt); ("m.typing", Typing)]
|}.
Definition content (v : Variant) : codec :=
  match v with Receipt => ReceiptEventContent | Typing => TypingEventContent end.
End EphemeralRoom.
Export (hints) EphemeralRoom.

Module ToDevice.
Inductive Variant :=
  | Dummy | RoomKey | RoomKeyRequest | ForwardedRoomKey | KeyVerificationRequest
  | KeyVerificationStart | KeyVerificationCancel | KeyVerificationAccept | KeyVerificationKey
  | KeyVerificationMac | RoomEncrypted.
#[export] Instance Variant_eq_dec : EqDecision Variant.
Proof. solve_decision. Defined.
#[export] Instance Variant_decl : EventEnumDecl Variant := {|
  event_types :=
    [("m.dummy", Dummy); ("m.room_key", RoomKey); ("m.room_key_request", RoomKeyRequest);
     ("m.forwarded_room_key", ForwardedRoomKey);
     ("m.key.verification.request", KeyVerificationRequest);
     ("m.key.verification.start", KeyVerificationStart);
     ("m.key.verification.cancel", KeyVerificationCancel);
     ("m.key.verification.accept", KeyVerificationAccept);
     ("m.key.verification.key", KeyVerificationKey);
     ("m.key.verification.mac", KeyVerificationMac); ("m.room.encrypted", RoomEncrypted)]
|}.
Definition content (v : Variant) : codec :=
  match v with
  | Dummy => ToDeviceDummyEventContent
  | RoomKey => ToDeviceRoomKeyEventContent
  | RoomKeyRequest => ToDeviceRoomKeyRequestEventContent
  | ForwardedRoomKey => ToDeviceForwardedRoomKeyEventContent
  | KeyVerificationRequest => ToDeviceKeyVerificationRequestEventContent
  | KeyVerificationStart => ToDeviceKeyVerificationStartEventContent
  | KeyVerificationCancel => ToDeviceKeyVerificationCancelEventContent
  | KeyVerificationAccept => ToDeviceKeyVerificationAcceptEventContent
  | KeyVerificationKey => ToDeviceKeyVerificationKeyEventContent
  | KeyVerificationMac => ToDeviceKeyVerificationMacEventContent
  | RoomEncrypted => Encrypted.ToDeviceRoomEncryptedEventContent
  end.
End ToDevice.
Export (hints) ToDevice.

(** ** presence.rs: the one event whose content type is fixed *)

#[export] Instance Presence_content : EventContent (ctype PresenceEventContent) := {|
  event_type _ := "m.presence";
  ser_content := enc PresenceEventContent;
  from_parts := from_parts_as "m.presence" (dec PresenceEventContent)
|}.
Definition de_PresenceEvent : decoder (Event PresenceEvent (ctype PresenceEventContent) Unsigned) :=
  de_event (read_concrete (dec PresenceEventContent)) (λ _, dec PresenceEventContent) PresenceEvent.

(** ** Theorems *)

Section kinds.
Context `{Unicode} `{RawContent} `{JsInt} `{IndexSets}.

(** Every valid event of the kind is read back, and its content is what the content enum reads. *)
Definition kind_reads {V} `{EventEnumDecl V} (contents : V → PlainContent)
    (wf : ∀ v, plain (contents v) → Prop) (s : EventStruct) : Prop :=
  ∀ e : AnyPlainEvent contents s, plain_event_valid contents wf e →
    de_AnyPlainEvent contents s (ser_AnyPlainEvent contents e) = Ok e ∧
    ∃ j, json_get "content" (ser_AnyPlainEvent contents e) = Some j ∧
      AnyEventContent_from_parts contents (AnyPlainEvent_event_type contents e) j =
        Ok (AnyPlainEvent_content contents e).

Lemma kind_reads_intro {V} `{EventEnumDecl V} contents wf s :
  TypedContents (V:=V) contents → ReadContents contents wf → kind_reads contents wf s.
Proof.
  intros Ht Hr e He. split; [by eapply AnyPlainEvent_reads|].
  by eapply AnyPlainEvent_content_reads.
Qed.

Definition message_plain (v : MessageVariant) : PlainContent := plain_of (message_contents v).
Definition state_plain (v : StateVariant) : PlainContent := plain_of (state_contents v).

Lemma message_plain_typed : TypedContents message_plain.
Proof. intros v. by exists (variant_type v); destruct v. Qed.
Lemma state_plain_typed : TypedContents state_plain.
Proof. intros v. by exists (variant_type v); destruct v. Qed.

#[local] Instance global_lawful v : Lawful (GlobalAccountData.content v).
Proof. destruct v; apply _. Qed.
#[local] Instance room_account_lawful v : Lawful (RoomAccountData.content v).
Proof. destruct v; apply _. Qed.
#[local] Instance ephemeral_lawful v : Lawful (EphemeralRoom.content v).
Proof. destruct v; apply _. Qed.
#[local] Instance to_device_lawful v : Lawful (ToDevice.content v).
Proof. destruct v; apply _. Qed.

Lemma kind_codec_reads {V} `{EventEnumDecl V, EqDecision V} (c : V → codec) s :
  (∀ v, Lawful (c v)) → (∀ v : V, assoc (variant_type v) event_types = Some v) →
  kind_reads (kind_contents c) (kind_wf c) s.
Proof.
  intros Hc Hv. apply kind_reads_intro; [by apply kind_contents_typed|by apply kind_contents_read].
Qed.

(** C23: Every valid event of account data, of ephemeral events in either form and of to-device
    events, and every valid state event in full, sync, stripped or initial form, is read back
    from its JSON; and the content enum of its kind makes of its type and its content what the
    accessor of the event gives. *)
Theorem other_events_read :
  kind_reads (kind_contents GlobalAccountData.content) (kind_wf GlobalAccountData.content)
    GlobalAccountDataEvent ∧
  kind_reads (kind_contents RoomAccountData.content) (kind_wf RoomAccountData.content)
    RoomAccountDataEvent ∧
  (∀ s, s ∈ [EphemeralRoomEvent; SyncEphemeralRoomEvent] →
     kind_reads (kind_contents EphemeralRoom.content) (kind_wf EphemeralRoom.content) s) ∧
  kind_reads (kind_contents ToDevice.content) (kind_wf ToDevice.content) ToDeviceEvent ∧
  (∀ s, s ∈ [StateEvent; SyncStateEvent; StrippedStateEvent; InitialStateEvent] →
     kind_reads state_plain state_wf s).
Proof.
  split; [apply kind_codec_reads; [apply _|by intros []]|].
  split; [apply kind_codec_reads; [apply _|by intros []]|].
  split; [intros s _; apply kind_codec_reads; [apply _|by intros []]|].
  split; [apply kind_codec_reads; [apply _|by intros []]|].
  intros s _. apply kind_reads_intro; [apply state_plain_typed|exact state_reads].
Qed.

(** A sync event becomes a full one and back. *)
Lemma AnyPlainEvent_full_sync {V} `{EventEnumDecl V} (contents : V → PlainContent) {s}
    (Hs : has s F_room_id = false) (e : AnyPlainEvent contents s) id :
  from_full_AnyPlainEvent contents Hs (into_full_AnyPlainEvent contents e id) = e.
Proof. destruct e as [v e|e]; simpl; f_equal; apply (full_sync_inverse Hs e). Qed.

(** Presence is read back, whatever its type is said to be. *)
Lemma presence_round_trip (e : Event PresenceEvent (ctype PresenceEventContent) Unsigned) :
  wf_event e → cwf PresenceEventContent (content e) → de_PresenceEvent (ser_Event e) = Ok e.
Proof.
  intros Hwf Hc. apply de_serialize_event; [|done| |].
  - intros c. right. by eexists.
  - exact (dec_enc (c:=PresenceEventContent) _ Hc).
  - intros c. by rewrite (cond_get_false _ _ (prev_content e) eq_refl).
Qed.

(** ** What is not read *)

Lemma for_each_each {E A B} (f : A → B → outcome E A) l acc r x :
  for_each f acc l = Ok r → x ∈ l → ∃ a b, f a x = Ok b.
Proof.
  intros Hr Hx. revert acc Hr. induction Hx as [x l|x y l Hx IH]; intros acc; simpl.
  - destruct (f acc x) as [b| |] eqn:Hb; [by exists acc, b|done..].
  - destruct (f acc y) as [b| |]; [apply IH|done..].
Qed.

(** A user that is ignored with any attribute makes the whole list unreadable, although lists
    are maps so that attributes can be added. *)
Theorem ignored_user_attributes_unreadable entries id attributes :
  (id, JObject attributes) ∈ entries → attributes ≠ [] →
  ∀ l, dec (c_vec_as_map UserId_parse) (JObject entries) ≠ Ok l.
Proof.
  intros Hin Hne l. cbn [dec c_vec_as_map c_id_map]. unfold de_map.
  destruct (for_each _ _ entries) as [m| |] eqn:Hm; try done.
  destruct (for_each_each _ _ _ _ _ Hm Hin) as (a & b & Hab). simpl in Hab.
  destruct (map_err _ _); try done. by destruct attributes.
Qed.

(** The method of a verification is not looked at: whatever it says, an event with the fields
    of a SAS verification is read as one, and written as one. *)
Theorem verification_method_ignored method :
  (∀ v, fields_wf StartSasV1Content_fields v →
     dec StartMethod (JObject (("method", JString method) :: write_fields StartSasV1Content_fields v)) =
       Ok (inl v) ∧
     json_get "method" (enc StartMethod (inl v)) = Some (JString "m.sas.v1")) ∧
  (∀ v, fields_wf AcceptSasV1Content_fields v →
     dec AcceptMethod (JObject (("method", JString method) :: write_fields AcceptSasV1Content_fields v)) =
       Ok (inl v) ∧
     json_get "method" (enc AcceptMethod (inl v)) = Some (JString "m.sas.v1")).
Proof.
  assert (∀ fs v c, LawfulFields fs → DistinctKeys fs → FreshKey "method" fs → fields_wf fs v →
    dec (c_untagged_apart (tagged "method" "m.sas.v1" fs) c)
      (JObject (("method", JString method) :: write_fields fs v)) = Ok (inl v)) as Hm.
  { intros fs v c Hfs Hd Hf Hv. pose proof (lawful_tagged "method" method fs Hfs Hd Hf v Hv) as Hr.
    cbn [dec c_untagged_apart c_untagged]. unfold or_else.
    change (dec (tagged "method" method fs)) with (dec (tagged "method" "m.sas.v1" fs)) in Hr.
    cbn [enc tagged] in Hr. by rewrite Hr. }
  split; intros v Hv; (split; [by apply (Hm _ v); try apply _|done]).
Qed.
End kinds.

(** ** Instances *)

Definition some_methods : fields_type StartSasV1Content_fields :=
  ([KeyAgreementProtocol.Curve25519], ([HashAlgorithm.Sha256],
   ([MessageAuthenticationCode.HkdfHmacSha256], ([ShortAuthenticationString.Emoji], ())))).

Lemma some_methods_wf : fields_wf StartSasV1Content_fields some_methods.
Proof. do 4 (split; [by repeat constructor|]). exact I. Qed.

Lemma verification_method_ignored_witness :
  dec StartMethod (JObject (("method", JString "m.other") ::
    write_fields StartSasV1Content_fields some_methods)) = Ok (inl some_methods).
Proof. apply (proj1 (verification_method_ignored "m.other")). exact some_methods_wf. Defined.

Lemma ignored_user_attributes_unreadable_witness :
  ∀ l, dec (c_vec_as_map UserId_parse)
    (JObject [("@a:example.org", JObject []);
              ("@b:example.org", JObject [("reason", JString "spam")])]) ≠ Ok l.
Proof.
  apply (ignored_user_attributes_unreadable _ "@b:example.org" [("reason", JString "spam")]).
  - do 2 constructor.
  - discriminate.
Defined.

(** A to-device event, with a custom method and what comes with it *)
Definition a_start : ctype ToDeviceKeyVerificationStartEventContent :=
  ("DEVICE", ("txn", ()), inr ("m.other", (), {[ "secret" := JString "c2VjcmV0" ]})).
Definition a_to_device_event : AnyPlainEvent (kind_contents ToDevice.content) ToDeviceEvent :=
  KnownEvent (kind_contents ToDevice.content) ToDeviceEvent ToDevice.KeyVerificationStart
    (Build_Event ToDeviceEvent (ctype ToDeviceKeyVerificationStartEventContent) Unsigned
       a_start () () "@alice:example.org" () () () () ()).

Example a_start_json :
  ser_AnyPlainEvent (kind_contents ToDevice.content) a_to_device_event =
  JObject [("type", JString "m.key.verification.start");
           ("content", JObject [("from_device", JString "DEVICE"); ("transaction_id", JString "txn");
                                ("method", JString "m.other"); ("secret", JString "c2VjcmV0")]);
           ("sender", JString "@alice:example.org")].
Proof. vm_compute. reflexivity. Qed.

#[local] Existing Instances ascii_unicode decimal_js_int list_sets.
#[local] Instance raw_any : RawContent := de_raw.

Lemma a_start_wf : cwf ToDeviceKeyVerificationStartEventContent a_start.
Proof.
  split; [by repeat constructor|]. split.
  - split; [|by eexists]. split; [by repeat constructor|]. split.
    + apply (map_Forall_singleton (λ _, is_value)). reflexivity.
    + eexists. split; [reflexivity|]. split; [apply list.NoDup_singleton|].
      apply list.Forall_forall. decide_it.
  - eexists. split; [reflexivity|]. split; [decide_it|]. apply list.Forall_forall. decide_it.
Qed.

Lemma other_events_read_witness :
  de_AnyPlainEvent (kind_contents ToDevice.content) ToDeviceEvent
    (ser_AnyPlainEvent (kind_contents ToDevice.content) a_to_device_event) = Ok a_to_device_event.
Proof.
  destruct other_events_read as (_ & _ & _ & Ht & _). apply Ht.
  split; [wf_fields|]. split; [exact a_start_wf|]. by intros p.
Defined.
