(* ===== verification/HttpClient.v ===== *)
(** * The client

    [ruma-client/src]: a client keeps the URL of its homeserver and an access token, makes HTTP
    requests of requests of any endpoint, and logs in, registers and syncs with them. The HTTP
    client below it, with the network and the server behind, is a parameter with a state of its
    own. A call takes effect at two moments: when it starts it reads the token, and when its
    response is there it may store another; calls that are under way at the same time are the
    steps of [client_step]. *)

From S2P Require Import Prelude RustStr RustNet IdValidation StringEnum Identifiers Json.
From S2P Require Import EventTypes CanonicalJson MemberCount PushRules PushRulesSpec Serde.
From S2P Require Import PushSerde UrlEncoded UrlEncodedSpec ClientErrors Uiaa UiaaSpec Codecs.
From S2P Require Import Http Api ApiPaths ApiQuery ApiSpec ApiTypes ClientTypes ClientAccount.
From S2P Require Import ClientRooms ClientLogin ClientSync ClientSession ApiPlatform.
From Stdlib Require Import Ascii NArith.
Open Scope string_scope.
Open Scope nat_scope.
Open Scope list_scope.
Import (hints) ClientSync.sync_events ClientSession.login ClientAccount.register.

(** ** http_client.rs *)

Class HttpClient := {
  http_error : Type;
  network : Type;
  send_http_request : HttpRequest → network → outcome http_error HttpResponse * network
}.

(** ** error.rs *)

Module Error.
Inductive Error (E F : Type) :=
  | AuthenticationRequired
  | IntoHttp (e : IntoHttpError)
  | Url
  | Response (e : E)
  | FromHttpResponse (e : FromHttpResponseError F).
Arguments AuthenticationRequired {E F}.
Arguments IntoHttp {E F} e.
Arguments Url {E F}.
Arguments Response {E F} e.
Arguments FromHttpResponse {E F} e.
End Error.

(** ** lib.rs *)

Record Client := { homeserver_url : string; access_token : option string }.

Definition with_http_client (homeserver_url : string) (access_token : option string) : Client :=
  {| homeserver_url := homeserver_url; access_token := access_token |}.

Definition set_access_token (self : Client) (token : option string) : Client :=
  {| homeserver_url := homeserver_url self; access_token := token |}.

Definition send_access_token (access_token : option string) : SendAccessToken :=
  match access_token with Some at_ => IfRequired at_ | None => NoToken end.

Section client.
Context `{FormUrlencoded} `{PercentEncoding} `{JsonText} `{HttpCrate} `{HttpClient}.

Definition ResponseError (e : endpoint) : Type := Error.Error http_error (error_type (ep_error e)).
Definition ResponseResult (e : endpoint) : Type := outcome (ResponseError e) (Response e).

(** [send_customized_request]: what is done at once, and the future *)
Definition prepare {e} (homeserver_url : string) (send_access_token : SendAccessToken)
    (request : Request e) (customize : HttpRequest → outcome (ResponseError e) HttpRequest) :
    outcome (ResponseError e) HttpRequest :=
  req ← map_err Error.IntoHttp (try_into_http_request request homeserver_url send_access_token);
  customize req.

Definition deliver {e} (http_req : outcome (ResponseError e) HttpRequest) (n : network) :
    ResponseResult e * network :=
  match http_req with
  | Ok req =>
      let '(http_res, n) := send_http_request req n in
      (http_res ← map_err Error.Response http_res;
       map_err Error.FromHttpResponse (try_from_http_response e http_res), n)
  | Err err => (Err err, n)
  | Panic => (Panic, n)
  end.

Definition send_customized_request {e} (homeserver_url : string)
    (send_access_token : SendAccessToken) (request : Request e)
    (customize : HttpRequest → outcome (ResponseError e) HttpRequest) (n : network) :
    ResponseResult e * network :=
  deliver (prepare homeserver_url send_access_token request customize) n.

Definition add_user_id_to_query {E F} (user_id : string) (http_request : HttpRequest) :
    outcome (Error.Error E F) HttpRequest :=
  extra_params ← match to_string (STuple [STuple [SStr "user_id"; SStr user_id]]) with
                 | Ok s => Ok s
                 | _ => Panic
                 end;
  let uri := rq_uri http_request in
  let new_path_and_query :=
    match uri_query uri with
    | Some params => uri_path uri +:+ "?" +:+ params +:+ "&" +:+ extra_params
    | None => uri_path uri +:+ "?" +:+ extra_params
    end in
  pq ← ok_or Error.Url (path_and_query_parse new_path_and_query);
  uri ← ok_or Error.Url
    (uri_from_parts {| uri_origin := uri_origin uri; uri_path_and_query := Some pq |});
  Ok {| rq_method := rq_method http_request;
        rq_uri := uri;
        rq_headers := rq_headers http_request;
        rq_body := rq_body http_request |}.

(** The methods of [Client], and those of [HttpClientExt] with their own URL and token *)
Definition Client_send_customized_request (self : Client) {e} (request : Request e)
    (customize : HttpRequest → outcome (ResponseError e) HttpRequest) (n : network) :
    ResponseResult e * network :=
  send_customized_request (homeserver_url self) (send_access_token (access_token self))
    request customize n.

Definition send_request (self : Client) {e} (request : Request e) (n : network) :
    ResponseResult e * network :=
  Client_send_customized_request self request Ok n.

Definition send_request_as (self : Client) (user_id : string) {e} (request : Request e)
    (n : network) : ResponseResult e * network :=
  Client_send_customized_request self request (add_user_id_to_query user_id) n.

Definition send_matrix_request {e} (homeserver_url : string) (access_token : SendAccessToken)
    (request : Request e) (n : network) : ResponseResult e * network :=
  send_customized_request homeserver_url access_token request Ok n.
Definition send_matrix_request_as {e} (homeserver_url : string) (access_token : SendAccessToken)
    (user_id : string) (request : Request e) (n : network) : ResponseResult e * network :=
  send_customized_request homeserver_url access_token request (add_user_id_to_query user_id) n.

(** ** client_api.rs *)

(** A request whose response has the token to keep *)
Definition with_token (self : Client) {e} (request : Request e)
    (token : Response e → option string) (n : network) : ResponseResult e * Client * network :=
  let '(response, n) := send_request self request n in
  (response,
   match response with Ok response => set_access_token self (token response) | _ => self end,
   n).

Definition login_request (user password : string) (device_id : option string)
    (initial_device_display_name : option string) : Request login.api :=
  Build_Request login.api tt tt tt
    (LoginInfo.Password (MatrixId user, (password, tt)),
      (device_id, (initial_device_display_name, tt))).
Definition login_access_token (response : Response login.api) : option string :=
  let '(_, (access_token, _)) := r_body response in Some access_token.

Definition log_in (self : Client) (user password : string) (device_id : option string)
    (initial_device_display_name : option string) (n : network) :
    ResponseResult login.api * Client * network :=
  with_token self (login_request user password device_id initial_device_display_name)
    login_access_token n.

Section register.
Context `{Unicode}.

Definition register_request (username password : option string)
    (kind : register.RegistrationKind.RegistrationKind) : Request register.api :=
  Build_Request register.api tt (kind, tt) tt
    (password, (username, (None, (None, (None, (false, (None, tt))))))).
Definition register_access_token (response : Response register.api) : option string :=
  let '(access_token, _) := r_body response in access_token.

Definition register_guest (self : Client) (n : network) :
    ResponseResult register.api * Client * network :=
  with_token self (register_request None None register.RegistrationKind.Guest)
    register_access_token n.
Definition register_user (self : Client) (username : option string) (password : string)
    (n : network) : ResponseResult register.api * Client * network :=
  with_token self (register_request username (Some password) register.RegistrationKind.User)
    register_access_token n.
End register.

Definition sync_request (filter : option sync_events.Filter) (since : string)
    (set_presence : PresenceState.PresenceState) (timeout : option Z) : Request sync_events.api :=
  Build_Request sync_events.api tt (filter, (Some since, (false, (set_presence, (timeout, tt))))) tt tt.
Definition next_batch (response : Response sync_events.api) : string := (r_body response).1.

(** [try_stream!]: what comes out when the stream is polled [polls] times; an error is its last
    item. *)
Fixpoint sync (self : Client) (filter : option sync_events.Filter) (since : string)
    (set_presence : PresenceState.PresenceState) (timeout : option Z) (polls : nat) (n : network) :
    list (ResponseResult sync_events.api) * network :=
  match polls with
  | O => ([], n)
  | S polls =>
      let '(response, n) := send_request self (sync_request filter since set_presence timeout) n in
      match response with
      | Ok response =>
          let '(items, n) :=
            sync self filter (next_batch response) set_presence timeout polls n in
          (Ok response :: items, n)
      | _ => ([response], n)
      end
  end.

(** ** Calls under way

    A [Client] is shared by clones of one pointer, so that calls can overlap: each of them reads
    the token when it starts, and one that keeps a token takes the lock when it ends. *)

Record call := {
  c_endpoint : endpoint;
  c_request : Request c_endpoint;
  c_customize : HttpRequest → outcome (ResponseError c_endpoint) HttpRequest;
  c_store : option (Response c_endpoint → option string)
}.

Record pending := { p_call : call; p_http : outcome (ResponseError (c_endpoint p_call)) HttpRequest }.

Definition start (url : string) (token : option string) (c : call) : pending :=
  {| p_call := c; p_http := prepare url (send_access_token token) (c_request c) (c_customize c) |}.

(** The token after a response *)
Definition stored (c : call) (response : ResponseResult (c_endpoint c)) (token : option string) :
    option string :=
  match c_store c, response with Some f, Ok response => f response | _, _ => token end.

(** The calls that ended, each with its response *)
Definition ended : Type := {c : call & ResponseResult (c_endpoint c)}.

Record world := {
  w_client : Client;
  w_network : network;
  w_pending : list pending;
  w_ended : list ended
}.

Inductive client_step : world → world → Prop :=
  | step_start w c :
      client_step w {|
        w_client := w_client w;
        w_network := w_network w;
        w_pending :=
          start (homeserver_url (w_client w)) (access_token (w_client w)) c :: w_pending w;
        w_ended := w_ended w |}
  | step_end w before p after response n :
      w_pending w = before ++ p :: after →
      deliver (p_http p) (w_network w) = (response, n) →
      client_step w {|
        w_client := set_access_token (w_client w)
          (stored (p_call p) response (access_token (w_client w)));
        w_network := n;
        w_pending := before ++ after;
        w_ended := existT (p_call p) response :: w_ended w |}
  | step_elsewhere w n :
      client_step w {| w_client := w_client w; w_network := n; w_pending := w_pending w;
                       w_ended := w_ended w |}.

Definition initial (self : Client) (n : network) : world :=
  {| w_client := self; w_network := n; w_pending := []; w_ended := [] |}.

(** A token that a client was made with, or that a response gave it *)
Definition obtained (self : Client) (past : list ended) (token : option string) : Prop :=
  token = access_token self ∨
  ∃ c f response, (existT c (Ok response) : ended) ∈ past ∧ c_store c = Some f ∧ f response = token.

(** The token that the calls that ended leave, the last one first *)
Fixpoint last_token (self : Client) (past : list ended) : option string :=
  match past with
  | [] => access_token self
  | existT c response :: past => stored c response (last_token self past)
  end.

Lemma obtained_more self past x token : obtained self past token → obtained self (x :: past) token.
Proof.
  intros [?|(c & f & r & Hin & Hf)]; [by left|]. right. exists c, f, r. split; [by right|done].
Qed.

Lemma last_token_obtained self past : obtained self past (last_token self past).
Proof.
  induction past as [|[c response] past IH]; [by left|]. simpl. unfold stored.
  destruct (c_store c) as [f|] eqn:Hf; [|by apply obtained_more].
  destruct response as [response| |]; [|by apply obtained_more..].
  right. exists c, f, response. split; [by left|done].
Qed.

(** C34: However calls overlap, the client holds the token of the session call that ended well last,
    or the one it was made with; and the request of every call under way was made for the
    homeserver of the client, with a token that the client was made with or that a response had
    given it before. *)
Theorem session_invariant self n w :
  rtc client_step (initial self n) w →
  homeserver_url (w_client w) = homeserver_url self ∧
  access_token (w_client w) = last_token self (w_ended w) ∧
  Forall (λ p, ∃ token, obtained self (w_ended w) token ∧
    p = start (homeserver_url self) token (p_call p)) (w_pending w).
Proof.
  revert w. apply rtc_ind_r; [done|]. intros w w' _ Hstep (Hurl & Htok & Hp).
  destruct Hstep as [w c|w before p after response n' Hw Hd|w n']; cbn; [| |done].
  - split_and!; [done..|]. constructor; [|done].
    exists (access_token (w_client w)). split; [|by rewrite Hurl].
    rewrite Htok. apply last_token_obtained.
  - split_and!; [done|by rewrite Htok|]. rewrite Hw in Hp.
    apply list.Forall_app in Hp as [Hb [_ Ha]%list.Forall_cons].
    apply list.Forall_app. split; (eapply list.Forall_impl; [eassumption|]);
      intros q (token & Ho & Hq); exists token; (split; [by apply obtained_more|done]).
Qed.

(** A call that runs alone is its two steps. *)
Lemma with_token_steps self {e} (request : Request e) token n :
  let c := {| c_endpoint := e; c_request := request; c_customize := Ok; c_store := Some token |} in
  let '(response, self', n') := with_token self request token n in
  rtc client_step (initial self n)
    {| w_client := self'; w_network := n'; w_pending := [];
       w_ended := [existT c response] |}.
Proof.
  intros c. destruct (with_token self request token n) as [[response self'] n'] eqn:Hrun.
  unfold with_token, send_request, Client_send_customized_request, send_customized_request in Hrun.
  destruct (deliver _ _) as [res n1] eqn:Hd. injection Hrun as -> <- ->.
  eapply rtc_l; [apply (step_start _ c)|]. eapply rtc_l; [|apply rtc_refl].
  assert (match response with
          | Ok response => set_access_token self (token response)
          | _ => self
          end = set_access_token self (stored c response (access_token self))) as ->.
  { destruct self as [url tok], response; done. }
  exact (step_end {| w_client := self; w_network := n;
                     w_pending := [start (homeserver_url self) (access_token self) c];
                     w_ended := [] |} []
           (start (homeserver_url self) (access_token self) c) [] response n' eq_refl Hd).
Qed.

(** ** With a server *)

(** A server that answers the requests of an endpoint with a handler of its own state: what it
    reads of a request, with the code generated for it, it hands to the handler. *)
Definition serves (e : endpoint) (handler : Request e → network → Response e * network) : Prop :=
  ∀ http_req request n, try_from_http_request e http_req = Ok request →
    let '(response, n') := handler request n in
    ∃ http_res, try_into_http_response response = Ok http_res ∧
      send_http_request http_req n = (Ok http_res, n').

Context `{!FormBytes}.

Lemma send_request_served self e (request : Request e) `{!LawfulEndpoint e} handler origin n :
  serves e handler → request_wf request → base_url_of origin (homeserver_url self) →
  token_ok (authentication (ep_metadata e)) (send_access_token (access_token self)) →
  response_wf (handler request n).1 →
  send_request self request n = (Ok (handler request n).1, (handler request n).2).
Proof.
  intros Hserves Hwf Hbase Htok Hres.
  destruct (request_round_trips request origin _ _ Hwf Hbase Htok) as (http_req & Hinto & Hfrom).
  pose proof (Hserves http_req request n Hfrom) as Hs.
  destruct (handler request n) as [response n'] eqn:Hh. destruct Hs as (http_res & Hr & Hsend).
  destruct (response_round_trips response Hres) as (http_res' & Hr' & Hback).
  rewrite Hr in Hr'. injection Hr' as <-.
  unfold send_request, Client_send_customized_request, send_customized_request, prepare.
  rewrite Hinto. cbn [map_err mbind outcome_bind deliver]. rewrite Hsend.
  cbn [map_err mbind outcome_bind]. by rewrite Hback.
Qed.

(** Without a token, a call to an endpoint that takes one ends before anything is sent; the error
    is that of the conversion. *)
Lemma anonymous_call self e (request : Request e) `{!LawfulEndpoint e} origin n :
  request_wf request → base_url_of origin (homeserver_url self) →
  authentication (ep_metadata e) = AccessToken → access_token self = None →
  send_request self request n = (Err (Error.IntoHttp NeedsAuthentication), n).
Proof.
  intros Hwf Hbase Hauth Hnone.
  unfold send_request, Client_send_customized_request, send_customized_request, prepare.
  rewrite Hnone. cbn [send_access_token].
  by rewrite (unauthenticated_request request origin).
Qed.

(** [AuthenticationRequired] is never what a call ends with. *)
Lemma never_authentication_required self e (request : Request e) n :
  (send_request self request n).1 ≠ Err Error.AuthenticationRequired.
Proof.
  unfold send_request, Client_send_customized_request, send_customized_request, prepare.
  destruct (try_into_http_request _ _ _) as [req| |]; cbn; [|done..].
  destruct (send_http_request req n) as [[res| |] n']; cbn; [|done..].
  by destruct (try_from_http_response e res).
Qed.

(** The code that adds the user's ID is there twice: this one makes of a request what that of
    ruma-api ([try_into_http_request_with_user_id]) does. *)
Lemma user_id_added_alike {e} (request : Request e) url token user_id sent pq http_request :
  try_into_http_request request url token = Ok sent →
  uri_path_and_query (rq_uri sent) = Some pq →
  try_into_http_request_with_user_id request url token user_id = Ok http_request ↔
  add_user_id_to_query (E:=http_error) (F:=error_type (ep_error e)) user_id sent = Ok http_request.
Proof.
  intros Hsent Hpq. unfold try_into_http_request_with_user_id, add_user_id_to_query.
  rewrite Hsent. cbn [mbind outcome_bind]. unfold uri_query, uri_path. rewrite Hpq.
  destruct (to_string _) as [s| |]; cbn [map_err mbind outcome_bind]; [|done..].
  destruct pq as [path [query|]]; cbn [snd path_and_query_to_string]; rewrite ?str_app_assoc;
    (destruct (path_and_query_parse _) as [pq|]; cbn [ok_or mbind outcome_bind]; [|done]);
    (destruct (uri_from_parts _) as [uri|]; cbn [ok_or mbind outcome_bind]; [|done]);
    split; intros [= <-]; reflexivity.
Qed.

(** C35: With a server that answers log-ins, logging in gives the server's answer and leaves the
    client with the token of that answer, and from then on this token goes with every request
    of an endpoint that takes one. *)
Theorem log_in_authenticates self user password device_id initial_device_display_name n handler
    origin token :
  let request := login_request user password device_id initial_device_display_name in
  let '(response, n') := handler request n in
  serves login.api handler → request_wf request → base_url_of origin (homeserver_url self) →
  response_wf response → login_access_token response = Some token →
  bytes_all visible_byte ("Bearer " +:+ token) = true →
  ∃ self', log_in self user password device_id initial_device_display_name n =
      (Ok response, self', n') ∧
    access_token self' = Some token ∧
    ∀ e (r : Request e), LawfulEndpoint e → authentication (ep_metadata e) = AccessToken →
      request_wf r →
      ∃ http_req, prepare (homeserver_url self') (send_access_token (access_token self')) r Ok =
          Ok http_req ∧
        header_get "AUTHORIZATION" (rq_headers http_req) = Some ("Bearer " +:+ token).
Proof.
  intros request. destruct (handler request n) as [response n'] eqn:Hh.
  intros Hserves Hwf Hbase Hres Htoken Hvisible.
  assert (send_request self request n = (Ok response, n')) as Hsend.
  { pose proof (send_request_served self login.api request handler origin n Hserves Hwf Hbase) as Hs.
    rewrite Hh in Hs. apply Hs; [|done]. by destruct (access_token self). }
  exists (set_access_token self (Some token)). unfold log_in, with_token.
  fold request. rewrite Hsend, Htoken. split_and!; [done..|].
  intros e r He Hauth Hr.
  destruct (request_sent r origin (homeserver_url self) (IfRequired token) Hr Hbase)
    as (query & m & Hinto & _ & _ & Hno & _).
  { rewrite Hauth. by exists token. }
  unfold prepare. cbn [access_token homeserver_url set_access_token send_access_token].
  rewrite Hinto. eexists. split; [reflexivity|]. cbn [rq_headers]. rewrite Hauth.
  cbn [sent_token get_required_for_endpoint]. by rewrite header_get_insert.
Qed.

(** ** The stream of syncs *)

Definition since_of (request : Request sync_events.api) : option string :=
  let '(_, (since, _)) := v_query request in since.

Lemma sync_request_wf filter since since' set_presence timeout :
  request_wf (sync_request filter since set_presence timeout) → valid_utf8 since' = true →
  request_wf (sync_request filter since' set_presence timeout).
Proof.
  intros (Hp & (Hf & _ & Hrest) & Hh & Hb) Hs. split_and!; [exact Hp| |exact Hh|exact Hb].
  split; [exact Hf|]. split; [|exact Hrest]. by intros a [= <-].
Qed.

Section log.
Context {E : Type} (log_of : network → list E) (pos : string → nat).
Context (payload : Response sync_events.api → list E).
Context (handler : Request sync_events.api → network → Response sync_events.api * network).

(** From position [a] of a log up to position [b] *)
Definition between (a b : nat) (log : list E) : list E := take (b - a) (drop a log).

(** What the protocol asks of a server: tokens stand for positions in the log of what a user is
    to see, which only grows; the answer to a sync has what is between [since] and [next_batch],
    and something if there is anything. *)
Definition keeps_log : Prop :=
  ∀ request n since, since_of request = Some since → pos since ≤ length (log_of n) →
    let '(response, n') := handler request n in
    response_wf response ∧ valid_utf8 (next_batch response) = true ∧
    log_of n `prefix_of` log_of n' ∧
    pos since ≤ pos (next_batch response) ≤ length (log_of n') ∧
    (pos since < length (log_of n) → pos since < pos (next_batch response)) ∧
    payload response = between (pos since) (pos (next_batch response)) (log_of n').

Lemma between_prefix a b l l' :
  l `prefix_of` l' → b ≤ length l → between a b l' = between a b l.
Proof.
  intros [k ->] Hb. unfold between. destruct (decide (a ≤ b)) as [Hab|Hab].
  - rewrite drop_app_le by lia. rewrite take_app_le; [done|]. rewrite length_drop. lia.
  - by replace (b - a) with 0 by lia.
Qed.

Lemma between_join a b c l : a ≤ b → b ≤ c → between a b l ++ between b c l = between a c l.
Proof.
  intros Hab Hbc. unfold between.
  replace (c - a) with ((b - a) + (c - b)) by lia.
  rewrite <- (take_drop (b - a) (take (b - a + (c - b)) (drop a l))).
  rewrite take_take, Nat.min_l by lia. f_equal.
  rewrite skipn_firstn_comm, drop_drop. by replace (a + (b - a)) with b by lia;
    replace (b - a + (c - b) - (b - a)) with (c - b) by lia.
Qed.

(** C33: With a server that keeps to that, a client with a token can poll its stream of syncs as
    often as it likes: what comes out in all is what is in the log from the first token on up to
    some position, each event once and in order, however the log grows meanwhile; and every
    event that was in the log when the stream began has come out after as many polls as there
    were events. *)
Theorem sync_delivers self filter since set_presence timeout polls n origin :
  serves sync_events.api handler → keeps_log →
  base_url_of origin (homeserver_url self) →
  token_ok AccessToken (send_access_token (access_token self)) →
  request_wf (sync_request filter since set_presence timeout) → pos since ≤ length (log_of n) →
  ∃ responses last n',
    sync self filter since set_presence timeout polls n = (Ok <$> responses, n') ∧
    length responses = polls ∧
    log_of n `prefix_of` log_of n' ∧ pos since ≤ last ≤ length (log_of n') ∧
    mjoin (payload <$> responses) = between (pos since) last (log_of n') ∧
    (length (log_of n) ≤ pos since + polls → length (log_of n) ≤ last).
Proof.
  intros Hserves Hlog Hbase Htok.
  enough (∀ k polls since n, request_wf (sync_request filter since set_presence timeout) →
    pos since ≤ length (log_of n) → k ≤ length (log_of n) →
    ∃ responses last n',
      sync self filter since set_presence timeout polls n = (Ok <$> responses, n') ∧
      length responses = polls ∧
      log_of n `prefix_of` log_of n' ∧ pos since ≤ last ≤ length (log_of n') ∧
      mjoin (payload <$> responses) = between (pos since) last (log_of n') ∧
      (k ≤ pos since + polls → k ≤ last)) as Hall.
  { intros Hwf Hpos. by apply (Hall (length (log_of n))). }
  clear since polls n. intros k polls. induction polls as [|polls IH]; intros since n Hwf Hpos Hk.
  - exists [], (pos since), n. split_and!; [done..|lia|done| |lia]. simpl. unfold between.
    by rewrite Nat.sub_diag.
  - pose proof (Hlog (sync_request filter since set_presence timeout) n since eq_refl Hpos) as Hans.
    pose proof (send_request_served self sync_events.api
      (sync_request filter since set_presence timeout) handler origin n Hserves Hwf Hbase Htok)
      as Hsend.
    destruct (handler _ n) as [response n1] eqn:Hh.
    destruct Hans as (Hres & Hutf & Hgrow & Hnext & Hmore & Hpay).
    specialize (Hsend Hres). cbn [fst snd] in Hsend.
    pose proof (prefix_length _ _ Hgrow) as Hlen.
    destruct (IH (next_batch response) n1) as (responses & last & n' & Hs & Hlr & Hpre & Hlast & Hj & Hfin).
    { by eapply sync_request_wf. }
    { lia. }
    { lia. }
    exists (response :: responses), last, n'. cbn [sync]. rewrite Hsend, Hs.
    split_and!; [done|simpl; by rewrite Hlr|by etrans|lia|lia| |lia].
    csimpl. rewrite Hpay, Hj.
    rewrite <- (between_prefix _ _ _ _ Hpre) by lia. by apply between_join; lia.
Qed.
End log.
End client.

(** ** Examples: a server with a log, and one that answers log-ins *)

Fixpoint token_at (position : nat) : string :=
  match position with O => "" | S n => String "s" (token_at n) end.

Lemma token_at_len n : str_len (token_at n) = n.
Proof. induction n as [|n IH]; [done|]. unfold str_len in *. simpl. by rewrite IH. Qed.

Lemma token_at_text n : valid_utf8 (token_at n) = true.
Proof. apply digits_utf8. by induction n as [|n IH]. Qed.

Definition sync_response (next_batch : string) (events : list string) : Response sync_events.api :=
  Build_Response sync_events.api tt
    (next_batch, (sync_events.Rooms_default, ((JString <$> events, tt),
      (sync_events.GlobalAccountData_default, (sync_events.ToDevice_default,
      (sync_events.DeviceLists_default, (∅, tt))))))).

(** One event at a time *)
Definition log_handler (request : Request sync_events.api) (log : list string) :
    Response sync_events.api * list string :=
  let position := str_len (default "" (since_of request)) in
  match log !! position with
  | Some event => (sync_response (token_at (S position)) [event], log)
  | None => (sync_response (token_at position) [], log)
  end.

Definition answer {e} (handler : Request e → list string → Response e * list string)
    (http_req : HttpRequest) (n : list string) : outcome () HttpResponse * list string :=
  match try_from_http_request e http_req with
  | Ok request =>
      let '(response, n') := handler request n in
      match try_into_http_response response with Ok res => (Ok res, n') | _ => (Err (), n) end
  | _ => (Err (), n)
  end.

Definition log_server : HttpClient := {|
  http_error := (); network := list string; send_http_request := answer log_handler |}.

Lemma sync_response_wf next events : response_wf (sync_response next events).
Proof.
  split; [done|]. split; [done|]. split; [by intros|]. split.
  - intros _. split; [|done]. intros _. apply list.Forall_fmap, list.Forall_forall. by intros.
  - split_and!; by intros.
Qed.

Lemma log_server_serves : @serves _ _ _ _ log_server sync_events.api log_handler.
Proof.
  intros http_req request n Hreq. cbn [send_http_request log_server]. unfold answer. rewrite Hreq.
  destruct (log_handler request n) as [response n'] eqn:Hh.
  assert (response_wf response) as Hwf.
  { unfold log_handler in Hh.
    destruct (_ !! _) in Hh; injection Hh as <- _; apply sync_response_wf. }
  destruct (response_round_trips response Hwf) as (http_res & Hres & _).
  exists http_res. by rewrite Hres.
Qed.

Definition sync_payload (response : Response sync_events.api) : list json :=
  let '(_, (_, ((events, _), _))) := r_body response in events.

Lemma log_server_keeps_log :
  @keeps_log _ log_server json (λ n, JString <$> n) str_len sync_payload log_handler.
Proof.
  intros request n since Hsince Hpos. unfold log_handler. rewrite Hsince.
  change (default "" (Some since)) with since. rewrite length_fmap in Hpos.
  change (network (HttpClient:=log_server)) with (list string) in n.
  destruct (n !! str_len since) as [event|] eqn:He.
  - pose proof (lookup_lt_Some _ _ _ He) as Hlt.
    cbv beta iota. unfold next_batch, sync_response. cbn [r_body fst].
    rewrite !token_at_len, !length_fmap.
    split_and!; [apply sync_response_wf|apply token_at_text|done|lia..|].
    unfold between. replace (S (str_len since) - str_len since) with 1 by lia.
    rewrite <- fmap_drop. rewrite (drop_S _ _ _ He). done.
  - pose proof (lookup_ge_None_1 _ _ He) as Hge.
    cbv beta iota. unfold next_batch, sync_response. cbn [r_body fst].
    rewrite !token_at_len, !length_fmap.
    split_and!; [apply sync_response_wf|apply token_at_text|done|lia..|].
    unfold between. by rewrite Nat.sub_diag.
Qed.

Definition a_client (access_token : option string) : Client :=
  with_http_client "https://matrix.org/" access_token.

Lemma a_client_base token : base_url_of example_origin (homeserver_url (a_client token)).
Proof. split; [done|by right]. Qed.

(** Three polls of a stream over a log of two events *)
Lemma sync_delivers_witness :
  ∃ responses last n',
    @sync _ _ _ _ log_server (a_client (Some "token")) None "" PresenceState.Online None 3
      ["hello"; "world"] = (Ok <$> responses, n') ∧
    length responses = 3 ∧
    JString <$> ["hello"; "world"] `prefix_of` JString <$> n' ∧
    str_len "" ≤ last ≤ length (JString <$> n') ∧
    mjoin (sync_payload <$> responses) = between (str_len "") last (JString <$> n') ∧
    (length (JString <$> ["hello"; "world"]) ≤ str_len "" + 3 →
     length (JString <$> ["hello"; "world"]) ≤ last).
Proof.
  apply (@sync_delivers _ _ _ _ log_server _ json (λ n, JString <$> n) str_len sync_payload
    log_handler (a_client (Some "token")) None "" PresenceState.Online None 3 ["hello"; "world"]
    example_origin).
  - exact log_server_serves.
  - exact log_server_keeps_log.
  - exact (a_client_base _).
  - exists "token". split; reflexivity.
  - split_and!; [done| |done|done].
    split; [by intros|]. split; [by intros a [= <-]|]. split; [done|].
    split; [|split; [by intros|done]]. split; split; reflexivity.
  - simpl. lia.
Defined.

Definition login_response (token : string) : Response login.api :=
  Build_Response login.api tt ("@user:matrix.org", (token, (None, ("DEVICE", (None, tt))))).
Definition login_handler (request : Request login.api) (n : list string) :
    Response login.api * list string := (login_response "secret", n).
Definition login_server : HttpClient := {|
  http_error := (); network := list string; send_http_request := answer login_handler |}.

Lemma login_response_wf token : response_wf (login_response token).
Proof. split; [done|]. split; [reflexivity|]. split; [done|]. split; [by intros|]. by split. Qed.

Lemma login_server_serves : @serves _ _ _ _ login_server login.api login_handler.
Proof.
  intros http_req request n Hreq. cbn [send_http_request login_server]. unfold answer. rewrite Hreq.
  destruct (response_round_trips _ (login_response_wf "secret")) as (http_res & Hres & _).
  exists http_res. cbn [login_handler]. by rewrite Hres.
Qed.

Lemma login_request_is_wf : request_wf (login_request "user" "password" None None).
Proof.
  split_and!; [done..|]. split; [|split; [by intros|split; [by intros|done]]].
  cbn. split; [|done]. done.
Qed.

Lemma log_in_authenticates_witness :
  ∃ self', @log_in _ _ _ _ login_server (a_client None) "user" "password" None None [] =
      (Ok (login_response "secret"), self', []) ∧
    access_token self' = Some "secret" ∧
    ∀ e (r : Request e), LawfulEndpoint e → authentication (ep_metadata e) = AccessToken →
      request_wf r →
      ∃ http_req, @prepare _ _ _ _ login_server _ (homeserver_url self')
          (send_access_token (access_token self')) r Ok = Ok http_req ∧
        header_get "AUTHORIZATION" (rq_headers http_req) = Some ("Bearer " +:+ "secret").
Proof.
  apply (@log_in_authenticates _ _ _ _ login_server _ (a_client None) "user" "password" None None []
    login_handler example_origin "secret").
  - exact login_server_serves.
  - exact login_request_is_wf.
  - exact (a_client_base _).
  - exact (login_response_wf "secret").
  - reflexivity.
  - reflexivity.
Defined.

(** A sync is begun while a log-in is under way: its request was made without a token, and stays
    so. *)
Section overlap.
#[local] Existing Instance login_server.

Definition no_log : network := @nil string.

Definition login_call : call := {|
  c_endpoint := login.api; c_request := login_request "user" "password" None None;
  c_customize := Ok; c_store := Some login_access_token |}.
Definition sync_call : call := {|
  c_endpoint := sync_events.api; c_request := sync_request None "" PresenceState.Online None;
  c_customize := Ok; c_store := None |}.

Definition overlap_end : world := {|
  w_client := a_client (Some "secret"); w_network := no_log;
  w_pending := [start "https://matrix.org/" None sync_call];
  w_ended := [existT login_call (Ok (login_response "secret"))] |}.

Lemma overlap_steps : rtc client_step (initial (a_client None) no_log) overlap_end.
Proof.
  eapply rtc_l; [apply (step_start _ login_call)|].
  eapply rtc_l; [apply (step_start _ sync_call)|].
  apply rtc_once.
  exact (step_end {| w_client := a_client None; w_network := no_log;
      w_pending := [start "https://matrix.org/" None sync_call;
                    start "https://matrix.org/" None login_call];
      w_ended := [] |}
    [start "https://matrix.org/" None sync_call] (start "https://matrix.org/" None login_call) []
    (Ok (login_response "secret")) no_log eq_refl
    (send_request_served (a_client None) login.api (login_request "user" "password" None None)
      login_handler example_origin no_log login_server_serves login_request_is_wf (a_client_base _)
      ltac:(by intros tok) (login_response_wf "secret"))).
Qed.

Lemma session_invariant_witness :
  homeserver_url (w_client overlap_end) = "https://matrix.org/" ∧
  access_token (w_client overlap_end) = Some "secret" ∧
  Forall (λ p, ∃ token, obtained (a_client None) (w_ended overlap_end) token ∧
    p = start "https://matrix.org/" token (p_call p)) (w_pending overlap_end).
Proof. apply (session_invariant (a_client None) no_log overlap_end). exact overlap_steps. Defined.
End overlap.
